(* ===== verification/_CoqProject ===== *)
-Q . S2P
Prelude.v
Globals.v
Bytes.v
Interfaces.v
Pci.v
IoApic.v
Memory.v
Virtio.v
VirtioInit.v
VirtioInput.v
Executor.v
GpuTypes.v
Gpu.v
GpuStart.v
LocalApic.v
Interrupts.v
Gdt.v
App.v
XmapData.v
Keymap.v
Console.v
Window.v
Framebuffer.v
GpuQueue.v
GpuRequest.v
Screen.v
Processor.v
Logger.v
Float32.v
Blur.v
ConsoleDraw.v
ConsoleFrame.v
Drawers.v
Abi.v
Runtime.v
Loading.v
Boot.v
Discovery.v
KernelMain.v
EndToEnd.v
