(* ===== verification/Prelude.v ===== *)
(** * Fomos: a verification library for the kernel and its applications

    Fomos is a small x86-64 kernel written in Rust. It boots through the
    [bootloader] crate, maps memory, finds its virtio devices on the PCI bus,
    drives them from cooperative tasks, and runs graphical applications as plain
    functions called once per frame with a context (framebuffer, input, their own
    store). This library is a shallow embedding of that program and the theorems
    that make it correct.

    ** How the parts fit together

    [kernel_main] ([KernelMain]) loads the descriptor tables ([Gdt]), starts the log
    ([Logger]), maps memory ([Memory], [Boot]), sets up the two interrupt
    controllers ([LocalApic], [IoApic], [Interrupts]), enumerates the PCI functions
    ([Pci]) and sets up every virtio function ([VirtioInit], [Discovery]); it then
    starts the task executor ([Executor]) with one task per device ([VirtioInput],
    [Gpu], [GpuStart]), which work through the queues ([Virtio]), and one task that
    loads the applications ([Loading]) and calls them ([App]). The GPU task has a
    ledger of descriptors for its requests ([GpuQueue]); a request goes through the
    queue, the device, the waker and the executor and comes back ([GpuRequest]);
    and what the applications draw gets to the screen through pages that kernel and
    device share ([Screen]). The input driver feeds the shared input record
    ([Globals]); the application task hands a snapshot of it to each application,
    across a boundary of C records ([Abi]) and callbacks ([Runtime]). The console is
    the application with a state of its own: a window ([Window]) over a blurred
    background ([Blur]), a history of text ([ConsoleDraw]), a keyboard ([Keymap],
    [XmapData]) and a script interpreter ([Console]), put together in one frame
    ([ConsoleFrame]). The others draw ([Drawers]). [EndToEnd] follows a key from the
    device to the console.

    ** Conventions of the model

    Integers are [Z] with their width written where it matters: [x +u[64] y] is
    the wrapping sum of a release build, [wrap], [swrap] and [fits] give the
    unsigned value, the signed value and the range. A panic ends the kernel, so
    fallible code is [res A], a value or the reason of the panic; stateful code
    is [M S A], state passing over [res]; vectors and arrays are lists with the
    checked accesses [index] and [update]. Memory reached through raw pointers is
    a map from addresses to bytes ([Bytes]). An [f32] is a floating-point number
    of the Standard Library's [SpecFloat] at 24 bits of precision, so the
    arithmetic of the drawing is computed and not approximated ([Float32]). What
    is not Rust source is an interface: a type class with operations and the documented laws that the code
    relies on ([Interfaces]: port input and output, memory-mapped registers,
    physical and virtual addresses; [Virtio]: the device; [Gdt]: the segment tables;
    [KernelMain]: the ACPI tables; [Console]: the script interpreter), or an argument of the definitions that use it (the page mapper,
    the ELF parser, the font, the machine code of an application, the futures of
    the executor, the heap, the vectors of the [vek] crate, the layout engine).
    Each such interface has a concrete instance, used by the
    witnesses.

    A loop that the code ends by its own condition takes fuel where the condition
    depends on the outside; its theorem says how much is enough: 256 steps for a
    capability list, which lies in 256 bytes ([VirtioInit], [KernelMain]), one per queued item ([VirtioInput],
    [Executor], [Gpu]), and for the polling of the interrupt command register any
    amount, the commands being issued in order whenever the loop ends
    ([LocalApic]). Nothing is assumed of a script, which is the only other fuel
    ([Console], [ConsoleFrame]). The sides of a screen are bounded by [2^31] where
    an index is computed from them, and by multiples of 4 where the console's
    background needs it; the theorems of [Window] say what happens otherwise.

    ** The files

    - [Prelude] (this file): [res], [M], machine integers, checked lists, loops
      and their invariants, and the tactics and hints the others use.
    - [Globals]: [globals.rs]. [KeyState], [Input], [GLOBAL]. A key is pressed
      exactly when its last edge was a press; the six states mean what their
      comments say while a frame has at most two edges of a key; the event ring
      holds the last 64 events.
    - [Bytes]: little-endian loads and stores, and what a store leaves alone.
    - [Interfaces]: [X86Addr] (address constructors that panic), [PciPorts],
      [Mmio] and [IoApicRegs].
    - [Pci]: [pci.rs]. Reads of 8, 16 and 32 bits are the bytes of configuration
      space; writes rewrite the whole word; [get_bar] recovers the address; the
      enumeration finds every function once, and only those.
    - [IoApic]: [ioapic.rs] and the routing loop of [main.rs]. The lines get the
      vectors from 50 on, unmasked; no other register changes. The read-only and
      reserved bits of the registers are those of the data sheet.
    - [Memory]: [memory.rs], [allocator.rs] and the mapping helpers of [main.rs].
      Frames come out in the order of the usable regions, none twice; a
      contiguous identity mapping is one or the kernel panics; every page of the
      heap is mapped to a frame of the allocator.
    - [Virtio]: [virtio.rs], queues. [set_available], [add_request] and
      [next_used] refine first-in first-out queues, with every intermediate
      memory in view of the device; descriptors are never lost or doubled.
    - [VirtioInit]: [Virtio::init]. The capability walk visits the whole list;
      the handshake writes the status bits in the order of the specification; the
      queues' memory is laid out as the device expects, in frames of the allocator
      that no other ring or descriptor has.
    - [VirtioInput]: [drivers/virtio_input.rs]. Between two yields every event
      the device completed is applied, in order, and its buffer offered again.
    - [Executor]: [task/executor.rs], [task/mod.rs]. Task identifiers are unique;
      one turn of the loop polls every queued task once, in order, and requeues
      those that yielded. The simple executor polls in rounds until all are ready.
    - [GpuTypes], [Gpu], [GpuStart]: [drivers/virtio_gpu.rs]. The layouts decode
      to the protocol's fields; a request takes two descriptors, rings once and
      gives both back; completions are never lost; the command stream parses.
      A device that reads the bytes of the start-up by the specification accepts the
      2D messages and the loops and refuses the EDID request; of the 3D messages it
      reads something else than what was meant, and the theorem says what.
    - [GpuQueue], [GpuRequest], [Screen]: the same driver with what is around it. With
      fourteen descriptors its queue never runs out; a request whose
      completion the device signals is answered, and its task polled again; the
      rows of the screen are rows of what the applications drew, torn if they drew
      during a transfer.
    - [LocalApic], [Interrupts]: [local_apic.rs], [interrupts.rs]. Which handlers
      end their interrupt and what follows when one does not; a timer's task is
      woken at the next tick, unless the table of wakers is full or the tick comes
      while the table is locked.
    - [Gdt]: [gdt.rs] and the stacks of the gates. The processor is given the
      segments, stacks and handlers that are meant.
    - [App], [Loading]: [app.rs] and the application task of [main.rs]. A loaded image
      is the file's segments, relocated; the images loaded at the start lie apart, or
      the heap had no room at one of three places. An application is given back the
      pointer to its store at every turn; nothing protects what it points to, and
      the theorem says who may have written it.
    - [XmapData], [Keymap]: the layout table and [Key::char] of
      [app_console/src/st.rs]: exactly which characters can be typed.
    - [Console], [Window]: [app_console/src/main.rs]. The last line starts with
      the prompt of the mode, until a Backspace eats into the longer one; any line of
      the alphabet can be typed by an active console; the window is moved and resized
      within its limits, and its pixels are clamped to the screen.
    - [Framebuffer]: [framebuffer.rs]. Text never leaves the screen.
    - [Processor]: spin locks and maskable interrupts on one processor, and an
      invariant of programs that may be interrupted.
    - [Logger]: [logger.rs], [serial.rs], with the handlers of [interrupts.rs] as
      programs. Logging never deadlocks and lines are never mixed; registering a
      timer's waker can deadlock.
    - [Float32]: the [f32] of the language: operations, conversions, and how far
      a sum, a product or a quotient is from the exact one.
    - [Blur]: [app_console/src/main.rs], the background. A frame is the
      reference frame, in range and in bytes, sampled at every fourth pixel when 4
      divides the width and along a slant otherwise; the blend is the exact weighted mean.
    - [ConsoleDraw]: the same file, what is drawn over the background. Only the
      window is written; a character outside of the font stops the console.
    - [ConsoleFrame]: the same file, [_start]. A frame keeps the store well
      formed, and without events any number of frames goes through.
    - [Drawers]: [app_cursor], [app_background] and [app_test]. The cursor writes
      near the mouse only; the background fills the screen with its image.
    - [Abi]: the records on both sides of the boundary between the kernel
      ([app.rs], [globals.rs], [framebuffer.rs]) and the applications (their
      [st.rs]; the one of the background and of the cursor are the same file).
      Field by field, by name, the same offsets and sizes; what one side stores in a
      field the other reads in it.
    - [Runtime]: [LOGGER] and [ALLOCATOR] of [st.rs], and the callbacks of
      [main.rs]. Once attached, an application allocates from the kernel's heap;
      before that it stops.
    - [Boot], [Discovery]: [main.rs]. The window of physical memory; exactly the
      devices that can be driven are found; the tasks spawned for them.
    - [KernelMain]: [kernel_main] as a whole, up to the executor, with the
      interrupts that may arrive in it. It gets there, with everything set up, or it
      was not given what it needs.
    - [EndToEnd]: the input driver, the input record and the console together. The
      keys of the device are handled by an active console once, in order, up to the
      first Enter of a frame; those behind it are lost.

    A theorem whose comment starts with a claim number is a property of the
    program; each with hypotheses is followed by a witness, the theorem applied to
    a concrete state.

    ** What is not modelled, and why

    The UART behind the serial port ([uart_16550]), the formatting of a log
    record's arguments, how the [acpi] crate reads its tables, the
    [linked_list_allocator] heap behind [ALLOCATOR], the flex styles given to the
    [taffy] crate, the disassembly listing of [App::new], the 3D commands as the
    device executes them, the loop of the panic handler, and the build scripts.
    The page of the null pointer is taken to be unmapped ([Loading]), and the
    code of an application to leave the kernel's own variables alone ([App]): the
    README says that nothing enforces it.
    Elsewhere than in [Logger] and [Interrupts] interrupts are taken between the steps of the tasks or
    the stages of the boot; exceptions end the kernel and are not followed. *)
From Stdlib Require Export ZArith Lia.
From stdpp Require Export base numbers gmap strings option list_numbers list.
#[global] Open Scope Z_scope.

(** [lia] also decides goals with [/] and [mod] by constants. *)
Ltac Zify.zify_post_hook ::= Z.to_euclidean_division_equations.

(** ** Panics and fallible code

    A Rust panic ends in the kernel's [panic] handler, which never returns:
    nothing of the state survives, so a panicking computation carries only the
    reason. *)
Inductive panic :=
| PIndex                      (* slice or array index out of bounds *)
| PUnwrap                     (* [unwrap]/[expect] on [None] or [Err] *)
| PExplicit (msg : string)    (* [panic!("..")] *)
| PDivZero.                   (* division or remainder by zero *)

Inductive res (A : Type) : Type :=
| Ok (a : A)
| Panic (p : panic).
Arguments Ok {A} _.
Arguments Panic {A} _.

#[global] Instance panic_eq_dec : EqDecision panic.
Proof. solve_decision. Defined.
#[global] Instance res_eq_dec {A} `{EqDecision A} : EqDecision (res A).
Proof. solve_decision. Defined.

#[global] Instance res_ret : MRet res := @Ok.
#[global] Instance res_bind : MBind res := λ A B f m,
  match m with Ok a => f a | Panic p => Panic p end.
#[global] Instance res_map : FMap res := λ A B f m,
  match m with Ok a => Ok (f a) | Panic p => Panic p end.

(** [unwrap] of an option. *)
Definition unwrap {A} (o : option A) : res A :=
  match o with Some a => Ok a | None => Panic PUnwrap end.

(** A loop body run over a list of items, left to right, stopping at a panic. *)
Fixpoint foldM {A B} (f : A → B → res A) (a : A) (l : list B) : res A :=
  match l with
  | [] => Ok a
  | b :: l => a' ← f a b; foldM f a' l
  end.

(** [mapM] of stdpp needs no instance of its own: it is generic in [MBind]. *)

(** ** Stateful code: state passing over [res] *)
Definition M (S A : Type) : Type := S → res (A * S).
#[global] Instance M_ret {S} : MRet (M S) := λ A a s, Ok (a, s).
#[global] Instance M_bind {S} : MBind (M S) := λ A B f m s,
  match m s with Ok (a, s') => f a s' | Panic p => Panic p end.
Definition get {S} : M S S := λ s, Ok (s, s).
Definition gets {S A} (f : S → A) : M S A := λ s, Ok (f s, s).
Definition modify {S} (f : S → S) : M S unit := λ s, Ok (tt, f s).
Definition lift {S A} (m : res A) : M S A := λ s,
  match m with Ok a => Ok (a, s) | Panic p => Panic p end.

(** A [for] loop over the items of a list. *)
Fixpoint for_each {S B} (l : list B) (body : B → M S unit) : M S unit :=
  match l with
  | [] => mret tt
  | b :: l => body b ;; for_each l body
  end.

(** [while let Some(a) = cond() { body(a) }], run at most [fuel] times: the
    boolean says whether the loop ended by itself. *)
Fixpoint while_some {S A} (fuel : nat) (cond : M S (option A)) (body : A → M S unit) : M S bool :=
  match fuel with
  | O => mret false
  | Datatypes.S fuel =>
      o ← cond;
      match o with
      | None => mret true
      | Some a => body a ;; while_some fuel cond body
      end
  end.

(** ** Machine integers: a [w]-bit unsigned integer is a [Z] in [0, 2^w). *)
Definition wrap (w x : Z) : Z := x mod 2 ^ w.
(** The two's complement reading of the low [w] bits. *)
Definition swrap (w x : Z) : Z := (x + 2 ^ (w - 1)) mod 2 ^ w - 2 ^ (w - 1).
(** [x] is a value of the unsigned type of width [w]. *)
Definition fits (w x : Z) : Prop := 0 ≤ x < 2 ^ w.

Declare Scope fomos_scope.
Delimit Scope fomos_scope with fomos.
Notation "x +u[ w ] y" := (wrap w (x + y)) (at level 50, left associativity) : fomos_scope.
Notation "x -u[ w ] y" := (wrap w (x - y)) (at level 50, left associativity) : fomos_scope.
Notation "x *u[ w ] y" := (wrap w (x * y)) (at level 40, left associativity) : fomos_scope.
Notation "x <<u[ w ] n" := (wrap w (Z.shiftl x n)) (at level 40, left associativity) : fomos_scope.
#[global] Open Scope fomos_scope.

#[global] Arguments Z.testbit : simpl never.
#[global] Arguments Z.land : simpl never.
#[global] Arguments Z.lor : simpl never.
#[global] Arguments Z.shiftl : simpl never.
#[global] Arguments Z.shiftr : simpl never.

(** ** Arrays, slices and [Vec]s: lists indexed by a [usize]. *)
Definition len {A} (l : list A) : Z := Z.of_nat (length l).

Definition index {A} (l : list A) (i : Z) : res A :=
  if i <? 0 then Panic PIndex
  else match l !! Z.to_nat i with Some a => Ok a | None => Panic PIndex end.

Definition update {A} (l : list A) (i : Z) (a : A) : res (list A) :=
  if (0 <=? i) && (i <? len l) then Ok (<[Z.to_nat i := a]> l) else Panic PIndex.

(** [Vec::pop]: the last element and the rest. *)
Definition pop {A} (l : list A) : option (A * list A) :=
  match last l with
  | Some a => Some (a, take (length l - 1) l)
  | None => None
  end.

(** The half-open range [a..b] of a [for] loop. *)
Definition range (a b : Z) : list Z := seqZ a (b - a).

(** ** Generic lemmas *)
Lemma bind_ok {A B} (m : res A) (f : A → res B) b :
  (m ≫= f) = Ok b ↔ ∃ a, m = Ok a ∧ f a = Ok b.
Proof. destruct m; simpl; naive_solver. Qed.

Lemma M_bind_ok {S A B} (m : M S A) (f : A → M S B) s b s' :
  (m ≫= f) s = Ok (b, s') ↔ ∃ a s1, m s = Ok (a, s1) ∧ f a s1 = Ok (b, s').
Proof. unfold mbind, M_bind. destruct (m s) as [[a s1]|p]; naive_solver. Qed.

Lemma M_bind_run {S A B} (m : M S A) (f : A → M S B) s a s1 :
  m s = Ok (a, s1) → (m ≫= f) s = f a s1.
Proof. unfold mbind, M_bind. by intros ->. Qed.

Lemma foldM_app {A B} (f : A → B → res A) a l1 l2 :
  foldM f a (l1 ++ l2) = (a' ← foldM f a l1; foldM f a' l2).
Proof. revert a; induction l1 as [|b l1 IH]; intros a; [done|]. simpl. destruct (f a b); simpl; auto. Qed.

Lemma foldM_fmap {A B C} (g : C → B) (f : A → B → res A) a l : foldM f a (g <$> l) = foldM (λ a c, f a (g c)) a l.
Proof. revert a; induction l as [|c l IH]; intros a; [done|]. cbn. destruct (f a (g c)); [apply IH|done]. Qed.

Lemma foldM_ext_in {A B} (f g : A → B → res A) a l :
  (∀ a b, b ∈ l → f a b = g a b) → foldM f a l = foldM g a l.
Proof.
  revert a; induction l as [|b l IH]; intros a Hf; [done|]. cbn. rewrite Hf by set_solver.
  destruct (g a b); [|done]. cbn. apply IH. intros. apply Hf. set_solver.
Qed.

Lemma foldM_step {A B} (f : A → B → res A) a b l a' : f a b = Ok a' → foldM f a (b :: l) = foldM f a' l.
Proof. intros Hf. cbn [foldM]. by rewrite Hf. Qed.

(** A loop invariant carried through [foldM]: the [i]-th step starts from a
    state that satisfies [P i]. *)
Lemma foldM_inv {A B} (P : nat → A → Prop) (f : A → B → res A) l a :
  P 0%nat a →
  (∀ i b a, l !! i = Some b → P i a → ∃ a', f a b = Ok a' ∧ P (S i) a') →
  ∃ a', foldM f a l = Ok a' ∧ P (length l) a'.
Proof.
  revert P a; induction l as [|b l IH]; intros P a H0 Hs; simpl; [by eauto|].
  destruct (Hs 0%nat b a) as (a1 & -> & H1); [done..|]. simpl.
  apply (IH (λ i, P (S i))); [done|]. intros i b' a' Hl HP. by apply (Hs (S i)).
Qed.

(** The same for the [for] loops of stateful code. *)
Lemma for_each_inv {S B} (P : nat → S → Prop) (l : list B) (body : B → M S unit) s :
  P 0%nat s →
  (∀ i b s, l !! i = Some b → P i s → ∃ s', body b s = Ok (tt, s') ∧ P (Datatypes.S i) s') →
  ∃ s', for_each l body s = Ok (tt, s') ∧ P (length l) s'.
Proof.
  revert P s; induction l as [|b l IH]; intros P s H0 Hs; [by exists s|]. cbn [for_each].
  destruct (Hs 0%nat b s) as (s1 & H1 & HP); [done..|]. rewrite (M_bind_run _ _ _ _ _ H1).
  apply (IH (λ i, P (Datatypes.S i))); [done|]. intros i b' s' Hl HP'. by apply (Hs (Datatypes.S i)).
Qed.

(** A loop that ended does so with more fuel. *)
Lemma while_some_more {S A} n m (cond : M S (option A)) (body : A → M S unit) s s' :
  (n ≤ m)%nat → while_some n cond body s = Ok (true, s') → while_some m cond body s = Ok (true, s').
Proof.
  revert m s; induction n as [|n IH]; intros [|m] s Hnm; cbn [while_some]; try (done || lia).
  intros (o & s1 & E1 & E2)%M_bind_ok. rewrite (M_bind_run _ _ _ _ _ E1). destruct o as [a|]; [|done].
  apply M_bind_ok in E2 as ([] & s2 & E2 & E3). rewrite (M_bind_run _ _ _ _ _ E2). apply IH; [lia|done].
Qed.

(** A fact about every element, kept by a loop that does not depend on position. *)
Lemma foldM_pres {A B} (P : A → Prop) (f : A → B → res A) l a a' :
  P a → (∀ b a a', b ∈ l → P a → f a b = Ok a' → P a') → foldM f a l = Ok a' → P a'.
Proof.
  revert a; induction l as [|b l IH]; intros a H0 Hs; simpl; [naive_solver|].
  intros (a1 & Hb & Hl)%bind_ok. apply (IH a1); [|set_solver|done].
  eapply Hs; [|done..]. left.
Qed.

Lemma wrap_fits w x : 0 ≤ w → fits w (wrap w x).
Proof. intros. apply Z.mod_pos_bound. lia. Qed.
Lemma wrap_small w x : fits w x → wrap w x = x.
Proof. apply Z.mod_small. Qed.
Lemma wrap_wrap w x : wrap w (wrap w x) = wrap w x.
Proof. unfold wrap. destruct (decide (2 ^ w = 0)) as [->|]; [by rewrite !Z.mod_0_r|]. by apply Zmod_mod. Qed.
Lemma wrap_add_l w x y : wrap w (wrap w x + y) = wrap w (x + y).
Proof. apply Zplus_mod_idemp_l. Qed.
Lemma wrap_add_r w x y : wrap w (x + wrap w y) = wrap w (x + y).
Proof. apply Zplus_mod_idemp_r. Qed.
Lemma wrap_land w x : 0 ≤ w → wrap w x = Z.land x (Z.ones w).
Proof. intros. symmetry. by apply Z.land_ones. Qed.

(** Bit operations read as arithmetic. *)
Lemma lor_add a b n : 0 ≤ n → a mod 2 ^ n = 0 → 0 ≤ b < 2 ^ n → Z.lor a b = a + b.
Proof.
  intros Hn Ha Hb. symmetry. apply Z.add_nocarry_lor. apply Z.bits_inj'. intros i Hi.
  rewrite Z.land_spec, Z.bits_0. destruct (decide (i < n)).
  - assert (Z.testbit a i = false) as ->; [|done].
    rewrite <-(Z.mod_pow2_bits_low a n i), Ha by lia. apply Z.bits_0.
  - rewrite <-(Z.mod_small b (2 ^ n)), Z.mod_pow2_bits_high by lia. apply andb_false_r.
Qed.
Lemma shiftr_div a n : 0 ≤ n → Z.shiftr a n = a / 2 ^ n.
Proof. apply Z.shiftr_div_pow2. Qed.
Lemma shiftl_mul a n : 0 ≤ n → Z.shiftl a n = a * 2 ^ n.
Proof. apply Z.shiftl_mul_pow2. Qed.
(** A field of [k] bits above bit [n]. *)
Lemma field_extract a b n k :
  0 ≤ n → 0 ≤ k → 0 ≤ b < 2 ^ n → 0 ≤ a < 2 ^ k → ((a * 2 ^ n + b) / 2 ^ n) mod 2 ^ k = a.
Proof.
  intros. rewrite Z.div_add_l, (Z.div_small b), Z.add_0_r, Z.mod_small by lia. done.
Qed.

(** Facts about small integers, checked by evaluation. *)
Lemma by_range (f : Z → bool) a b :
  forallb f (range a b) = true → ∀ i, a ≤ i < b → f i = true.
Proof.
  intros Hf i Hi. rewrite forallb_forall in Hf. apply Hf. apply list_elem_of_In.
  unfold range. apply elem_of_seqZ. lia.
Qed.
Lemma fits_high w x i : 0 ≤ w → fits w x → w ≤ i → Z.testbit x i = false.
Proof. intros Hw Hx Hi. rewrite <-(Z.mod_small x (2 ^ w)) by done. apply Z.mod_pow2_bits_high. lia. Qed.
Lemma fits_bits w x : 0 ≤ w → (∀ i, w ≤ i → Z.testbit x i = false) → fits w x.
Proof.
  intros Hw Hx. assert (x = wrap w x) as ->; [|by apply wrap_fits].
  unfold wrap. apply Z.bits_inj'. intros i Hi. destruct (decide (i < w)).
  - by rewrite Z.mod_pow2_bits_low by lia.
  - rewrite Z.mod_pow2_bits_high by lia. apply Hx. lia.
Qed.
(** The low [k] bits above bit [n], as the code writes it. *)
Lemma land_shiftr x n k : 0 ≤ n → 0 ≤ k → Z.land (Z.shiftr x n) (Z.ones k) = x / 2 ^ n mod 2 ^ k.
Proof. intros. by rewrite Z.land_ones, Z.shiftr_div_pow2. Qed.

Lemma testbit_b2z x k b : 0 ≤ k → x / 2 ^ k mod 2 = Z.b2z b → Z.testbit x k = b.
Proof. intros Hk Hx. apply Z.b2z_inj. by rewrite Z.testbit_spec'. Qed.
Lemma b2z_range b : 0 ≤ Z.b2z b ≤ 1.
Proof. destruct b; simpl; lia. Qed.
(** A single bit, and the bits above the lowest [n] of a [w]-bit word. *)
Lemma land_bit x k : 0 ≤ k → Z.land x (2 ^ k) = 2 ^ k * (x / 2 ^ k mod 2).
Proof.
  intros Hk. pose proof (land_shiftr x k 1 Hk ltac:(lia)) as E. rewrite Z.pow_1_r in E. rewrite <-E.
  rewrite Z.mul_comm, <-shiftl_mul by lia. apply Z.bits_inj'. intros i Hi.
  rewrite Z.land_spec, Z.pow2_bits_eqb by lia. destruct (decide (i < k)).
  - rewrite Z.shiftl_spec_low by lia. destruct (Z.eqb_spec k i); [lia|apply andb_false_r].
  - rewrite Z.shiftl_spec_high, Z.land_spec, Z.shiftr_spec by lia.
    destruct (Z.eqb_spec k i) as [->|].
    + rewrite Z.ones_spec_low by lia. by replace (i - i + i) with i by lia.
    + rewrite Z.ones_spec_high by lia. by rewrite !andb_false_r.
Qed.
Lemma land_high x n w :
  0 ≤ n ≤ w → fits w x → Z.land x (Z.shiftl (Z.ones (w - n)) n) = 2 ^ n * (x / 2 ^ n).
Proof.
  intros Hn Hx. rewrite Z.mul_comm, <-shiftr_div, <-shiftl_mul by lia.
  apply Z.bits_inj'. intros i Hi. rewrite Z.land_spec. destruct (decide (i < n)).
  - rewrite !Z.shiftl_spec_low by lia. apply andb_false_r.
  - rewrite !Z.shiftl_spec_high, Z.shiftr_spec by lia. replace (i - n + n) with i by lia.
    destruct (decide (i < w)).
    + rewrite Z.ones_spec_low by lia. apply andb_true_r.
    + rewrite (fits_high w) by (done || lia). done.
Qed.

Lemma len_nonneg {A} (l : list A) : 0 ≤ len l.
Proof. unfold len. lia. Qed.
Lemma len_app {A} (l k : list A) : len (l ++ k) = len l + len k.
Proof. unfold len. rewrite length_app. lia. Qed.
Lemma len_cons {A} (a : A) l : len (a :: l) = 1 + len l.
Proof. unfold len. simpl. lia. Qed.
Lemma len_nil {A} : len (@nil A) = 0.
Proof. done. Qed.
Lemma len_fmap {A B} (f : A → B) l : len (f <$> l) = len l.
Proof. unfold len. by rewrite length_fmap. Qed.
Lemma len_insert {A} (l : list A) i a : len (<[i := a]> l) = len l.
Proof. unfold len. by rewrite length_insert. Qed.
Lemma len_range a b : a ≤ b → len (range a b) = b - a.
Proof. intros. unfold len, range. rewrite length_seqZ. lia. Qed.

Lemma index_ok {A} (l : list A) i a : index l i = Ok a ↔ 0 ≤ i ∧ l !! Z.to_nat i = Some a.
Proof.
  unfold index. destruct (Z.ltb_spec i 0); [naive_solver (try lia)|].
  destruct (l !! Z.to_nat i); naive_solver.
Qed.
Lemma index_in {A} (l : list A) i : 0 ≤ i < len l → ∃ a, index l i = Ok a ∧ l !! Z.to_nat i = Some a.
Proof.
  unfold len. intros. destruct (lookup_lt_is_Some_2 l (Z.to_nat i)) as [a Ha]; [lia|].
  exists a. split; [|done]. apply index_ok. split; [lia|done].
Qed.
Lemma index_out {A} (l : list A) i : i < 0 ∨ len l ≤ i → index l i = Panic PIndex.
Proof.
  unfold index, len. intros. destruct (Z.ltb_spec i 0); [done|].
  rewrite lookup_ge_None_2; [done|lia].
Qed.
Lemma update_ok {A} (l l' : list A) i a :
  update l i a = Ok l' ↔ 0 ≤ i < len l ∧ l' = <[Z.to_nat i := a]> l.
Proof.
  unfold update. destruct (Z.leb_spec 0 i), (Z.ltb_spec i (len l)); simpl; naive_solver (try lia).
Qed.
Lemma update_in {A} (l : list A) i a : 0 ≤ i < len l → update l i a = Ok (<[Z.to_nat i := a]> l).
Proof. intros. by apply update_ok. Qed.
Lemma update_out {A} (l : list A) i a : i < 0 ∨ len l ≤ i → update l i a = Panic PIndex.
Proof. unfold update. intros. destruct (Z.leb_spec 0 i), (Z.ltb_spec i (len l)); simpl; lia || done. Qed.

Lemma index_update_eq {A} (l l' : list A) i a : update l i a = Ok l' → index l' i = Ok a.
Proof.
  intros [Hi ->]%update_ok. apply index_ok. split; [lia|].
  apply list_lookup_insert_eq. unfold len in Hi. lia.
Qed.
Lemma index_update_ne {A} (l l' : list A) i j a :
  update l i a = Ok l' → i ≠ j → index l' j = index l j.
Proof.
  intros [Hi ->]%update_ok Hne. unfold index. destruct (Z.ltb_spec j 0); [done|].
  rewrite list_lookup_insert_ne; [done|lia].
Qed.
Lemma len_update {A} (l l' : list A) i a : update l i a = Ok l' → len l' = len l.
Proof. intros [_ ->]%update_ok. apply len_insert. Qed.
Lemma index_app_l {A} (l k : list A) i : i < len l → index (l ++ k) i = index l i.
Proof.
  unfold index, len. intros. destruct (Z.ltb_spec i 0); [done|]. rewrite lookup_app_l; [done|lia].
Qed.
Lemma index_app_r {A} (l k : list A) i : len l ≤ i → index (l ++ k) i = index k (i - len l).
Proof.
  unfold index, len. intros. destruct (Z.ltb_spec i 0), (Z.ltb_spec (i - Z.of_nat (length l)) 0); try lia.
  rewrite lookup_app_r by lia. by replace (Z.to_nat i - length l)%nat with (Z.to_nat (i - Z.of_nat (length l))) by lia.
Qed.
Lemma index_snoc {A} (l : list A) a : index (l ++ [a]) (len l) = Ok a.
Proof. rewrite index_app_r by lia. by rewrite Z.sub_diag. Qed.

Lemma pop_snoc {A} (l : list A) a : pop (l ++ [a]) = Some (a, l).
Proof.
  unfold pop. rewrite last_snoc, length_app. simpl.
  by replace (length l + 1 - 1)%nat with (length l) by lia; rewrite take_app_length.
Qed.
Lemma pop_nil {A} : pop (@nil A) = None.
Proof. done. Qed.
Lemma pop_some {A} (l l' : list A) a : pop l = Some (a, l') ↔ l = l' ++ [a].
Proof.
  split; [|intros ->; apply pop_snoc].
  destruct l as [|b l _] using rev_ind; [done|]. rewrite pop_snoc. naive_solver.
Qed.

Lemma elem_of_range a b i : i ∈ range a b ↔ a ≤ i < b.
Proof. unfold range. rewrite elem_of_seqZ. lia. Qed.
Lemma lookup_range a b i : a + Z.of_nat i < b → range a b !! i = Some (a + Z.of_nat i).
Proof. intros. unfold range. apply lookup_seqZ. lia. Qed.

(** ** Automation *)
Create HintDb fomos.
Create Rewrite HintDb fomos.
Create Rewrite HintDb bits.
#[export] Hint Resolve wrap_fits len_nonneg : fomos.
#[export] Hint Rewrite @len_app @len_cons @len_nil @len_insert @length_insert : fomos.

(** ** Frames: what a computation leaves alone

    [keeps f m]: whenever [m] returns, [f] of the state is what it was. *)
Definition keeps {S X A} (f : S → X) (m : M S A) : Prop := ∀ s a s', m s = Ok (a, s') → f s' = f s.

Section keeps.
Context {S X : Type} (f : S → X).

Lemma keeps_bind {A B} (m : M S A) (k : A → M S B) : keeps f m → (∀ a, keeps f (k a)) → keeps f (m ≫= k).
Proof. intros Hm Hk s b s' (a & s1 & E1 & E2)%M_bind_ok. by rewrite (Hk _ _ _ _ E2), (Hm _ _ _ E1). Qed.
Lemma keeps_ret {A} (a : A) : keeps f (mret a).
Proof. by intros s b s' [= _ <-]. Qed.
Lemma keeps_gets {A} (g : S → A) : keeps f (gets g).
Proof. by intros s b s' [= _ <-]. Qed.
Lemma keeps_lift {A} (r : res A) : keeps f (lift r).
Proof. intros s b s' E. unfold lift in E. destruct r; [|done]. by injection E as _ <-. Qed.
Lemma keeps_modify g : (∀ s, f (g s) = f s) → keeps f (modify g).
Proof. by intros Hg s b s' [= _ <-]. Qed.
Lemma keeps_for_each {B} (l : list B) body : (∀ b, keeps f (body b)) → keeps f (for_each l body).
Proof. intros Hb. induction l as [|b l IH]; [apply keeps_ret|]. cbn [for_each]. by apply keeps_bind. Qed.
Lemma keeps_while_some {A} fuel (cond : M S (option A)) body :
  keeps f cond → (∀ a, keeps f (body a)) → keeps f (while_some fuel cond body).
Proof.
  intros Hc Hb. induction fuel as [|fuel IH]; [apply keeps_ret|]. cbn [while_some]. apply keeps_bind; [done|].
  intros [a|]; [|apply keeps_ret]. by apply keeps_bind.
Qed.
End keeps.

Create HintDb keeps.
#[export] Hint Resolve keeps_ret keeps_gets keeps_lift keeps_modify : keeps.
(** Goes through the code, one statement at a time. *)
Ltac keeps :=
  repeat first [solve [auto with keeps] | apply keeps_bind; [|intros ?] | apply keeps_for_each; intros ?
               | match goal with |- keeps _ (match ?x with _ => _ end) => destruct x end].

(** ** Total correctness

    [runs P m Q]: from every state of [P] the computation returns, and [Q] holds of
    its value and of the state it leaves. *)
Definition runs {S A} (P : S → Prop) (m : M S A) (Q : A → S → Prop) : Prop :=
  ∀ s, P s → ∃ a s', m s = Ok (a, s') ∧ Q a s'.

Section runs.
Context {S : Type}.
Implicit Types P : S → Prop.

Lemma runs_bind {A B} P (m : M S A) Q (k : A → M S B) R :
  runs P m Q → (∀ a, runs (Q a) (k a) R) → runs P (m ≫= k) R.
Proof. intros Hm Hk s Hs. destruct (Hm s Hs) as (a & s1 & E & Ha). rewrite (M_bind_run _ _ _ _ _ E). by apply Hk. Qed.
Lemma runs_weaken {A} P P' (m : M S A) Q Q' :
  runs P' m Q' → (∀ s, P s → P' s) → (∀ a s, Q' a s → Q a s) → runs P m Q.
Proof. intros Hm HP HQ s Hs. destruct (Hm s (HP s Hs)) as (a & s1 & E & Ha). eauto. Qed.
Lemma runs_lift {A} P (r : res A) a : r = Ok a → runs P (lift r) (λ b s, b = a ∧ P s).
Proof. intros -> s Hs. by exists a, s. Qed.
Lemma runs_for_each {B} (I : S → Prop) (l : list B) body :
  (∀ b, b ∈ l → runs I (body b) (λ _, I)) → runs I (for_each l body) (λ _, I).
Proof.
  induction l as [|b l IH]; intros Hb; cbn [for_each]; [by intros s Hs; exists tt, s|].
  eapply runs_bind; [apply Hb; set_solver|]. intros ?. apply IH. intros b' Hb'. apply Hb. set_solver.
Qed.

(** One step of a computation from a known state. *)
Lemma runs_step {A B} (m : M S A) (f : A → M S B) s a s1 R :
  m s = Ok (a, s1) → runs (λ x, x = s1) (f a) R → runs (λ x, x = s) (m ≫= f) R.
Proof. intros E Hf x ->. rewrite (M_bind_run _ _ _ _ _ E). by apply Hf. Qed.
Lemma runs_at {A} (m : M S A) s a s1 (Q : A → S → Prop) : m s = Ok (a, s1) → Q a s1 → runs (λ x, x = s) m Q.
Proof. intros E HQ x ->. eauto. Qed.

Lemma runs_states {A} (P : S → Prop) (m : M S A) Q : (∀ s, P s → runs (λ x, x = s) m Q) → runs P m Q.
Proof. intros Hm s Hs. by apply (Hm s Hs). Qed.
Lemma runs_pure {A} (X : Prop) (P : S → Prop) (m : M S A) Q : (X → runs P m Q) → runs (λ s, X ∧ P s) m Q.
Proof. intros Hm s [HX Hs]. by apply Hm. Qed.
End runs.

(** Splits a successful monadic computation into its successful steps. *)
Ltac inv_ok :=
  repeat match goal with
  | H : (_ ≫= _) = Ok _ |- _ => apply bind_ok in H as (?&?&?)
  | H : Ok _ = Ok _ |- _ => injection H as H
  | H : Panic _ = Ok _ |- _ => discriminate H
  | H : mret _ = Ok _ |- _ => injection H as H
  | H : index _ _ = Ok _ |- _ => apply index_ok in H as [??]
  | H : update _ _ _ = Ok _ |- _ => apply update_ok in H as [??]
  end; subst.

Ltac b2z_bounds b := pose proof (b2z_range b).

(** Removes the wrap-arounds that do not wrap, innermost first. *)
Ltac strip_wraps :=
  repeat match goal with
  | |- context [wrap ?w ?x] =>
      lazymatch x with
      | context [wrap _ _] => fail
      | _ => rewrite (wrap_small w x) by (unfold fits in *; lia)
      end
  end.

(** Turns the boolean comparisons of the code into propositions, splitting on
    the ones the goal tests. *)
Ltac bsplit :=
  repeat match goal with
  | |- context [?a <? ?b] => destruct (Z.ltb_spec a b)
  | |- context [?a <=? ?b] => destruct (Z.leb_spec a b)
  | |- context [?a =? ?b] => destruct (Z.eqb_spec a b)
  end; simpl.

(** Bit-by-bit equality of integers built from the bit operations. *)
#[export] Hint Rewrite Z.land_spec Z.lor_spec Z.lxor_spec Z.ldiff_spec
  Z.testbit_0_l Z.bits_m1 using lia : bits.
#[export] Hint Rewrite Z.shiftr_spec Z.shiftl_spec using lia : bits.
