(* ===== verification/Globals.v ===== *)
(** Input state shared by the kernel and the applications
    ([bootloader/kernel/src/globals.rs]): the per-key state machine [KeyState],
    the [Input] record with its ring of the last 64 key events, and the cell
    [INPUT] that the input driver updates and the main loop reads. *)
From S2P Require Import Prelude.

(** ** The per-key state machine *)
Module KeyState.
Inductive t := Off | OffFromOn | OffTransientOn | OnFromOff | OnTransientOff | On.

#[export] Instance eq_dec : EqDecision t.
Proof. solve_decision. Defined.

(** The [repr(u8)] discriminant the applications read through [Input.keys]. *)
Definition as_u8 (k : t) : Z :=
  match k with
  | Off => 0 | OffFromOn => 1 | OffTransientOn => 2
  | OnFromOff => 128 | OnTransientOff => 129 | On => 130
  end.

Definition default : t := Off.

Definition handle_incoming_state (k : t) (b : bool) : t :=
  match k, b with
  | Off, true => OnFromOff
  | On, false => OffFromOn
  | OffFromOn, true => OnTransientOff
  | OnFromOff, false => OffTransientOn
  | _, false => Off
  | _, true => On
  end.

Definition step (k : t) : t :=
  match k with
  | OffTransientOn => Off
  | OffFromOn => Off
  | OnFromOff => On
  | OnTransientOff => On
  | _ => k
  end.

(** *** What the variants' doc comments promise

    [frame] is what a key did since the last [step]: whether it was pressed at
    the last frame, and the edges received since, oldest first. *)
Definition pressed_after (was : bool) (evs : list bool) : bool :=
  match last evs with Some b => b | None => was end.

(** The edges of a real key alternate: a press is followed by a release. *)
Fixpoint alternating (was : bool) (evs : list bool) : bool :=
  match evs with
  | [] => true
  | b :: evs => negb (Bool.eqb b was) && alternating b evs
  end.

(** The variant the doc comments of the enum assign to a frame. *)
Definition documented (was : bool) (evs : list bool) : t :=
  match was, pressed_after was evs, evs with
  | false, false, [] => Off
  | false, false, _ => OffTransientOn
  | true, false, _ => OffFromOn
  | false, true, _ => OnFromOff
  | true, true, [] => On
  | true, true, _ => OnTransientOff
  end.

(** The state a key rests in between frames. *)
Definition rest (b : bool) : t := if b then On else Off.

Definition run_frame (was : bool) (evs : list bool) : t :=
  fold_left handle_incoming_state evs (rest was).

(** Successive frames: what an application reads at each of them. The kernel
    steps the key after the applications have run. *)
Fixpoint observe (k : t) (frames : list (list bool)) : list t :=
  match frames with
  | [] => []
  | evs :: frames =>
      let k := fold_left handle_incoming_state evs k in
      k :: observe (step k) frames
  end.

Fixpoint documented_frames (was : bool) (frames : list (list bool)) : list t :=
  match frames with
  | [] => []
  | evs :: frames => documented was evs :: documented_frames (pressed_after was evs) frames
  end.

(** A frame's edges alternate and there are at most two of them. *)
Fixpoint gentle (was : bool) (frames : list (list bool)) : bool :=
  match frames with
  | [] => true
  | evs :: frames =>
      alternating was evs && (length evs <=? 2)%nat && gentle (pressed_after was evs) frames
  end.

(** Whether the discriminant says "pressed": the applications test [>= 128]. *)
Definition is_pressed (k : t) : bool := 128 <=? as_u8 k.

Lemma is_pressed_handle k b : is_pressed (handle_incoming_state k b) = b.
Proof. by destruct k, b. Qed.

Lemma is_pressed_step k : is_pressed (step k) = is_pressed k.
Proof. by destruct k. Qed.

Lemma is_pressed_fold k evs :
  is_pressed (fold_left handle_incoming_state evs k) = pressed_after (is_pressed k) evs.
Proof.
  induction evs as [|b evs IH] using rev_ind; [done|].
  rewrite fold_left_app. simpl. rewrite is_pressed_handle.
  unfold pressed_after. by rewrite last_snoc.
Qed.

Lemma step_rest k : step k = rest (is_pressed k).
Proof. by destruct k. Qed.

Lemma run_frame_documented was evs :
  alternating was evs = true → (length evs ≤ 2)%nat → run_frame was evs = documented was evs.
Proof.
  destruct evs as [|a [|b [|c evs]]]; simpl; [..|lia]; destruct was; try destruct a; try destruct b; done.
Qed.

Lemma as_u8_inj k k' : as_u8 k = as_u8 k' → k = k'.
Proof. by destruct k, k'. Qed.
End KeyState.

(** ** The shared input record *)
Definition HISTORY_SIZE : Z := 64.

Record InputEvent := { trigger : bool; key : Z }.

Record Input := {
  mouse_x : Z;
  mouse_y : Z;
  keys : list KeyState.t;
  history_last_index : Z;
  history_ring : list InputEvent
}.

Module Input.
Definition new : Input := {|
  mouse_x := 0;
  mouse_y := 0;
  keys := replicate 1024 KeyState.Off;
  history_last_index := 0;
  history_ring := replicate (Z.to_nat HISTORY_SIZE) {| trigger := false; key := 0 |}
|}.

Definition step (i : Input) : Input := {|
  mouse_x := mouse_x i;
  mouse_y := mouse_y i;
  keys := map KeyState.step (keys i);
  history_last_index := history_last_index i;
  history_ring := history_ring i
|}.

(** [usize] arithmetic in a release build wraps; both array accesses are
    checked, the ring's before the key's. *)
Definition handle_incoming_state (i : Input) (key : Z) (b : bool) : res Input :=
  let hli := history_last_index i +u[64] 1 in
  ring ← update (history_ring i) (hli mod HISTORY_SIZE) {| trigger := b; key := key |};
  k ← index (keys i) key;
  ks ← update (keys i) key (KeyState.handle_incoming_state k b);
  mret {| mouse_x := mouse_x i; mouse_y := mouse_y i; keys := ks;
          history_last_index := hli; history_ring := ring |}.

(** The shape every reachable [Input] has: the array lengths of the type, and
    the widths of its integers. *)
Definition wf (i : Input) : Prop :=
  len (keys i) = 1024 ∧ len (history_ring i) = HISTORY_SIZE ∧
  fits 64 (history_last_index i) ∧ fits 64 (mouse_x i) ∧ fits 64 (mouse_y i).

(** Events delivered one after the other. *)
Definition handle_all (i : Input) (evs : list InputEvent) : res Input :=
  foldM (λ i e, handle_incoming_state i (key e) (trigger e)) i evs.

(** [h] is the history of every event since boot, oldest first: the index
    counts them and the ring holds the last 64, event number [n] (from 1) in
    slot [n mod 64]. *)
Definition ring_of (h : list InputEvent) (i : Input) : Prop :=
  history_last_index i = len h ∧
  ∀ n, len h - HISTORY_SIZE < n ≤ len h → 0 < n →
    index (history_ring i) (n mod HISTORY_SIZE) = index h (n - 1).
End Input.

(** ** [GLOBAL<T>]: a cell that is read and updated whole *)
Module GLOBAL.
Section cell.
Context {T : Type}.
Definition new (t : T) : T := t.
Definition read (cell : T) : T := cell.
(** [load], run the closure on the copy, [store]. *)
Definition update (cell : T) (func : T → res T) : res T :=
  let v := read cell in
  v' ← func v;
  mret v'.
End cell.
End GLOBAL.

Definition INPUT : Input := GLOBAL.new Input.new.

(** ** Key states *)
Lemma observe_app k fs gs :
  KeyState.observe k (fs ++ gs) =
  KeyState.observe k fs ++
  KeyState.observe (fold_left (λ k evs, KeyState.step (fold_left KeyState.handle_incoming_state evs k)) fs k) gs.
Proof. revert k; induction fs as [|evs fs IH]; intros k; simpl; [done|by rewrite IH]. Qed.

Lemma pressed_after_app was xs ys :
  KeyState.pressed_after was (xs ++ ys) = KeyState.pressed_after (KeyState.pressed_after was xs) ys.
Proof. unfold KeyState.pressed_after. rewrite last_app. by destruct (last ys). Qed.

Lemma is_pressed_frames k fs :
  KeyState.is_pressed
    (fold_left (λ k evs, KeyState.step (fold_left KeyState.handle_incoming_state evs k)) fs k) =
  KeyState.pressed_after (KeyState.is_pressed k) (mjoin fs).
Proof.
  revert k; induction fs as [|evs fs IH]; intros k; [done|].
  simpl. by rewrite IH, KeyState.is_pressed_step, KeyState.is_pressed_fold, <-pressed_after_app.
Qed.

(** Whatever edges a key receives, in however many frames, the byte the
    applications read says "pressed" ([>= 128]) exactly when the last edge
    received since boot was a press. *)
Theorem key_pressed_is_last_edge k frames evs :
  KeyState.is_pressed <$> last (KeyState.observe k (frames ++ [evs])) =
  Some (KeyState.pressed_after (KeyState.is_pressed k) (mjoin (frames ++ [evs]))).
Proof.
  rewrite observe_app. simpl. rewrite last_snoc. simpl. f_equal.
  rewrite KeyState.is_pressed_fold, is_pressed_frames, <-pressed_after_app.
  by rewrite join_app; simpl; rewrite app_nil_r.
Qed.

Lemma observe_documented was frames :
  KeyState.gentle was frames = true →
  KeyState.observe (KeyState.rest was) frames = KeyState.documented_frames was frames.
Proof.
  revert was; induction frames as [|evs frames IH]; intros was; [done|]. simpl.
  intros [[Ha Hl]%andb_prop Hg]%andb_prop. apply Nat.leb_le in Hl.
  pose proof (KeyState.run_frame_documented was evs Ha Hl) as Hr.
  unfold KeyState.run_frame in Hr. rewrite Hr. f_equal.
  rewrite <-(IH _ Hg), <-Hr, KeyState.step_rest, KeyState.is_pressed_fold.
  by destruct was.
Qed.

(** C33: refinement of the documented key states. As long as each frame brings
    a key at most two edges, what the applications read in every frame is the
    variant the doc comments of [KeyState] describe (pressed or not, last frame
    too or not, and whether it changed in between). *)
Theorem keystate_refines_documentation was frames :
  KeyState.gentle was frames = true →
  KeyState.observe (KeyState.rest was) frames = KeyState.documented_frames was frames.
Proof. apply observe_documented. Qed.

Lemma keystate_refines_documentation_witness :
  KeyState.observe KeyState.Off [[true]; []; [false; true]; [false]] =
  [KeyState.OnFromOff; KeyState.On; KeyState.OnTransientOff; KeyState.OffFromOn].
Proof.
  exact (keystate_refines_documentation false [[true]; []; [false; true]; [false]] eq_refl).
Defined.

(** Six alternating edges bring a resting key back to the state it rested in. *)
Lemma six_edges was evs :
  KeyState.alternating was evs = true → (6 ≤ length evs)%nat →
  ∃ evs', evs = [negb was; was; negb was; was; negb was; was] ++ evs' ∧
    KeyState.alternating was evs' = true ∧ KeyState.run_frame was evs = KeyState.run_frame was evs'.
Proof.
  destruct evs as [|a [|b [|c [|d [|e [|f evs]]]]]]; simpl; try lia. intros Ha _. exists evs.
  destruct was, a, b, c, d, e, f; simpl in Ha; done.
Qed.

(** The key states outrun the documentation exactly when a frame brings more
    than two edges, except for the frames whose edges happen to realign the
    six-step cycle of the state machine. *)
Lemma run_frame_exact_aux n was evs :
  (length evs ≤ n)%nat → KeyState.alternating was evs = true → evs ≠ [] →
  KeyState.run_frame was evs = KeyState.documented was evs ↔ len evs mod 6 = 1 ∨ len evs mod 6 = 2.
Proof.
  revert evs; induction n as [|n IH]; intros evs Hn Ha Hne; [by destruct evs; simpl in *; [|lia]|].
  destruct (decide (6 ≤ length evs)%nat) as [H6|H6].
  - destruct (six_edges was evs Ha H6) as (evs' & -> & Ha' & ->).
    destruct evs' as [|x evs']; [by destruct was; vm_compute; intuition congruence|].
    rewrite len_app. change (len [_; _; _; _; _; _]) with 6.
    replace ((6 + len (x :: evs')) mod 6) with (len (x :: evs') mod 6)
      by (rewrite Z.add_comm, <-(Z.mod_add (len (x :: evs')) 1 6) by lia; f_equal).
    rewrite <-IH; [|simpl in *; lia|done..].
    assert (KeyState.documented was ([negb was; was; negb was; was; negb was; was] ++ x :: evs') =
            KeyState.documented was (x :: evs')) as ->; [|done].
    unfold KeyState.documented. rewrite pressed_after_app.
    by destruct was, (x :: evs') eqn:E; rewrite <-?E; simpl; destruct (KeyState.pressed_after _ _).
  - destruct evs as [|a [|b [|c [|d [|e [|f evs]]]]]]; [done|..]; simpl in H6; try lia;
      destruct was, a; try done; try destruct b; try done; try destruct c; try done;
      try destruct d; try done; try destruct e; try done; vm_compute; intuition congruence.
Qed.

(** The exact limit of that refinement. For the real, alternating edges of a key within
    one frame, the resulting state is the documented one if and only if the
    number of edges is zero or leaves 1 or 2 modulo 6; three edges (press,
    release, press) already read as "held since the last frame". *)
Theorem keystate_documentation_limit was evs :
  KeyState.alternating was evs = true →
  KeyState.run_frame was evs = KeyState.documented was evs ↔
  evs = [] ∨ len evs mod 6 = 1 ∨ len evs mod 6 = 2.
Proof.
  intros Ha. destruct evs as [|b evs]; [by destruct was; naive_solver|].
  rewrite (run_frame_exact_aux (length (b :: evs))) by done. naive_solver.
Qed.

Lemma keystate_documentation_limit_witness :
  KeyState.run_frame false [true; false; true] ≠ KeyState.documented false [true; false; true].
Proof.
  intros H. apply (keystate_documentation_limit false [true; false; true] eq_refl) in H.
  vm_compute in H. intuition congruence.
Defined.

(** ** The input record *)
Lemma input_new_wf : Input.wf Input.new.
Proof. unfold Input.wf, fits. vm_compute. intuition congruence. Qed.

Lemma input_step_wf i : Input.wf i → Input.wf (Input.step i).
Proof. intros [Hk Hr]. split; [|done]. simpl. unfold len in *. by rewrite length_map. Qed.

Lemma input_handle_ok i k b :
  Input.wf i → 0 ≤ k < 1024 →
  ∃ i' ks, Input.handle_incoming_state i k b = Ok i' ∧ keys i !! Z.to_nat k = Some ks ∧
    i' = {| mouse_x := mouse_x i; mouse_y := mouse_y i;
            keys := <[Z.to_nat k := KeyState.handle_incoming_state ks b]> (keys i);
            history_last_index := history_last_index i +u[64] 1;
            history_ring := <[Z.to_nat ((history_last_index i +u[64] 1) mod HISTORY_SIZE)
                             := {| trigger := b; key := k |}]> (history_ring i) |}.
Proof.
  intros (Hk & Hr & _) Hb. unfold Input.handle_incoming_state.
  rewrite update_in by (rewrite Hr; apply Z.mod_pos_bound; done). simpl.
  destruct (index_in (keys i) k) as (ks & -> & Hks); [lia|]. simpl.
  rewrite update_in by lia. simpl. eauto.
Qed.

Lemma input_handle_wf i k b i' :
  Input.wf i → Input.handle_incoming_state i k b = Ok i' → Input.wf i'.
Proof.
  intros (Hk & Hr & Hh & Hx & Hy). unfold Input.handle_incoming_state. intros. inv_ok.
  split_and!; simpl; rewrite ?len_insert; auto with fomos lia.
Qed.

Lemma input_handle_bad_key i k b :
  Input.wf i → k < 0 ∨ 1024 ≤ k → Input.handle_incoming_state i k b = Panic PIndex.
Proof.
  intros (Hk & Hr & _) Hb. unfold Input.handle_incoming_state.
  rewrite update_in by (rewrite Hr; apply Z.mod_pos_bound; done). simpl.
  rewrite index_out; [done|lia].
Qed.

(** *** The history ring *)
Lemma ring_of_new : Input.ring_of [] Input.new.
Proof. split; [done|]. unfold len. simpl. lia. Qed.

Lemma ring_of_handle h i e i' :
  Input.wf i → Input.ring_of h i → len h + 1 < 2 ^ 64 →
  Input.handle_incoming_state i (key e) (trigger e) = Ok i' →
  Input.ring_of (h ++ [e]) i'.
Proof.
  intros (_ & Hlr & _) [Hi Hr] Hb. unfold Input.handle_incoming_state. rewrite Hi.
  rewrite wrap_small by (unfold fits; pose proof (len_nonneg h); lia).
  intros (ring & Hring & (k & _ & (ks & _ & [= <-])%bind_ok)%bind_ok)%bind_ok.
  split; simpl; rewrite len_app, len_cons, len_nil; [lia|].
  intros n Hn Hpos. unfold HISTORY_SIZE in *. destruct (decide (n = len h + 1)) as [->|Hne].
  - rewrite (index_update_eq _ _ _ _ Hring). replace (len h + 1 - 1) with (len h) by lia.
    rewrite index_snoc. by destruct e.
  - rewrite (index_update_ne _ _ _ (n mod 64) _ Hring), Hr, index_app_l; [done|lia..|].
    intros Heq. apply Hne. Z.div_mod_to_equations. lia.
Qed.

(** The events a key received, in order. *)
Definition key_edges (k : Z) (evs : list InputEvent) : list bool :=
  trigger <$> filter (λ e, key e = k) evs.

Lemma handle_all_spec h i evs :
  Input.wf i → Input.ring_of h i → Forall (λ e, 0 ≤ key e < 1024) evs → len h + len evs < 2 ^ 64 →
  ∃ i', Input.handle_all i evs = Ok i' ∧ Input.wf i' ∧ Input.ring_of (h ++ evs) i' ∧
    ∀ k, 0 ≤ k → keys i' !! Z.to_nat k =
      (λ s, fold_left KeyState.handle_incoming_state (key_edges k evs) s) <$> keys i !! Z.to_nat k.
Proof.
  revert h i; induction evs as [|e evs IH]; intros h i Hwf Hring Hk Hb.
  { exists i. rewrite app_nil_r. split_and!; try done. intros k _. by destruct (_ !! _). }
  inversion_clear Hk as [|? ? Hke Hks]. rewrite len_cons in Hb. pose proof (len_nonneg evs).
  destruct (input_handle_ok i (key e) (trigger e)) as (i1 & ks & Hi1 & Hl & Heq); [done..|].
  destruct (IH (h ++ [e]) i1) as (i2 & H2 & Hwf2 & Hr2 & Hk2);
    [by eapply input_handle_wf|eapply ring_of_handle; [..|done]; try done; lia|done| |].
  { rewrite len_app, len_cons, len_nil. lia. }
  exists i2. rewrite <-app_assoc in Hr2. split_and!; [|done..|].
  { unfold Input.handle_all in *. simpl. by rewrite Hi1. }
  intros k Hk0. rewrite Hk2 by done. rewrite Heq. simpl. unfold key_edges. rewrite filter_cons.
  case_decide as Hd; [subst k|].
  - rewrite Hl, list_lookup_insert_eq; [done|by eapply lookup_lt_Some].
  - rewrite list_lookup_insert_ne by lia. done.
Qed.

Lemma input_history_ring evs :
  Forall (λ e, 0 ≤ key e < 1024) evs → len evs < 2 ^ 64 →
  ∃ i, Input.handle_all Input.new evs = Ok i ∧ Input.ring_of evs i.
Proof.
  intros Hk Hb. destruct (handle_all_spec [] Input.new evs) as (i & Hi & _ & Hr & _);
    [apply input_new_wf|apply ring_of_new|done|done|by exists i].
Qed.

(** The input record after boot. Delivering any sequence of events whose
    key codes are below 1024 never panics; afterwards every key is in the state
    its own edges lead to (no key disturbs another), the index counts the events
    and the ring holds the last 64 of them, event number [n] in slot [n mod 64]. *)
Theorem input_history_correct evs :
  Forall (λ e, 0 ≤ key e < 1024) evs → len evs < 2 ^ 64 →
  ∃ i, Input.handle_all Input.new evs = Ok i ∧ Input.wf i ∧ Input.ring_of evs i ∧
    ∀ k, 0 ≤ k < 1024 → keys i !! Z.to_nat k =
      Some (fold_left KeyState.handle_incoming_state (key_edges k evs) KeyState.Off).
Proof.
  intros Hk Hb.
  destruct (handle_all_spec [] Input.new evs) as (i & Hi & Hwf & Hr & Hks);
    [apply input_new_wf|apply ring_of_new|done|done|].
  exists i. split_and!; try done. intros k Hk0. rewrite Hks by lia.
  unfold Input.new. cbn [keys]. by rewrite lookup_replicate_2 by lia.
Qed.

Lemma input_history_correct_witness :
  ∃ i, Input.handle_all Input.new [ {| trigger := true; key := 30 |}; {| trigger := false; key := 30 |} ] = Ok i ∧
    keys i !! 30%nat = Some KeyState.OffTransientOn ∧ history_last_index i = 2.
Proof.
  destruct (input_history_correct [ {| trigger := true; key := 30 |}; {| trigger := false; key := 30 |} ])
    as (i & Hi & _ & [Hh _] & Hk); [repeat constructor; simpl; lia|reflexivity|].
  exists i. split; [exact Hi|]. split; [|exact Hh].
  apply (Hk 30). lia.
Defined.

(** Error behaviour of the event handler. On a well-formed record it
    returns exactly for the key codes [0..1023] and otherwise panics on the key
    array; a record it returns is well-formed again, so the panic is the only
    way the handler can go wrong. *)
Theorem input_handler_total_iff i k b :
  Input.wf i →
  (0 ≤ k < 1024 → ∃ i', Input.handle_incoming_state i k b = Ok i' ∧ Input.wf i') ∧
  (¬ 0 ≤ k < 1024 → Input.handle_incoming_state i k b = Panic PIndex).
Proof.
  intros Hwf. split; intros Hk.
  - destruct (input_handle_ok i k b Hwf Hk) as (i' & ks & Hi & _).
    eauto using input_handle_wf.
  - apply input_handle_bad_key; [done|lia].
Qed.

Lemma input_handler_total_iff_witness :
  Input.handle_incoming_state Input.new 1024 true = Panic PIndex.
Proof. apply (input_handler_total_iff Input.new 1024 true input_new_wf). lia. Defined.
