(* ===== verification/Bytes.v ===== *)
(** Byte-addressed memory: what the kernel sees through raw pointers
    ([read_volatile], [write_volatile] on [*mut u16], [*mut Desc], ..). Integers
    are stored little-endian, as x86-64 stores them. *)
From S2P Require Import Prelude.

(** An address holds a byte; addresses never written hold 0, which stands for
    any content, since every theorem quantifies over the whole map. *)
Abbreviation mem := (gmap Z Z).

Definition load8 (m : mem) (a : Z) : Z := default 0 (m !! a) mod 256.

(** The [n]-byte little-endian integer at [a]. *)
Fixpoint load (n : nat) (m : mem) (a : Z) : Z :=
  match n with
  | O => 0
  | S n => load8 m a + 256 * load n m (a + 1)
  end.

Fixpoint store (n : nat) (m : mem) (a v : Z) : mem :=
  match n with
  | O => m
  | S n => <[a := v mod 256]> (store n m (a + 1) (v / 256))
  end.

Fixpoint store_bytes (m : mem) (a : Z) (bs : list Z) : mem :=
  match bs with
  | [] => m
  | b :: bs => <[a := b]> (store_bytes m (a + 1) bs)
  end.

Definition load_bytes (n : nat) (m : mem) (a : Z) : list Z :=
  (λ i, load8 m (a + Z.of_nat i)) <$> seq 0 n.

(** The bytes of a little-endian integer. *)
Fixpoint le_bytes (n : nat) (v : Z) : list Z :=
  match n with
  | O => []
  | S n => v mod 256 :: le_bytes n (v / 256)
  end.

(** Half-open byte ranges. *)
Definition disjoint_ranges (a n b k : Z) : Prop := a + n ≤ b ∨ b + k ≤ a ∨ n ≤ 0 ∨ k ≤ 0.

(** Two memories agree at every address outside [a, a+n). *)
Definition same_outside (a n : Z) (m m' : mem) : Prop :=
  ∀ x, x < a ∨ a + n ≤ x → load8 m' x = load8 m x.

(** ** Lemmas *)
Lemma load8_insert m a b x :
  load8 (<[a := b]> m) x = if decide (a = x) then b mod 256 else load8 m x.
Proof. unfold load8. rewrite lookup_insert. by case_decide. Qed.

Lemma load8_range m a : 0 ≤ load8 m a < 256.
Proof. unfold load8. apply Z.mod_pos_bound. lia. Qed.

Lemma load_range n m a : 0 ≤ load n m a < 256 ^ Z.of_nat n.
Proof.
  revert a; induction n as [|n IH]; intros a; [by simpl; lia|].
  cbn [load]. rewrite Nat2Z.inj_succ, Z.pow_succ_r by lia.
  pose proof (load8_range m a). specialize (IH (a + 1)). lia.
Qed.

Lemma load_ext n m m' a :
  (∀ x, a ≤ x < a + Z.of_nat n → load8 m' x = load8 m x) → load n m' a = load n m a.
Proof.
  revert a; induction n as [|n IH]; intros a H; [done|]. cbn [load].
  rewrite H, IH; [done|intros; apply H; lia|lia].
Qed.

Lemma store_outside n m a v : same_outside a (Z.of_nat n) m (store n m a v).
Proof.
  revert a v; induction n as [|n IH]; intros a v x Hx; [done|]. cbn [store].
  rewrite load8_insert. case_decide; [lia|]. apply IH. lia.
Qed.

Lemma load_store n m a v : load n (store n m a v) a = v mod 256 ^ Z.of_nat n.
Proof.
  revert a v; induction n as [|n IH]; intros a v; [by rewrite Z.mod_1_r|]. cbn [load store].
  rewrite load8_insert, decide_True, (load_ext n (store n m (a + 1) (v / 256))) by
    (done || (intros; rewrite load8_insert; case_decide; [lia|done])).
  rewrite IH, Nat2Z.inj_succ, Z.pow_succ_r, Zmod_mod by lia.
  rewrite Z.rem_mul_r by lia. lia.
Qed.

Lemma store_bytes_outside m a bs : same_outside a (len bs) m (store_bytes m a bs).
Proof.
  revert a; induction bs as [|b bs IH]; intros a x Hx; [done|]. cbn [store_bytes].
  rewrite len_cons in Hx. pose proof (len_nonneg bs).
  rewrite load8_insert. case_decide; [lia|]. apply IH. lia.
Qed.

Lemma same_outside_load n m m' a k x :
  same_outside a k m m' → disjoint_ranges a k x (Z.of_nat n) → load n m' x = load n m x.
Proof.
  intros Hs Hd. apply load_ext. intros y Hy. destruct (decide (k ≤ 0)).
  - apply Hs. lia.
  - apply Hs. unfold disjoint_ranges in Hd. lia.
Qed.

Lemma same_outside_load8 m m' a k x :
  same_outside a k m m' → disjoint_ranges a k x 1 → load8 m' x = load8 m x.
Proof. intros Hs Hd. apply Hs. unfold disjoint_ranges in Hd. lia. Qed.

Lemma load_bytes_ext n m m' a :
  (∀ x, a ≤ x < a + Z.of_nat n → load8 m' x = load8 m x) → load_bytes n m' a = load_bytes n m a.
Proof.
  intros H. apply list_fmap_ext. intros i x [-> Hi]%lookup_seq. apply H. lia.
Qed.

Lemma load_bytes_cons n m a : load_bytes (S n) m a = load8 m a :: load_bytes n m (a + 1).
Proof.
  unfold load_bytes. cbn [seq fmap list_fmap]. rewrite Z.add_0_r. f_equal.
  rewrite <-fmap_S_seq, <-list_fmap_compose. apply list_fmap_ext. intros i x _. simpl. f_equal. lia.
Qed.

Lemma load_bytes_store m a bs :
  Forall (fits 8) bs → load_bytes (length bs) (store_bytes m a bs) a = bs.
Proof.
  revert a; induction bs as [|b bs IH]; intros a Hb; [done|]. inversion_clear Hb as [|? ? Hb1 Hb2].
  cbn [length store_bytes]. rewrite load_bytes_cons, load8_insert, decide_True by done.
  f_equal; [by apply Z.mod_small|]. etrans; [|by apply (IH (a + 1))].
  apply load_bytes_ext. intros x Hx. rewrite load8_insert. case_decide; [lia|done].
Qed.

Lemma le_bytes_length n v : length (le_bytes n v) = n.
Proof. revert v; induction n; intros; simpl; auto. Qed.

Lemma le_bytes_fits n v : Forall (fits 8) (le_bytes n v).
Proof.
  revert v; induction n; intros; simpl; constructor; auto. apply Z.mod_pos_bound. lia.
Qed.

(** Storing an integer is storing its bytes. *)
Lemma store_le_bytes n m a v : store n m a v = store_bytes m a (le_bytes n v).
Proof. revert a v; induction n as [|n IH]; intros a v; simpl; [done|by rewrite IH]. Qed.

Lemma store_bytes_app m a b1 b2 :
  store_bytes m a (b1 ++ b2) = store_bytes (store_bytes m (a + len b1) b2) a b1.
Proof.
  revert a; induction b1 as [|b b1 IH]; intros a; simpl; [by rewrite Z.add_0_r|].
  rewrite IH, len_cons. do 3 f_equal. lia.
Qed.

Lemma load_store_le n m a v : load n (store_bytes m a (le_bytes n v)) a = v mod 256 ^ Z.of_nat n.
Proof. rewrite <-store_le_bytes. apply load_store. Qed.

(** A read that misses the bytes written. *)
Lemma load_store_bytes_ne n m a bs x :
  disjoint_ranges a (len bs) x (Z.of_nat n) → load n (store_bytes m a bs) x = load n m x.
Proof. apply same_outside_load, store_bytes_outside. Qed.

Lemma len_le_bytes n v : len (le_bytes n v) = Z.of_nat n.
Proof. unfold len. by rewrite le_bytes_length. Qed.

Lemma same_outside_on a n m m' x k :
  same_outside a n m m' → disjoint_ranges a n x k → ∀ y, x ≤ y < x + k → load8 m' y = load8 m y.
Proof.
  intros Hs Hd y Hy. apply Hs. unfold disjoint_ranges in Hd. lia.
Qed.

Lemma same_outside_refl a n m : same_outside a n m m.
Proof. by intros x _. Qed.
(** Ranges written one after the other, both inside a larger one. *)
Lemma same_outside_trans a n a1 n1 a2 n2 m1 m2 m3 :
  same_outside a1 n1 m1 m2 → same_outside a2 n2 m2 m3 →
  a ≤ a1 → a1 + n1 ≤ a + n → a ≤ a2 → a2 + n2 ≤ a + n → same_outside a n m1 m3.
Proof. intros H1 H2 ? ? ? ? x Hx. rewrite H2, H1; [done|lia..]. Qed.

Lemma store_bytes_cons m a b bs : store_bytes m a (b :: bs) = <[a := b]> (store_bytes m (a + 1) bs).
Proof. done. Qed.

Lemma store_bytes_snoc m a bs b : store_bytes m a (bs ++ [b]) = <[a + len bs := b]> (store_bytes m a bs).
Proof.
  revert a; induction bs as [|c bs IH]; intros a.
  - cbn. by rewrite Z.add_0_r.
  - cbn [app]. rewrite !store_bytes_cons, IH, len_cons. pose proof (len_nonneg bs).
    rewrite insert_insert_ne by lia. by rewrite Z.add_assoc.
Qed.

Lemma load8_store_bytes m a bs i b :
  bs !! i = Some b → load8 (store_bytes m a bs) (a + Z.of_nat i) = b mod 256.
Proof.
  revert a i; induction bs as [|c bs IH]; intros a i Hi; [done|].
  rewrite store_bytes_cons, load8_insert. destruct i as [|i].
  - injection Hi as ->. by rewrite decide_True by lia.
  - rewrite decide_False by lia. replace (a + Z.of_nat (S i)) with (a + 1 + Z.of_nat i) by lia. by apply IH.
Qed.

#[export] Hint Resolve le_bytes_fits load8_range : fomos.
#[export] Hint Rewrite le_bytes_length len_le_bytes : fomos.

#[global] Arguments load : simpl never.
#[global] Arguments store : simpl never.
#[global] Arguments store_bytes : simpl never.
#[global] Arguments load_bytes : simpl never.
#[global] Arguments le_bytes : simpl never.
