(* ===== verification/Interfaces.v ===== *)
(** Interfaces to the code and the hardware the kernel calls but does not
    contain: each is a class of operations with the laws their documentation
    gives, and a concrete instance that shows the laws can hold together. *)
From S2P Require Import Prelude.

(** ** The [x86_64] crate's address types

    [VirtAddr::new] and [PhysAddr::new] panic on a value that is not a valid
    address; [+] on a [VirtAddr] builds a new one. *)
Class X86Addr := {
  PhysAddr_new : Z → res Z;
  VirtAddr_new : Z → res Z;
  PhysAddr_new_ok a : 0 ≤ a < 2 ^ 52 → PhysAddr_new a = Ok a;
  PhysAddr_new_bad a : 2 ^ 52 ≤ a < 2 ^ 64 → ∃ p, PhysAddr_new a = Panic p;
  VirtAddr_new_ok a : 0 ≤ a < 2 ^ 47 → VirtAddr_new a = Ok a;
  VirtAddr_new_range a v : VirtAddr_new a = Ok v → fits 64 v
}.

Definition VirtAddr_add `{X86Addr} (v off : Z) : res Z := VirtAddr_new (v + off).
Definition PhysAddr_add `{X86Addr} (p off : Z) : res Z := PhysAddr_new (p + off).

(** [VirtAddr::new] sign-extends bit 47. *)
Program Definition x86_addr_instance : X86Addr := {|
  PhysAddr_new a := if a <? 2 ^ 52 then Ok a else Panic (PExplicit "PhysAddr::new");
  VirtAddr_new a := if (0 <=? a) && (a <? 2 ^ 47) then Ok a
                    else if (0 <=? a) && (a <? 2 ^ 48) then Ok (a + (2 ^ 64 - 2 ^ 48))
                    else Panic (PExplicit "VirtAddr::new")
|}.
Next Obligation. intros a Ha. simpl. destruct (Z.ltb_spec a (2 ^ 52)); [done|lia]. Qed.
Next Obligation. intros a Ha. simpl. destruct (Z.ltb_spec a (2 ^ 52)); [lia|eauto]. Qed.
Next Obligation. intros a Ha. simpl. destruct (Z.leb_spec 0 a), (Z.ltb_spec a (2 ^ 47)); simpl; lia || done. Qed.
Next Obligation.
  intros a v. simpl. destruct (Z.leb_spec 0 a), (Z.ltb_spec a (2 ^ 47)), (Z.ltb_spec a (2 ^ 48)); simpl;
    intros [= <-]; unfold fits; lia.
Qed.

(** ** I/O ports and the PCI configuration mechanism they give access to

    [conf s a] is the configuration dword selected by the address word [a];
    [written s] the dwords written so far, oldest first. *)
Class PciPorts (S : Type) := {
  port_write32 : Z → Z → M S unit;
  port_read32 : Z → M S Z;
  conf : S → Z → Z;
  written : S → list (Z * Z);
  selected : S → Z;
  conf_range s a : 0 ≤ conf s a < 2 ^ 32;
  select_ok a s : ∃ s', port_write32 0xCF8 a s = Ok (tt, s') ∧
    selected s' = a ∧ conf s' = conf s ∧ written s' = written s;
  read_ok s : ∃ s', port_read32 0xCFC s = Ok (conf s (selected s), s') ∧
    selected s' = selected s ∧ conf s' = conf s ∧ written s' = written s;
  write_ok v s : ∃ s', port_write32 0xCFC v s = Ok (tt, s') ∧
    selected s' = selected s ∧ written s' = written s ++ [(selected s, v)]
}.

(** A configuration space that stores what is written to it. *)
Record PortSpace := { ps_selected : Z; ps_conf : gmap Z Z; ps_written : list (Z * Z) }.

Program Definition port_space_instance : PciPorts PortSpace := {|
  port_write32 port v s :=
    Ok (tt, if port =? 0xCF8 then {| ps_selected := v; ps_conf := ps_conf s; ps_written := ps_written s |}
            else if port =? 0xCFC then
              {| ps_selected := ps_selected s; ps_conf := <[ps_selected s := v]> (ps_conf s);
                 ps_written := ps_written s ++ [(ps_selected s, v)] |}
            else s);
  port_read32 port s :=
    Ok (if port =? 0xCFC then default 0xFFFFFFFF (ps_conf s !! ps_selected s) mod 2 ^ 32 else 0, s);
  conf s a := default 0xFFFFFFFF (ps_conf s !! a) mod 2 ^ 32;
  written := ps_written;
  selected := ps_selected
|}.
Next Obligation. intros. apply Z.mod_pos_bound. lia. Qed.
Next Obligation. intros. simpl. eauto. Qed.
Next Obligation. intros. simpl. eauto. Qed.
Next Obligation. intros. simpl. eauto. Qed.

(** ** Memory-mapped device registers, accessed with 32-bit volatile loads and
    stores; [mlog] is the sequence of stores so far. *)
Class Mmio (D : Type) := {
  mmio_load : Z → M D Z;
  mmio_store : Z → Z → M D unit;
  mlog : D → list (Z * Z);
  mmio_store_ok a v d : ∃ d', mmio_store a v d = Ok (tt, d') ∧ mlog d' = mlog d ++ [(a, v)];
  mmio_load_ok a d : ∃ v d', mmio_load a d = Ok (v, d') ∧ mlog d' = mlog d ∧ fits 32 v
}.

(** The I/O APIC's register window: a select register at [base] and a data
    window 16 bytes above it. [rw r] are the bits of the register [r] that software
    can read back as it wrote them, and [ireg d r] what they hold. In the low half
    of a redirection entry these are the vector, the delivery and destination modes,
    the polarity, the trigger mode and the mask: bits 0 to 11, 13, 15 and 16; in its
    high half, the destination: bits 24 to 31. The others, the delivery status, the
    remote IRR and the reserved bits, are read as anything, each time. *)
Class IoApicRegs (D : Type) `{Mmio D} (base : Z) := {
  isel : D → Z;
  rw : Z → Z;
  ireg : D → Z → Z;
  rw_low i : 0 ≤ i < 24 → rw (0x10 + 2 * i) = 0x1AFFF;
  rw_high i : 0 ≤ i < 24 → rw (0x11 + 2 * i) = 0xFF000000;
  ioapic_select_ok r d : fits 8 r → ∃ d', mmio_store base r d = Ok (tt, d') ∧ isel d' = r ∧ ireg d' = ireg d;
  ioapic_window_load_ok d : ∃ v d', mmio_load (base + 0x10) d = Ok (v, d') ∧ fits 32 v ∧
    Z.land v (rw (isel d)) = ireg d (isel d) ∧ isel d' = isel d ∧ ireg d' = ireg d;
  ioapic_window_store_ok v d : fits 32 v → ∃ d', mmio_store (base + 0x10) v d = Ok (tt, d') ∧
    isel d' = isel d ∧ ireg d' (isel d) = Z.land v (rw (isel d)) ∧ ∀ r, r ≠ isel d → ireg d' r = ireg d r
}.

(** A register file behind the window, with the writable bits of the 82093AA. *)
Record IoApicMem := { im_sel : Z; im_regs : gmap Z Z; im_log : list (Z * Z) }.

Definition im_base : Z := 0xFEC00000.
Definition im_rw (r : Z) : Z :=
  if (0x10 <=? r) && (r <? 0x40) then if Z.even r then 0x1AFFF else 0xFF000000
  else if r =? 0 then 0x0F000000 else 0.
Definition im_value (d : IoApicMem) (r : Z) : Z := default 0x10000 (im_regs d !! r) mod 2 ^ 32.

Program Definition mmio_instance : Mmio IoApicMem := {|
  mmio_load a d := Ok (if a =? im_base + 0x10 then im_value d (im_sel d) else 0, d);
  mmio_store a v d :=
    Ok (tt, {| im_sel := if a =? im_base then v mod 2 ^ 8 else im_sel d;
               im_regs := if a =? im_base + 0x10
                          then <[im_sel d := Z.lor (Z.land v (im_rw (im_sel d))) (Z.ldiff (im_value d (im_sel d)) (im_rw (im_sel d)))]> (im_regs d)
                          else im_regs d;
               im_log := im_log d ++ [(a, v)] |});
  mlog := im_log
|}.
Next Obligation. intros. simpl. eauto. Qed.
Next Obligation.
  intros a d. simpl. eexists _, _. split; [done|]. split; [done|].
  unfold fits. destruct (_ =? _); [apply Z.mod_pos_bound; lia|lia].
Qed.

Lemma im_rw_fits r : fits 32 (im_rw r).
Proof. unfold im_rw. destruct (_ && _), (Z.even r), (r =? 0); by split; vm_compute. Qed.

(** The bits that a mask of 32 bits selects, after a masked write. *)
Lemma masked_write m v o :
  fits 32 m → Z.land (Z.lor (Z.land v m) (Z.ldiff o m) mod 2 ^ 32) m = Z.land v m.
Proof.
  intros Hm. apply Z.bits_inj'. intros n Hn. rewrite !Z.land_spec. destruct (Z.testbit m n) eqn:Em; [|by rewrite !andb_false_r].
  assert (n < 32) as Hn32.
  { destruct (Z.lt_ge_cases n 32); [done|]. rewrite Z.bits_above_log2 in Em; [done|apply Hm|].
    destruct (decide (m = 0)) as [->|]; [simpl; lia|]. apply Z.log2_lt_pow2; [unfold fits in Hm; lia|].
    eapply Z.lt_le_trans; [apply Hm|]. apply Z.pow_le_mono_r; lia. }
  rewrite Z.mod_pow2_bits_low, Z.lor_spec, Z.land_spec, Z.ldiff_spec, Em by done.
  by destruct (Z.testbit v n), (Z.testbit o n).
Qed.

#[local] Existing Instance mmio_instance.
Program Definition ioapic_instance : IoApicRegs IoApicMem im_base := {|
  isel := im_sel;
  rw := im_rw;
  ireg d r := Z.land (im_value d r) (im_rw r)
|}.
Next Obligation. intros i Hi. unfold im_rw. rewrite Z.even_add_mul_2. bsplit; lia || done. Qed.
Next Obligation. intros i Hi. unfold im_rw. rewrite Z.even_add_mul_2. bsplit; lia || done. Qed.
Next Obligation. intros r d Hr. eexists. split; [done|]. split; [by apply Z.mod_small|done]. Qed.
Next Obligation.
  intros d. eexists _, _. split; [done|]. split; [apply wrap_fits; lia|]. done.
Qed.
Next Obligation.
  intros v d Hv. eexists. split; [done|]. split; [done|]. cbn beta. split.
  - unfold im_value at 1. cbn [im_regs im_sel]. rewrite Z.eqb_refl, lookup_insert_eq.
    cbn [default from_option id]. apply masked_write, im_rw_fits.
  - intros r Hr. unfold im_value. cbn [im_regs]. by rewrite Z.eqb_refl, lookup_insert_ne.
Qed.
