(* ===== verification/Pci.v ===== *)
(** PCI configuration space ([bootloader/kernel/src/pci.rs]): the port
    accesses, base address registers and the enumeration of the bus. *)
From S2P Require Import Prelude Interfaces.

(** The offsets of [PCIConfigRegisters] ([as u8]). *)
Inductive PCIConfigRegisters :=
| PCIDeviceID | PCIVendorID | PCIStatus | PCICommand | PCIClassCode | PCISubclass | PCIProgIF
| PCIRevisionID | PCIBIST | PCIHeaderType | PCILatencyTimer | PCICacheLineSize
| PCIBAR0 | PCIBAR1 | PCIBAR2 | PCIBAR3 | PCIBAR4 | PCIBAR5
| PCICardbusCISPointer | PCISubsystemID | PCISubsystemVendorID | PCIExpansionROMBaseAddress
| PCICapabilitiesPointer | PCIMaxLatency | PCIMinGrant | PCIInterruptPIN | PCIInterruptLine.

Definition reg_u8 (r : PCIConfigRegisters) : Z :=
  match r with
  | PCIDeviceID => 0x2 | PCIVendorID => 0x0 | PCIStatus => 0x6 | PCICommand => 0x4
  | PCIClassCode => 0xB | PCISubclass => 0xA | PCIProgIF => 0x9 | PCIRevisionID => 0x8
  | PCIBIST => 0xF | PCIHeaderType => 0xE | PCILatencyTimer => 0xD | PCICacheLineSize => 0xC
  | PCIBAR0 => 0x10 | PCIBAR1 => 0x14 | PCIBAR2 => 0x18 | PCIBAR3 => 0x1C | PCIBAR4 => 0x20
  | PCIBAR5 => 0x24 | PCICardbusCISPointer => 0x28 | PCISubsystemID => 0x2E
  | PCISubsystemVendorID => 0x2C | PCIExpansionROMBaseAddress => 0x30
  | PCICapabilitiesPointer => 0x34 | PCIMaxLatency => 0x3F | PCIMinGrant => 0x3E
  | PCIInterruptPIN => 0x3D | PCIInterruptLine => 0x3C
  end.

Record Pci := { bus : Z; slot : Z; func : Z }.

#[export] Instance pci_eq_dec : EqDecision Pci.
Proof. solve_decision. Defined.

Inductive Bar :=
| BarNone
| BarIo (port : Z)
| BarMm (addr : Z).

#[export] Instance bar_eq_dec : EqDecision Bar.
Proof. solve_decision. Defined.

(** The address word [config_address] writes to port 0xCF8. *)
Definition config_word (bus slot func off : Z) : Z :=
  Z.lor (Z.lor (Z.lor (Z.lor (bus <<u[32] 16) (slot <<u[32] 11)) (func <<u[32] 8))
               (Z.land off 0xfc)) 0x80000000.

Section config.
Context {S : Type} `{PciPorts S}.

Definition config_address (bus slot func off : Z) : M S unit :=
  port_write32 0xCF8 (config_word bus slot func off).

Definition config_read_u32 (bus slot func off : Z) : M S Z :=
  config_address bus slot func off ;;
  port_read32 0xCFC.

Definition config_read_u16 (bus slot func off : Z) : M S Z :=
  config_address bus slot func off ;;
  read ← port_read32 0xCFC;
  mret (Z.land (Z.shiftr read (Z.land off 2 * 8)) 0xffff).

Definition config_read_u8 (bus slot func off : Z) : M S Z :=
  config_address bus slot func off ;;
  read ← port_read32 0xCFC;
  mret (Z.land (Z.shiftr read (Z.land off 3 * 8)) 0xff).

Definition config_write_u32 (bus slot func off data : Z) : M S unit :=
  config_address bus slot func off ;;
  port_write32 0xCFC data.

(** [!x] on a [u32]. *)
Definition not32 (x : Z) : Z := wrap 32 (Z.lnot x).

Definition config_write_u16 (bus slot func off data : Z) : M S unit :=
  config_address bus slot func off ;;
  read ← port_read32 0xCFC;
  port_write32 0xCFC
    (Z.lor (Z.land read (not32 (0xFFFF <<u[32] (Z.land off 2 * 8))))
           (data <<u[32] (Z.land off 2 * 8))).

Definition config_write_u8 (bus slot func off data : Z) : M S unit :=
  config_address bus slot func off ;;
  read ← port_read32 0xCFC;
  port_write32 0xCFC
    (Z.lor (Z.land read (not32 (0xFF <<u[32] (Z.land off 3 * 8))))
           (data <<u[32] (Z.land off 3 * 8))).
End config.

Module PciDev.
Section dev.
Context {S : Type} `{PciPorts S}.

Definition config_read_u8 (p : Pci) (off : Z) : M S Z := Pci.config_read_u8 (bus p) (slot p) (func p) off.
Definition config_write_u8 (p : Pci) (off val : Z) : M S unit :=
  Pci.config_write_u8 (bus p) (slot p) (func p) off val.
Definition config_read_u16 (p : Pci) (off : Z) : M S Z := Pci.config_read_u16 (bus p) (slot p) (func p) off.
Definition config_write_u16 (p : Pci) (off val : Z) : M S unit :=
  Pci.config_write_u16 (bus p) (slot p) (func p) off val.
Definition config_read_u32 (p : Pci) (off : Z) : M S Z := Pci.config_read_u32 (bus p) (slot p) (func p) off.

Definition idx_to_enum (idx : Z) : PCIConfigRegisters :=
  if idx =? 0 then PCIBAR0 else if idx =? 1 then PCIBAR1 else if idx =? 2 then PCIBAR2
  else if idx =? 3 then PCIBAR3 else if idx =? 4 then PCIBAR4 else PCIBAR5.

Definition get_bar `{X86Addr} (p : Pci) (idx : Z) : M S Bar :=
  bar ← config_read_u32 p (reg_u8 (idx_to_enum idx));
  if bar =? 0 then mret BarNone
  else
    let io := negb (Z.land bar 0x1 =? 0) in
    if io then mret (BarIo (wrap 32 (Z.land bar 0xFFFFFFFFFFFFFFFC)))
    else
      let bit64 := negb (Z.land bar 0x4 =? 0) in
      let not_last := idx <? 5 in
      bar ← (if bit64 && not_last
             then high ← Pci.config_read_u32 (bus p) (slot p) (func p)
                           (reg_u8 PCIBAR0 +u[8] ((idx +u[8] 1) *u[8] 4));
                  mret (Z.lor bar (high <<u[64] 32))
             else mret bar);
      let masked := Z.land bar 0xFFFFFFFFFFFFFFF0 in
      if masked =? 0 then mret BarNone
      else a ← lift (PhysAddr_new masked); mret (BarMm a).

Definition get_irq (p : Pci) : M S Z := config_read_u8 p (reg_u8 PCIInterruptLine).
Definition get_ipin (p : Pci) : M S Z := config_read_u8 p (reg_u8 PCIInterruptPIN).
End dev.
End PciDev.

(** ** Enumeration *)
Module Pcis.
Section scan.
Context {S : Type} `{PciPorts S}.

(** The loop over the functions of a slot; the [break] after a single-function
    device leaves it. *)
Fixpoint scan_funcs (bus slot : Z) (funcs : list Z) (devs : list Pci) : M S (list Pci) :=
  match funcs with
  | [] => mret devs
  | func :: funcs =>
      vendor ← Pci.config_read_u16 bus slot func (reg_u8 PCIVendorID);
      if negb (vendor =? 0xFFFF) then
        device_id ← Pci.config_read_u16 bus slot func (reg_u8 PCIDeviceID);
        header_type ← Pci.config_read_u8 bus slot func (reg_u8 PCIHeaderType);
        let devs := devs ++ [ {| bus := bus; slot := slot; func := func |} ] in
        if (func =? 0) && (Z.land header_type 0x80 =? 0) then mret devs
        else scan_funcs bus slot funcs devs
      else scan_funcs bus slot funcs devs
  end.

Fixpoint scan_slots (bus : Z) (slots : list Z) (devs : list Pci) : M S (list Pci) :=
  match slots with
  | [] => mret devs
  | slot :: slots => devs ← scan_funcs bus slot (range 0 8) devs; scan_slots bus slots devs
  end.

Fixpoint scan_buses (buses : list Z) (devs : list Pci) : M S (list Pci) :=
  match buses with
  | [] => mret devs
  | bus :: buses => devs ← scan_slots bus (range 0 32) devs; scan_buses buses devs
  end.

Definition new : M S (list Pci) := scan_buses (range 0 256) [].
End scan.
End Pcis.

(** ** Specification: configuration space as bytes *)

(** Byte [off] of a function's configuration space. *)
Definition config_byte {S} `{PciPorts S} (s : S) (bus slot func off : Z) : Z :=
  conf s (config_word bus slot func off) / 2 ^ (8 * (off mod 4)) mod 2 ^ 8.

(** What the host bridge decodes from an address word: enable bit, bus, slot,
    function and register offset. *)
Definition decode_word (w : Z) : Z * Z * Z * Z * Z :=
  (w / 2 ^ 31, w / 2 ^ 16 mod 2 ^ 8, w / 2 ^ 11 mod 2 ^ 5, w / 2 ^ 8 mod 2 ^ 3, w mod 2 ^ 8).

(** ** The address word *)
Lemma land_fc off : 0 ≤ off < 256 → Z.land off 0xfc = 4 * (off / 4).
Proof.
  intros. apply Z.eqb_eq. by apply (by_range (λ off, Z.land off 0xfc =? 4 * (off / 4)) 0 256).
Qed.
Lemma land_2 off : 0 ≤ off < 256 → Z.land off 2 * 8 = 8 * (2 * (off / 2) mod 4).
Proof.
  intros. apply Z.eqb_eq.
  by apply (by_range (λ off, Z.land off 2 * 8 =? 8 * (2 * (off / 2) mod 4)) 0 256).
Qed.
Lemma land_3 off : Z.land off 3 * 8 = 8 * (off mod 4).
Proof. change 3 with (Z.ones 2). rewrite Z.land_ones by lia. change (2 ^ 2) with 4. lia. Qed.

Lemma config_word_sum bus slot func off :
  0 ≤ bus < 256 → 0 ≤ slot < 32 → 0 ≤ func < 8 → 0 ≤ off < 256 →
  config_word bus slot func off =
  2 ^ 31 + (bus * 2 ^ 16 + (slot * 2 ^ 11 + (func * 2 ^ 8 + 4 * (off / 4)))).
Proof.
  intros Hb Hs Hf Ho. unfold config_word. rewrite land_fc by done.
  rewrite !shiftl_mul by lia. rewrite !wrap_small by (unfold fits; lia).
  rewrite (lor_add (bus * 2 ^ 16) (slot * 2 ^ 11) 16) by (lia || (Z.div_mod_to_equations; lia)).
  rewrite (lor_add _ (func * 2 ^ 8) 11) by (lia || (Z.div_mod_to_equations; lia)).
  rewrite (lor_add _ (4 * (off / 4)) 8) by (lia || (Z.div_mod_to_equations; lia)).
  rewrite Z.lor_comm. change 0x80000000 with (2 ^ 31).
  rewrite (lor_add (2 ^ 31) _ 31) by (lia || (Z.div_mod_to_equations; lia)). lia.
Qed.

(** The address word selects what was asked for. For every bus, slot below
    32, function below 8 and byte offset, the word [config_address] writes
    decodes to the enable bit, that bus, slot and function, and the offset
    rounded down to its dword. *)
Theorem config_word_decodes bus slot func off :
  0 ≤ bus < 256 → 0 ≤ slot < 32 → 0 ≤ func < 8 → 0 ≤ off < 256 →
  decode_word (config_word bus slot func off) = (1, bus, slot, func, 4 * (off / 4)).
Proof.
  intros Hb Hs Hf Ho. rewrite config_word_sum by done. unfold decode_word.
  rewrite !pair_equal_spec. repeat split; Z.div_mod_to_equations; lia.
Qed.

Lemma config_word_decodes_witness :
  decode_word (config_word 3 31 7 0x3E) = (1, 3, 31, 7, 0x3C).
Proof. apply config_word_decodes; lia. Defined.

(** ** Reads *)
Section reads.
Context {S : Type} `{PciPorts S}.
Implicit Types (s : S) (bus slot func off : Z).

(** What a port sequence may leave behind: the configuration space and the
    write log as they were. *)
Definition unchanged s s' : Prop := conf s' = conf s ∧ written s' = written s.

Lemma config_word_same_dword bus slot func off off' :
  0 ≤ off < 256 → 0 ≤ off' < 256 → off / 4 = off' / 4 →
  config_word bus slot func off = config_word bus slot func off'.
Proof. intros Ho Ho' E. unfold config_word. by rewrite !land_fc, E. Qed.

Lemma select_read w s :
  ∃ s', (port_write32 0xCF8 w ;; port_read32 0xCFC) s = Ok (conf s w, s') ∧
    selected s' = w ∧ unchanged s s'.
Proof.
  destruct (select_ok w s) as (s1 & H1 & Hsel & Hc & Hw).
  destruct (read_ok s1) as (s2 & H2 & Hsel2 & Hc2 & Hw2).
  exists s2. rewrite (M_bind_run _ _ _ _ _ H1), H2, Hsel, Hc.
  unfold unchanged. split_and!; congruence.
Qed.

Lemma config_read_u32_conf bus slot func off s :
  ∃ s', config_read_u32 bus slot func off s = Ok (conf s (config_word bus slot func off), s') ∧
    unchanged s s'.
Proof. destruct (select_read (config_word bus slot func off) s) as (s' & ? & ? & ?). eauto. Qed.

Lemma config_read_map (f : Z → Z) bus slot func off s :
  ∃ s', (config_address bus slot func off ;; read ← port_read32 0xCFC; mret (f read)) s =
        Ok (f (conf s (config_word bus slot func off)), s') ∧ unchanged s s'.
Proof.
  unfold config_address.
  destruct (select_ok (config_word bus slot func off) s) as (s1 & H1 & Hsel & Hc & Hw).
  destruct (read_ok s1) as (s2 & H2 & Hsel2 & Hc2 & Hw2).
  exists s2. rewrite (M_bind_run _ _ _ _ _ H1), (M_bind_run _ _ _ _ _ H2), Hsel, Hc.
  unfold unchanged. split_and!; [done|congruence..].
Qed.

Lemma config_read_u16_conf bus slot func off s :
  0 ≤ off < 256 →
  ∃ s', config_read_u16 bus slot func off s =
        Ok (conf s (config_word bus slot func off) / 2 ^ (8 * (2 * (off / 2) mod 4)) mod 2 ^ 16, s') ∧
    unchanged s s'.
Proof.
  intros Ho. unfold config_read_u16. change 0xffff with (Z.ones 16).
  destruct (config_read_map (λ r, Z.land (Z.shiftr r (Z.land off 2 * 8)) (Z.ones 16)) bus slot func off s)
    as (s' & -> & Hu).
  exists s'. rewrite land_2, land_shiftr by lia. done.
Qed.

Lemma config_read_u8_conf bus slot func off s :
  ∃ s', config_read_u8 bus slot func off s = Ok (config_byte s bus slot func off, s') ∧ unchanged s s'.
Proof.
  unfold config_read_u8. change 0xff with (Z.ones 8).
  destruct (config_read_map (λ r, Z.land (Z.shiftr r (Z.land off 3 * 8)) (Z.ones 8)) bus slot func off s)
    as (s' & -> & Hu).
  exists s'. rewrite land_3, land_shiftr by lia. done.
Qed.

Lemma word_of_bytes s bus slot func off :
  0 ≤ off < 256 →
  conf s (config_word bus slot func off) / 2 ^ (8 * (2 * (off / 2) mod 4)) mod 2 ^ 16 =
  config_byte s bus slot func (2 * (off / 2)) + 2 ^ 8 * config_byte s bus slot func (2 * (off / 2) + 1).
Proof.
  intros Ho. unfold config_byte.
  rewrite (config_word_same_dword bus slot func (2 * (off / 2)) off),
    (config_word_same_dword bus slot func (2 * (off / 2) + 1) off) by lia.
  set (x := conf s _). replace ((2 * (off / 2) + 1) mod 4) with (2 * (off / 2) mod 4 + 1) by lia.
  rewrite Z.mul_add_distr_l, Z.mul_1_r, Z.pow_add_r, <-Z.div_div by lia.
  set (y := x / _). change (2 ^ 16) with (2 ^ 8 * 2 ^ 8). by rewrite Z.rem_mul_r by lia.
Qed.
End reads.

(** Reads see configuration space as bytes. [config_read_u8] returns the
    byte at its offset; [config_read_u16] the little-endian word at its offset
    rounded down to even, odd offsets included. Neither writes the data port nor
    alters the space. *)
Theorem config_reads_are_bytes {S} `{PciPorts S} (s : S) bus slot func off :
  0 ≤ off < 256 →
  (∃ s', config_read_u8 bus slot func off s = Ok (config_byte s bus slot func off, s') ∧ unchanged s s') ∧
  (∃ s', config_read_u16 bus slot func off s =
     Ok (config_byte s bus slot func (2 * (off / 2)) +
         2 ^ 8 * config_byte s bus slot func (2 * (off / 2) + 1), s') ∧ unchanged s s').
Proof.
  intros Ho. split; [apply config_read_u8_conf|].
  rewrite <-word_of_bytes by done. by apply config_read_u16_conf.
Qed.

#[local] Existing Instance port_space_instance.

(** A single virtio-input function at 0:3.0: vendor 1af4, device 1052, one
    32-bit memory BAR, capability pointer 0x40. *)
Definition example_space : PortSpace := {|
  ps_selected := 0;
  ps_conf := {[ 0x80001800 := 0x10521af4; 0x8000180c := 0; 0x80001810 := 0xfebd4008;
                0x80001834 := 0x40 ]};
  ps_written := []
|}.

Lemma config_reads_are_bytes_witness :
  ∃ s', config_read_u16 0 3 0 1 example_space = Ok (0x1af4, s') ∧ unchanged example_space s'.
Proof. exact (proj2 (config_reads_are_bytes example_space 0 3 0 1 ltac:(lia))). Defined.

(** ** Writes *)

(** Byte lane [j] of a dword. *)
Definition lane (v j : Z) : Z := v / 2 ^ (8 * j) mod 2 ^ 8.

Lemma lane_bit v j i : 0 ≤ j → 0 ≤ i → Z.testbit (lane v j) i = (i <? 8) && Z.testbit v (i + 8 * j).
Proof.
  intros Hj Hi. unfold lane. destruct (Z.ltb_spec i 8); simpl.
  - by rewrite Z.mod_pow2_bits_low, Z.div_pow2_bits by lia.
  - by rewrite Z.mod_pow2_bits_high by lia.
Qed.

(** The read-modify-write of a [w]-bit field at bit [n]. *)
Definition put_field (w n read data : Z) : Z :=
  Z.lor (Z.land read (not32 (Z.ones w <<u[32] n))) (data <<u[32] n).

Lemma put_field_bit w n read data i :
  0 ≤ n → 0 ≤ w → n + w ≤ 32 → fits 32 read → fits w data → 0 ≤ i →
  Z.testbit (put_field w n read data) i =
  if (n <=? i) && (i <? n + w) then Z.testbit data (i - n) else Z.testbit read i.
Proof.
  intros Hn Hw Hnw Hr Hd Hi. unfold put_field, not32, wrap. rewrite Z.lor_spec, Z.land_spec.
  assert (∀ k, w ≤ k → Z.testbit data k = false) as Hdk.
  { intros k Hk. by apply (fits_high w). }
  destruct (decide (i < 32)).
  - rewrite !Z.mod_pow2_bits_low, Z.lnot_spec, !Z.mod_pow2_bits_low, !Z.shiftl_spec by lia.
    destruct (Z.leb_spec n i), (Z.ltb_spec i (n + w)); simpl; try lia.
    + rewrite Z.ones_spec_low by lia. by rewrite andb_false_r.
    + rewrite Z.ones_spec_high, Hdk by lia. by rewrite andb_true_r, orb_false_r.
    + rewrite !(Z.testbit_neg_r _ (i - n)) by lia. by rewrite andb_true_r, orb_false_r.
  - rewrite !Z.mod_pow2_bits_high by lia. rewrite andb_false_r.
    destruct (Z.leb_spec n i), (Z.ltb_spec i (n + w)); simpl; try lia;
      by rewrite (fits_high 32) by (done || lia).
Qed.

Lemma put_field_fits w n read data :
  0 ≤ n → 0 ≤ w → n + w ≤ 32 → fits 32 read → fits w data → fits 32 (put_field w n read data).
Proof.
  intros Hn Hw Hnw Hr Hd. apply fits_bits; [lia|]. intros i Hi.
  rewrite put_field_bit by (lia || done).
  destruct (Z.leb_spec n i), (Z.ltb_spec i (n + w)); simpl; try lia; by apply (fits_high 32).
Qed.

(** Lanes covered by the field take the data's bytes, the others what was read. *)
Lemma put_field_lane w k read data j :
  0 ≤ k → 0 ≤ w → k + w ≤ 4 → fits 32 read → fits (8 * w) data → 0 ≤ j →
  lane (put_field (8 * w) (8 * k) read data) j =
  if (k <=? j) && (j <? k + w) then lane data (j - k) else lane read j.
Proof.
  intros Hk Hw Hkw Hr Hd Hj. apply Z.bits_inj'. intros i Hi.
  rewrite lane_bit, put_field_bit by (lia || done).
  destruct (Z.leb_spec k j), (Z.ltb_spec j (k + w)), (Z.ltb_spec i 8); simpl; rewrite lane_bit by lia;
    destruct (Z.ltb_spec i 8); simpl; try lia; try done;
    destruct (Z.leb_spec (8 * k) (i + 8 * j)), (Z.ltb_spec (i + 8 * j) (8 * k + 8 * w)); simpl; try lia; try done.
  f_equal. lia.
Qed.

Lemma config_write_log {S} `{PciPorts S} (f : Z → Z) bus slot func off (s : S) :
  ∃ s', (config_address bus slot func off ;; read ← port_read32 0xCFC; port_write32 0xCFC (f read)) s =
    Ok (tt, s') ∧
    written s' = written s ++ [(config_word bus slot func off, f (conf s (config_word bus slot func off)))].
Proof.
  destruct (select_ok (config_word bus slot func off) s) as (s1 & H1 & Hsel & Hc & Hw).
  destruct (read_ok s1) as (s2 & H2 & Hsel2 & Hc2 & Hw2).
  destruct (write_ok (f (conf s1 (selected s1))) s2) as (s3 & H3 & Hsel3 & Hw3).
  exists s3. unfold config_address.
  rewrite (M_bind_run _ _ _ _ _ H1), (M_bind_run _ _ _ _ _ H2), H3. split; [done|]. congruence.
Qed.

(** Narrow writes are read-modify-writes of the whole dword. A byte or
    word write stores exactly one dword: its own lanes carry the data, and the
    other lanes are written back with the values just read from the device. *)
Theorem config_writes_rmw {S} `{PciPorts S} (s : S) bus slot func off data :
  0 ≤ off < 256 →
  let w := config_word bus slot func off in
  (fits 8 data → ∃ s' v, config_write_u8 bus slot func off data s = Ok (tt, s') ∧
     written s' = written s ++ [(w, v)] ∧ fits 32 v ∧
     ∀ j, 0 ≤ j < 4 → lane v j = if j =? off mod 4 then data else lane (conf s w) j) ∧
  (fits 16 data → ∃ s' v, config_write_u16 bus slot func off data s = Ok (tt, s') ∧
     written s' = written s ++ [(w, v)] ∧ fits 32 v ∧
     ∀ j, 0 ≤ j < 4 → lane v j =
       if j / 2 =? off mod 4 / 2 then lane data (j mod 2) else lane (conf s w) j).
Proof.
  intros Ho w. split; intros Hd.
  - destruct (config_write_log (λ r, put_field 8 (Z.land off 3 * 8) r data) bus slot func off s)
      as (s' & Hw & Hl).
    exists s', (put_field 8 (8 * (off mod 4)) (conf s w) data). rewrite land_3 in Hl.
    split_and!; [done|done|apply put_field_fits; try done; try lia; apply conf_range|].
    intros j Hj. rewrite (put_field_lane 1) by (try done; try lia; apply conf_range).
    destruct (Z.leb_spec (off mod 4) j), (Z.ltb_spec j (off mod 4 + 1)), (Z.eqb_spec j (off mod 4));
      simpl; try lia; try done.
    subst j. unfold lane. rewrite Z.sub_diag, Z.div_1_r. by apply Z.mod_small.
  - set (k := 2 * (off / 2) mod 4).
    destruct (config_write_log (λ r, put_field 16 (Z.land off 2 * 8) r data) bus slot func off s)
      as (s' & Hw & Hl).
    exists s', (put_field 16 (8 * k) (conf s w) data). rewrite land_2 in Hl by done. unfold k in *.
    split_and!; [done|done|apply put_field_fits; try done; try lia; apply conf_range|].
    intros j Hj. rewrite (put_field_lane 2) by (try done; try lia; apply conf_range).
    destruct (Z.leb_spec (2 * (off / 2) mod 4) j), (Z.ltb_spec j (2 * (off / 2) mod 4 + 2)),
      (Z.eqb_spec (j / 2) (off mod 4 / 2)); simpl; try lia; try done.
    f_equal. lia.
Qed.

Lemma config_writes_rmw_witness :
  ∃ s' v, config_write_u16 0 3 0 4 0x7 example_space = Ok (tt, s') ∧
    written s' = [(0x80001804, v)] ∧ lane v 0 = 0x7 ∧ lane v 2 = 0xFF.
Proof.
  destruct (proj2 (config_writes_rmw example_space 0 3 0 4 0x7 ltac:(lia)) ltac:(unfold fits; lia))
    as (s' & v & H1 & H2 & _ & H3).
  exists s', v. split; [exact H1|]. split; [exact H2|].
  split; [exact (H3 0 ltac:(lia))|exact (H3 2 ltac:(lia))].
Defined.

(** ** Base address registers *)

(** What a function implements in a base address register. *)
Inductive BarSpec :=
| Unimplemented
| IoSpace (port : Z)
| Mem32 (addr : Z) (prefetch : bool)
| Mem64 (addr : Z) (prefetch : bool).

(** The register values the PCI specification gives it: the low dword, and for
    a 64-bit register the dword after it. *)
Definition bar_low (b : BarSpec) : Z :=
  match b with
  | Unimplemented => 0
  | IoSpace port => port + 1
  | Mem32 addr prefetch => addr + 8 * Z.b2z prefetch
  | Mem64 addr prefetch => addr mod 2 ^ 32 + 4 + 8 * Z.b2z prefetch
  end.
Definition bar_high (b : BarSpec) : option Z :=
  match b with Mem64 addr _ => Some (addr / 2 ^ 32) | _ => None end.
Definition bar_of (b : BarSpec) : Bar :=
  match b with
  | Unimplemented => BarNone
  | IoSpace port => BarIo port
  | Mem32 addr _ | Mem64 addr _ => BarMm addr
  end.
(** Alignment and width of the assigned address; a 64-bit register needs a
    successor. *)
Definition bar_valid (idx : Z) (b : BarSpec) : Prop :=
  match b with
  | Unimplemented => True
  | IoSpace port => 0 ≤ port < 2 ^ 32 ∧ port mod 4 = 0
  | Mem32 addr _ => 0 < addr < 2 ^ 32 ∧ addr mod 16 = 0
  | Mem64 addr _ => 0 < addr < 2 ^ 52 ∧ addr mod 16 = 0 ∧ idx < 5
  end.

Lemma bar_offset idx : 0 ≤ idx ≤ 5 → reg_u8 (PciDev.idx_to_enum idx) = 0x10 + 4 * idx.
Proof.
  intros. apply Z.eqb_eq.
  apply (by_range (λ idx, reg_u8 (PciDev.idx_to_enum idx) =? 0x10 + 4 * idx) 0 6); [done|lia].
Qed.

Lemma land_1 x : Z.land x 0x1 = x mod 2.
Proof. change 0x1 with (Z.ones 1). by rewrite Z.land_ones. Qed.
Lemma land_4 x : Z.land x 0x4 = 4 * (x / 4 mod 2).
Proof. exact (land_bit x 2 ltac:(lia)). Qed.
Lemma land_fff0 x : fits 64 x → Z.land x 0xFFFFFFFFFFFFFFF0 = 16 * (x / 16).
Proof. exact (land_high x 4 64 ltac:(lia)). Qed.
Lemma land_fffc x : fits 64 x → Z.land x 0xFFFFFFFFFFFFFFFC = 4 * (x / 4).
Proof. exact (land_high x 2 64 ltac:(lia)). Qed.

Section bars.
Context {S : Type} `{PciPorts S} `{X86Addr}.
Implicit Types (s : S) (p : Pci).

(** The two dwords a base address register occupies. *)
Definition bar_dword s p idx : Z := conf s (config_word (bus p) (slot p) (func p) (0x10 + 4 * idx)).

Lemma get_bar_io s p idx :
  0 ≤ idx ≤ 5 → bar_dword s p idx mod 2 = 1 →
  ∃ s', PciDev.get_bar p idx s = Ok (BarIo (4 * (bar_dword s p idx / 4)), s') ∧ unchanged s s'.
Proof.
  intros Hi Hb. unfold PciDev.get_bar, PciDev.config_read_u32. rewrite bar_offset by done.
  destruct (config_read_u32_conf (bus p) (slot p) (func p) (0x10 + 4 * idx) s) as (s1 & H1 & Hu1).
  rewrite (M_bind_run _ _ _ _ _ H1). fold (bar_dword s p idx). clear H1.
  pose proof (conf_range s (config_word (bus p) (slot p) (func p) (0x10 + 4 * idx))) as Hr.
  fold (bar_dword s p idx) in Hr. set (d := bar_dword s p idx) in *.
  destruct (Z.eqb_spec d 0); [lia|]. rewrite land_1, Hb. simpl.
  exists s1. rewrite land_fffc by (unfold fits; lia). rewrite wrap_small by (unfold fits; lia). done.
Qed.

Lemma get_bar_mem s p idx :
  0 ≤ idx ≤ 5 → bar_dword s p idx mod 2 = 0 →
  let wide := (bar_dword s p idx / 4 mod 2 =? 1) && (idx <? 5) in
  let high := if wide then bar_dword s p (idx + 1) else 0 in
  let base := 16 * (bar_dword s p idx / 16) + 2 ^ 32 * high in
  ∃ s', unchanged s s' ∧ PciDev.get_bar p idx s =
    (if base =? 0 then mret BarNone else a ← lift (PhysAddr_new base); mret (BarMm a)) s'.
Proof.
  intros Hi Hb wide high base. unfold PciDev.get_bar, PciDev.config_read_u32. rewrite bar_offset by done.
  destruct (config_read_u32_conf (bus p) (slot p) (func p) (0x10 + 4 * idx) s) as (s1 & H1 & Hu1).
  rewrite (M_bind_run _ _ _ _ _ H1). fold (bar_dword s p idx). clear H1.
  pose proof (conf_range s (config_word (bus p) (slot p) (func p) (0x10 + 4 * idx))) as Hr.
  fold (bar_dword s p idx) in Hr. set (d := bar_dword s p idx) in *.
  rewrite land_1, Hb, land_4. cbv zeta. cbn [negb Z.eqb].
  assert (negb (4 * (d / 4 mod 2) =? 0) = (d / 4 mod 2 =? 1)) as ->.
  { destruct (Z.eqb_spec (d / 4 mod 2) 1), (Z.eqb_spec (4 * (d / 4 mod 2)) 0); simpl; lia || done. }
  fold wide. destruct (Z.eqb_spec d 0) as [Hd|Hd].
  { exists s1. unfold base, high, wide. rewrite Hd. simpl. done. }
  destruct wide eqn:Ew.
  - rewrite (wrap_small 8 (idx + 1)) by (unfold fits; unfold wide in Ew; lia).
    unfold wide in Ew. rewrite !wrap_small by (unfold fits, wrap; simpl; lia).
    replace (reg_u8 PCIBAR0 + (idx + 1) * 4) with (0x10 + 4 * (idx + 1)) by (simpl; lia).
    destruct (config_read_u32_conf (bus p) (slot p) (func p) (0x10 + 4 * (idx + 1)) s1) as (s2 & H2 & Hu2).
    pose proof (conf_range s1 (config_word (bus p) (slot p) (func p) (0x10 + 4 * (idx + 1)))) as Hr2.
    destruct Hu1 as [Hu1 ?], Hu2 as [Hu2 ?]. exists s2. split; [split; congruence|].
    rewrite Hu1 in H2, Hr2. unfold base, high.
    fold (bar_dword s p (idx + 1)) in H2, Hr2. set (h := bar_dword s p (idx + 1)) in *.
    unfold mbind at 1, M_bind. rewrite (M_bind_run _ _ _ _ _ H2). simpl.
    rewrite shiftl_mul, wrap_small by (unfold fits; lia).
    rewrite Z.lor_comm, (lor_add _ _ 32) by lia.
    rewrite land_fff0 by (unfold fits; lia).
    replace (16 * ((h * 2 ^ 32 + d) / 16)) with (16 * (d / 16) + 2 ^ 32 * h) by lia. done.
  - exists s1. split; [done|]. unfold mbind at 1, M_bind. simpl.
    rewrite land_fff0 by (unfold fits; lia).
    unfold base, high. by rewrite Z.mul_0_r, Z.add_0_r.
Qed.
End bars.

(** Base address registers are recovered. Whatever a function implements
    in register [idx] - nothing, an I/O range, a 32-bit or (with a register after
    it) a 64-bit memory range - [get_bar] returns it from the dwords the PCI
    specification assigns to it, without touching the space. *)
Theorem get_bar_recovers {S} `{PciPorts S} `{X86Addr} (s : S) p idx b :
  0 ≤ idx ≤ 5 → bar_valid idx b →
  bar_dword s p idx = bar_low b →
  (∀ h, bar_high b = Some h → bar_dword s p (idx + 1) = h) →
  ∃ s', PciDev.get_bar p idx s = Ok (bar_of b, s') ∧ unchanged s s'.
Proof.
  intros Hi Hv Hl Hh.
  assert ((∃ port, b = IoSpace port) ∨ bar_dword s p idx mod 2 = 0) as [[port ->]|Hev].
  { destruct b as [|port|addr []|addr []]; simpl in *; (right; lia) || eauto. }
  - simpl in *. destruct (get_bar_io s p idx Hi) as (s' & -> & Hu); [lia|].
    exists s'. split; [do 3 f_equal; lia|done].
  - destruct (get_bar_mem s p idx Hi Hev) as (s' & Hu & ->).
    exists s'. split; [|done].
    destruct b as [|port|addr pf|addr pf]; simpl in Hv, Hl, Hh.
    + by rewrite Hl.
    + lia.
    + assert (bar_dword s p idx / 4 mod 2 = 0) as -> by (destruct pf; simpl in Hl; lia).
      replace (16 * (bar_dword s p idx / 16)) with addr by (destruct pf; simpl in Hl; lia).
      simpl. rewrite Z.add_0_r. destruct (Z.eqb_spec addr 0); [lia|].
      unfold mbind, M_bind, lift. rewrite PhysAddr_new_ok by lia. done.
    + rewrite (Hh _ eq_refl).
      assert (bar_dword s p idx / 4 mod 2 = 1) as -> by (destruct pf; simpl in Hl; lia).
      destruct (Z.ltb_spec idx 5); [|lia]. simpl.
      replace (16 * (bar_dword s p idx / 16) + 4294967296 * (addr / 2 ^ 32)) with addr
        by (destruct pf; simpl in Hl; lia).
      destruct (Z.eqb_spec addr 0); [lia|].
      unfold mbind, M_bind, lift. rewrite PhysAddr_new_ok by lia. done.
Qed.

#[local] Existing Instance x86_addr_instance.

Lemma get_bar_recovers_witness :
  ∃ s', PciDev.get_bar {| bus := 0; slot := 3; func := 0 |} 0 example_space = Ok (BarMm 0xfebd4000, s').
Proof.
  destruct (get_bar_recovers example_space {| bus := 0; slot := 3; func := 0 |} 0 (Mem32 0xfebd4000 true))
    as (s' & H & _); [lia|split; [lia|reflexivity]|vm_compute; reflexivity|intros h Hh; discriminate|].
  exists s'. exact H.
Defined.

(** ** Enumeration *)
Section enumeration.
Context {S : Type} `{PciPorts S}.
Implicit Types (s : S) (b sl f : Z) (devs : list Pci).

Definition vendor s b sl f : Z := conf s (config_word b sl f 0) mod 2 ^ 16.
Definition header s b sl f : Z := config_byte s b sl f 0xE.
(** A function answers, i.e. its vendor id does not read as all ones. *)
Definition present s b sl f : bool := negb (vendor s b sl f =? 0xFFFF).
(** Function 0 answers and says it is the slot's only function. *)
Definition single s b sl : bool := present s b sl 0 && (Z.land (header s b sl 0) 0x80 =? 0).

Definition function (b sl f : Z) : Pci := {| bus := b; slot := sl; func := f |}.

(** The functions of a slot that are listed, and the whole list, in order. *)
Definition slot_functions s b sl : list Pci :=
  if single s b sl then [function b sl 0]
  else function b sl <$> filter (λ f, present s b sl f = true) (range 0 8).
Definition bus_functions s b : list Pci := range 0 32 ≫= slot_functions s b.
Definition enumerate s : list Pci := range 0 256 ≫= bus_functions s.

Lemma unchanged_trans s1 s2 s3 : unchanged s1 s2 → unchanged s2 s3 → unchanged s1 s3.
Proof. unfold unchanged. intros [] []. split; congruence. Qed.

Lemma unchanged_present s s' : unchanged s s' → present s' = present s ∧ header s' = header s.
Proof. intros [Hc _]. unfold present, vendor, header, config_byte. by rewrite Hc. Qed.

(** The three probes of a function. *)
Lemma probe_vendor b sl f s :
  ∃ s', config_read_u16 b sl f (reg_u8 PCIVendorID) s = Ok (vendor s b sl f, s') ∧ unchanged s s'.
Proof.
  destruct (config_read_u16_conf b sl f 0 s) as (s' & Hr & Hu); [lia|].
  exists s'. split; [|done]. rewrite Z.div_1_r in Hr. exact Hr.
Qed.

Lemma scan_step b sl f fs devs s :
  ∃ s', unchanged s s' ∧ Pcis.scan_funcs b sl (f :: fs) devs s =
    (if present s b sl f then
       if (f =? 0) && single s b sl then mret (devs ++ [function b sl f])
       else Pcis.scan_funcs b sl fs (devs ++ [function b sl f])
     else Pcis.scan_funcs b sl fs devs) s'.
Proof.
  cbn [Pcis.scan_funcs].
  destruct (probe_vendor b sl f s) as (s1 & H1 & Hu1).
  rewrite (M_bind_run _ _ _ _ _ H1). fold (present s b sl f).
  destruct (present s b sl f) eqn:Hp; [|by exists s1].
  destruct (config_read_u16_conf b sl f (reg_u8 PCIDeviceID) s1) as (s2 & H2 & Hu2); [simpl; lia|].
  rewrite (M_bind_run _ _ _ _ _ H2).
  destruct (config_read_u8_conf b sl f (reg_u8 PCIHeaderType) s2) as (s3 & H3 & Hu3).
  rewrite (M_bind_run _ _ _ _ _ H3).
  exists s3. pose proof (unchanged_trans _ _ _ Hu1 Hu2) as Hu12.
  split; [by eapply unchanged_trans|]. cbv zeta. change (reg_u8 PCIHeaderType) with 0xE.
  fold (header s2 b sl f). rewrite (proj2 (unchanged_present s s2 Hu12)). unfold single.
  destruct (Z.eqb_spec f 0) as [->|]; simpl; [|done]. by rewrite Hp.
Qed.

Lemma scan_tail b sl fs devs s :
  Forall (λ f, f ≠ 0) fs →
  ∃ s', unchanged s s' ∧ Pcis.scan_funcs b sl fs devs s =
    Ok (devs ++ (function b sl <$> filter (λ f, present s b sl f = true) fs), s').
Proof.
  revert devs s; induction fs as [|f fs IH]; intros devs s Hf.
  { exists s. simpl. by rewrite app_nil_r. }
  inversion_clear Hf as [|? ? Hf0 Hfs].
  destruct (scan_step b sl f fs devs s) as (s1 & Hu1 & ->).
  rewrite (proj2 (Z.eqb_neq f 0)) by done. simpl.
  rewrite <-(proj1 (unchanged_present _ _ Hu1)), filter_cons.
  destruct (present s1 b sl f) eqn:Hp; (destruct (decide _) as [Hd|Hd]; [|]); try congruence;
    edestruct IH as (s2 & Hu2 & ->); try done; exists s2;
    (split; [by eapply unchanged_trans|]); [|done].
  by rewrite fmap_cons, <-app_assoc.
Qed.

Lemma scan_slot b sl devs s :
  ∃ s', unchanged s s' ∧
    Pcis.scan_funcs b sl (range 0 8) devs s = Ok (devs ++ slot_functions s b sl, s').
Proof.
  change (range 0 8) with (0 :: range 1 8). unfold slot_functions.
  destruct (scan_step b sl 0 (range 1 8) devs s) as (s1 & Hu1 & ->). cbn [Z.eqb andb].
  change (range 0 8) with (0 :: range 1 8).
  assert (Forall (λ f, f ≠ 0) (range 1 8)) as Hnz by (repeat constructor; lia).
  rewrite filter_cons. unfold single.
  destruct (present s b sl 0) eqn:Hp; (destruct (decide _) as [Hd|Hd]; [|]); try congruence; cbn [andb].
  - destruct (Z.land (header s b sl 0) 0x80 =? 0) eqn:Hh; [by exists s1|].
    destruct (scan_tail b sl (range 1 8) (devs ++ [function b sl 0]) s1 Hnz) as (s2 & Hu2 & ->).
    exists s2. split; [by eapply unchanged_trans|].
    by rewrite (proj1 (unchanged_present _ _ Hu1)), <-app_assoc.
  - destruct (scan_tail b sl (range 1 8) devs s1 Hnz) as (s2 & Hu2 & ->).
    exists s2. split; [by eapply unchanged_trans|]. by rewrite (proj1 (unchanged_present _ _ Hu1)).
Qed.

Lemma unchanged_enumerate s s' : unchanged s s' → slot_functions s' = slot_functions s.
Proof. intros [Hc _]. unfold slot_functions, single, present, vendor, header, config_byte. by rewrite Hc. Qed.

Lemma scan_slots_spec b slots devs s :
  ∃ s', unchanged s s' ∧
    Pcis.scan_slots b slots devs s = Ok (devs ++ (slots ≫= slot_functions s b), s').
Proof.
  revert devs s; induction slots as [|sl slots IH]; intros devs s.
  { exists s. simpl. by rewrite app_nil_r. }
  cbn [Pcis.scan_slots]. destruct (scan_slot b sl devs s) as (s1 & Hu1 & H1).
  rewrite (M_bind_run _ _ _ _ _ H1). destruct (IH (devs ++ slot_functions s b sl) s1) as (s2 & Hu2 & ->).
  exists s2. split; [by eapply unchanged_trans|].
  by rewrite (unchanged_enumerate _ _ Hu1), <-app_assoc.
Qed.

Lemma scan_buses_spec buses devs s :
  ∃ s', unchanged s s' ∧
    Pcis.scan_buses buses devs s = Ok (devs ++ (buses ≫= bus_functions s), s').
Proof.
  revert devs s; induction buses as [|b buses IH]; intros devs s.
  { exists s. simpl. by rewrite app_nil_r. }
  cbn [Pcis.scan_buses]. destruct (scan_slots_spec b (range 0 32) devs s) as (s1 & Hu1 & H1).
  rewrite (M_bind_run _ _ _ _ _ H1). destruct (IH (devs ++ bus_functions s b) s1) as (s2 & Hu2 & H2).
  unfold bus_functions in *. rewrite H2. exists s2. split; [by eapply unchanged_trans|].
  rewrite (unchanged_enumerate _ _ Hu1), <-app_assoc. done.
Qed.

(** Listed: answers, and is either function 0 or in a slot not declared
    single-function. *)
Definition listed s (p : Pci) : Prop :=
  0 ≤ bus p < 256 ∧ 0 ≤ slot p < 32 ∧ 0 ≤ func p < 8 ∧
  present s (bus p) (slot p) (func p) = true ∧ (func p = 0 ∨ single s (bus p) (slot p) = false).

Lemma elem_of_slot_functions s b sl p :
  p ∈ slot_functions s b sl ↔
  bus p = b ∧ slot p = sl ∧ 0 ≤ func p < 8 ∧ present s b sl (func p) = true ∧
  (func p = 0 ∨ single s b sl = false).
Proof.
  unfold slot_functions. destruct (single s b sl) eqn:Hs.
  - rewrite list_elem_of_singleton. unfold single in Hs. apply andb_prop in Hs as [Hs _].
    split; [intros ->; simpl; split_and!; try lia; auto|].
    intros (<- & <- & _ & _ & [Hf|?]); [|done]. by destruct p; simpl in *; subst.
  - rewrite list_elem_of_fmap. setoid_rewrite list_elem_of_filter. setoid_rewrite elem_of_range. split.
    + intros (f & -> & Hp & Hf). simpl. split_and!; try done; try lia; auto.
    + intros (<- & <- & Hf & Hp & _). exists (func p). by destruct p.
Qed.

Lemma elem_of_enumerate s p : p ∈ enumerate s ↔ listed s p.
Proof.
  unfold enumerate, bus_functions, listed. rewrite list_elem_of_bind. setoid_rewrite list_elem_of_bind.
  setoid_rewrite elem_of_slot_functions. setoid_rewrite elem_of_range. split.
  - intros (b & (sl & (-> & -> & ?) & ?) & ?). tauto.
  - intros (? & ? & ? & ? & ?). exists (bus p). split; [exists (slot p)|]; tauto.
Qed.
End enumeration.

(** C36: enumeration is complete. [Pcis::new] lists the functions in bus, slot,
    function order; a function is listed exactly when it answers and is function
    0 or in a slot whose function 0 does not declare the slot single-function.
    Probing leaves the configuration space alone. *)
Theorem pcis_new_complete {S} `{PciPorts S} (s : S) :
  ∃ s', Pcis.new s = Ok (enumerate s, s') ∧ unchanged s s' ∧ ∀ p, p ∈ enumerate s ↔ listed s p.
Proof.
  destruct (scan_buses_spec (range 0 256) [] s) as (s' & Hu & Hs).
  exists s'. split; [exact Hs|]. split; [done|]. apply elem_of_enumerate.
Qed.
