(* ===== verification/IoApic.v ===== *)
(** The I/O APIC driver ([bootloader/kernel/src/ioapic.rs]): redirection table
    entries, the indirect register access, and the set-up loop of
    [kernel_main] that routes interrupt [i] to vector [50 + i]. *)
From S2P Require Import Prelude Interfaces.

Record IoApic := { virt_address : Z; global_system_int : Z; id : Z }.

(** The ACPI description of an I/O APIC (crate [acpi]). *)
Record IoApicInfo := { info_id : Z; info_address : Z; info_global_system_interrupt_base : Z }.

Definition IOAPICID : Z := 0.
Definition IOAPICVER : Z := 1.

Record RedTbl := {
  vector : Z;
  delivery_mode : Z;
  destination_mode : bool;
  delivery_status : bool;
  pin_polarity : bool;
  remote_irr : bool;
  trigger_mode : bool;
  mask : bool;
  destination : Z
}.

Module RedTblImpl.
(** [c] is shifted right past each field as it is read. *)
Definition new (n : Z) : RedTbl :=
  let c := n in
  let vector := Z.land c 0xff in
  let c := Z.shiftr c 8 in
  let delivery_mode := Z.land c 3 in
  let c := Z.shiftr c 2 in
  let destination_mode := negb (Z.land c 1 =? 0) in
  let c := Z.shiftr c 1 in
  let delivery_status := negb (Z.land c 1 =? 0) in
  let c := Z.shiftr c 1 in
  let pin_polarity := negb (Z.land c 1 =? 0) in
  let c := Z.shiftr c 1 in
  let remote_irr := negb (Z.land c 1 =? 0) in
  let c := Z.shiftr c 1 in
  let trigger_mode := negb (Z.land c 1 =? 0) in
  let c := Z.shiftr c 1 in
  let mask := negb (Z.land c 1 =? 0) in
  let destination := wrap 8 (Z.shiftr n 56) in
  {| vector := vector; delivery_mode := delivery_mode; destination_mode := destination_mode;
     delivery_status := delivery_status; pin_polarity := pin_polarity; remote_irr := remote_irr;
     trigger_mode := trigger_mode; mask := mask; destination := destination |}.

Definition store (t : RedTbl) : Z :=
  let r := 0 in
  let r := r +u[64] (destination t <<u[64] 56) in
  let r := r +u[64] vector t in
  let r := r +u[64] (delivery_mode t <<u[64] 8) in
  let r := r +u[64] ((if destination_mode t then 1 else 0) <<u[64] 10) in
  let r := r +u[64] ((if delivery_status t then 1 else 0) <<u[64] 11) in
  let r := r +u[64] ((if pin_polarity t then 1 else 0) <<u[64] 12) in
  let r := r +u[64] ((if remote_irr t then 1 else 0) <<u[64] 13) in
  let r := r +u[64] ((if trigger_mode t then 1 else 0) <<u[64] 14) in
  let r := r +u[64] ((if mask t then 1 else 0) <<u[64] 15) in
  r.

(** [red.vector = v], the assignment of [kernel_main]. *)
Definition set_vector (t : RedTbl) (v : Z) : RedTbl :=
  {| vector := v; delivery_mode := delivery_mode t; destination_mode := destination_mode t;
     delivery_status := delivery_status t; pin_polarity := pin_polarity t; remote_irr := remote_irr t;
     trigger_mode := trigger_mode t; mask := mask t; destination := destination t |}.
End RedTblImpl.

Module IoApicImpl.
Section ops.
Context {D : Type} `{Mmio D} `{X86Addr}.

(** [IO_APIC_0.get_or_init]: only the first call constructs the value. *)
Definition init (offset : Z) (cell : option IoApic) (info : IoApicInfo) : res (IoApic * option IoApic) :=
  match cell with
  | Some this => mret (this, cell)
  | None =>
      p ← PhysAddr_new (info_address info);
      v ← VirtAddr_add offset p;
      let this := {| id := info_id info; virt_address := v;
                     global_system_int := info_global_system_interrupt_base info |} in
      mret (this, Some this)
  end.

Definition set_sel (a : IoApic) (reg : Z) : M D unit := mmio_store (virt_address a) reg.

Definition read (a : IoApic) (reg : Z) : M D Z :=
  set_sel a reg ;;
  sec ← lift (VirtAddr_add (virt_address a) 0x10);
  mmio_load sec.

Definition write (a : IoApic) (reg value : Z) : M D unit :=
  set_sel a reg ;;
  sec ← lift (VirtAddr_add (virt_address a) 0x10);
  mmio_store sec value.

Definition read_redtlb (a : IoApic) (index : Z) : M D Z :=
  low ← read a (0x10 +u[32] (2 *u[32] index));
  high ← read a (0x10 +u[32] (2 *u[32] index) +u[32] 1);
  mret ((high <<u[64] 32) +u[64] low).

Definition write_redtlb (a : IoApic) (index redtlb : Z) : M D unit :=
  write a (0x10 +u[32] (2 *u[32] index)) (wrap 32 (Z.land redtlb 0xffff)) ;;
  write a (0x10 +u[32] (2 *u[32] index) +u[32] 1) (wrap 32 (Z.shiftr redtlb 32)).

(** The body of the set-up loop in [kernel_main]. *)
Definition route (a : IoApic) (i : Z) : M D unit :=
  n ← read_redtlb a i;
  let red := RedTblImpl.set_vector (RedTblImpl.new n) (wrap 8 (50 + i)) in
  write_redtlb a i (RedTblImpl.store red).

Definition setup (a : IoApic) : M D unit := for_each (range 0 24) (route a).
End ops.
End IoApicImpl.

(** ** Redirection entries *)

(** Field values that fit their types and bit fields. *)
Definition RedTbl_wf (t : RedTbl) : Prop :=
  fits 8 (vector t) ∧ fits 2 (delivery_mode t) ∧ fits 8 (destination t).

Definition field_sum (t : RedTbl) : Z :=
  vector t + 2 ^ 8 * delivery_mode t + 2 ^ 10 * Z.b2z (destination_mode t) +
  2 ^ 11 * Z.b2z (delivery_status t) + 2 ^ 12 * Z.b2z (pin_polarity t) +
  2 ^ 13 * Z.b2z (remote_irr t) + 2 ^ 14 * Z.b2z (trigger_mode t) + 2 ^ 15 * Z.b2z (mask t).

Lemma store_sum t :
  RedTbl_wf t → RedTblImpl.store t = field_sum t + 2 ^ 56 * destination t ∧ fits 16 (field_sum t).
Proof.
  destruct t as [v dm b1 b2 b3 b4 b5 b6 d]. unfold RedTbl_wf, fits, field_sum, RedTblImpl.store. simpl.
  intros (Hv & Hd & Hde).
  assert (∀ b n, 0 ≤ n < 16 → (if b : bool then 1 else 0) <<u[64] n = 2 ^ n * Z.b2z b) as Hb.
  { intros b n Hn. rewrite shiftl_mul by lia.
    pose proof (Z.pow_pos_nonneg 2 n). pose proof (Z.pow_lt_mono_r 2 n 64).
    destruct b; simpl Z.b2z; rewrite wrap_small by (unfold fits; lia); lia. }
  rewrite !Hb by lia. rewrite !shiftl_mul by lia. 
  b2z_bounds b1; b2z_bounds b2; b2z_bounds b3; b2z_bounds b4; b2z_bounds b5; b2z_bounds b6.
  strip_wraps. lia.
Qed.

Lemma bit_field c k : 0 ≤ k → negb (Z.land (Z.shiftr c k) 1 =? 0) = Z.testbit c k.
Proof.
  intros. change 1 with (Z.ones 1). rewrite land_shiftr, Z.pow_1_r, <-Z.testbit_spec' by lia.
  by destruct (Z.testbit c k).
Qed.

(** The fields of an entry, as slices of its low word. *)
Lemma new_fields n :
  fits 64 n →
  RedTblImpl.new n =
  {| vector := n mod 2 ^ 8; delivery_mode := n / 2 ^ 8 mod 2 ^ 2;
     destination_mode := Z.testbit n 10; delivery_status := Z.testbit n 11;
     pin_polarity := Z.testbit n 12; remote_irr := Z.testbit n 13;
     trigger_mode := Z.testbit n 14; mask := Z.testbit n 15; destination := n / 2 ^ 56 |}.
Proof.
  intros Hn. unfold RedTblImpl.new. cbv zeta. rewrite !Z.shiftr_shiftr, !bit_field by lia.
  change 0xff with (Z.ones 8). change 3 with (Z.ones 2). rewrite Z.land_ones, land_shiftr by lia.
  rewrite shiftr_div, wrap_small by (unfold fits in *; lia). done.
Qed.

Lemma new_wf n : fits 64 n → RedTbl_wf (RedTblImpl.new n).
Proof. intros Hn. rewrite new_fields by done. unfold RedTbl_wf, fits in *. simpl. lia. Qed.

Lemma new_field_sum n : fits 64 n → field_sum (RedTblImpl.new n) = n mod 2 ^ 16.
Proof.
  intros Hn. rewrite new_fields by done. unfold field_sum. cbn [vector delivery_mode destination_mode
    delivery_status pin_polarity remote_irr trigger_mode mask destination].
  rewrite !Z.testbit_spec' by lia. unfold fits in Hn.
  replace (2 ^ 2) with 4 by done. replace (2 ^ 8) with 256 by done. replace (2 ^ 10) with 1024 by done.
  replace (2 ^ 11) with 2048 by done. replace (2 ^ 12) with 4096 by done. replace (2 ^ 13) with 8192 by done.
  replace (2 ^ 14) with 16384 by done. replace (2 ^ 15) with 32768 by done. replace (2 ^ 16) with 65536 by done.
  clear Hn. lia.
Qed.

(** Redirection entries round-trip. Every entry whose fields fit is read
    back from its stored word; conversely, re-storing a word keeps its low 16
    bits and its destination byte, and clears everything between them. *)
Theorem redtbl_roundtrip :
  (∀ t, RedTbl_wf t → RedTblImpl.new (RedTblImpl.store t) = t) ∧
  (∀ n, fits 64 n → RedTblImpl.store (RedTblImpl.new n) = n mod 2 ^ 16 + 2 ^ 56 * (n / 2 ^ 56)).
Proof.
  split.
  - intros t Hwf. destruct (store_sum t Hwf) as [Hs Hf]. destruct Hwf as (Hv & Hd & Hde).
    unfold fits in *. rewrite Hs, new_fields by (unfold fits; lia).
    destruct t as [v dm b1 b2 b3 b4 b5 b6 d]. unfold field_sum in *. simpl in *.
    b2z_bounds b1; b2z_bounds b2; b2z_bounds b3; b2z_bounds b4; b2z_bounds b5; b2z_bounds b6.
    f_equal; try apply testbit_b2z; lia.
  - intros n Hn. destruct (store_sum _ (new_wf n Hn)) as [-> _].
    rewrite new_field_sum by done. by rewrite (new_fields n Hn).
Qed.

(** ** The register window *)

(** A mask of the low byte and of some bits above it. *)
Lemma land_low_byte q c m :
  0 ≤ c < 2 ^ 8 → Z.land (2 ^ 8 * q + c) (2 ^ 8 * m + 0xff) = 2 ^ 8 * Z.land q m + c.
Proof.
  intros Hc. apply Z.bits_inj'. intros n Hn. rewrite Z.land_spec.
  assert (∀ x y, 0 ≤ y < 2 ^ 8 → Z.testbit (2 ^ 8 * x + y) n = if n <? 8 then Z.testbit y n else Z.testbit x (n - 8)) as Hb.
  { intros x y Hy. destruct (Z.ltb_spec n 8).
    - rewrite <-(Z.mod_pow2_bits_low _ 8) by lia. f_equal. rewrite Z.add_comm, Z.mul_comm, Z.mod_add by lia. by apply Z.mod_small.
    - replace n with (n - 8 + 8) at 1 by lia. rewrite <-Z.div_pow2_bits by lia. f_equal.
      rewrite Z.add_comm, Z.mul_comm, Z.div_add, Z.div_small by lia. done. }
  rewrite !Hb by lia. destruct (Z.ltb_spec n 8); [|by rewrite Z.land_spec].
  change 0xff with (Z.ones 8). rewrite Z.ones_spec_low by lia. apply andb_true_r.
Qed.

Section window.
Context {D : Type} `{Mmio D} `{X86Addr} (a : IoApic) `{!IoApicRegs D (virt_address a)}.
Hypothesis Ha : 0 ≤ virt_address a < 2 ^ 47 - 0x10.
Implicit Types (d : D) (r v i : Z).
#[local] Abbreviation ireg := (ireg (base:=virt_address a)).
#[local] Abbreviation rw := (rw (base:=virt_address a)).

Lemma ioapic_read d r :
  fits 8 r → ∃ v d', IoApicImpl.read a r d = Ok (v, d') ∧ fits 32 v ∧ Z.land v (rw r) = ireg d r ∧ ireg d' = ireg d.
Proof.
  intros Hf. destruct (ioapic_select_ok (base:=virt_address a) r d Hf) as (d1 & H1 & Hs & Hr).
  destruct (ioapic_window_load_ok (base:=virt_address a) d1) as (v & d2 & H2 & Hv & Hl & Hs2 & Hr2).
  exists v, d2. unfold IoApicImpl.read, IoApicImpl.set_sel. rewrite (M_bind_run _ _ _ _ _ H1).
  unfold mbind, M_bind, lift, VirtAddr_add. rewrite VirtAddr_new_ok by lia.
  rewrite H2. rewrite Hs, Hr in Hl. split_and!; congruence || done.
Qed.

Lemma ioapic_write d r v :
  fits 8 r → fits 32 v →
  ∃ d', IoApicImpl.write a r v d = Ok (tt, d') ∧ ireg d' r = Z.land v (rw r) ∧ ∀ r', r' ≠ r → ireg d' r' = ireg d r'.
Proof.
  intros Hf Hv. destruct (ioapic_select_ok (base:=virt_address a) r d Hf) as (d1 & H1 & Hs & Hr).
  destruct (ioapic_window_store_ok (base:=virt_address a) v d1 Hv) as (d2 & H2 & Hs2 & Hr2 & Ho).
  exists d2. unfold IoApicImpl.write, IoApicImpl.set_sel. rewrite (M_bind_run _ _ _ _ _ H1).
  unfold mbind, M_bind, lift, VirtAddr_add. rewrite VirtAddr_new_ok by lia.
  rewrite H2. rewrite Hs, Hr in *. done.
Qed.

(** The word [route] stores for an entry whose low register held [low] and high
    register [high]. *)
Definition routed_low (i low : Z) : Z := low mod 2 ^ 16 - low mod 2 ^ 8 + (50 + i).
Definition routed_high (high : Z) : Z := 2 ^ 24 * (high / 2 ^ 24).

Lemma routed_store i low high :
  0 ≤ i < 24 → fits 32 low → fits 32 high →
  RedTblImpl.store (RedTblImpl.set_vector (RedTblImpl.new (2 ^ 32 * high + low)) (50 + i)) =
  routed_low i low + 2 ^ 56 * (high / 2 ^ 24) ∧ fits 16 (routed_low i low).
Proof.
  intros Hi Hl Hh. set (n := 2 ^ 32 * high + low).
  assert (fits 64 n) as Hn by (unfold fits, n in *; lia).
  pose proof (new_wf n Hn) as (Hv & Hd & Hde). pose proof (new_field_sum n Hn) as Hs.
  destruct (store_sum (RedTblImpl.set_vector (RedTblImpl.new n) (50 + i))) as [-> _].
  { unfold RedTbl_wf, fits in *. simpl in *. lia. }
  assert (vector (RedTblImpl.new n) = n mod 2 ^ 8) as Hvec by (by rewrite new_fields).
  assert (destination (RedTblImpl.new n) = n / 2 ^ 56) as Hdest by (by rewrite new_fields).
  unfold field_sum in *. cbn [RedTblImpl.set_vector vector delivery_mode destination_mode
    delivery_status pin_polarity remote_irr trigger_mode mask destination].
  rewrite Hdest. rewrite Hvec in Hs. unfold routed_low, fits, n in *. lia.
Qed.

(** The writable bits of a low half after [route], from those before. *)
Lemma routed_low_kept i low :
  0 ≤ i < 24 → fits 32 low →
  Z.land (routed_low i low) 0x1AFFF = 2 ^ 8 * (Z.land low 0x1AFFF / 2 ^ 8 mod 2 ^ 8) + (50 + i).
Proof.
  intros Hi Hl. change 0x1AFFF with (2 ^ 8 * 0x1AF + 0xff). unfold routed_low.
  replace (low mod 2 ^ 16 - low mod 2 ^ 8 + (50 + i)) with (2 ^ 8 * (low / 2 ^ 8 mod 2 ^ 8) + (50 + i)) by lia.
  rewrite land_low_byte by lia. f_equal. f_equal.
  assert (Z.land low (2 ^ 8 * 0x1AF + 0xff) = 2 ^ 8 * Z.land (low / 2 ^ 8) 0x1AF + low mod 2 ^ 8) as ->.
  { rewrite <-land_low_byte by lia. f_equal. lia. }
  set (x := Z.land (low / 2 ^ 8) 0x1AF). replace ((2 ^ 8 * x + low mod 2 ^ 8) / 2 ^ 8) with x by lia. subst x.
  rewrite <-!Z.land_ones, <-!Z.land_assoc by lia. f_equal.
Qed.

(** The destination is not changed. *)
Lemma routed_high_kept high : fits 32 high → Z.land (routed_high high) 0xFF000000 = Z.land high 0xFF000000.
Proof.
  intros Hh. unfold routed_high. apply Z.bits_inj'. intros n Hn. rewrite !Z.land_spec.
  change 0xFF000000 with (Z.ones 8 * 2 ^ 24). rewrite Z.mul_pow2_bits by lia.
  destruct (Z.lt_ge_cases n 24).
  - rewrite (Z.testbit_neg_r _ (n - 24)) by lia. by rewrite !andb_false_r.
  - f_equal. rewrite Z.mul_comm, Z.mul_pow2_bits, Z.div_pow2_bits by lia. f_equal. lia.
Qed.

Lemma ioapic_route d i :
  0 ≤ i < 24 →
  ∃ d', IoApicImpl.route a i d = Ok (tt, d') ∧
    ireg d' (0x10 + 2 * i) = 2 ^ 8 * (ireg d (0x10 + 2 * i) / 2 ^ 8 mod 2 ^ 8) + (50 + i) ∧
    ∀ r, r ≠ 0x10 + 2 * i → ireg d' r = ireg d r.
Proof.
  intros Hi. unfold IoApicImpl.route, IoApicImpl.read_redtlb, IoApicImpl.write_redtlb.
  rewrite (wrap_small 8) by (unfold fits; lia).
  rewrite !(wrap_small 32 (2 * i)), !(wrap_small 32 (0x10 + 2 * i)), !(wrap_small 32 (0x10 + 2 * i + 1))
    by (unfold fits; lia).
  replace (0x10 + 2 * i + 1) with (0x11 + 2 * i) by lia.
  assert (fits 8 (0x10 + 2 * i) ∧ fits 8 (0x11 + 2 * i)) as [F1 F2] by (unfold fits; lia).
  destruct (ioapic_read d (0x10 + 2 * i) F1) as (low & d1 & H1 & Hl & Kl & Hr1).
  destruct (ioapic_read d1 (0x11 + 2 * i) F2) as (high & d2 & H2 & Hh & Kh & Hr2).
  rewrite Hr1 in Kh. rewrite rw_low in Kl by done. rewrite rw_high in Kh by done.
  destruct (routed_store i low high Hi Hl Hh) as [Hst Hfit].
  unfold mbind, M_bind. rewrite H1, H2. cbn [mret M_ret].
  unfold mret, M_ret. rewrite shiftl_mul by lia.
  assert (wrap 64 (wrap 64 (high * 2 ^ 32) + low) = 2 ^ 32 * high + low) as -> by
    (strip_wraps; lia).
  rewrite Hst. change 0xffff with (Z.ones 16). rewrite Z.land_ones, shiftr_div by lia.
  unfold fits in *. rewrite !(wrap_small 32) by (unfold fits; lia).
  replace ((routed_low i low + 2 ^ 56 * (high / 2 ^ 24)) mod 2 ^ 16) with (routed_low i low) by lia.
  replace ((routed_low i low + 2 ^ 56 * (high / 2 ^ 24)) / 2 ^ 32) with (routed_high high)
    by (unfold routed_high; lia).
  destruct (ioapic_write d2 (0x10 + 2 * i) (routed_low i low) F1) as (d3 & H3 & Hv3 & Ho3); [unfold fits; lia|].
  destruct (ioapic_write d3 (0x11 + 2 * i) (routed_high high) F2) as (d4 & H4 & Hv4 & Ho4);
    [unfold fits, routed_high; lia|].
  rewrite rw_low in Hv3 by done. rewrite rw_high in Hv4 by done.
  rewrite H3, H4. exists d4. split_and!; [done| |].
  - rewrite Ho4, Hv3, routed_low_kept by (done || unfold fits; lia). by rewrite Kl.
  - intros r Hne1. destruct (decide (r = 0x11 + 2 * i)) as [->|Hne2]; [|by rewrite Ho4, Ho3, Hr2, Hr1].
    by rewrite Hv4, routed_high_kept.
Qed.
End window.

(** C38: interrupt routing. After the set-up loop every one of the 24
    redirection entries delivers to vector [50 + i], with its mask bit cleared; the
    other bits of its low half that software can write, of bits 8 to 15, and its
    destination byte are those it had; and no other register changes. What the
    status and reserved bits are read as, at any time, does not matter. *)
Theorem ioapic_setup_routes {D} `{Mmio D} `{X86Addr} (a : IoApic) `{!IoApicRegs D (virt_address a)} (d : D) :
  0 ≤ virt_address a < 2 ^ 47 - 0x10 →
  ∃ d', IoApicImpl.setup a d = Ok (tt, d') ∧
    (∀ i, 0 ≤ i < 24 →
       let old := ireg (base:=virt_address a) d (0x10 + 2 * i) in
       let new := ireg (base:=virt_address a) d' (0x10 + 2 * i) in
       new mod 2 ^ 8 = 50 + i ∧ new / 2 ^ 8 = old / 2 ^ 8 mod 2 ^ 8 ∧ Z.testbit new 16 = false) ∧
    (∀ r, (∀ i, 0 ≤ i < 24 → r ≠ 0x10 + 2 * i) →
       ireg (base:=virt_address a) d' r = ireg (base:=virt_address a) d r).
Proof.
  intros Ha.
  destruct (for_each_inv (λ n d', ∀ r, ireg (base:=virt_address a) d' r =
      let old := ireg (base:=virt_address a) d r in
      if (0x10 <=? r) && (r <? 0x10 + 2 * Z.of_nat n) && Z.even r
      then 2 ^ 8 * (old / 2 ^ 8 mod 2 ^ 8) + (50 + (r - 0x10) / 2) else old) (range 0 24) (IoApicImpl.route a) d) as (d' & Hd & HP).
  - intros r. cbv zeta. bsplit; lia || done.
  - intros n i d1 Hl HP. apply lookup_seqZ in Hl as [-> Hn].
    destruct (ioapic_route a Ha d1 (0 + Z.of_nat n)) as (d2 & H2 & Hlo & Ho); [lia|].
    exists d2. split; [done|]. intros r. cbv zeta in *.
    destruct (decide (r = 0x10 + 2 * (0 + Z.of_nat n))) as [->|Hne1].
    + rewrite Hlo, HP, Z.even_add_mul_2. bsplit; lia.
    + rewrite Ho, HP by done. destruct (Z.even r) eqn:Ev; [apply Z.even_spec in Ev as [k ->]|]; bsplit; lia || done.
  - exists d'. split; [done|]. change (length (range 0 24)) with 24%nat in HP. cbv zeta in HP. split.
    + intros i Hi old new. unfold new. rewrite HP, Z.even_add_mul_2. fold old. clearbody old. clear -Hi.
      bsplit; try lia. replace ((0x10 + 2 * i - 0x10) / 2) with i by lia.
      split; [lia|]. split; [lia|]. apply Z.bits_above_log2; [lia|].
      destruct (decide (2 ^ 8 * (old / 2 ^ 8 mod 2 ^ 8) + (50 + i) = 0)); [lia|]. apply Z.log2_lt_pow2; lia.
    + intros r Hr. rewrite HP. destruct (Z.even r) eqn:Ev; [apply Z.even_spec in Ev as [k ->]|]; bsplit; try done.
      exfalso. apply (Hr (k - 8)); lia.
Qed.

(** The entry 2 masked, level triggered, with the remote IRR up, for the processor 3. *)
Definition example_regs : IoApicMem :=
  {| im_sel := 0; im_regs := <[0x14 := 0x1E7FF]> (<[0x15 := 0x3000001]> ∅); im_log := [] |}.

Lemma ioapic_setup_routes_witness :
  ∃ d', IoApicImpl.setup (D:=IoApicMem) (H:=mmio_instance) (H0:=x86_addr_instance)
          {| virt_address := im_base; global_system_int := 0; id := 0 |} example_regs = Ok (tt, d') ∧
    ireg (IoApicRegs:=ioapic_instance) d' 0x14 mod 2 ^ 8 = 52 ∧ ireg (IoApicRegs:=ioapic_instance) d' 0x14 / 2 ^ 8 = 0xA7 ∧
    ireg (IoApicRegs:=ioapic_instance) d' 0x15 = 0x3000000.
Proof.
  destruct (ioapic_setup_routes (H:=mmio_instance) (H0:=x86_addr_instance)
    {| virt_address := im_base; global_system_int := 0; id := 0 |} (IoApicRegs0:=ioapic_instance) example_regs)
    as (d' & H1 & H2 & H3); [by split; vm_compute|].
  exists d'. split; [exact H1|]. destruct (H2 2 ltac:(lia)) as (Hv & Hk & _). split; [exact Hv|]. split; [exact Hk|].
  apply (H3 0x15). lia.
Defined.
