(* ===== verification/Memory.v ===== *)
(** Physical frames and page mappings: the boot-info frame allocator
    ([bootloader/kernel/src/memory.rs]), the mapping helpers of [main.rs] and
    the heap set-up of [allocator.rs]. *)
From S2P Require Import Prelude Interfaces.

(** ** Frame allocators and page tables (crate [x86_64]) *)
Class FrameAllocator (F : Type) := allocate_frame : M F (option Z).

Inductive MapToError := FrameAllocationFailed | ParentEntryHugePage | PageAlreadyMapped (frame : Z).

(** One frame taken from the allocator. *)
Definition takes_frame {F} `{FrameAllocator F} (f f' : F) : Prop := ∃ o, allocate_frame f = Ok (o, f').

(** The page tables: [translate] is the mapping of 4 KiB pages in force. [map_to]
    may take frames for intermediate tables; it maps the page or leaves the
    mapping as it was. *)
Class Mapper (P F : Type) `{FrameAllocator F} := {
  translate : P → Z → option Z;
  map_to : Z → Z → M (P * F) (unit + MapToError);
  map_to_mapped page frame p f r p' f' :
    map_to page frame (p, f) = Ok (r, (p', f')) →
    rtc takes_frame f f' ∧
    match r with
    | inl _ => translate p page = None ∧ translate p' page = Some frame ∧
               ∀ q, q ≠ page → translate p' q = translate p q
    | inr _ => translate p' = translate p
    end;
  map_to_total page frame p f :
    (∀ f', rtc takes_frame f f' → ∃ f'', takes_frame f' f'') →
    ∃ r s', map_to page frame (p, f) = Ok (r, s')
}.

(** [PhysFrame::containing_address] and [Page::containing_address] of a 4 KiB size. *)
Definition containing_address (a : Z) : Z := 4096 * (a / 4096).

(** ** The boot-info frame allocator *)
Definition BUFFER_SIZE_ADVANCE : nat := 32.

Inductive MemoryRegionKind := Usable | Bootloader | UnknownUefi (n : Z) | UnknownBios (n : Z).
#[export] Instance MemoryRegionKind_eq_dec : EqDecision MemoryRegionKind.
Proof. solve_decision. Defined.

Record MemoryRegion := { start : Z; end_ : Z; kind : MemoryRegionKind }.

Record BootInfoFrameAllocator := { memory_map : list MemoryRegion; next : Z; buf : list Z }.

(** [(start..end).step_by(4096)]. *)
Definition step_by_4096 (a b : Z) : list Z := (λ k, a + 4096 * k) <$> range 0 ((b - a + 4095) / 4096).

Module BootInfoFrameAllocatorImpl.
Definition init (memory_map : list MemoryRegion) : BootInfoFrameAllocator :=
  {| memory_map := memory_map; next := 1; buf := [] |}.

(** The addresses the iterator goes through; [PhysAddr::new] is applied as each
    one is reached. *)
Definition usable_addresses (m : list MemoryRegion) : list Z :=
  filter (λ r, kind r = Usable) m ≫= λ r, step_by_4096 (start r) (end_ r).

Definition usable_frame `{X86Addr} (addr : Z) : res Z :=
  p ← PhysAddr_new addr; mret (containing_address p).

Definition allocate_frame `{X86Addr} : M BootInfoFrameAllocator (option Z) := λ a,
  a ← (if bool_decide (buf a = []) then
         let skip := Z.to_nat (next a - 1) in
         frames ← mapM usable_frame (take (skip + BUFFER_SIZE_ADVANCE) (usable_addresses (memory_map a)));
         mret {| memory_map := memory_map a; next := next a +u[64] Z.of_nat BUFFER_SIZE_ADVANCE;
                 buf := reverse (drop skip frames) |}
       else mret a);
  mret (match pop (buf a) with
        | Some (f, b) => (Some f, {| memory_map := memory_map a; next := next a; buf := b |})
        | None => (None, a)
        end).
End BootInfoFrameAllocatorImpl.

#[export] Instance boot_frame_allocator `{X86Addr} : FrameAllocator BootInfoFrameAllocator :=
  BootInfoFrameAllocatorImpl.allocate_frame.

Definition HEAP_START : Z := 0x444444440000.
Definition HEAP_SIZE : Z := 128 * 1024 * 1024.

Section mapping.
Context {P F : Type} `{Mapper P F} `{X86Addr}.

Definition frame_alloc : M (P * F) (option Z) := λ '(p, f),
  '(o, f') ← allocate_frame f; mret (o, (p, f')).

Definition create_identity_virt_from_phys : M (P * F) (Z + MapToError) :=
  o ← frame_alloc;
  frame ← lift (unwrap o);
  start ← lift (VirtAddr_new frame);
  let page := containing_address start in
  r ← map_to page frame;
  mret (match r with inl _ => inl page | inr e => inr e end).

(** [fetch_add] on [OTHER_VIRT] is the state in front. *)
Definition create_virt_from_phys (frame : Z) : M (Z * (P * F)) (Z + MapToError) := λ '(other_virt, pf),
  start ← VirtAddr_new other_virt;
  let page := containing_address start in
  '(r, pf') ← map_to page frame pf;
  mret (match r with inl _ => inl page | inr e => inr e end, (other_virt +u[64] 4096, pf')).

(** The loop that takes the other frames and checks that they are contiguous. *)
Definition take_contiguous (first_frame i : Z) : M (P * F) unit :=
  o ← frame_alloc;
  frame_start ← lift (unwrap o);
  if negb (first_frame +u[64] (i *u[64] 4096) =? frame_start) then
    lift (Panic (PExplicit "create_identity_virt_from_phys_n NON CONTIGUOUS"))
  else mret tt.

(** A loop whose body returns early on an error. *)
Fixpoint try_each {S E} (l : list Z) (body : Z → M S (unit + E)) : M S (unit + E) :=
  match l with
  | [] => mret (inl tt)
  | i :: l => r ← body i; match r with inl _ => try_each l body | inr e => mret (inr e) end
  end.

Definition map_identity (first_frame i : Z) : M (P * F) (unit + MapToError) :=
  let addr := first_frame +u[64] (i *u[64] 4096) in
  p ← lift (PhysAddr_new addr);
  v ← lift (VirtAddr_new addr);
  map_to (containing_address v) (containing_address p).

Definition create_identity_virt_from_phys_n (pages : Z) : M (P * F) (Z + MapToError) :=
  o ← frame_alloc;
  first_frame ← lift (unwrap o);
  for_each (range 1 pages) (take_contiguous first_frame) ;;
  r ← try_each (range 0 pages) (map_identity first_frame);
  match r with
  | inl _ => v ← lift (VirtAddr_new first_frame); mret (inl (containing_address v))
  | inr e => mret (inr e)
  end.

(** [ALLOCATOR.lock().init(HEAP_START, HEAP_SIZE)] hands the mapped range to the
    heap allocator crate; the range is what the result stands for. *)
Definition map_heap_page (page : Z) : M (P * F) (unit + MapToError) :=
  o ← frame_alloc;
  match o with
  | Some frame => map_to page frame
  | None => mret (inr FrameAllocationFailed)
  end.

(** [Page::range_inclusive]. *)
Fixpoint pages_from (page : Z) (n : nat) : list Z :=
  match n with
  | O => []
  | Datatypes.S n => page :: pages_from (page + 4096) n
  end.

Definition heap_pages : list Z :=
  let heap_start_page := containing_address HEAP_START in
  let heap_end_page := containing_address (HEAP_START + HEAP_SIZE - 1) in
  pages_from heap_start_page (Z.to_nat ((heap_end_page - heap_start_page) / 4096 + 1)).

Definition init_heap : M (P * F) (Z * Z + MapToError) :=
  r ← try_each heap_pages map_heap_page;
  mret (match r with inl _ => inl (HEAP_START, HEAP_SIZE) | inr e => inr e end).
End mapping.

(** ** The allocator hands out the usable frames in order *)

(** The frames of the memory map. *)
Definition usable_frames (m : list MemoryRegion) : list Z :=
  containing_address <$> BootInfoFrameAllocatorImpl.usable_addresses m.

(** Every usable address is a physical address. *)
Definition map_valid (m : list MemoryRegion) : Prop :=
  Forall (λ a, 0 ≤ a < 2 ^ 52) (BootInfoFrameAllocatorImpl.usable_addresses m).

(** [n] calls, and what they return. *)
Fixpoint alloc_n {F} `{FrameAllocator F} (n : nat) : M F (list (option Z)) :=
  match n with
  | O => mret []
  | S n => o ← allocate_frame; os ← alloc_n n; mret (o :: os)
  end.

Section boot.
Context `{X86Addr}.

Lemma usable_frame_ok a : 0 ≤ a < 2 ^ 52 → BootInfoFrameAllocatorImpl.usable_frame a = Ok (containing_address a).
Proof. intros Ha. unfold BootInfoFrameAllocatorImpl.usable_frame. by rewrite PhysAddr_new_ok. Qed.

Lemma mapM_usable_frame l :
  Forall (λ a, 0 ≤ a < 2 ^ 52) l →
  mapM BootInfoFrameAllocatorImpl.usable_frame l = Ok (containing_address <$> l).
Proof.
  induction 1 as [|a l Ha Hl IH]; [done|]. simpl. rewrite usable_frame_ok by done. simpl. by rewrite IH.
Qed.

(** What the allocator holds after [i] calls: its buffer is the frames from [i]
    up to the next refill, which starts at [next - 1]. *)
Definition at_position (m : list MemoryRegion) (i : nat) (a : BootInfoFrameAllocator) : Prop :=
  memory_map a = m ∧ 1 ≤ next a ∧
  let k := Z.to_nat (next a - 1) in
  (i ≤ k ≤ 32 * i)%nat ∧ reverse (buf a) = take (k - i) (drop i (usable_frames m)).

Lemma at_position_init m : at_position m 0 (BootInfoFrameAllocatorImpl.init m).
Proof. by split_and!. Qed.

(** The refill, when the buffer is empty. *)
Lemma refill_position m i k :
  (i ≤ k)%nat → take (k - i) (drop i (usable_frames m)) = [] →
  drop k (take (k + 32) (usable_frames m)) = take (k + 32 - i) (drop i (usable_frames m)).
Proof.
  intros Hik He. apply (f_equal length) in He. rewrite length_take, length_drop in He. simpl in He.
  rewrite drop_take_drop || rewrite skipn_firstn_comm.
  destruct (decide (k = i)) as [->|Hne]; [done|].
  rewrite !drop_ge by lia. by rewrite !take_nil.
Qed.

Lemma allocate_frame_position m i a :
  map_valid m → Z.of_nat i < 2 ^ 58 → at_position m i a →
  ∃ a', allocate_frame a = Ok (usable_frames m !! i, a') ∧ at_position m (S i) a'.
Proof.
  intros Hv Hi (Hm & Hn & Hk & Hb). unfold allocate_frame, boot_frame_allocator, BootInfoFrameAllocatorImpl.allocate_frame.
  set (k := Z.to_nat (next a - 1)) in *.
  assert (∃ a1, (if bool_decide (buf a = []) then
         frames ← mapM BootInfoFrameAllocatorImpl.usable_frame
                    (take (k + BUFFER_SIZE_ADVANCE) (BootInfoFrameAllocatorImpl.usable_addresses (memory_map a)));
         mret {| memory_map := memory_map a; next := next a +u[64] Z.of_nat BUFFER_SIZE_ADVANCE;
                 buf := reverse (drop k frames) |}
       else mret a) = Ok a1 ∧ memory_map a1 = m ∧ 1 ≤ next a1 ∧
       let k1 := Z.to_nat (next a1 - 1) in
       (i < k1 ≤ 32 * S i)%nat ∧ reverse (buf a1) = take (k1 - i) (drop i (usable_frames m))) as (a1 & -> & Hm1 & Hn1 & Hk1 & Hb1).
  { case_bool_decide as He.
    - rewrite Hm, mapM_usable_frame by (by apply Forall_take). simpl. eexists. split; [done|]. simpl.
      change (Z.of_nat BUFFER_SIZE_ADVANCE) with 32.
      rewrite wrap_small by (unfold fits, k in *; change (2 ^ 64) with (64 * 2 ^ 58); lia).
      replace (Z.to_nat (next a + 32 - 1)) with (k + 32)%nat by lia.
      split_and!; [done|lia|lia|lia|]. rewrite reverse_involutive, fmap_take.
      rewrite He in Hb. rewrite <-(refill_position m i k) by (done || lia). done.
    - exists a. cbv zeta; fold k; split_and!; [done..| |lia|done].
      destruct (decide (i = k)) as [->|]; [|lia]. rewrite Nat.sub_diag, take_0 in Hb.
      apply (f_equal reverse) in Hb. by rewrite reverse_involutive in Hb. }
  simpl. set (k1 := Z.to_nat (next a1 - 1)) in *.
  destruct (k1 - i)%nat as [|n] eqn:Hn'; [lia|].
  assert (usable_frames m !! i = head (drop i (usable_frames m))) as -> by
    by rewrite head_lookup, lookup_drop, Nat.add_0_r.
  destruct (drop i (usable_frames m)) as [|f l] eqn:Hd; simpl in Hb1.
  - apply (f_equal reverse) in Hb1. rewrite reverse_involutive in Hb1. rewrite Hb1. exists a1. split; [done|].
    unfold at_position. cbv zeta. fold k1. split_and!; [done|done|lia..|]. rewrite Hb1. rewrite drop_ge by (apply (f_equal length) in Hd; rewrite length_drop in Hd; simpl in Hd; lia).
    by rewrite take_nil.
  - apply (f_equal reverse) in Hb1. rewrite reverse_involutive, reverse_cons in Hb1. rewrite Hb1, pop_snoc.
    eexists. split; [done|]. unfold at_position. cbv zeta. cbn [memory_map next buf]. fold k1.
    split_and!; [done|done|lia..|]. rewrite reverse_involutive.
    replace (k1 - S i)%nat with n by lia. f_equal.
    rewrite <-(Nat.add_1_r i), <-drop_drop, Hd. done.
Qed.

Lemma alloc_n_position m n i a :
  map_valid m → Z.of_nat (i + n) < 2 ^ 58 → at_position m i a →
  ∃ a', alloc_n n a = Ok ((λ j, usable_frames m !! j) <$> seq i n, a') ∧ at_position m (i + n) a'.
Proof.
  intros Hv. revert i a; induction n as [|n IH]; intros i a Hi Ha.
  - exists a. rewrite Nat.add_0_r. done.
  - destruct (allocate_frame_position m i a) as (a1 & H1 & Ha1); [done|lia|done|].
    destruct (IH (S i) a1) as (a2 & H2 & Ha2); [lia|done|]. exists a2. simpl.
    rewrite (M_bind_run _ _ _ _ _ H1), (M_bind_run _ _ _ _ _ H2).
    split; [done|]. by rewrite Nat.add_succ_r.
Qed.
End boot.

(** The usable regions of a memory map are page aligned and do not overlap. *)
Definition regions_disjoint (m : list MemoryRegion) : Prop :=
  let rs := filter (λ r, kind r = Usable) m in
  (∀ r, r ∈ rs → start r mod 4096 = 0) ∧
  ∀ i j r1 r2, rs !! i = Some r1 → rs !! j = Some r2 → i ≠ j → end_ r1 ≤ start r2 ∨ end_ r2 ≤ start r1.

Lemma elem_of_step a b x : x ∈ step_by_4096 a b ↔ a ≤ x < b ∧ (x - a) mod 4096 = 0.
Proof.
  unfold step_by_4096. rewrite list_elem_of_fmap. setoid_rewrite elem_of_range. split.
  - intros (k & -> & Hk). lia.
  - intros [Hx Hm]. exists ((x - a) / 4096). lia.
Qed.

Lemma NoDup_step a b : NoDup (step_by_4096 a b).
Proof. apply NoDup_fmap_2; [intros x y Hxy; lia|apply NoDup_seqZ]. Qed.

Lemma containing_aligned a : a mod 4096 = 0 → containing_address a = a.
Proof. unfold containing_address. lia. Qed.

Lemma NoDup_usable_frames m : regions_disjoint m → NoDup (usable_frames m).
Proof.
  unfold usable_frames, BootInfoFrameAllocatorImpl.usable_addresses, regions_disjoint.
  generalize (filter (λ r, kind r = Usable) m) as rs. intros rs [Hal Hd].
  assert ((containing_address <$> (rs ≫= λ r, step_by_4096 (start r) (end_ r))) =
          rs ≫= λ r, step_by_4096 (start r) (end_ r)) as ->.
  { clear Hd. induction rs as [|r rs IH]; [done|]. rewrite bind_cons, fmap_app, IH by (intros; apply Hal; by right).
    f_equal. rewrite <-(list_fmap_id (step_by_4096 _ _)) at 2. apply list_fmap_ext. intros i x Hx.
    apply list_elem_of_lookup_2, elem_of_step in Hx. apply containing_aligned.
    specialize (Hal r ltac:(left)). simpl. lia. }
  induction rs as [|r rs IH]; [constructor|]. rewrite bind_cons. apply NoDup_app. split_and!.
  - apply NoDup_step.
  - intros x Hx (r2 & Hx2 & Hr2)%list_elem_of_bind. apply elem_of_step in Hx, Hx2.
    apply list_elem_of_lookup in Hr2 as [j Hj].
    destruct (Hd 0%nat (S j) r r2); [done..|lia|lia].
  - apply IH; [intros; apply Hal; by right|]. intros i j r1 r2 H1 H2 Hne. apply (Hd (S i) (S j)); naive_solver.
Qed.

(** C17: the frame allocator hands out the usable frames in order. For any
    number of calls, the [i]-th returns the [i]-th usable frame of the memory
    map and [None] after the last, refills of 32 notwithstanding; if the usable
    regions are aligned and do not overlap, no frame is handed out twice. *)
Theorem frame_allocator_in_order `{X86Addr} m n :
  map_valid m → Z.of_nat n < 2 ^ 58 →
  (∃ a, alloc_n n (BootInfoFrameAllocatorImpl.init m) = Ok ((λ i, usable_frames m !! i) <$> seq 0 n, a)) ∧
  (regions_disjoint m → ∀ i j f, usable_frames m !! i = Some f → usable_frames m !! j = Some f → i = j).
Proof.
  intros Hv Hn. split.
  - destruct (alloc_n_position m n 0 (BootInfoFrameAllocatorImpl.init m)) as (a & Ha & _);
      [done..|apply at_position_init|by exists a].
  - intros Hd i j f. by apply NoDup_lookup, NoDup_usable_frames.
Qed.

Definition example_map : list MemoryRegion :=
  [{| start := 0; end_ := 0x1000; kind := Bootloader |};
   {| start := 0x1000; end_ := 0x5000; kind := Usable |};
   {| start := 0x100000; end_ := 0x140000; kind := Usable |}].

Lemma example_map_valid : map_valid example_map.
Proof. unfold map_valid. apply (bool_decide_unpack _). by vm_compute. Qed.

#[local] Existing Instance x86_addr_instance.
Lemma frame_allocator_in_order_witness :
  ∃ a, alloc_n 6 (BootInfoFrameAllocatorImpl.init example_map) =
    Ok ([Some 0x1000; Some 0x2000; Some 0x3000; Some 0x4000; Some 0x100000; Some 0x101000], a).
Proof.
  destruct (frame_allocator_in_order example_map 6 example_map_valid ltac:(done)) as [[a Ha] _].
  by exists a.
Defined.

(** ** Mapping *)
Section mapping_spec.
Context {P F : Type} `{Mapper P F} `{X86Addr}.
Implicit Types (p : P) (f : F).

(** Taking the frames [fs], one per call. *)
Fixpoint takes (fs : list Z) (f f' : F) : Prop :=
  match fs with
  | [] => f' = f
  | x :: fs => ∃ f1, allocate_frame f = Ok (Some x, f1) ∧ takes fs f1 f'
  end.

Lemma takes_rtc fs f f' : takes fs f f' → rtc takes_frame f f'.
Proof.
  revert f; induction fs as [|x fs IH]; intros f; simpl; [intros ->; apply rtc_refl|].
  intros (f1 & E & Hf). apply (rtc_l _ _ f1); [by eexists|by apply IH].
Qed.

Lemma take_contiguous_loop first i n p f p' f' :
  0 ≤ first → 0 ≤ i → first + 4096 * (i + Z.of_nat n) ≤ 2 ^ 52 →
  for_each (range i (i + Z.of_nat n)) (take_contiguous first) (p, f) = Ok (tt, (p', f')) ↔
  p' = p ∧ takes ((λ k, first + 4096 * k) <$> range i (i + Z.of_nat n)) f f'.
Proof.
  intros Hf. revert i p f. induction n as [|n IH]; intros i p f Hi Hb.
  - unfold range. rewrite Z.add_0_r, Z.sub_diag. simpl. unfold mret, M_ret. naive_solver.
  - assert (range i (i + Z.of_nat (S n)) = i :: range (i + 1) (i + 1 + Z.of_nat n)) as ->.
    { unfold range. rewrite (seqZ_cons i) by lia. f_equal. f_equal; lia. }
    cbn [for_each fmap list_fmap takes]. rewrite M_bind_ok.
    assert (∀ s1, take_contiguous first i (p, f) = Ok (tt, s1) ↔
      ∃ f1, allocate_frame f = Ok (Some (first + 4096 * i), f1) ∧ s1 = (p, f1)) as Hstep.
    { intros s1. unfold take_contiguous, frame_alloc, mbind, M_bind, lift. simpl.
      rewrite (wrap_small 64 (i * 4096)), (wrap_small 64) by (unfold fits; lia).
      destruct (allocate_frame f) as [[o f1]|]; simpl; [|naive_solver].
      destruct o as [x|]; simpl; [|naive_solver].
      destruct (Z.eqb_spec (first + i * 4096) x) as [<-|Hne]; simpl.
      - replace (first + i * 4096) with (first + 4096 * i) by lia. unfold mret, M_ret. naive_solver.
      - split; [done|]. intros (f2 & E & _). injection E as -> _. exfalso. apply Hne. lia. }
    split.
    + intros ([] & [p1 f1] & E1 & E2). apply Hstep in E1 as (f2 & E1 & [= -> ->]).
      apply (IH (i + 1)) in E2 as [-> E2]; [eauto|lia..].
    + intros [-> (f1 & E1 & E2)]. exists tt, (p, f1). split; [apply Hstep; eauto|]. apply IH; [lia..|done].
Qed.

Lemma map_identity_run first i (s : P * F) :
  first mod 4096 = 0 → 0 ≤ first → 0 ≤ i → first + 4096 * i < 2 ^ 47 →
  map_identity first i s = map_to (first + 4096 * i) (first + 4096 * i) s.
Proof.
  intros Ha Hf Hi Hb. unfold map_identity. rewrite (wrap_small 64 (i * 4096)), (wrap_small 64) by (unfold fits; lia).
  replace (first + i * 4096) with (first + 4096 * i) by lia.
  unfold mbind, M_bind, lift. rewrite PhysAddr_new_ok, VirtAddr_new_ok by lia.
  by rewrite containing_aligned by lia.
Qed.

(** The pages [first + 4096 * k] for [k] in [a, b) become identity mapped; the
    mapping of every other page is the old one. *)
Definition identity_mapped first a b (p p' : P) : Prop :=
  (∀ k, a ≤ k < b → translate p (first + 4096 * k) = None ∧
                    translate p' (first + 4096 * k) = Some (first + 4096 * k)) ∧
  (∀ q, (∀ k, a ≤ k < b → q ≠ first + 4096 * k) → translate p' q = translate p q).

Lemma map_identity_loop first i n p f r p' f' :
  first mod 4096 = 0 → 0 ≤ first → 0 ≤ i → first + 4096 * (i + Z.of_nat n) ≤ 2 ^ 47 →
  try_each (range i (i + Z.of_nat n)) (map_identity first) (p, f) = Ok (r, (p', f')) →
  rtc takes_frame f f' ∧ (r = inl tt → identity_mapped first i (i + Z.of_nat n) p p').
Proof.
  intros Ha Hf. revert i p f. induction n as [|n IH]; intros i p f Hi Hb.
  - unfold range. rewrite Z.add_0_r, Z.sub_diag. simpl. unfold mret, M_ret. intros [= <- -> ->].
    split; [apply rtc_refl|]. intros _. split; [lia|done].
  - assert (range i (i + Z.of_nat (S n)) = i :: range (i + 1) (i + 1 + Z.of_nat n)) as ->.
    { unfold range. rewrite (seqZ_cons i) by lia. f_equal. f_equal; lia. }
    cbn [try_each]. rewrite M_bind_ok. intros (r1 & [p1 f1] & E1 & E2).
    rewrite map_identity_run in E1 by lia. apply map_to_mapped in E1 as [T1 E1].
    destruct r1 as [[]|e].
    + apply IH in E2 as [T2 E2]; [|lia..]. split; [by etrans|]. intros ->.
      destruct (E2 eq_refl) as [I1 I2]. destruct E1 as (N1 & N2 & N3). split.
      * intros k Hk. destruct (decide (k = i)) as [->|Hne].
        -- split; [done|]. rewrite I2; [done|lia].
        -- destruct (I1 k) as [J1 J2]; [lia|]. rewrite N3 in J1 by lia. done.
      * intros q Hq. rewrite I2, N3; [done|apply Hq; lia|intros k Hk; apply Hq; lia].
    + unfold mret, M_ret in E2. injection E2 as <- -> ->. done.
Qed.

Lemma map_identity_loop_total first i n p f :
  first mod 4096 = 0 → 0 ≤ first → 0 ≤ i → first + 4096 * (i + Z.of_nat n) ≤ 2 ^ 47 →
  (∀ f', rtc takes_frame f f' → ∃ f'', takes_frame f' f'') →
  ∃ r s', try_each (range i (i + Z.of_nat n)) (map_identity first) (p, f) = Ok (r, s').
Proof.
  intros Ha Hf. revert i p f. induction n as [|n IH]; intros i p f Hi Hb Ht.
  - unfold range. rewrite Z.add_0_r, Z.sub_diag. simpl. unfold mret, M_ret. eauto.
  - assert (range i (i + Z.of_nat (S n)) = i :: range (i + 1) (i + 1 + Z.of_nat n)) as ->.
    { unfold range. rewrite (seqZ_cons i) by lia. f_equal. f_equal; lia. }
    cbn [try_each]. destruct (map_to_total (first + 4096 * i) (first + 4096 * i) p f Ht) as (r & [p1 f1] & E).
    pose proof (map_to_mapped _ _ _ _ _ _ _ E) as [T1 _].
    rewrite <-map_identity_run in E by lia. rewrite (M_bind_run _ _ _ _ _ E).
    destruct r as [[]|e]; [|by eexists _, _]. apply IH; [lia..|]. intros f' Hf'. apply Ht. by etrans.
Qed.
Lemma range_cons n : range 0 (1 + Z.of_nat n) = 0 :: range 1 (1 + Z.of_nat n).
Proof. unfold range. rewrite (seqZ_cons 0) by lia. f_equal. f_equal; lia. Qed.

(** The last step: the page of the first frame, or the error. *)
Lemma identity_page x r1 r (s s' : P * F) :
  x mod 4096 = 0 → 0 ≤ x < 2 ^ 47 →
  match r1 with
  | inl _ => v ← lift (VirtAddr_new x); mret (inl (containing_address v))
  | inr e => mret (inr e)
  end s = Ok (r, s') ↔
  s' = s ∧ r = match r1 : unit + MapToError with inl _ => inl x | inr e => inr e end.
Proof.
  intros Ha Hb. destruct r1 as [[]|e].
  - unfold mbind, M_bind, lift. rewrite VirtAddr_new_ok by done. rewrite containing_aligned by done.
    unfold mret, M_ret. naive_solver.
  - unfold mret, M_ret. naive_solver.
Qed.

Lemma create_identity_n_run n p f r s' :
  (∀ f' x, allocate_frame f = Ok (Some x, f') →
     x mod 4096 = 0 ∧ 0 ≤ x ∧ x + 4096 * (1 + Z.of_nat n) ≤ 2 ^ 47) →
  create_identity_virt_from_phys_n (1 + Z.of_nat n) (p, f) = Ok (r, s') ↔
    ∃ x f1 r1, takes ((λ k, x + 4096 * k) <$> range 0 (1 + Z.of_nat n)) f f1 ∧
      x mod 4096 = 0 ∧ 0 ≤ x ∧ x + 4096 * (1 + Z.of_nat n) ≤ 2 ^ 47 ∧
      try_each (range 0 (1 + Z.of_nat n)) (map_identity x) (p, f1) = Ok (r1, s') ∧
      r = match r1 with inl _ => inl x | inr e => inr e end.
Proof.
  intros Hx. unfold create_identity_virt_from_phys_n. rewrite M_bind_ok. unfold frame_alloc at 1, lift at 1.
  setoid_rewrite M_bind_ok. split.
  - intros (o & [p1 f1] & E1 & x & s2 & E2 & E3).
    destruct (allocate_frame f) as [[o' f0]|] eqn:Ea; [|done]. injection E1 as -> <- ->.
    destruct o as [y|]; [|done]. injection E2 as -> <-.
    apply M_bind_ok in E3 as ([] & [p2 f2] & E3 & E4).
    destruct (Hx _ _ eq_refl) as (X1 & X2 & X3).
    apply (take_contiguous_loop x 1 n) in E3 as [-> E3]; [|lia..].
    apply M_bind_ok in E4 as (r1 & s3 & E4 & E5).
    apply identity_page in E5 as [-> ->]; [|done|lia]. exists x, f2, r1.
    split_and!; try done. rewrite range_cons. cbn [fmap list_fmap takes].
    rewrite Z.mul_0_r, Z.add_0_r. eauto.
  - intros (x & f1 & r1 & E1 & X1 & X2 & X3 & E2 & ->). rewrite range_cons in E1.
    destruct E1 as (f0 & Ea & E1). rewrite Z.mul_0_r, Z.add_0_r in Ea. rewrite Ea.
    exists (Some x), (p, f0). split; [done|]. exists x, (p, f0). split; [done|]. apply M_bind_ok.
    exists tt, (p, f1). split; [by apply take_contiguous_loop; [lia..|]|].
    apply M_bind_ok. exists r1, s'. split; [done|]. by apply identity_page; [|lia|].
Qed.
End mapping_spec.

(** Identity-mapped runs are contiguous. [create_identity_virt_from_phys_n]
    panics exactly when the allocator's next [pages] frames are not consecutive
    (or it runs out); otherwise it returns, and if it returns a page then that
    is the first of [pages] consecutive frames, which were unmapped, are now
    mapped one to one, and no other mapping changed. *)
Theorem create_identity_n_contiguous {P F} `{Mapper P F} `{X86Addr} (pages : Z) (p : P) (f : F) :
  1 ≤ pages →
  (∀ f' x, allocate_frame f = Ok (Some x, f') → x mod 4096 = 0 ∧ 0 ≤ x ∧ x + 4096 * pages ≤ 2 ^ 47) →
  (∀ f', rtc takes_frame f f' → ∃ f'', takes_frame f' f'') →
  ((∃ r s', create_identity_virt_from_phys_n pages (p, f) = Ok (r, s')) ↔
   ∃ x f', takes ((λ k, x + 4096 * k) <$> range 0 pages) f f') ∧
  (∀ v p' f', create_identity_virt_from_phys_n pages (p, f) = Ok (inl v, (p', f')) →
     ∃ f1, takes ((λ k, v + 4096 * k) <$> range 0 pages) f f1 ∧ rtc takes_frame f1 f' ∧
           identity_mapped v 0 pages p p').
Proof.
  intros Hp Hx Ht.
  assert (∃ n, pages = 1 + Z.of_nat n) as [n ->] by (exists (Z.to_nat (pages - 1)); lia).
  pose proof (λ r s', create_identity_n_run n p f r s' Hx) as Hrun.
  assert (1 + Z.of_nat n = 0 + Z.of_nat (S n)) as Hn by lia. split; [split|].
  - intros (r & s' & (x & f1 & r1 & E & _)%Hrun). eauto.
  - intros (x & f1 & E). pose proof E as E'. rewrite range_cons in E'.
    destruct E' as (f0 & Ea & _). rewrite Z.mul_0_r, Z.add_0_r in Ea. apply Hx in Ea as (X1 & X2 & X3).
    destruct (map_identity_loop_total x 0 (S n) p f1) as (r & s' & E2); [done|lia..| |].
    { intros f' Hf'. apply Ht. etrans; [by apply (takes_rtc _ f f1 E)|done]. }
    rewrite <-Hn in E2. eexists _, _. apply Hrun. exists x, f1, r. by split_and!.
  - intros v p' f' (x & f1 & r1 & E1 & X1 & X2 & X3 & E2 & E3)%Hrun.
    destruct r1 as [[]|e]; [|done]. injection E3 as ->. rewrite Hn in E2 |- *.
    apply map_identity_loop in E2 as [T Hm]; [|lia..]. rewrite Hn in E1. exists f1. split_and!; auto.
Qed.

(** ** The heap *)
Section heap_spec.
Context {P F : Type} `{Mapper P F}.

(** [frame] was handed out between the allocator states [f] and [f']. *)
Definition handed_out (f f' : F) (frame : Z) : Prop :=
  ∃ f1 f2, rtc takes_frame f f1 ∧ allocate_frame f1 = Ok (Some frame, f2) ∧ rtc takes_frame f2 f'.

Lemma handed_out_mono f0 f f' f1 frame :
  rtc takes_frame f0 f → rtc takes_frame f' f1 → handed_out f f' frame → handed_out f0 f1 frame.
Proof. intros R1 R2 (a & b & H1 & H2 & H3). exists a, b. split_and!; [by etrans|done|by etrans]. Qed.

Lemma map_heap_loop pages p f p' f' :
  NoDup pages →
  try_each pages map_heap_page (p, f) = Ok (inl tt, (p', f')) →
  rtc takes_frame f f' ∧
  (∀ q, q ∈ pages → translate p q = None ∧ ∃ frame, translate p' q = Some frame ∧ handed_out f f' frame) ∧
  (∀ q, q ∉ pages → translate p' q = translate p q).
Proof.
  revert p f; induction pages as [|page pages IH]; intros p f Hnd.
  - unfold try_each, mret, M_ret. intros [= <- <-]. split_and!; [apply rtc_refl|set_solver|done].
  - apply NoDup_cons in Hnd as [Hni Hnd]. cbn [try_each]. intros (r & [p1 f1] & E1 & E2)%M_bind_ok.
    destruct r as [[]|e]; [|done].
    unfold map_heap_page in E1. apply M_bind_ok in E1 as (o & [p0 f0] & E0 & E1).
    unfold frame_alloc in E0. destruct (allocate_frame f) as [[o' f0']|] eqn:Ea; [|done].
    injection E0 as -> <- ->. destruct o as [frame|]; [|done].
    apply map_to_mapped in E1 as (T1 & N1 & N2 & N3). apply IH in E2 as (T2 & M1 & M2); [|done].
    assert (takes_frame f f0) as T0 by by eexists. split_and!.
    + apply (rtc_l _ _ f0); [done|by etrans].
    + intros q [->|Hq]%elem_of_cons.
      * split; [done|]. exists frame. rewrite M2 by done. split; [done|].
        exists f, f0. split_and!; [apply rtc_refl|done|by etrans].
      * destruct (M1 q Hq) as (M1q & fr & M3 & M4). rewrite N3 in M1q by (intros ->; done). split; [done|].
        exists fr. split; [done|]. apply (handed_out_mono _ f1 f'); [|apply rtc_refl|done].
        by apply (rtc_l _ _ f0).
    + intros q [Hq1 Hq2]%not_elem_of_cons. by rewrite M2, N3.
Qed.
End heap_spec.

Lemma pages_from_range p n : pages_from p n = (λ i, p + 4096 * i) <$> range 0 (Z.of_nat n).
Proof.
  unfold range. rewrite Z.sub_0_r. revert p; induction n as [|n IH]; intros p; [done|].
  rewrite seqZ_cons by lia. cbn [pages_from fmap list_fmap]. f_equal; [lia|].
  rewrite IH. replace (Z.pred (Z.of_nat (S n))) with (Z.of_nat n) by lia.
  rewrite <-(fmap_add_seqZ 1 0), <-list_fmap_compose. apply list_fmap_ext. intros; simpl; lia.
Qed.

Lemma elem_of_heap_pages q : q ∈ heap_pages ↔ ∃ i, q = HEAP_START + 4096 * i ∧ 0 ≤ i < 32768.
Proof.
  unfold heap_pages. cbv zeta. rewrite pages_from_range, list_elem_of_fmap. setoid_rewrite elem_of_range. done.
Qed.

Lemma heap_pages_cover x : (∃ q, q ∈ heap_pages ∧ q ≤ x < q + 4096) ↔ HEAP_START ≤ x < HEAP_START + HEAP_SIZE.
Proof.
  setoid_rewrite elem_of_heap_pages. unfold HEAP_START, HEAP_SIZE. split.
  - intros (q & (i & -> & Hi) & Hq). lia.
  - intros Hx. exists (0x444444440000 + 4096 * ((x - 0x444444440000) / 4096)). split; [|lia].
    exists ((x - 0x444444440000) / 4096). split; [lia|]. lia.
Qed.

Lemma NoDup_heap_pages : NoDup heap_pages.
Proof.
  unfold heap_pages. cbv zeta. rewrite pages_from_range.
  apply NoDup_fmap_2; [intros x y Hxy; lia|apply NoDup_seqZ].
Qed.

(** C18: the heap is backed. When [init_heap] succeeds, the range handed to the
    heap allocator is covered exactly by the mapped pages, each was unmapped and
    is now mapped to a frame the allocator handed out during the call, and every
    other mapping is as before. *)
Theorem init_heap_backed {P F} `{Mapper P F} (p p' : P) (f f' : F) s n :
  init_heap (p, f) = Ok (inl (s, n), (p', f')) →
  (∀ x, s ≤ x < s + n ↔ ∃ q, q ∈ heap_pages ∧ q ≤ x < q + 4096) ∧
  (∀ q, q ∈ heap_pages → translate p q = None ∧
     ∃ frame, translate p' q = Some frame ∧ handed_out f f' frame) ∧
  (∀ q, q ∉ heap_pages → translate p' q = translate p q).
Proof.
  unfold init_heap. pose proof heap_pages_cover as Hc. pose proof NoDup_heap_pages as Hn. revert Hc Hn.
  generalize heap_pages as pages. intros pages Hc Hn (r & [p1 f1] & E1 & E2)%M_bind_ok.
  destruct r as [[]|e]; [|done]. injection E2 as <- <- <- <-. apply map_heap_loop in E1 as (_ & E1 & E2); [|done].
  split_and!; [|done..]. intros x. by rewrite Hc.
Qed.

(** A page table that is a finite map, and an allocator that counts frames up. *)
#[local] Instance count_frames : FrameAllocator Z := λ k,
  Ok (if k <? 2 ^ 20 then (Some (4096 * k), k + 1) else (None, k)).

#[local] Program Instance table_mapper : Mapper (gmap Z Z) Z := {|
  translate t p := t !! p;
  map_to page frame s :=
    match s.1 !! page with
    | Some x => Ok (inr (PageAlreadyMapped x), s)
    | None => Ok (inl tt, (<[page := frame]> s.1, s.2))
    end
|}.
Next Obligation.
  intros page frame p f r p' f' E. simpl in *. destruct (p !! page) eqn:Ep; injection E as <- <- <-.
  - split; [apply rtc_refl|done].
  - split; [apply rtc_refl|]. split_and!; [done|apply lookup_insert_eq|]. intros q Hq. by apply lookup_insert_ne.
Qed.
Next Obligation. intros page frame p f _. simpl. destruct (p !! page); eauto. Qed.

Lemma create_identity_n_contiguous_witness :
  (∃ r s', create_identity_virt_from_phys_n (P:=gmap Z Z) (F:=Z) 3 (∅, 16) = Ok (r, s')) ∧
  identity_mapped (P:=gmap Z Z) (F:=Z) 0x10000 0 3 ∅
    (<[0x12000 := 0x12000]> (<[0x11000 := 0x11000]> (<[0x10000 := 0x10000]> ∅))).
Proof.
  destruct (create_identity_n_contiguous (P:=gmap Z Z) (F:=Z) 3 ∅ 16) as [H1 H2].
  - lia.
  - intros f' x E. vm_compute in E. injection E as <- <-. vm_compute. split_and!; congruence.
  - intros f' _. unfold takes_frame, allocate_frame, count_frames. destruct (f' <? 2 ^ 20); eauto.
  - split.
    + apply H1. exists 0x10000, 19. simpl. by do 3 (eexists; split; [reflexivity|]).
    + destruct (H2 0x10000 (<[0x12000 := 0x12000]> (<[0x11000 := 0x11000]> (<[0x10000 := 0x10000]> ∅))) 19)
        as (f1 & _ & _ & Hm); [by vm_compute|]. exact Hm.
Defined.

Lemma init_heap_backed_witness :
  ∃ p' f', init_heap (P:=gmap Z Z) (F:=Z) (∅, 16) = Ok (inl (HEAP_START, HEAP_SIZE), (p', f')) ∧
           ∃ frame, p' !! 0x444444441000 = Some frame.
Proof.
  assert (match init_heap (P:=gmap Z Z) (F:=Z) (∅, 16) with
          | Ok (inl (a, b), _) => (a =? HEAP_START) && (b =? HEAP_SIZE) | _ => false end = true) as H by by vm_compute.
  destruct (init_heap (∅, 16)) as [[[[a b]|e] [p' f']]|] eqn:E; [|discriminate H..].
  apply andb_prop in H as [Ha%Z.eqb_eq Hb%Z.eqb_eq]. subst.
  destruct (init_heap_backed _ _ _ _ _ _ E) as (_ & Hq & _). clear E.
  exists p', f'. split; [reflexivity|].
  destruct (Hq 0x444444441000) as (_ & fr & Hf & _); [|exists fr; exact Hf].
  apply elem_of_heap_pages. exists 1. split; [reflexivity|lia].
Defined.
