(* ===== verification/Virtio.v ===== *)
(** Virtio queues ([bootloader/kernel/src/virtio.rs]): the free-descriptor lists,
    and the split-queue operations of [impl Virtio] on the shared memory the
    device reads and writes. *)
From S2P Require Import Prelude Bytes Interfaces Pci.

Definition MAX_NUM_QUEUE : nat := 256.

(** ** Free descriptors *)
Record QueueFreeDescs := { free : list Z }.

Module QueueFreeDescsImpl.
Definition new (queue_size : Z) : QueueFreeDescs := {| free := range 0 queue_size |}.

Definition get_free (q : QueueFreeDescs) : option Z * QueueFreeDescs :=
  match pop (free q) with
  | Some (d, f) => (Some d, {| free := f |})
  | None => (None, q)
  end.

Definition get_free_twice (q : QueueFreeDescs) : res (option (Z * Z) * QueueFreeDescs) :=
  if 2 <=? len (free q) then
    '(a, f) ← unwrap (pop (free q));
    '(b, f) ← unwrap (pop f);
    Ok (Some (a, b), {| free := f |})
  else Ok (None, q).

Definition set_free (q : QueueFreeDescs) (desc_id : Z) : QueueFreeDescs :=
  {| free := free q ++ [desc_id] |}.
End QueueFreeDescsImpl.

Inductive DeviceType := Input | Gpu.

Definition DEVICE_ID_INPUT : Z := 18.
Definition DEVICE_ID_GPU : Z := 16.

Definition device_id_to_type (id : Z) : option DeviceType :=
  if id =? DEVICE_ID_INPUT then Some Input
  else if id =? DEVICE_ID_GPU then Some Gpu
  else None.

(** ** Registers, capabilities, descriptors *)
Record VirtioPciCommonCfg := {
  device_feature_select : Z; device_feature : Z;
  driver_feature_select : Z; driver_feature : Z;
  msix_config : Z; num_queues : Z; device_status : Z; config_generation : Z;
  cfg_queue_select : Z; queue_size : Z; queue_msix_vector : Z; queue_enable : Z;
  queue_notify_off : Z; queue_desc : Z; queue_driver : Z; queue_device : Z
}.

(** The registers the driver writes. *)
Inductive CfgField :=
| F_driver_feature | F_device_status | F_queue_select
| F_queue_desc | F_queue_driver | F_queue_device | F_queue_enable.

Record VirtioCap (T : Type) := { cap : T; bar : Bar; offset : Z; length_ : Z }.
Arguments cap {T} _.
Arguments bar {T} _.
Arguments offset {T} _.
Arguments length_ {T} _.

Definition VirtioPciCapCommonCfg : Z := 1.
Definition VirtioPciCapNotifyCfg : Z := 2.
Definition VirtioPciCapIsrCfg : Z := 3.
Definition VirtioPciCapDeviceCfg : Z := 4.
Definition VirtioPciCapPciCfg : Z := 5.

Definition VIRTQ_DESC_F_NEXT : Z := 1.
Definition VIRTQ_DESC_F_WRITE : Z := 2.
Definition VIRTQ_DESC_F_INDIRECT : Z := 4.

Record Desc := { addr : Z; desc_len : Z; flags : Z; next : Z }.
Record UsedElem := { used_id : Z; used_len : Z }.

(** The structures in memory, [repr(C)]. *)
Definition load_Desc (m : mem) (p : Z) : Desc :=
  {| addr := load 8 m p; desc_len := load 4 m (p + 8); flags := load 2 m (p + 12);
     next := load 2 m (p + 14) |}.
Definition Desc_bytes (d : Desc) : list Z :=
  le_bytes 8 (addr d) ++ le_bytes 4 (desc_len d) ++ le_bytes 2 (flags d) ++ le_bytes 2 (next d).
Definition load_UsedElem (m : mem) (p : Z) : UsedElem :=
  {| used_id := load 4 m p; used_len := load 4 m (p + 4) |}.
Definition UsedElem_bytes (e : UsedElem) : list Z := le_bytes 4 (used_id e) ++ le_bytes 4 (used_len e).

(** The device behind the common configuration structure: what a read of it
    returns, what a write to a field does. The registers from [queue_size] on
    belong to the selected queue. *)
Class VirtioDevice (D : Type) := {
  cfg : D → VirtioPciCommonCfg;
  cfg_write : CfgField → Z → D → D;
  notify_store : Z → Z → D → D;
  notified : D → list (Z * Z);
  queue_regs : D → Z → Z * Z * Z * Z * Z;
  cfg_selected d :
    queue_regs d (cfg_queue_select (cfg d)) =
      (queue_size (cfg d), queue_notify_off (cfg d), queue_desc (cfg d), queue_driver (cfg d), queue_device (cfg d));
  cfg_select_ok q d :
    cfg_queue_select (cfg (cfg_write F_queue_select q d)) = q ∧
    queue_regs (cfg_write F_queue_select q d) = queue_regs d;
  notify_ok a v d : notified (notify_store a v d) = notified d ++ [(a, v)]
}.

Record Virtio := {
  pci : Pci;
  common : VirtioCap Z;
  device : VirtioCap Z;
  notify : VirtioCap Z;
  pci_conf : VirtioCap (list Z);
  step : Z;
  last_used_idx : list Z;
  device_type : DeviceType;
  queues_free : list QueueFreeDescs;
  queue_select : Z
}.

(** The driver's structure, the device, the memory they share, and every memory
    the device could observe: one per volatile store, oldest first. *)
Record sys (D : Type) := Sys { drv : Virtio; dev : D; ram : mem; seen : list mem }.
Arguments Sys {D} _ _ _ _.
Arguments drv {D} _.
Arguments dev {D} _.
Arguments ram {D} _.
Arguments seen {D} _.

(** [a % b] of non-negative integers. *)
Definition urem (a b : Z) : res Z := if b =? 0 then Panic PDivZero else Ok (a mod b).

Module VirtioImpl.
Section ops.
Context {D : Type} `{VirtioDevice D}.

Definition set_drv (v : Virtio) : M (sys D) unit := modify (λ s, Sys v (dev s) (ram s) (seen s)).
Definition set_dev (f : D → D) : M (sys D) unit := modify (λ s, Sys (drv s) (f (dev s)) (ram s) (seen s)).
Definition write_volatile (p : Z) (bs : list Z) : M (sys D) unit :=
  modify (λ s, let m := store_bytes (ram s) p bs in Sys (drv s) (dev s) m (seen s ++ [m])).

Definition with_queues_free (v : Virtio) (f : list QueueFreeDescs) : Virtio :=
  {| pci := pci v; common := common v; device := device v; notify := notify v; pci_conf := pci_conf v;
     step := step v; last_used_idx := last_used_idx v; device_type := device_type v;
     queues_free := f; queue_select := Virtio.queue_select v |}.
Definition with_last_used_idx (v : Virtio) (l : list Z) : Virtio :=
  {| pci := pci v; common := common v; device := device v; notify := notify v; pci_conf := pci_conf v;
     step := step v; last_used_idx := l; device_type := device_type v;
     queues_free := queues_free v; queue_select := Virtio.queue_select v |}.
Definition with_queue_select (v : Virtio) (q : Z) : Virtio :=
  {| pci := pci v; common := common v; device := device v; notify := notify v; pci_conf := pci_conf v;
     step := step v; last_used_idx := last_used_idx v; device_type := device_type v;
     queues_free := queues_free v; queue_select := q |}.

Definition get_free_desc_id : M (sys D) (option Z) :=
  v ← gets drv;
  q ← lift (index (queues_free v) (Virtio.queue_select v));
  let '(o, q) := QueueFreeDescsImpl.get_free q in
  f ← lift (update (queues_free v) (Virtio.queue_select v) q);
  set_drv (with_queues_free v f) ;; mret o.

Definition get_free_twice_desc_id : M (sys D) (option (Z * Z)) :=
  v ← gets drv;
  q ← lift (index (queues_free v) (Virtio.queue_select v));
  '(o, q) ← lift (QueueFreeDescsImpl.get_free_twice q);
  f ← lift (update (queues_free v) (Virtio.queue_select v) q);
  set_drv (with_queues_free v f) ;; mret o.

Definition set_free_desc_id (desc_id : Z) : M (sys D) unit :=
  v ← gets drv;
  q ← lift (index (queues_free v) (Virtio.queue_select v));
  f ← lift (update (queues_free v) (Virtio.queue_select v) (QueueFreeDescsImpl.set_free q desc_id));
  set_drv (with_queues_free v f).

Definition queue_select (q : Z) : M (sys D) unit :=
  v ← gets drv;
  set_drv (with_queue_select v q) ;;
  set_dev (cfg_write F_queue_select q).

Definition set_available (desc_id : Z) : M (sys D) unit :=
  queue ← gets (cfg ∘ dev);
  driver_idx ← gets (λ s, queue_driver (cfg (dev s)) + 2);
  driver_ring_start ← gets (λ s, queue_driver (cfg (dev s)) + 4);
  idx ← gets (λ s, load 2 (ram s) driver_idx);
  r ← lift (urem idx (queue_size queue));
  write_volatile (driver_ring_start + 2 * r) (le_bytes 2 desc_id) ;;
  write_volatile driver_idx (le_bytes 2 (idx +u[16] 1)).

Definition set_writable (desc_id : Z) : M (sys D) unit :=
  descs ← gets (λ s, queue_desc (cfg (dev s)));
  desc ← gets (λ s, load_Desc (ram s) (descs + 16 * desc_id));
  write_volatile (descs + 16 * desc_id)
    (Desc_bytes {| addr := addr desc; desc_len := 4096; flags := VIRTQ_DESC_F_WRITE; next := next desc |}).

Definition set_writable_available (desc_id : Z) : M (sys D) unit :=
  set_writable desc_id ;; set_available desc_id.

(** [data] is the value of the request structure as bytes. *)
Definition add_request (desc_id desc_next_id : Z) (data : list Z) : M (sys D) unit :=
  descs ← gets (λ s, queue_desc (cfg (dev s)));
  desc ← gets (λ s, load_Desc (ram s) (descs + 16 * desc_id));
  write_volatile (addr desc) data ;;
  write_volatile (descs + 16 * desc_id)
    (Desc_bytes {| addr := addr desc; desc_len := wrap 32 (len data); flags := VIRTQ_DESC_F_NEXT;
                   next := desc_next_id |}) ;;
  set_writable desc_next_id ;;
  set_available desc_id.

(** [phys_offset] is [VIRTUAL_MAPPING_OFFSET]. *)
Definition kick `{X86Addr} (phys_offset queue_select : Z) : M (sys D) unit :=
  queue ← gets (cfg ∘ dev);
  n ← gets (λ s, notify (drv s));
  match bar n with
  | BarMm a =>
      p ← lift (PhysAddr_new (a +u[64] offset n +u[64] (cap n *u[64] queue_notify_off queue)));
      queue_notify_address ← lift (VirtAddr_add phys_offset p);
      set_dev (notify_store queue_notify_address queue_select)
  | _ => mret tt
  end.

Definition next_used : M (sys D) (option UsedElem) :=
  queue ← gets (cfg ∘ dev);
  device_idx ← gets (λ s, queue_device (cfg (dev s)) + 2);
  idx_next ← gets (λ s, load 2 (ram s) device_idx);
  device_ring_start ← gets (λ s, queue_device (cfg (dev s)) + 4);
  v ← gets drv;
  last ← lift (index (last_used_idx v) (Virtio.queue_select v));
  if negb (last +u[16] 1 =? idx_next) then
    l ← lift (update (last_used_idx v) (Virtio.queue_select v) (last +u[16] 1));
    set_drv (with_last_used_idx v l) ;;
    inq_idx ← lift (urem (last +u[16] 1) (queue_size queue));
    elem ← gets (λ s, load_UsedElem (ram s) (device_ring_start + 8 * inq_idx));
    mret (Some elem)
  else mret None.

Definition read_desc (desc_id : Z) : M (sys D) Desc :=
  descs ← gets (λ s, queue_desc (cfg (dev s)));
  gets (λ s, load_Desc (ram s) (descs + 16 * desc_id)).

(** The operations run by a driver with state [X] of its own. *)
Definition on_sys {X A} (m : M (sys D) A) : M (sys D * X) A := λ '(s, x),
  '(a, s') ← m s; mret (a, (s', x)).
End ops.
End VirtioImpl.

(** ** Free-descriptor lists *)

(** The list of a queue and the descriptors its clients hold, through the calls
    of the two drivers. *)
Inductive desc_step : QueueFreeDescs * list Z → QueueFreeDescs * list Z → Prop :=
| step_get q d q' out :
    QueueFreeDescsImpl.get_free q = (Some d, q') → desc_step (q, out) (q', d :: out)
| step_get_twice q a b q' out :
    QueueFreeDescsImpl.get_free_twice q = Ok (Some (a, b), q') → desc_step (q, out) (q', a :: b :: out)
| step_set q d out1 out2 :
    desc_step (q, out1 ++ d :: out2) (QueueFreeDescsImpl.set_free q d, out1 ++ out2).

Lemma get_free_spec q :
  QueueFreeDescsImpl.get_free q =
    match last (free q) with
    | Some d => (Some d, {| free := take (length (free q) - 1) (free q) |})
    | None => (None, q)
    end.
Proof. unfold QueueFreeDescsImpl.get_free, pop. by destruct (last (free q)). Qed.

Lemma get_free_some q d q' :
  QueueFreeDescsImpl.get_free q = (Some d, q') ↔ free q = free q' ++ [d].
Proof.
  unfold QueueFreeDescsImpl.get_free. destruct (pop (free q)) as [[a l]|] eqn:E.
  - apply pop_some in E. rewrite E. destruct q' as [l']. simpl. split; [congruence|].
    intros [-> ->]%app_inj_tail. done.
  - split; [done|]. intros E'. by rewrite E', pop_snoc in E.
Qed.

Lemma get_free_twice_spec l :
  QueueFreeDescsImpl.get_free_twice {| free := l |} =
    Ok match reverse l with
       | a :: b :: r => (Some (a, b), {| free := reverse r |})
       | _ => (None, {| free := l |})
       end.
Proof.
  unfold QueueFreeDescsImpl.get_free_twice. simpl.
  destruct l as [|a l _] using rev_ind; [done|]. destruct l as [|b l _] using rev_ind; [done|].
  rewrite !reverse_snoc, reverse_involutive. rewrite pop_snoc. simpl. rewrite pop_snoc. simpl.
  autorewrite with fomos. pose proof (len_nonneg l). by bsplit; try lia.
Qed.

(** C7: descriptors are conserved. Whatever the drivers do, from the list of a
    fresh queue of [n] descriptors, the free ones and those held are together
    exactly the [n] descriptors, each once; so no descriptor is ever handed out
    twice, and taking two fails only when fewer than two are free. *)
Theorem descriptors_conserved n q out :
  0 ≤ n →
  rtc desc_step (QueueFreeDescsImpl.new n, []) (q, out) →
  free q ++ out ≡ₚ range 0 n ∧ NoDup (free q ++ out) ∧
  (fst (QueueFreeDescsImpl.get_free q) = None ↔ len out = n) ∧
  ∃ o q', QueueFreeDescsImpl.get_free_twice q = Ok (o, q') ∧ (o = None ↔ n < len out + 2).
Proof.
  intros Hn Hr.
  assert (free q ++ out ≡ₚ range 0 n) as Hp.
  { change (free (q, out).1 ++ (q, out).2 ≡ₚ range 0 n).
    revert Hr. generalize (q, out). apply (rtc_ind_r (λ s, free s.1 ++ s.2 ≡ₚ range 0 n)); [by simpl; rewrite app_nil_r|].
    intros s1 s2 _ Hs IH. rewrite <-IH. clear - Hs. destruct Hs as [q d q' out H|q a b q' out H|q d o1 o2]; simpl.
    - apply get_free_some in H. rewrite H. by rewrite <-app_assoc.
    - destruct q as [l]. rewrite get_free_twice_spec in H.
      destruct (reverse l) as [|a' [|b' r]] eqn:E; [done..|]. injection H as -> -> <-. simpl.
      apply (f_equal reverse) in E. rewrite reverse_involutive in E. rewrite E, !reverse_cons.
      rewrite <-!app_assoc. simpl. apply Permutation_app_head. constructor.
    - rewrite <-app_assoc. simpl. apply Permutation_app_head. apply Permutation_middle. }
  pose proof (Permutation_length Hp) as Hl. rewrite length_app in Hl.
  assert (Z.of_nat (length (range 0 n)) = n) as Hr'. { pose proof (len_range 0 n). unfold len in *. lia. }
  split_and!.
  - done.
  - rewrite Hp. apply NoDup_seqZ.
  - rewrite get_free_spec. unfold len. destruct (last (free q)) eqn:E.
    + split; [done|]. destruct (free q); [done|]. simpl in *. lia.
    + apply last_None in E. rewrite E in *. simpl in *. split; [lia|done].
  - destruct q as [l]. rewrite get_free_twice_spec. eexists _, _. split; [f_equal; apply surjective_pairing|].
    simpl in *. rewrite <-(length_reverse l) in Hl. unfold len.
    destruct (reverse l) as [|a [|b r]]; simpl in *; split; lia || done.
Qed.

Lemma descriptors_conserved_witness :
  rtc desc_step (QueueFreeDescsImpl.new 4, []) ({| free := [0; 1; 3] |}, [2]) ∧ NoDup ([0; 1; 3] ++ [2]).
Proof.
  assert (rtc desc_step (QueueFreeDescsImpl.new 4, []) ({| free := [0; 1; 3] |}, [2])) as H.
  { eapply rtc_l; [by apply (step_get_twice _ 3 2 {| free := [0; 1] |})|].
    eapply rtc_l; [apply (step_set _ 3 [] [2])|]. apply rtc_refl. }
  split; [exact H|]. apply (descriptors_conserved 4 _ _ ltac:(lia) H).
Defined.

(** ** The split queue in memory *)

Lemma load_Desc_ext m m' p :
  (∀ x, p ≤ x < p + 16 → load8 m' x = load8 m x) → load_Desc m' p = load_Desc m p.
Proof. intros He. unfold load_Desc. f_equal; apply load_ext; intros; apply He; lia. Qed.

Lemma len_Desc_bytes d : len (Desc_bytes d) = 16.
Proof. unfold Desc_bytes. autorewrite with fomos. lia. Qed.

Lemma load_store_Desc m p d :
  fits 64 (addr d) → fits 32 (desc_len d) → fits 16 (flags d) → fits 16 (next d) →
  load_Desc (store_bytes m p (Desc_bytes d)) p = d.
Proof.
  intros Ha Hl Hf Hn. destruct d as [a l f n]. unfold Desc_bytes, load_Desc. cbn [addr desc_len flags next] in *.
  rewrite !store_bytes_app, !len_le_bytes.
  replace (p + Z.of_nat 8 + Z.of_nat 4 + Z.of_nat 2) with (p + 14) by lia.
  replace (p + Z.of_nat 8 + Z.of_nat 4) with (p + 12) by lia. replace (p + Z.of_nat 8) with (p + 8) by lia.
  f_equal; repeat first [rewrite load_store_le; by apply Z.mod_small
    | rewrite load_store_bytes_ne by (unfold disjoint_ranges; rewrite len_le_bytes; lia)].
Qed.

Lemma len_UsedElem_bytes e : len (UsedElem_bytes e) = 8.
Proof. unfold UsedElem_bytes. autorewrite with fomos. lia. Qed.

Lemma load_store_UsedElem m p e :
  fits 32 (used_id e) → fits 32 (used_len e) →
  load_UsedElem (store_bytes m p (UsedElem_bytes e)) p = e.
Proof.
  intros Hi Hl. destruct e as [i l]. unfold UsedElem_bytes, load_UsedElem. cbn [used_id used_len] in *.
  rewrite !store_bytes_app, !len_le_bytes. replace (p + Z.of_nat 4) with (p + 4) by lia.
  f_equal; repeat first [rewrite load_store_le; by apply Z.mod_small
    | rewrite load_store_bytes_ne by (unfold disjoint_ranges; rewrite len_le_bytes; lia)].
Qed.

(** The ring slot of a free-running 16-bit index. *)
Definition ring_slot (qs i : Z) : Z := i mod qs.

Lemma ring_slot_wrap qs i : 0 < qs → (qs | 2 ^ 16) → wrap 16 i mod qs = ring_slot qs i.
Proof. intros Hq Hd. by apply Z.mod_mod_divide. Qed.

Lemma ring_slot_range qs i : 0 < qs → 0 ≤ ring_slot qs i < qs.
Proof. intros. by apply Z.mod_pos_bound. Qed.

Lemma ring_slot_ne qs i j : 0 < Z.abs (i - j) < qs → ring_slot qs i ≠ ring_slot qs j.
Proof.
  intros Hij E. unfold ring_slot in E. assert ((i - j) mod qs = 0) as Hz.
  { rewrite Zminus_mod, E, Z.sub_diag. apply Z.mod_0_l. lia. }
  apply Z.mod_divide in Hz as [k Hk]; [|lia]. destruct (decide (k = 0)); nia.
Qed.

(** The available ring at [qa] holds the descriptor ids [ids], oldest first, for
    a device that has taken everything before index [pos]. *)
Definition avail_queue (qs qa : Z) (m : mem) (pos : Z) (ids : list Z) : Prop :=
  load 2 m (qa + 2) = wrap 16 (pos + len ids) ∧
  ∀ k d, ids !! k = Some d → load 2 m (qa + 4 + 2 * ring_slot qs (pos + Z.of_nat k)) = d.

(** The used ring at [qu] holds the elements [es], oldest first, for a driver
    whose last index is [last]. *)
Definition used_queue (qs qu : Z) (m : mem) (last : Z) (es : list UsedElem) : Prop :=
  load 2 m (qu + 2) = wrap 16 (last + 1 + len es) ∧
  ∀ k e, es !! k = Some e → load_UsedElem m (qu + 4 + 8 * ring_slot qs (last + 1 + Z.of_nat k)) = e.

Lemma avail_queue_ext qs qa m m' pos ids :
  0 < qs → (∀ x, qa + 2 ≤ x < qa + 4 + 2 * qs → load8 m' x = load8 m x) →
  avail_queue qs qa m pos ids → avail_queue qs qa m' pos ids.
Proof.
  intros Hq He [Hi Hs]. split.
  - rewrite <-Hi. apply load_ext. intros. apply He. lia.
  - intros k d Hk. rewrite <-(Hs k d Hk). apply load_ext. intros. apply He.
    pose proof (ring_slot_range qs (pos + Z.of_nat k) Hq). lia.
Qed.

Lemma used_queue_ext qs qu m m' last es :
  0 < qs → (∀ x, qu + 2 ≤ x < qu + 4 + 8 * qs → load8 m' x = load8 m x) →
  used_queue qs qu m last es → used_queue qs qu m' last es.
Proof.
  intros Hq He [Hi Hs]. split.
  - rewrite <-Hi. apply load_ext. intros. apply He. lia.
  - intros k d Hk. rewrite <-(Hs k d Hk). unfold load_UsedElem.
    pose proof (ring_slot_range qs (last + 1 + Z.of_nat k) Hq).
    f_equal; apply load_ext; intros; apply He; lia.
Qed.

(** What the device does with the rings (virtio 1.2, 2.7): it takes the oldest
    available id, and completes a descriptor by writing the element, then the
    index. *)
Definition device_take (qs qa : Z) (m : mem) (pos : Z) : option (Z * Z) :=
  if wrap 16 pos =? load 2 m (qa + 2) then None
  else Some (load 2 m (qa + 4 + 2 * ring_slot qs pos), pos + 1).
Definition device_complete (qs qu : Z) (e : UsedElem) (m : mem) : mem :=
  let i := load 2 m (qu + 2) in
  let m := store_bytes m (qu + 4 + 8 * ring_slot qs i) (UsedElem_bytes e) in
  store_bytes m (qu + 2) (le_bytes 2 (i +u[16] 1)).

Lemma load_Desc_outside a n m m' p :
  same_outside a n m m' → disjoint_ranges a n p 16 → load_Desc m' p = load_Desc m p.
Proof. intros Hs Hd. by apply load_Desc_ext, (same_outside_on a n). Qed.

Lemma avail_queue_outside qs qa a n m m' pos ids :
  0 < qs → same_outside a n m m' → disjoint_ranges a n qa (4 + 2 * qs) →
  avail_queue qs qa m pos ids → avail_queue qs qa m' pos ids.
Proof.
  intros Hq Hs Hd. apply avail_queue_ext; [done|]. intros x Hx.
  apply (same_outside_on a n m m' qa (4 + 2 * qs)); done || lia.
Qed.

Lemma load_Desc_range m p :
  fits 64 (addr (load_Desc m p)) ∧ fits 32 (desc_len (load_Desc m p)) ∧
  fits 16 (flags (load_Desc m p)) ∧ fits 16 (next (load_Desc m p)).
Proof.
  unfold fits. simpl. pose proof (load_range 8 m p). pose proof (load_range 4 m (p + 8)).
  pose proof (load_range 2 m (p + 12)). pose proof (load_range 2 m (p + 14)). lia.
Qed.

(** The request chain [add_request] builds: the request structure in the first
    descriptor's buffer, and a writable second descriptor for the response. *)
Record chain (qd did nid b b' : Z) (data : list Z) (m : mem) : Prop := {
  chain_data : load_bytes (length data) m b = data;
  chain_head : load_Desc m (qd + 16 * did) =
    {| addr := b; desc_len := len data; flags := VIRTQ_DESC_F_NEXT; next := nid |};
  chain_tail : ∃ x, load_Desc m (qd + 16 * nid) =
    {| addr := b'; desc_len := 4096; flags := VIRTQ_DESC_F_WRITE; next := x |}
}.

Lemma chain_outside qd did nid b b' data a n m m' :
  same_outside a n m m' → disjoint_ranges a n b (len data) →
  disjoint_ranges a n (qd + 16 * did) 16 → disjoint_ranges a n (qd + 16 * nid) 16 →
  chain qd did nid b b' data m → chain qd did nid b b' data m'.
Proof.
  intros Hs Hb Hd Hn [H1 H2 [x H3]]. constructor.
  - rewrite <-H1 at 2. apply load_bytes_ext. by apply (same_outside_on a n).
  - by rewrite (load_Desc_outside a n m).
  - exists x. by rewrite (load_Desc_outside a n m).
Qed.

Section queue.
Context {D : Type} `{VirtioDevice D}.
Implicit Types (s : sys D).

Lemma set_available_run s d :
  queue_size (cfg (dev s)) ≠ 0 →
  let qa := queue_driver (cfg (dev s)) in
  let idx := load 2 (ram s) (qa + 2) in
  let m1 := store_bytes (ram s) (qa + 4 + 2 * (idx mod queue_size (cfg (dev s)))) (le_bytes 2 d) in
  let m2 := store_bytes m1 (qa + 2) (le_bytes 2 (wrap 16 (idx + 1))) in
  VirtioImpl.set_available d s = Ok (tt, Sys (drv s) (dev s) m2 (seen s ++ [m1; m2])).
Proof.
  intros Hq qa idx m1 m2. unfold VirtioImpl.set_available, urem, gets, lift, mbind, M_bind, modify.
  unfold VirtioImpl.write_volatile, modify. simpl.
  destruct (Z.eqb_spec (queue_size (cfg (dev s))) 0); [done|]. simpl. by rewrite <-app_assoc.
Qed.

(** Writing the slot is invisible, writing the index publishes. *)
Lemma avail_push qs qa m pos ids d :
  0 < qs → (qs | 2 ^ 16) → len ids < qs → fits 16 d → avail_queue qs qa m pos ids →
  let idx := load 2 m (qa + 2) in
  let m1 := store_bytes m (qa + 4 + 2 * (idx mod qs)) (le_bytes 2 d) in
  let m2 := store_bytes m1 (qa + 2) (le_bytes 2 (wrap 16 (idx + 1))) in
  avail_queue qs qa m1 pos ids ∧ avail_queue qs qa m2 pos (ids ++ [d]) ∧
  same_outside (qa + 2) (2 + 2 * qs) m m1 ∧ same_outside (qa + 2) (2 + 2 * qs) m m2.
Proof.
  intros Hq Hdiv Hlen Hd [Hi Hs] idx. subst idx. rewrite Hi, ring_slot_wrap by done.
  set (i := pos + len ids). pose proof (ring_slot_range qs i Hq) as Hr.
  intros m1 m2.
  pose proof (store_bytes_outside m (qa + 4 + 2 * ring_slot qs i) (le_bytes 2 d)) as O1.
  pose proof (store_bytes_outside m1 (qa + 2) (le_bytes 2 (wrap 16 (wrap 16 i + 1)))) as O2.
  fold m1 m2 in O1, O2. rewrite len_le_bytes in O1, O2.
  assert (∀ k, 0 ≤ k < len ids → load 2 m1 (qa + 4 + 2 * ring_slot qs (pos + k)) =
    load 2 m (qa + 4 + 2 * ring_slot qs (pos + k))) as Hold.
  { intros k Hk. apply (same_outside_load _ _ _ _ _ _ O1).
    pose proof (ring_slot_ne qs i (pos + k)). unfold disjoint_ranges, i in *. lia. }
  assert (load 2 m1 (qa + 2) = wrap 16 i) as Hi1.
  { rewrite (same_outside_load _ _ _ _ _ _ O1); [done|]. unfold disjoint_ranges. lia. }
  assert (∀ r, 0 ≤ r → load 2 m2 (qa + 4 + 2 * r) = load 2 m1 (qa + 4 + 2 * r)) as Hslot.
  { intros r Hr0. apply (same_outside_load _ _ _ _ _ _ O2). unfold disjoint_ranges. lia. }
  split_and!.
  - split; [done|]. intros k x Hk. rewrite Hold; [by apply Hs|]. apply lookup_lt_Some in Hk. unfold len. lia.
  - split.
    + unfold m2. rewrite load_store_le, len_app. change (256 ^ Z.of_nat 2) with (2 ^ 16).
      fold (wrap 16 (wrap 16 (wrap 16 i + 1))). rewrite wrap_wrap, wrap_add_l. f_equal. unfold i. autorewrite with fomos. lia.
    + intros k x Hk. pose proof (ring_slot_range qs (pos + Z.of_nat k) Hq). rewrite Hslot by lia.
      apply lookup_app_Some in Hk as [Hk|[Hge Hk]].
      * rewrite Hold; [by apply Hs|]. apply lookup_lt_Some in Hk. unfold len. lia.
      * apply list_lookup_singleton_Some in Hk as [Hk ->].
        replace (pos + Z.of_nat k) with i by (unfold i, len; lia).
        unfold m1. rewrite load_store_le. by apply Z.mod_small.
  - eapply same_outside_trans; [apply O1|apply (same_outside_refl (qa + 2) 0)|lia..].
  - eapply same_outside_trans; [apply O1|apply O2|lia..].
Qed.

(** C6: the available ring refines a FIFO queue. While fewer than
    [queue_size] ids are pending, [set_available] appends one: every memory the
    device can see on the way holds either the old queue or the new one, the
    registers and the rest of memory are untouched, and the device takes the
    ids in the order they were made available. *)
Theorem set_available_refines_queue s pos ids d :
  let qs := queue_size (cfg (dev s)) in let qa := queue_driver (cfg (dev s)) in
  0 < qs → (qs | 2 ^ 16) → len ids < qs → fits 16 d → avail_queue qs qa (ram s) pos ids →
  (∃ m ms, VirtioImpl.set_available d s = Ok (tt, Sys (drv s) (dev s) m (seen s ++ ms)) ∧
     avail_queue qs qa m pos (ids ++ [d]) ∧ same_outside (qa + 2) (2 + 2 * qs) (ram s) m ∧
     Forall (λ m', avail_queue qs qa m' pos ids ∨ avail_queue qs qa m' pos (ids ++ [d])) ms) ∧
  match ids with
  | [] => device_take qs qa (ram s) pos = None
  | i :: ids' => device_take qs qa (ram s) pos = Some (i, pos + 1) ∧
                 avail_queue qs qa (ram s) (pos + 1) ids'
  end.
Proof.
  intros qs qa Hq Hdiv Hlen Hd Ha. split.
  - destruct (avail_push qs qa (ram s) pos ids d) as (H1 & H2 & H3 & H4); [done..|].
    eexists _, _. split; [apply (set_available_run s d); unfold qs in *; lia|].
    split; [exact H2|]. split; [exact H4|].
    by rewrite !Forall_cons, Forall_nil; split_and!; [left|right|].
  - unfold device_take. destruct Ha as [Hi Hs]. rewrite Hi. destruct ids as [|i ids].
    + rewrite len_nil, Z.add_0_r. by rewrite Z.eqb_refl.
    + assert (qs ≤ 2 ^ 16) by (apply Z.divide_pos_le; [lia|done]).
      rewrite len_cons in *. pose proof (len_nonneg ids). destruct (Z.eqb_spec (wrap 16 pos) (wrap 16 (pos + (1 + len ids)))) as [E|_].
      { exfalso. unfold wrap in E. change (2 ^ 16) with 65536 in *. lia. }
      split; [|split].
      * do 2 f_equal. specialize (Hs 0%nat i eq_refl). by rewrite Z.add_0_r in Hs.
      * rewrite Hi. f_equal. lia.
      * intros k x Hk. rewrite <-(Hs (Datatypes.S k) x Hk). do 2 f_equal. f_equal. f_equal. lia.
Qed.

Lemma write_volatile_run p bs s :
  VirtioImpl.write_volatile p bs s =
    Ok (tt, Sys (drv s) (dev s) (store_bytes (ram s) p bs) (seen s ++ [store_bytes (ram s) p bs])).
Proof. done. Qed.

Lemma set_writable_run s d :
  let p := queue_desc (cfg (dev s)) + 16 * d in
  let desc := load_Desc (ram s) p in
  VirtioImpl.set_writable d s =
    VirtioImpl.write_volatile p
      (Desc_bytes {| addr := addr desc; desc_len := 4096; flags := VIRTQ_DESC_F_WRITE; next := next desc |}) s.
Proof. done. Qed.

Lemma add_request_run s did nid data :
  let qd := queue_desc (cfg (dev s)) in
  let b := addr (load_Desc (ram s) (qd + 16 * did)) in
  let m1 := store_bytes (ram s) b data in
  let m2 := store_bytes m1 (qd + 16 * did) (Desc_bytes
    {| addr := b; desc_len := wrap 32 (len data); flags := VIRTQ_DESC_F_NEXT; next := nid |}) in
  let desc := load_Desc m2 (qd + 16 * nid) in
  let m3 := store_bytes m2 (qd + 16 * nid) (Desc_bytes
    {| addr := addr desc; desc_len := 4096; flags := VIRTQ_DESC_F_WRITE; next := next desc |}) in
  VirtioImpl.add_request did nid data s =
    VirtioImpl.set_available did (Sys (drv s) (dev s) m3 (seen s ++ [m1; m2; m3])).
Proof.
  intros qd b m1 m2 desc m3.
  transitivity (VirtioImpl.set_available did (Sys (drv s) (dev s) m3 (((seen s ++ [m1]) ++ [m2]) ++ [m3])));
    [reflexivity|by rewrite <-!app_assoc].
Qed.

(** The memory work of [add_request] before it publishes the chain. *)
Lemma add_request_chain qd qs did nid data m :
  0 ≤ did < qs → 0 ≤ nid < qs → did ≠ nid → fits 16 nid → fits 32 (len data) → Forall (fits 8) data →
  let b := addr (load_Desc m (qd + 16 * did)) in
  disjoint_ranges b (len data) qd (16 * qs) →
  let m1 := store_bytes m b data in
  let m2 := store_bytes m1 (qd + 16 * did) (Desc_bytes
    {| addr := b; desc_len := len data; flags := VIRTQ_DESC_F_NEXT; next := nid |}) in
  let desc := load_Desc m2 (qd + 16 * nid) in
  let m3 := store_bytes m2 (qd + 16 * nid) (Desc_bytes
    {| addr := addr desc; desc_len := 4096; flags := VIRTQ_DESC_F_WRITE; next := next desc |}) in
  chain qd did nid b (addr (load_Desc m (qd + 16 * nid))) data m3 ∧
  (∀ i, 0 ≤ i < qs → i ≠ did → i ≠ nid → load_Desc m3 (qd + 16 * i) = load_Desc m (qd + 16 * i)) ∧
  same_outside b (len data) m m1 ∧ same_outside (qd + 16 * did) 16 m1 m2 ∧ same_outside (qd + 16 * nid) 16 m2 m3.
Proof.
  intros Hd Hn Hne Hn16 Hl32 Hdata b Hb m1 m2 desc m3.
  pose proof (store_bytes_outside m b data) as O1. fold m1 in O1.
  assert (same_outside (qd + 16 * did) 16 m1 m2) as O2.
  { pose proof (store_bytes_outside m1 (qd + 16 * did) (Desc_bytes
      {| addr := b; desc_len := len data; flags := VIRTQ_DESC_F_NEXT; next := nid |})) as O.
    by rewrite len_Desc_bytes in O. }
  assert (same_outside (qd + 16 * nid) 16 m2 m3) as O3.
  { pose proof (store_bytes_outside m2 (qd + 16 * nid) (Desc_bytes
      {| addr := addr desc; desc_len := 4096; flags := VIRTQ_DESC_F_WRITE; next := next desc |})) as O.
    by rewrite len_Desc_bytes in O. }
  pose proof (load_Desc_range m (qd + 16 * did)) as (Hb64 & _). fold b in Hb64.
  pose proof (load_Desc_range m2 (qd + 16 * nid)) as (Ha64 & _ & _ & Hx16). fold desc in Ha64, Hx16.
  unfold disjoint_ranges in Hb.
  assert (∀ i, 0 ≤ i < qs → load_Desc m1 (qd + 16 * i) = load_Desc m (qd + 16 * i)) as E1.
  { intros i Hi. apply (load_Desc_outside _ _ _ _ _ O1). unfold disjoint_ranges. lia. }
  assert (∀ i, i ≠ did → load_Desc m2 (qd + 16 * i) = load_Desc m1 (qd + 16 * i)) as E2.
  { intros i Hi. apply (load_Desc_outside _ _ _ _ _ O2). unfold disjoint_ranges. lia. }
  assert (∀ i, i ≠ nid → load_Desc m3 (qd + 16 * i) = load_Desc m2 (qd + 16 * i)) as E3.
  { intros i Hi. apply (load_Desc_outside _ _ _ _ _ O3). unfold disjoint_ranges. lia. }
  split_and!; [constructor|..|done|done|done].
  - rewrite <-(load_bytes_store m b data Hdata) at 2.
    rewrite (load_bytes_ext _ m2 m3), (load_bytes_ext _ m1 m2); [done|..].
    + apply (same_outside_on _ _ _ _ _ _ O2). unfold disjoint_ranges, len in *. lia.
    + apply (same_outside_on _ _ _ _ _ _ O3). unfold disjoint_ranges, len in *. lia.
  - rewrite E3 by done. unfold m2. by rewrite load_store_Desc.
  - exists (next desc). unfold m3. rewrite load_store_Desc by done. unfold desc.
    by rewrite E2, E1 by done.
  - intros i Hi H1 H2. by rewrite E3, E2, E1.
Qed.

(** C4: a request is published whole or not at all. [add_request] on two
    descriptors of the table appends the head of a two-descriptor chain to the
    available queue; in every memory the device can observe meanwhile, either
    the queue is still the old one or it ends with the new head and the request
    bytes, the head and the writable response descriptor are all in place. No
    other descriptor changes. *)
Theorem add_request_publishes s pos ids did nid data :
  let qs := queue_size (cfg (dev s)) in let qd := queue_desc (cfg (dev s)) in
  let qa := queue_driver (cfg (dev s)) in
  let b := addr (load_Desc (ram s) (qd + 16 * did)) in
  let b' := addr (load_Desc (ram s) (qd + 16 * nid)) in
  0 < qs → (qs | 2 ^ 16) → len ids < qs → 0 ≤ did < qs → 0 ≤ nid < qs → did ≠ nid →
  fits 16 did → fits 16 nid → len data ≤ 4096 → Forall (fits 8) data →
  disjoint_ranges qd (16 * qs) qa (4 + 2 * qs) →
  disjoint_ranges b (len data) qd (16 * qs) → disjoint_ranges b (len data) qa (4 + 2 * qs) →
  avail_queue qs qa (ram s) pos ids →
  ∃ m ms, VirtioImpl.add_request did nid data s = Ok (tt, Sys (drv s) (dev s) m (seen s ++ ms)) ∧
    avail_queue qs qa m pos (ids ++ [did]) ∧ chain qd did nid b b' data m ∧
    (∀ i, 0 ≤ i < qs → i ≠ did → i ≠ nid → load_Desc m (qd + 16 * i) = load_Desc (ram s) (qd + 16 * i)) ∧
    Forall (λ m', avail_queue qs qa m' pos ids ∨
                  avail_queue qs qa m' pos (ids ++ [did]) ∧ chain qd did nid b b' data m') ms.
Proof.
  intros qs qd qa b b' Hq Hdiv Hlen Hd Hn Hne Hd16 Hn16 Hdl Hdata Hda Hbd Hba Ha.
  pose proof (len_nonneg data) as Hdl0.
  destruct (add_request_chain qd qs did nid data (ram s)) as (Hc & Hf & O1 & O2 & O3);
    [done..|unfold fits; lia|done|done|].
  rewrite (add_request_run s did nid data). cbv zeta. fold qd. fold b. fold b in Hc, Hf, O1, O2, O3. rewrite (wrap_small 32 (len data)) by (unfold fits; lia).
  set (m1 := store_bytes (ram s) b data) in *. set (m2 := store_bytes m1 _ _) in *.
  set (m3 := store_bytes m2 _ _) in *.
  assert (avail_queue qs qa m1 pos ids) as A1 by by apply (avail_queue_outside _ _ _ _ _ _ _ _ Hq O1).
  assert (avail_queue qs qa m2 pos ids) as A2.
  { apply (avail_queue_outside _ _ _ _ _ _ _ _ Hq O2); [|done]. unfold disjoint_ranges in *. lia. }
  assert (avail_queue qs qa m3 pos ids) as A3.
  { apply (avail_queue_outside _ _ _ _ _ _ _ _ Hq O3); [|done]. unfold disjoint_ranges in *. lia. }
  destruct (avail_push qs qa m3 pos ids did) as (P1 & P2 & P3 & P4); [done..|].
  rewrite set_available_run by (cbn; unfold qs in *; lia). cbn [drv dev ram seen].
  fold qs qa. set (m4 := store_bytes m3 _ _) in *. set (m5 := store_bytes m4 _ _) in *.
  assert (chain qd did nid b b' data m5) as C5.
  { apply (chain_outside _ _ _ _ _ _ _ _ _ _ P4); [..|done]; unfold disjoint_ranges in *; lia. }
  eexists _, _. split; [rewrite <-app_assoc; done|]. split_and!; [done|done| |].
  - intros i Hi H1 H2. rewrite <-Hf by done. apply (load_Desc_outside _ _ _ _ _ P4).
    unfold disjoint_ranges in *. lia.
  - simpl. rewrite !Forall_cons, Forall_nil. split_and!; [by left..|by right|done].
Qed.

(** The index of the selected queue, and the structure after [next_used] moved it. *)
Definition last_of s : res Z := index (last_used_idx (drv s)) (Virtio.queue_select (drv s)).
Definition advance s : sys D :=
  let v := drv s in
  match last_of s with
  | Ok l => Sys (VirtioImpl.with_last_used_idx v
             (<[Z.to_nat (Virtio.queue_select v) := wrap 16 (l + 1)]> (last_used_idx v))) (dev s) (ram s) (seen s)
  | Panic _ => s
  end.

Lemma next_used_run s last :
  last_of s = Ok last → queue_size (cfg (dev s)) ≠ 0 →
  let qu := queue_device (cfg (dev s)) in
  VirtioImpl.next_used s =
    if wrap 16 (last + 1) =? load 2 (ram s) (qu + 2) then Ok (None, s)
    else Ok (Some (load_UsedElem (ram s) (qu + 4 + 8 * (wrap 16 (last + 1) mod queue_size (cfg (dev s))))), advance s).
Proof.
  intros Hl Hq qu. pose proof Hl as Hl'. unfold last_of in Hl'.
  unfold VirtioImpl.next_used, mbind, M_bind, gets, lift. simpl. rewrite Hl'.
  fold qu. destruct (Z.eqb_spec (wrap 16 (last + 1)) (load 2 (ram s) (qu + 2))); [done|]. simpl.
  apply index_ok in Hl' as [H0 Hlk]. rewrite update_in.
  2: { apply lookup_lt_Some in Hlk. unfold len. lia. }
  unfold urem. destruct (Z.eqb_spec (queue_size (cfg (dev s))) 0); [done|].
  unfold VirtioImpl.set_drv, modify. simpl. unfold advance. by rewrite Hl.
Qed.

Lemma advance_last s last : last_of s = Ok last → last_of (advance s) = Ok (wrap 16 (last + 1)).
Proof.
  intros Hl. unfold advance. rewrite Hl. unfold last_of in *. simpl. apply index_ok in Hl as [H0 Hl].
  apply index_ok. split; [done|]. apply list_lookup_insert_eq. by apply lookup_lt_Some in Hl.
Qed.

Lemma advance_same s : dev (advance s) = dev s ∧ ram (advance s) = ram s ∧ seen (advance s) = seen s ∧
  Virtio.queue_select (drv (advance s)) = Virtio.queue_select (drv s) ∧
  queues_free (drv (advance s)) = queues_free (drv s).
Proof. unfold advance. by destruct (last_of s). Qed.

Lemma used_queue_wrap qs qu m last es :
  0 < qs → (qs | 2 ^ 16) → used_queue qs qu m (wrap 16 last) es ↔ used_queue qs qu m last es.
Proof.
  intros Hq Hd. unfold used_queue.
  assert (∀ x, wrap 16 (wrap 16 last + 1 + x) = wrap 16 (last + 1 + x)) as Hw.
  { intros x. rewrite <-!Z.add_assoc. apply wrap_add_l. }
  assert (∀ x, ring_slot qs (wrap 16 last + 1 + x) = ring_slot qs (last + 1 + x)) as Hs.
  { intros x. by rewrite <-ring_slot_wrap, Hw, ring_slot_wrap. }
  rewrite Hw. by setoid_rewrite Hs.
Qed.

(** One call on a queue of completed elements: the head and the tail, or nothing. *)
Lemma next_used_queue s last es :
  let qs := queue_size (cfg (dev s)) in let qu := queue_device (cfg (dev s)) in
  0 < qs → (qs | 2 ^ 16) → fits 16 (len es) → last_of s = Ok last → used_queue qs qu (ram s) last es →
  match es with
  | [] => VirtioImpl.next_used s = Ok (None, s)
  | e :: es' => VirtioImpl.next_used s = Ok (Some e, advance s) ∧
                used_queue qs qu (ram s) (wrap 16 (last + 1)) es'
  end.
Proof.
  intros qs qu Hq Hd Hlen Hl [Hi Hs]. rewrite (next_used_run s last Hl) by (unfold qs in *; lia).
  fold qs qu. rewrite Hi. destruct es as [|e es].
  - by rewrite len_nil, Z.add_0_r, Z.eqb_refl.
  - rewrite len_cons in *. pose proof (len_nonneg es).
    destruct (Z.eqb_spec (wrap 16 (last + 1)) (wrap 16 (last + 1 + (1 + len es)))) as [E|_].
    { exfalso. unfold wrap, fits in *. change (2 ^ 16) with 65536 in *. lia. }
    split.
    + do 3 f_equal. rewrite ring_slot_wrap by done. rewrite <-(Hs 0%nat e eq_refl). by rewrite Z.add_0_r.
    + apply used_queue_wrap; [done..|]. split; [rewrite Hi; f_equal; lia|].
      intros k x Hk. rewrite <-(Hs (Datatypes.S k) x Hk). do 4 f_equal. lia.
Qed.

Lemma used_push qs qu m last es e :
  0 < qs → (qs | 2 ^ 16) → len es < qs → fits 32 (used_id e) → fits 32 (used_len e) →
  used_queue qs qu m last es → used_queue qs qu (device_complete qs qu e m) last (es ++ [e]).
Proof.
  intros Hq Hdiv Hlen He1 He2 [Hi Hs]. unfold device_complete. rewrite Hi.
  set (i := last + 1 + len es).
  assert (ring_slot qs (wrap 16 i) = ring_slot qs i) as -> by by apply ring_slot_wrap.
  pose proof (ring_slot_range qs i Hq) as Hr.
  set (m1 := store_bytes m _ _). set (m2 := store_bytes m1 _ _).
  pose proof (store_bytes_outside m (qu + 4 + 8 * ring_slot qs i) (UsedElem_bytes e)) as O1.
  pose proof (store_bytes_outside m1 (qu + 2) (le_bytes 2 (wrap 16 (wrap 16 i + 1)))) as O2.
  fold m1 m2 in O1, O2. rewrite len_le_bytes in O2. rewrite len_UsedElem_bytes in O1.
  assert (∀ r, 0 ≤ r → load_UsedElem m2 (qu + 4 + 8 * r) = load_UsedElem m1 (qu + 4 + 8 * r)) as Hslot.
  { intros r Hr0. unfold load_UsedElem.
    f_equal; apply (same_outside_load _ _ _ _ _ _ O2); unfold disjoint_ranges; lia. }
  split.
  - unfold m2. rewrite load_store_le, len_app. change (256 ^ Z.of_nat 2) with (2 ^ 16).
    fold (wrap 16 (wrap 16 (wrap 16 i + 1))). rewrite wrap_wrap, wrap_add_l. f_equal.
    unfold i. autorewrite with fomos. lia.
  - intros k x Hk. pose proof (ring_slot_range qs (last + 1 + Z.of_nat k) Hq). rewrite Hslot by lia.
    apply lookup_app_Some in Hk as [Hk|[Hge Hk]].
    + rewrite <-(Hs k x Hk). apply lookup_lt_Some in Hk.
      pose proof (ring_slot_ne qs i (last + 1 + Z.of_nat k)) as Hne. unfold load_UsedElem, i, len in *.
      f_equal; apply (same_outside_load _ _ _ _ _ _ O1); unfold disjoint_ranges; lia.
    + apply list_lookup_singleton_Some in Hk as [Hk ->].
      replace (last + 1 + Z.of_nat k) with i by (unfold i, len; lia).
      unfold m1. by apply load_store_UsedElem.
Qed.

(** C5: the used ring refines a FIFO queue. [next_used] returns nothing exactly
    when no completed element is left, and otherwise the oldest one, moving the
    driver's index (modulo 2^16) past it and changing nothing else; a completion
    by the device appends, while the ring is not full. *)
Theorem next_used_refines_queue s last es :
  let qs := queue_size (cfg (dev s)) in let qu := queue_device (cfg (dev s)) in
  0 < qs → (qs | 2 ^ 16) → fits 16 qs → len es ≤ qs → last_of s = Ok last →
  used_queue qs qu (ram s) last es →
  match es with
  | [] => VirtioImpl.next_used s = Ok (None, s)
  | e :: es' => ∃ s', VirtioImpl.next_used s = Ok (Some e, s') ∧
      last_of s' = Ok (wrap 16 (last + 1)) ∧ dev s' = dev s ∧ ram s' = ram s ∧
      used_queue qs qu (ram s') (wrap 16 (last + 1)) es'
  end ∧
  (∀ e, len es < qs → fits 32 (used_id e) → fits 32 (used_len e) →
     used_queue qs qu (device_complete qs qu e (ram s)) last (es ++ [e])).
Proof.
  intros qs qu Hq Hd Hf Hlen Hl Hu. pose proof (len_nonneg es). split.
  - pose proof (next_used_queue s last es Hq Hd ltac:(unfold fits, qs in *; lia) Hl Hu) as Hn.
    destruct es as [|e es]; [done|]. destruct Hn as [Hn Hu']. exists (advance s).
    destruct (advance_same s) as (H1 & H2 & _). split_and!; [done|by apply advance_last|done..|].
    by rewrite H2.
  - intros e He H1 H2. by apply used_push.
Qed.

(** The drain loop of the drivers: [while let Some(used) = next_used() { body }].
    A body that leaves the registers, the used ring and the driver's index alone
    is run once per completed element, in order, and the loop ends. *)
Lemma next_used_drain {X} (I : list UsedElem → sys D * X → Prop) (body : UsedElem → M (sys D * X) unit)
    qs qu todo s x last handled :
  0 < qs → (qs | 2 ^ 16) → fits 16 (len todo) → fits 16 last →
  (∀ pre e post s x, todo = pre ++ e :: post → I (handled ++ pre) (s, x) →
     queue_size (cfg (dev s)) = qs → queue_device (cfg (dev s)) = qu →
     ∃ s' x', body e (s, x) = Ok (tt, (s', x')) ∧ I ((handled ++ pre) ++ [e]) (s', x') ∧ cfg (dev s') = cfg (dev s) ∧
       last_of s' = last_of s ∧ (∀ y, qu + 2 ≤ y < qu + 4 + 8 * qs → load8 (ram s') y = load8 (ram s) y)) →
  (∀ handled s x, I handled (s, x) → I handled (advance s, x)) →
  queue_size (cfg (dev s)) = qs → queue_device (cfg (dev s)) = qu → last_of s = Ok last →
  used_queue qs qu (ram s) last todo → I handled (s, x) →
  ∃ s' x', while_some (Datatypes.S (length todo)) (VirtioImpl.on_sys VirtioImpl.next_used) body (s, x) = Ok (true, (s', x')) ∧
    I (handled ++ todo) (s', x') ∧ cfg (dev s') = cfg (dev s) ∧
    used_queue qs qu (ram s') (wrap 16 (last + len todo)) [] ∧ last_of s' = Ok (wrap 16 (last + len todo)).
Proof.
  intros Hq Hd. revert s x last handled.
  induction todo as [|e todo IH]; intros s x last handled Hlen Hfl Hb Ha Hqs Hqu Hl Hu HI.
  - pose proof (next_used_queue s last []) as Hn. cbv zeta in Hn. rewrite Hqs, Hqu in Hn.
    specialize (Hn Hq Hd Hlen Hl Hu). exists s, x. cbn [length while_some].
    unfold mbind at 1, M_bind, VirtioImpl.on_sys. rewrite Hn. cbn [mbind res_bind].
    rewrite len_nil, Z.add_0_r, app_nil_r, (wrap_small 16 last) by done. done.
  - pose proof (next_used_queue s last (e :: todo)) as Hn. cbv zeta in Hn. rewrite Hqs, Hqu in Hn.
    specialize (Hn Hq Hd Hlen Hl Hu) as [Hn Hu1].
    destruct (advance_same s) as (A1 & A2 & _).
    destruct (Hb [] e todo (advance s) x) as (s1 & x1 & H1 & HI1 & Hc1 & Hl1 & Hm1);
      [done|rewrite app_nil_r; by apply Ha|by rewrite A1..|]. rewrite app_nil_r in HI1.
    rewrite (advance_last s last Hl) in Hl1. rewrite A1 in Hc1. rewrite len_cons in *. pose proof (len_nonneg todo).
    destruct (IH s1 x1 (wrap 16 (last + 1)) (handled ++ [e])) as (s2 & x2 & H2 & HI2 & Hc2 & Hu2 & Hl2); try done.
    + unfold fits in *. lia.
    + apply wrap_fits. lia.
    + intros pre y post s' x' -> HI'. rewrite <-(app_assoc handled [e] pre) in HI' |- *. by apply (Hb (e :: pre) y post).
    + by rewrite Hc1.
    + by rewrite Hc1.
    + apply (used_queue_ext qs qu (ram s)); [done|by rewrite <-A2|done].
    + exists s2, x2. cbn [length]. cbn [while_some].
      assert (VirtioImpl.on_sys VirtioImpl.next_used (s, x) = Ok (Some e, (advance s, x))) as Hn'.
      { unfold VirtioImpl.on_sys. by rewrite Hn. }
      rewrite (M_bind_run _ _ _ _ _ Hn'), (M_bind_run _ _ _ _ _ H1).
      rewrite wrap_add_l in Hu2, Hl2. replace (last + (1 + len todo)) with (last + 1 + len todo) by lia.
      rewrite <-app_assoc in HI2. split_and!; [exact H2|done|congruence|done|done].
Qed.

(** [set_writable_available]: the descriptor keeps its buffer and becomes a
    whole writable page, its id joins the available queue, and only the table
    and the ring are written. *)
Lemma set_writable_available_spec s pos ids d :
  let qs := queue_size (cfg (dev s)) in let qd := queue_desc (cfg (dev s)) in
  let qa := queue_driver (cfg (dev s)) in
  0 < qs → (qs | 2 ^ 16) → len ids < qs → 0 ≤ d < qs → fits 16 d →
  disjoint_ranges qd (16 * qs) qa (4 + 2 * qs) → avail_queue qs qa (ram s) pos ids →
  ∃ m ms, VirtioImpl.set_writable_available d s = Ok (tt, Sys (drv s) (dev s) m (seen s ++ ms)) ∧
    avail_queue qs qa m pos (ids ++ [d]) ∧
    (∀ i, 0 ≤ i < qs → addr (load_Desc m (qd + 16 * i)) = addr (load_Desc (ram s) (qd + 16 * i))) ∧
    (∀ x, (x < qd ∨ qd + 16 * qs ≤ x) → (x < qa ∨ qa + 4 + 2 * qs ≤ x) → load8 m x = load8 (ram s) x).
Proof.
  intros qs qd qa Hq Hdiv Hlen Hd Hd16 Hda Ha. unfold VirtioImpl.set_writable_available.
  pose proof (set_writable_run s d) as Hw. cbv zeta in Hw. fold qd in Hw.
  set (desc := load_Desc (ram s) (qd + 16 * d)) in *.
  set (d' := {| addr := addr desc; desc_len := 4096; flags := VIRTQ_DESC_F_WRITE; next := next desc |}) in *.
  rewrite write_volatile_run in Hw. rewrite (M_bind_run _ _ _ _ _ Hw). clear Hw.
  set (m1 := store_bytes (ram s) (qd + 16 * d) (Desc_bytes d')).
  pose proof (store_bytes_outside (ram s) (qd + 16 * d) (Desc_bytes d')) as O1.
  fold m1 in O1. rewrite len_Desc_bytes in O1.
  pose proof (load_Desc_range (ram s) (qd + 16 * d)) as (Ha64 & _ & _ & Hx16). fold desc in Ha64, Hx16.
  assert (avail_queue qs qa m1 pos ids) as A1.
  { apply (avail_queue_outside _ _ _ _ _ _ _ _ Hq O1); [|done]. unfold disjoint_ranges in *. lia. }
  destruct (avail_push qs qa m1 pos ids d) as (P1 & P2 & P3 & P4); [done..|].
  rewrite set_available_run by (cbn; unfold qs in *; lia). cbn [drv dev ram seen]. fold qs qa.
  eexists _, _. split; [rewrite <-app_assoc; done|]. split; [exact P2|]. split.
  - intros i Hi. rewrite (load_Desc_outside _ _ _ _ _ P4) by (unfold disjoint_ranges in *; lia).
    destruct (decide (i = d)) as [->|Hne].
    + unfold m1. by rewrite load_store_Desc.
    + by rewrite (load_Desc_outside _ _ _ _ _ O1) by (unfold disjoint_ranges in *; lia).
  - intros x Hx1 Hx2. rewrite P4, O1; [done|lia..].
Qed.
End queue.

(** ** A device to run the queues on *)
Record VirtioMem := {
  vm_cfg : VirtioPciCommonCfg;
  vm_queues : gmap Z (Z * Z * Z * Z * Z);
  vm_notified : list (Z * Z)
}.

Definition vm_regs (d : VirtioMem) (q : Z) : Z * Z * Z * Z * Z := default (0, 0, 0, 0, 0) (vm_queues d !! q).

Definition vm_read (d : VirtioMem) : VirtioPciCommonCfg :=
  let c := vm_cfg d in
  let '(qs, off, qd, qa, qu) := vm_regs d (cfg_queue_select c) in
  {| device_feature_select := device_feature_select c; device_feature := device_feature c;
     driver_feature_select := driver_feature_select c; driver_feature := driver_feature c;
     msix_config := msix_config c; num_queues := num_queues c; device_status := device_status c;
     config_generation := config_generation c; cfg_queue_select := cfg_queue_select c;
     queue_size := qs; queue_msix_vector := queue_msix_vector c; queue_enable := queue_enable c;
     queue_notify_off := off; queue_desc := qd; queue_driver := qa; queue_device := qu |}.

Definition vm_with (c : VirtioPciCommonCfg) (feature status select : Z) : VirtioPciCommonCfg :=
  {| device_feature_select := device_feature_select c; device_feature := device_feature c;
     driver_feature_select := driver_feature_select c; driver_feature := feature;
     msix_config := msix_config c; num_queues := num_queues c; device_status := status;
     config_generation := config_generation c; cfg_queue_select := select;
     queue_size := queue_size c; queue_msix_vector := queue_msix_vector c; queue_enable := queue_enable c;
     queue_notify_off := queue_notify_off c; queue_desc := queue_desc c; queue_driver := queue_driver c;
     queue_device := queue_device c |}.

Definition vm_write (f : CfgField) (v : Z) (d : VirtioMem) : VirtioMem :=
  let c := vm_cfg d in let sel := cfg_queue_select c in
  let '(qs, off, qd, qa, qu) := vm_regs d sel in
  let '(c, r) := match f with
  | F_driver_feature => (vm_with c v (device_status c) sel, (qs, off, qd, qa, qu))
  | F_device_status => (vm_with c (driver_feature c) v sel, (qs, off, qd, qa, qu))
  | F_queue_select => (vm_with c (driver_feature c) (device_status c) v, (qs, off, qd, qa, qu))
  | F_queue_desc => (c, (qs, off, v, qa, qu))
  | F_queue_driver => (c, (qs, off, qd, v, qu))
  | F_queue_device => (c, (qs, off, qd, qa, v))
  | F_queue_enable => (c, (qs, off, qd, qa, qu))
  end in
  {| vm_cfg := c; vm_queues := match f with F_queue_select => vm_queues d | _ => <[sel := r]> (vm_queues d) end;
     vm_notified := vm_notified d |}.

Program Definition virtio_instance : VirtioDevice VirtioMem := {|
  cfg := vm_read;
  cfg_write := vm_write;
  notify_store a v d := {| vm_cfg := vm_cfg d; vm_queues := vm_queues d; vm_notified := vm_notified d ++ [(a, v)] |};
  notified := vm_notified;
  queue_regs := vm_regs
|}.
Next Obligation.
  intros d. unfold vm_read. by destruct (vm_regs d (cfg_queue_select (vm_cfg d))) as [[[[? ?] ?] ?] ?] eqn:E.
Qed.
Next Obligation.
  intros q d. simpl. unfold vm_read, vm_write, vm_regs.
  destruct (default (0, 0, 0, 0, 0) (vm_queues d !! cfg_queue_select (vm_cfg d))) as [[[[? ?] ?] ?] ?]. simpl.
  by destruct (default (0, 0, 0, 0, 0) (vm_queues d !! q)) as [[[[? ?] ?] ?] ?].
Qed.
Next Obligation. done. Qed.

#[local] Existing Instance virtio_instance.

Definition example_cfg : VirtioPciCommonCfg :=
  {| device_feature_select := 0; device_feature := 0; driver_feature_select := 0; driver_feature := 0;
     msix_config := 0; num_queues := 1; device_status := 15; config_generation := 0; cfg_queue_select := 0;
     queue_size := 0; queue_msix_vector := 0; queue_enable := 1; queue_notify_off := 0; queue_desc := 0;
     queue_driver := 0; queue_device := 0 |}.

(** A queue of four descriptors, each with a page of its own. *)
Definition example_ram : mem :=
  foldr (λ i m, store_bytes m (0x1000 + 16 * i)
    (Desc_bytes {| addr := 0x4000 + 0x1000 * i; desc_len := 4096; flags := VIRTQ_DESC_F_WRITE; next := 0xffff |}))
    ∅ (range 0 4).

Definition example_virtio : Virtio :=
  {| pci := {| bus := 0; slot := 3; func := 0 |};
     common := {| cap := 0xFE000000; bar := BarMm 0xFE000000; offset := 0; length_ := 56 |};
     device := {| cap := 0xFE002000; bar := BarMm 0xFE000000; offset := 0x2000; length_ := 16 |};
     notify := {| cap := 4; bar := BarMm 0xFE000000; offset := 0x3000; length_ := 4 |};
     pci_conf := {| cap := [0; 0; 0; 0]; bar := BarNone; offset := 0; length_ := 0 |};
     step := 0; last_used_idx := replicate MAX_NUM_QUEUE 65535; device_type := Gpu;
     queues_free := [QueueFreeDescsImpl.new 4]; queue_select := 0 |}.

Definition example_sys : sys VirtioMem :=
  Sys example_virtio
    {| vm_cfg := example_cfg; vm_queues := {[0 := (4, 0, 0x1000, 0x2000, 0x3000)]}; vm_notified := [] |}
    (device_complete 4 0x3000 {| used_id := 2; used_len := 24 |} example_ram) [].

Lemma example_avail : avail_queue 4 0x2000 (ram example_sys) 0 [].
Proof. split; [by vm_compute|done]. Qed.

Lemma example_divide : (4 | 2 ^ 16).
Proof. by exists 16384. Qed.

Lemma set_available_refines_queue_witness :
  ∃ m ms, VirtioImpl.set_available 1 example_sys =
            Ok (tt, Sys (drv example_sys) (dev example_sys) m (seen example_sys ++ ms)) ∧
          avail_queue 4 0x2000 m 0 [1].
Proof.
  destruct (set_available_refines_queue example_sys 0 [] 1) as [(m & ms & H1 & H2 & _) _].
  - by vm_compute.
  - exact example_divide.
  - by vm_compute.
  - by split; vm_compute.
  - exact example_avail.
  - by exists m, ms.
Defined.

Lemma add_request_publishes_witness :
  ∃ m ms, VirtioImpl.add_request 3 2 [1; 1; 0; 0] example_sys =
            Ok (tt, Sys (drv example_sys) (dev example_sys) m (seen example_sys ++ ms)) ∧
          chain 0x1000 3 2 0x7000 0x6000 [1; 1; 0; 0] m.
Proof.
  destruct (add_request_publishes example_sys 0 [] 3 2 [1; 1; 0; 0]) as (m & ms & H1 & _ & H2 & _).
  - by vm_compute.
  - exact example_divide.
  - by vm_compute.
  - by split; vm_compute.
  - by split; vm_compute.
  - done.
  - by split; vm_compute.
  - by split; vm_compute.
  - by vm_compute.
  - by repeat constructor.
  - left. by vm_compute.
  - right. left. by vm_compute.
  - right. left. by vm_compute.
  - exact example_avail.
  - exists m, ms. split; [exact H1|]. exact H2.
Defined.

Lemma next_used_refines_queue_witness :
  ∃ s', VirtioImpl.next_used example_sys = Ok (Some {| used_id := 2; used_len := 24 |}, s') ∧
        last_of s' = Ok 0.
Proof.
  destruct (next_used_refines_queue example_sys 65535 [{| used_id := 2; used_len := 24 |}])
    as [(s' & H1 & H2 & _) _].
  - by vm_compute.
  - exact example_divide.
  - by split; vm_compute.
  - by vm_compute.
  - by vm_compute.
  - split; [by vm_compute|]. intros [|[|k]] e He; simplify_eq/=. by vm_compute.
  - exists s'. split; [exact H1|exact H2].
Defined.
