(* ===== verification/VirtioInit.v ===== *)
(** Virtio device discovery and set-up ([Virtio::init] in
    [bootloader/kernel/src/virtio.rs]): the walk of the PCI capability list, the
    status handshake, and the rings and buffers given to every queue. *)
From S2P Require Import Prelude Bytes Interfaces Pci Memory Virtio.

(** The capabilities found so far. *)
Record Caps := {
  c_common : option (VirtioCap Z);
  c_device : option (VirtioCap Z);
  c_notify : option (VirtioCap Z);
  c_pci_conf : option (VirtioCap (list Z))
}.
Definition no_caps : Caps := {| c_common := None; c_device := None; c_notify := None; c_pci_conf := None |}.

Definition VirtioStatusNone : Z := 0.
Definition VirtioStatusAcknowledge : Z := 1.
Definition VirtioStatusDriver : Z := 2.
Definition VirtioStatusFailed : Z := 128.
Definition VirtioStatusFeatureOk : Z := 8.
Definition VirtioStatusDriverOk : Z := 4.
Definition VirtioStatusNeedsReset : Z := 64.

(** The rest of the device [init] touches: its registers remember what is
    written, except that it may refuse the features, and the input device's
    configuration window. *)
Class VirtioBoot (D : Type) `{VirtioDevice D} := {
  input_select : Z → D → D;
  input_size : D → Z;
  cfg_log : D → list (CfgField * Z);
  cfg_log_ok f v d : cfg_log (cfg_write f v d) = cfg_log d ++ [(f, v)];
  input_select_log v d : cfg_log (input_select v d) = cfg_log d ∧ cfg (input_select v d) = cfg d;
  status_ok v d : device_status (cfg (cfg_write F_device_status v d)) = v ∨
                  device_status (cfg (cfg_write F_device_status v d)) = Z.ldiff v VirtioStatusFeatureOk;
  status_kept f v d : f ≠ F_device_status → device_status (cfg (cfg_write f v d)) = device_status (cfg d);
  num_queues_kept f v d : num_queues (cfg (cfg_write f v d)) = num_queues (cfg d);
  queue_desc_ok v d : queue_desc (cfg (cfg_write F_queue_desc v d)) = v ∧
                      queue_size (cfg (cfg_write F_queue_desc v d)) = queue_size (cfg d);
  queue_driver_ok v d : queue_driver (cfg (cfg_write F_queue_driver v d)) = v
}.

(** ** The capability list *)
Section walk.
Context {S : Type} `{PciPorts S} `{X86Addr}.

(** The virtio capability at [current_off], of which [phys_offset] is
    [VIRTUAL_MAPPING_OFFSET]. The volatile read of the first register, whose
    value is dropped, is left out. *)
Definition visit_virtio (phys_offset : Z) (pci : Pci) (bars : list Bar) (current_off : Z) (c : Caps) : M S Caps :=
  cap_len ← PciDev.config_read_u8 pci (current_off +u[8] 2);
  cfg_type ← PciDev.config_read_u8 pci (current_off +u[8] 3);
  bar ← PciDev.config_read_u8 pci (current_off +u[8] 4);
  offset ← PciDev.config_read_u32 pci (current_off +u[8] 8);
  length ← PciDev.config_read_u32 pci (current_off +u[8] 12);
  if cfg_type =? VirtioPciCapCommonCfg then
    b ← lift (index bars bar);
    match b with
    | BarMm phys =>
        ptr ← lift (p ← PhysAddr_add phys offset; VirtAddr_add phys_offset p);
        mret {| c_common := Some {| cap := ptr; bar := b; offset := offset; length_ := length |};
                c_device := c_device c; c_notify := c_notify c; c_pci_conf := c_pci_conf c |}
    | _ => mret c
    end
  else if cfg_type =? VirtioPciCapNotifyCfg then
    notify_off_multiplier ← PciDev.config_read_u32 pci (current_off +u[8] 16);
    b ← lift (index bars bar);
    mret {| c_common := c_common c; c_device := c_device c;
            c_notify := Some {| cap := notify_off_multiplier; bar := b; offset := offset; length_ := length |};
            c_pci_conf := c_pci_conf c |}
  else if cfg_type =? VirtioPciCapIsrCfg then mret c
  else if cfg_type =? VirtioPciCapDeviceCfg then
    b ← lift (index bars bar);
    match b with
    | BarMm phys =>
        ptr ← lift (p ← PhysAddr_add phys offset; VirtAddr_add phys_offset p);
        mret {| c_common := c_common c;
                c_device := Some {| cap := ptr; bar := b; offset := offset; length_ := length |};
                c_notify := c_notify c; c_pci_conf := c_pci_conf c |}
    | _ => mret c
    end
  else if cfg_type =? VirtioPciCapPciCfg then
    d0 ← PciDev.config_read_u8 pci (current_off +u[8] 16);
    d1 ← PciDev.config_read_u8 pci (current_off +u[8] 17);
    d2 ← PciDev.config_read_u8 pci (current_off +u[8] 18);
    d3 ← PciDev.config_read_u8 pci (current_off +u[8] 19);
    b ← lift (index bars bar);
    mret {| c_common := c_common c; c_device := c_device c; c_notify := c_notify c;
            c_pci_conf := Some {| cap := [d0; d1; d2; d3]; bar := b; offset := offset; length_ := length |} |}
  else mret c.

(** The [loop]; [None] when [fuel] iterations did not end it. *)
Fixpoint walk_caps (fuel : nat) (phys_offset : Z) (pci : Pci) (bars : list Bar) (current_off : Z) (c : Caps)
    : M S (option Caps) :=
  match fuel with
  | O => mret None
  | Datatypes.S fuel =>
      cap ← PciDev.config_read_u8 pci current_off;
      c ← (if cap =? 0x9 then visit_virtio phys_offset pci bars current_off c else mret c);
      current_off ← PciDev.config_read_u8 pci (1 +u[8] current_off);
      if current_off =? 0 then mret (Some c) else walk_caps fuel phys_offset pci bars current_off c
  end.

(** [for idx in 0..=5 { bars[idx] = pci.get_bar(idx) }]. *)
Fixpoint read_bars (pci : Pci) (idxs : list Z) : M S (list Bar) :=
  match idxs with
  | [] => mret []
  | idx :: idxs => bar ← PciDev.get_bar pci idx; bars ← read_bars pci idxs; mret (bar :: bars)
  end.
End walk.

(** ** Queue set-up and the handshake *)

(** The kernel while a device is set up: configuration ports, the device, page
    tables with frame allocator, and memory. *)
Record machine (S D P F : Type) := Machine { ports : S; vdev : D; paging : P * F; vram : mem }.
Arguments Machine {S D P F} _ _ _ _.
Arguments ports {S D P F} _.
Arguments vdev {S D P F} _.
Arguments paging {S D P F} _.
Arguments vram {S D P F} _.

Section init.
Context {S D P F : Type} `{PciPorts S} `{X86Addr} `{VirtioDevice D} `{!VirtioBoot D} `{Mapper P F}.
Abbreviation mach := (machine S D P F).

Definition on_ports {A} (m : M S A) : M mach A := λ s,
  '(a, p) ← m (ports s); mret (a, Machine p (vdev s) (paging s) (vram s)).
Definition on_paging {A} (m : M (P * F) A) : M mach A := λ s,
  '(a, p) ← m (paging s); mret (a, Machine (ports s) (vdev s) p (vram s)).
Definition set (f : CfgField) (v : Z) : M mach unit :=
  modify (λ s, Machine (ports s) (cfg_write f v (vdev s)) (paging s) (vram s)).
Definition cfg_now : M mach VirtioPciCommonCfg := gets (cfg ∘ vdev).
Definition write_ram (p : Z) (bs : list Z) : M mach unit :=
  modify (λ s, Machine (ports s) (vdev s) (paging s) (store_bytes (vram s) p bs)).

(** [create_identity_virt_from_phys(..).unwrap().start_address().as_u64()] *)
Definition new_page : M mach Z :=
  r ← on_paging create_identity_virt_from_phys;
  match r with inl page => mret page | inr _ => lift (Panic PUnwrap) end.

Definition or_status (bit : Z) : M mach unit :=
  c ← cfg_now; set F_device_status (Z.lor (device_status c) bit).

Definition init_desc (descs idesc : Z) : M mach unit :=
  page ← new_page;
  write_ram (descs + 16 * idesc)
    (Desc_bytes {| addr := page; desc_len := 4096; flags := VIRTQ_DESC_F_WRITE; next := 0xffff |}).

(** The body of the loop over the queues. *)
Definition init_queue (q : Z) : M mach QueueFreeDescs :=
  set F_queue_select q ;;
  c ← cfg_now;
  let free := QueueFreeDescsImpl.new (queue_size c) in
  page ← new_page;
  set F_queue_desc page ;;
  c ← cfg_now;
  for_each (range 0 (queue_size c)) (init_desc (queue_desc c)) ;;
  page ← new_page;
  set F_queue_driver page ;;
  c ← cfg_now;
  write_ram (queue_driver c) (le_bytes 2 1) ;;
  page ← new_page;
  set F_queue_device page ;;
  set F_queue_enable 1 ;;
  mret free.

Fixpoint init_queues (qs : list Z) : M mach (list QueueFreeDescs) :=
  match qs with
  | [] => mret []
  | q :: qs => f ← init_queue q; fs ← init_queues qs; mret (f :: fs)
  end.

(** Reading the name of an input device for the log. *)
Definition input_name : M mach unit :=
  modify (λ s, Machine (ports s) (input_select 1 (vdev s)) (paging s) (vram s)) ;;
  size ← gets (input_size ∘ vdev);
  (if 128 <? size then lift (Panic PIndex) else mret tt) ;;
  modify (λ s, Machine (ports s) (input_select 0 (vdev s)) (paging s) (vram s)).

(** From the capabilities on. *)
Definition init_device (ty : DeviceType) : M mach (list QueueFreeDescs) :=
  set F_device_status 0 ;;
  or_status VirtioStatusAcknowledge ;;
  or_status VirtioStatusDriver ;;
  set F_driver_feature (match ty with Gpu => 3 | Input => 0 end) ;;
  or_status VirtioStatusFeatureOk ;;
  c ← cfg_now;
  (if Z.land (device_status c) VirtioStatusFeatureOk =? 0
   then lift (Panic (PExplicit "Cant enable set of feature")) else mret tt) ;;
  c ← cfg_now;
  queues ← init_queues (range 0 (num_queues c));
  (match ty with Input => input_name | Gpu => mret tt end) ;;
  or_status VirtioStatusDriverOk ;;
  mret queues.

(** [Virtio::init]; the outer [None] is the walk running out of [fuel]. *)
Definition init (fuel : nat) (phys_offset : Z) (pci : Pci) : M mach (option (option Virtio)) :=
  device_id ← on_ports (PciDev.config_read_u16 pci (reg_u8 PCIDeviceID));
  match device_id_to_type (device_id - 0x1040) with
  | None => mret (Some None)
  | Some device_type =>
      bars ← on_ports (read_bars pci (range 0 6));
      cap_ptr ← on_ports (PciDev.config_read_u8 pci (reg_u8 PCICapabilitiesPointer));
      oc ← on_ports (walk_caps fuel phys_offset pci bars cap_ptr no_caps);
      match oc with
      | None => mret None
      | Some {| c_common := Some common; c_device := Some device; c_notify := Some notify; c_pci_conf := Some pci_conf |} =>
          queues ← init_device device_type;
          set F_queue_select 0 ;;
          mret (Some (Some
            {| Virtio.pci := pci; Virtio.common := common; Virtio.device := device; Virtio.notify := notify;
               Virtio.pci_conf := pci_conf; step := 0; last_used_idx := replicate MAX_NUM_QUEUE 65535;
               device_type := device_type; queues_free := queues; queue_select := 0 |}))
      | Some _ => mret (Some None)
      end
  end.
End init.

(** ** The capability walk *)

(** What a capability contributes. *)
Inductive found :=
| FCommon (c : VirtioCap Z)
| FDevice (c : VirtioCap Z)
| FNotify (c : VirtioCap Z)
| FPciConf (c : VirtioCap (list Z))
| FNone.

Definition add_found (c : Caps) (f : found) : Caps :=
  match f with
  | FCommon x => {| c_common := Some x; c_device := c_device c; c_notify := c_notify c; c_pci_conf := c_pci_conf c |}
  | FDevice x => {| c_common := c_common c; c_device := Some x; c_notify := c_notify c; c_pci_conf := c_pci_conf c |}
  | FNotify x => {| c_common := c_common c; c_device := c_device c; c_notify := Some x; c_pci_conf := c_pci_conf c |}
  | FPciConf x => {| c_common := c_common c; c_device := c_device c; c_notify := c_notify c; c_pci_conf := Some x |}
  | FNone => c
  end.

(** The capabilities of a list of findings: the last of each kind. *)
Definition caps_of (fs : list found) : Caps := {|
  c_common := last (omap (λ f, match f with FCommon x => Some x | _ => None end) fs);
  c_device := last (omap (λ f, match f with FDevice x => Some x | _ => None end) fs);
  c_notify := last (omap (λ f, match f with FNotify x => Some x | _ => None end) fs);
  c_pci_conf := last (omap (λ f, match f with FPciConf x => Some x | _ => None end) fs)
|}.

Section capability.
Context {S : Type} `{PciPorts S} `{X86Addr} (s : S) (phys_offset : Z) (pci : Pci) (bars : list Bar).

Definition cbyte (off : Z) : Z := config_byte s (bus pci) (slot pci) (func pci) (wrap 8 off).
Definition cdword (off : Z) : Z := conf s (config_word (bus pci) (slot pci) (func pci) (wrap 8 off)).

(** The virtio structure the capability at [off] describes (virtio 1.2, 4.1.4):
    type at byte 3, BAR at byte 4, offset and length in the dwords at 8 and 12,
    the notify multiplier or the data window at 16. *)
Definition capability_at (off : Z) : res found :=
  if negb (cbyte off =? 0x9) then Ok FNone else
  let mk {T} (x : T) b := {| cap := x; bar := b; offset := cdword (off + 8); length_ := cdword (off + 12) |} in
  let mapped (k : VirtioCap Z → found) b :=
    match b with
    | BarMm phys => p ← PhysAddr_add phys (cdword (off + 8)); v ← VirtAddr_add phys_offset p; Ok (k (mk v b))
    | _ => Ok FNone
    end in
  let type := cbyte (off + 3) in
  if type =? 1 then b ← index bars (cbyte (off + 4)); mapped FCommon b
  else if type =? 2 then b ← index bars (cbyte (off + 4)); Ok (FNotify (mk (cdword (off + 16)) b))
  else if type =? 4 then b ← index bars (cbyte (off + 4)); mapped FDevice b
  else if type =? 5 then
    b ← index bars (cbyte (off + 4));
    Ok (FPciConf (mk [cbyte (off + 16); cbyte (off + 17); cbyte (off + 18); cbyte (off + 19)] b))
  else Ok FNone.

(** The offsets of the list from [off] to the one whose next pointer is 0. *)
Fixpoint nodes (fuel : nat) (off : Z) : option (list Z) :=
  match fuel with
  | O => None
  | Datatypes.S fuel =>
      if cbyte (1 + off) =? 0 then Some [off] else cons off <$> nodes fuel (cbyte (1 + off))
  end.

Lemma cbyte_range off : 0 ≤ cbyte off < 256.
Proof. unfold cbyte, config_byte. apply Z.mod_pos_bound. lia. Qed.

Lemma nodes_mono n m off l : (n ≤ m)%nat → nodes n off = Some l → nodes m off = Some l.
Proof.
  revert m off l; induction n as [|n IH]; intros [|m] off l Hnm; try (done || lia). simpl.
  destruct (_ =? 0); [done|]. intros (l' & Hl & ->)%fmap_Some.
  by rewrite (IH m _ l') by (lia || done).
Qed.

(** The list from a node of the list is its tail. *)
Lemma nodes_suffix n off l i x :
  nodes n off = Some l → l !! i = Some x → ∃ m, nodes m x = Some (drop i l).
Proof.
  revert off l i; induction n as [|n IH]; intros off l i Hl Hi; [done|]. pose proof Hl as Hl0. simpl in Hl.
  destruct (_ =? 0) eqn:E.
  - injection Hl as <-. destruct i; simplify_eq/=. by exists (Datatypes.S n).
  - apply fmap_Some in Hl as (l' & Hl & ->). destruct i as [|i]; simplify_eq/=; [by exists (Datatypes.S n)|].
    by eapply (IH _ l' i).
Qed.

Lemma nodes_NoDup n off l : nodes n off = Some l → NoDup l.
Proof.
  intros Hl. apply NoDup_alt. intros i j x Hi Hj.
  destruct (nodes_suffix _ _ _ _ _ Hl Hi) as [m1 H1], (nodes_suffix _ _ _ _ _ Hl Hj) as [m2 H2].
  apply (nodes_mono m1 (m1 + m2)) in H1; [|lia]. apply (nodes_mono m2 (m1 + m2)) in H2; [|lia].
  rewrite H1 in H2. injection H2 as E. apply (f_equal length) in E. rewrite !length_drop in E.
  apply lookup_lt_Some in Hi, Hj. lia.
Qed.

Lemma nodes_range n off l : 0 ≤ off < 256 → nodes n off = Some l → Forall (λ x, 0 ≤ x < 256) l.
Proof.
  revert off l; induction n as [|n IH]; intros off l Ho; simpl; [done|]. destruct (_ =? 0).
  - intros [= <-]. auto.
  - intros (l' & Hl & ->)%fmap_Some. constructor; [done|]. apply (IH (cbyte (1 + off))); [apply cbyte_range|done].
Qed.

Lemma nodes_length n off l : nodes n off = Some l → nodes (length l) off = Some l.
Proof.
  revert off l; induction n as [|n IH]; intros off l; simpl; [done|]. destruct (_ =? 0) eqn:E.
  - intros [= <-]. simpl. by rewrite E.
  - intros (l' & Hl & ->)%fmap_Some. simpl. rewrite E. by rewrite (IH _ _ Hl).
Qed.

(** A list that ends does so within 256 nodes. *)
Lemma nodes_256 n off l : 0 ≤ off < 256 → nodes n off = Some l → nodes 256 off = Some l.
Proof.
  intros Ho Hl. apply (nodes_mono (length l)); [|by apply (nodes_length n)].
  change 256%nat with (length (range 0 256)). apply submseteq_length, NoDup_submseteq; [by apply (nodes_NoDup n off)|].
  intros x Hx. apply elem_of_range. apply (nodes_range n off l Ho) in Hl.
  rewrite Forall_forall in Hl. by apply Hl.
Qed.
End capability.

Lemma caps_of_snoc fs f : caps_of (fs ++ [f]) = add_found (caps_of fs) f.
Proof.
  unfold caps_of, add_found. rewrite !omap_app.
  destruct f; simpl; rewrite ?app_nil_r, ?last_snoc; done.
Qed.

Lemma caps_of_foldl fs : foldl add_found no_caps fs = caps_of fs.
Proof. induction fs as [|f fs IH] using rev_ind; [done|]. by rewrite foldl_snoc, IH, caps_of_snoc. Qed.

Section walk_spec.
Context {S : Type} `{PciPorts S} `{X86Addr} (phys_offset : Z) (pci : Pci) (bars : list Bar).
Implicit Types (s : S).

Lemma pci_read8 s0 s1 o :
  unchanged s0 s1 →
  ∃ s2, PciDev.config_read_u8 pci (wrap 8 o) s1 = Ok (cbyte s0 pci o, s2) ∧ unchanged s0 s2.
Proof.
  intros Hu. destruct (config_read_u8_conf (bus pci) (slot pci) (func pci) (wrap 8 o) s1) as (s2 & H2 & Hu2).
  exists s2. split; [|by eapply unchanged_trans]. unfold PciDev.config_read_u8. rewrite H2.
  unfold cbyte, config_byte. by rewrite (proj1 Hu).
Qed.

Lemma pci_read32 s0 s1 o :
  unchanged s0 s1 →
  ∃ s2, PciDev.config_read_u32 pci (wrap 8 o) s1 = Ok (cdword s0 pci o, s2) ∧ unchanged s0 s2.
Proof.
  intros Hu. destruct (config_read_u32_conf (bus pci) (slot pci) (func pci) (wrap 8 o) s1) as (s2 & H2 & Hu2).
  exists s2. split; [|by eapply unchanged_trans]. unfold PciDev.config_read_u32. rewrite H2.
  unfold cdword. by rewrite (proj1 Hu).
Qed.

(** Runs the next read of the code. *)
Ltac pci_read :=
  match goal with
  | Hu : unchanged ?s0 ?s1 |- context [(PciDev.config_read_u8 pci (wrap 8 ?o) ≫= _) ?s1] =>
      let s2 := fresh "s" in let E := fresh "E" in let Hu2 := fresh "Hu" in
      destruct (pci_read8 s0 s1 o Hu) as (s2 & E & Hu2); rewrite (M_bind_run _ _ _ _ _ E); clear E Hu
  | Hu : unchanged ?s0 ?s1 |- context [(PciDev.config_read_u32 pci (wrap 8 ?o) ≫= _) ?s1] =>
      let s2 := fresh "s" in let E := fresh "E" in let Hu2 := fresh "Hu" in
      destruct (pci_read32 s0 s1 o Hu) as (s2 & E & Hu2); rewrite (M_bind_run _ _ _ _ _ E); clear E Hu
  end.

(** The code at one node contributes what the capability describes. *)
Definition contributes s0 (m : res (Caps * S)) (c : Caps) (r : res found) : Prop :=
  match r with
  | Ok f => ∃ s', m = Ok (add_found c f, s') ∧ unchanged s0 s'
  | Panic p => m = Panic p
  end.

Lemma visit_virtio_run s0 s1 off c :
  unchanged s0 s1 → cbyte s0 pci off = 0x9 →
  contributes s0 (visit_virtio phys_offset pci bars off c s1) c (capability_at s0 phys_offset pci bars off).
Proof.
  intros Hu H9. unfold visit_virtio, capability_at. rewrite H9. cbn [negb Z.eqb Pos.eqb].
  do 5 pci_read.
  unfold VirtioPciCapCommonCfg, VirtioPciCapNotifyCfg, VirtioPciCapIsrCfg, VirtioPciCapDeviceCfg, VirtioPciCapPciCfg.
  set (ty := cbyte s0 pci (off + 3)). set (b := index bars (cbyte s0 pci (off + 4))).
  destruct (Z.eqb_spec ty 1); [|destruct (Z.eqb_spec ty 2); [|destruct (Z.eqb_spec ty 3);
    [|destruct (Z.eqb_spec ty 4); [|destruct (Z.eqb_spec ty 5)]]]].
  - unfold mbind, M_bind, lift. destruct b as [[|port|phys]|]; simpl; [by exists s5|by exists s5| |done].
    destruct (PhysAddr_add phys _) as [p|]; simpl; [|done].
    destruct (VirtAddr_add phys_offset p); simpl; [by eexists|done].
  - pci_read. unfold mbind, M_bind, lift. destruct b; simpl; [by eexists|done].
  - destruct (Z.eqb_spec ty 4); [lia|]. destruct (Z.eqb_spec ty 5); [lia|]. by eexists.
  - unfold mbind, M_bind, lift. destruct b as [[|port|phys]|]; simpl; [by exists s5|by exists s5| |done].
    destruct (PhysAddr_add phys _) as [p|]; simpl; [|done].
    destruct (VirtAddr_add phys_offset p); simpl; [by eexists|done].
  - do 4 pci_read. unfold mbind, M_bind, lift. destruct b; simpl; [by eexists|done].
  - by eexists.
Qed.

(** The findings of a list of nodes, in order. *)
Definition findings s0 (l : list Z) : res (list found) := mapM (capability_at s0 phys_offset pci bars) l.

Lemma walk_caps_step s0 fuel s1 off c :
  unchanged s0 s1 → 0 ≤ off < 256 →
  ∃ s', unchanged s0 s' ∧
    walk_caps (Datatypes.S fuel) phys_offset pci bars off c s1 =
      match capability_at s0 phys_offset pci bars off with
      | Ok f => if cbyte s0 pci (1 + off) =? 0 then Ok (Some (add_found c f), s')
                else walk_caps fuel phys_offset pci bars (cbyte s0 pci (1 + off)) (add_found c f) s'
      | Panic p => Panic p
      end.
Proof.
  intros Hu Ho. cbn [walk_caps].
  destruct (pci_read8 s0 s1 off Hu) as (s2 & E2 & Hu2). rewrite (wrap_small 8 off) in E2 by done.
  rewrite (M_bind_run _ _ _ _ _ E2).
  assert (contributes s0 ((if cbyte s0 pci off =? 9 then visit_virtio phys_offset pci bars off c else mret c) s2) c
    (capability_at s0 phys_offset pci bars off)) as Hc.
  { destruct (Z.eqb_spec (cbyte s0 pci off) 9) as [E9|E9]; [by apply visit_virtio_run|].
    unfold capability_at. destruct (Z.eqb_spec (cbyte s0 pci off) 9); [done|]. by exists s2. }
  destruct (capability_at s0 phys_offset pci bars off) as [f|p]; simpl in Hc.
  - destruct Hc as (s3 & E3 & Hu3). rewrite (M_bind_run _ _ _ _ _ E3). clear E3. pci_read.
    exists s. split; [done|]. by destruct (_ =? 0).
  - exists s0. split; [done|]. unfold mbind at 1, M_bind at 1. by rewrite Hc.
Qed.

Lemma walk_caps_run s0 fuel s1 off fs :
  unchanged s0 s1 → 0 ≤ off < 256 →
  match nodes s0 pci fuel off with
  | None => ∀ c s2, walk_caps fuel phys_offset pci bars off (foldl add_found no_caps fs) s1 ≠ Ok (Some c, s2)
  | Some l =>
      match findings s0 l with
      | Ok fs' => ∃ s2, walk_caps fuel phys_offset pci bars off (foldl add_found no_caps fs) s1 =
                    Ok (Some (foldl add_found no_caps (fs ++ fs')), s2) ∧ unchanged s0 s2
      | Panic p => walk_caps fuel phys_offset pci bars off (foldl add_found no_caps fs) s1 = Panic p
      end
  end.
Proof.
  revert s1 off fs; induction fuel as [|fuel IH]; intros s1 off fs Hu Ho; [done|].
  destruct (walk_caps_step s0 fuel s1 off (foldl add_found no_caps fs) Hu Ho) as (s2 & Hu2 & ->).
  cbn [nodes]. destruct (capability_at s0 phys_offset pci bars off) as [f|p] eqn:Ef.
  - rewrite <-foldl_snoc. specialize (IH s2 (cbyte s0 pci (1 + off)) (fs ++ [f]) Hu2 (cbyte_range s0 pci _)).
    destruct (cbyte s0 pci (1 + off) =? 0).
    + unfold findings. simpl. rewrite Ef. simpl. by exists s2.
    + destruct (nodes s0 pci fuel _) as [l|]; [|exact IH]. simpl. unfold findings in *. simpl. rewrite Ef. simpl.
      destruct (mapM _ l) as [fs'|]; simpl; [|done]. by rewrite <-app_assoc in IH.
  - destruct (cbyte s0 pci (1 + off) =? 0); [unfold findings; simpl; by rewrite Ef|].
    destruct (nodes s0 pci fuel _) as [l|]; simpl; [|done]. unfold findings. simpl. by rewrite Ef.
Qed.
End walk_spec.

(** C21: the capability walk is complete and ends. From the first capability of
    a function, 256 iterations are enough: either the list ends, with every
    node visited once, and the walk yields the last virtio structure of each
    kind that the nodes describe (or panics where one of them names a bad BAR or
    address), for any bound from 256 on; or no bound makes it end. *)
Theorem walk_caps_complete {S} `{PciPorts S} `{X86Addr} (s : S) phys_offset pci bars off :
  0 ≤ off < 256 →
  match nodes s pci 256 off with
  | Some l => NoDup l ∧ ∀ fuel, (256 <= fuel)%nat →
      match findings phys_offset pci bars s l with
      | Ok fs => ∃ s', walk_caps fuel phys_offset pci bars off no_caps s = Ok (Some (caps_of fs), s') ∧ unchanged s s'
      | Panic p => walk_caps fuel phys_offset pci bars off no_caps s = Panic p
      end
  | None => ∀ fuel c s', walk_caps fuel phys_offset pci bars off no_caps s ≠ Ok (Some c, s')
  end.
Proof.
  intros Ho. assert (unchanged s s) as Hu by done.
  destruct (nodes s pci 256 off) as [l|] eqn:E.
  - split; [by apply (nodes_NoDup s pci 256 off)|]. intros fuel Hf.
    pose proof (walk_caps_run phys_offset pci bars s fuel s off [] Hu Ho) as Hw.
    rewrite (nodes_mono s pci 256 fuel off l Hf E) in Hw.
    destruct (findings phys_offset pci bars s l) as [fs|]; [|done].
    destruct Hw as (s' & Hw & Hu'). exists s'. simpl in Hw. by rewrite caps_of_foldl in Hw.
  - intros fuel. pose proof (walk_caps_run phys_offset pci bars s fuel s off [] Hu Ho) as Hw.
    destruct (nodes s pci fuel off) as [l|] eqn:E'; [|exact Hw].
    apply nodes_256 in E'; [|done]. congruence.
Qed.

#[local] Existing Instance port_space_instance.
#[local] Existing Instance x86_addr_instance.

(** Function 0:3.0 with a common configuration at 0x40 and a notification
    structure at 0x50. *)
Definition example_caps : PortSpace :=
  {| ps_selected := 0;
     ps_conf := list_to_map ((λ '(off, v), (config_word 0 3 0 off, v)) <$>
       [(0x40, 0x01105009); (0x44, 0); (0x48, 0x1000); (0x4c, 56);
        (0x50, 0x02140009); (0x54, 0); (0x58, 0x3000); (0x5c, 4); (0x60, 8)]);
     ps_written := [] |}.

Lemma walk_caps_complete_witness :
  ∃ s', walk_caps 256 0x10000000000 {| bus := 0; slot := 3; func := 0 |} [BarMm 0xFE000000] 0x40 no_caps example_caps =
    Ok (Some {| c_common := Some {| cap := 0x100FE001000; bar := BarMm 0xFE000000; offset := 0x1000; length_ := 56 |};
                c_device := None;
                c_notify := Some {| cap := 8; bar := BarMm 0xFE000000; offset := 0x3000; length_ := 4 |};
                c_pci_conf := None |}, s').
Proof.
  pose proof (walk_caps_complete example_caps 0x10000000000 {| bus := 0; slot := 3; func := 0 |}
    [BarMm 0xFE000000] 0x40) as H.
  assert (nodes example_caps {| bus := 0; slot := 3; func := 0 |} 256 0x40 = Some [0x40; 0x50]) as E
    by by vm_compute.
  rewrite E in H. destruct H as [_ H]; [lia|]. specialize (H 256%nat (le_n _)).
  assert (findings 0x10000000000 {| bus := 0; slot := 3; func := 0 |} [BarMm 0xFE000000] example_caps [0x40; 0x50] =
    Ok [FCommon {| cap := 0x100FE001000; bar := BarMm 0xFE000000; offset := 0x1000; length_ := 56 |};
        FNotify {| cap := 8; bar := BarMm 0xFE000000; offset := 0x3000; length_ := 4 |}]) as Ef by by vm_compute.
  rewrite Ef in H. destruct H as (s' & Hw & _). exists s'. exact Hw.
Defined.

(** ** The handshake and the queues *)
Section setup.
Context {S D P F : Type} `{PciPorts S} `{X86Addr} `{VirtioDevice D} `{!VirtioBoot D} `{Mapper P F}.
Implicit Types (s : machine S D P F).

(** One step of a successful run. *)
Ltac minv E :=
  let a := fresh "a" in let s1 := fresh "s" in let E1 := fresh "E" in
  apply M_bind_ok in E as (a & s1 & E1 & E).

Lemma new_page_same s page s' :
  new_page s = Ok (page, s') → vdev s' = vdev s ∧ vram s' = vram s ∧ ports s' = ports s.
Proof.
  unfold new_page. intros E. minv E. unfold on_paging in E0.
  destruct (create_identity_virt_from_phys (paging s)) as [[r pf]|]; [|done].
  injection E0 as <- <-. destruct r as [p|e]; [|done]. by injection E as <- <-.
Qed.

(** What [new_page] does to the page tables and the allocator: a page that was not
    mapped is mapped to a frame that was handed out, the one it is named after as
    long as physical memory is below the canonical hole; nothing else is mapped. *)
Definition owned_frame (f f' : F) (p' : P) (page : Z) : Prop :=
  (4096 | page) ∧ fits 64 page ∧
  ∃ frame, translate p' page = Some frame ∧ handed_out f f' frame ∧ (0 ≤ frame < 2 ^ 47 → page = containing_address frame).
Definition gets_page (pf : P * F) (page : Z) (pf' : P * F) : Prop :=
  translate pf.1 page = None ∧ owned_frame pf.2 pf'.2 pf'.1 page ∧
  (∀ q, q ≠ page → translate pf'.1 q = translate pf.1 q) ∧ rtc takes_frame pf.2 pf'.2.

Lemma new_page_gets s page s' : new_page s = Ok (page, s') → gets_page (paging s) page (paging s').
Proof.
  unfold new_page. intros E. minv E. unfold on_paging in E0.
  destruct (create_identity_virt_from_phys (paging s)) as [[r pf]|] eqn:Ec; [|done].
  injection E0 as <- <-. destruct r as [v|e]; [|done]. injection E as <- <-. cbn [paging].
  destruct (paging s) as [p f]. unfold create_identity_virt_from_phys in Ec. minv Ec. minv Ec. minv Ec. minv Ec.
  unfold frame_alloc in E. destruct (allocate_frame f) as [[o f0]|] eqn:Ea; [|done]. injection E as <- <-.
  unfold lift in E0. destruct o as [frame|]; [|done]. injection E0 as <- <-.
  unfold lift in E1. destruct (VirtAddr_new frame) as [st|] eqn:Ev; [|done]. injection E1 as <- <-.
  destruct s3 as [p' f'], a2 as [[]|e]; [|done]. injection Ec as <- <-.
  apply map_to_mapped in E2 as (R & Hn & Hm & Hk). unfold gets_page, owned_frame. cbn [fst snd].
  assert (takes_frame f f0) as T0 by by eexists.
  split; [done|]. split; [|split; [done|by eapply rtc_l]].
  split; [by exists (st / 4096); unfold containing_address; lia|]. apply VirtAddr_new_range in Ev as Hf.
  split; [unfold fits, containing_address in *; lia|]. exists frame. split; [done|]. split.
  { exists f, f0. split_and!; [apply rtc_refl|done|done]. }
  intros Hfr. rewrite VirtAddr_new_ok in Ev by done. by injection Ev as <-.
Qed.

(** Several of them, in turn. *)
Fixpoint gets_pages (pf : P * F) (pages : list Z) (pf' : P * F) : Prop :=
  match pages with
  | [] => pf = pf'
  | page :: pages => ∃ pf1, gets_page pf page pf1 ∧ gets_pages pf1 pages pf'
  end.

Lemma gets_pages_app pf l1 l2 pf' : gets_pages pf (l1 ++ l2) pf' ↔ ∃ pf1, gets_pages pf l1 pf1 ∧ gets_pages pf1 l2 pf'.
Proof.
  revert pf; induction l1 as [|page l1 IH]; intros pf; cbn [app gets_pages]; [naive_solver|].
  split; [intros (pf1 & Hg & (pf2 & H1' & H2')%IH)|intros (pf2 & (pf1 & Hg & H1') & H2')].
  - exists pf2. split; [by exists pf1|done].
  - exists pf1. split; [done|]. apply IH. by exists pf2.
Qed.

(** They are pairwise distinct, each of them stays mapped, and nothing else
    changes. *)
Lemma gets_pages_spec pf pages pf' :
  gets_pages pf pages pf' →
  NoDup pages ∧ Forall (λ page, translate pf.1 page = None ∧ owned_frame pf.2 pf'.2 pf'.1 page) pages ∧
  (∀ q, q ∉ pages → translate pf'.1 q = translate pf.1 q) ∧ rtc takes_frame pf.2 pf'.2.
Proof.
  revert pf; induction pages as [|page pages IH]; intros pf; cbn [gets_pages].
  - intros ->. split_and!; [constructor|constructor|done|apply rtc_refl].
  - intros (pf1 & (Hn & (Ha & Hf & frame & Ht & Ho & Hi) & Hk & R1) & (Hnd & Hall & Hk' & R2)%IH).
    assert (page ∉ pages) as Hni.
    { intros Hin. rewrite Forall_forall in Hall. destruct (Hall page Hin) as [Hn' _]. congruence. }
    split_and!; [by constructor| | |by etrans].
    + constructor.
      * split; [done|]. split; [done|]. split; [done|]. exists frame. rewrite Hk' by done. split_and!; [done| |done].
        eapply handed_out_mono; [apply rtc_refl|exact R2|exact Ho].
      * apply Forall_forall. intros q Hq. rewrite Forall_forall in Hall. destruct (Hall q Hq) as (Hn' & Ha' & Hf' & fr & Ht' & Ho' & Hi').
        split; [rewrite <-Hk; [done|set_solver]|]. split; [done|]. split; [done|]. exists fr. split_and!; [done| |done].
        eapply handed_out_mono; [exact R1|apply rtc_refl|exact Ho'].
    + intros q Hq. rewrite Hk', Hk by set_solver. done.
Qed.

(** Different pages do not overlap. *)
Lemma pages_apart pf pages pf' x y :
  gets_pages pf pages pf' → x ∈ pages → y ∈ pages → x ≠ y → disjoint_ranges x 4096 y 4096.
Proof.
  intros (_ & Hall & _)%gets_pages_spec Hx Hy Hne. rewrite Forall_forall in Hall.
  destruct (Hall x Hx) as (_ & [i ->] & _), (Hall y Hy) as (_ & [j ->] & _). unfold disjoint_ranges. lia.
Qed.

(** The registers written for one queue. *)
Definition queue_writes (q : Z) (pages : Z * Z * Z) : list (CfgField * Z) :=
  let '(pd, pa, pu) := pages in
  [(F_queue_select, q); (F_queue_desc, pd); (F_queue_driver, pa); (F_queue_device, pu); (F_queue_enable, 1)].

(** What [init_queue] keeps of the device. *)
Definition same_status (d d' : D) : Prop :=
  device_status (cfg d') = device_status (cfg d) ∧ num_queues (cfg d') = num_queues (cfg d).

Lemma init_descs_same descs l s s' :
  for_each l (init_desc descs) s = Ok (tt, s') → vdev s' = vdev s.
Proof.
  revert s; induction l as [|i l IH]; intros s; cbn [for_each]; [by intros [= ->]|].
  intros E. minv E. apply IH in E. rewrite E. unfold init_desc in E0. minv E0.
  apply new_page_same in E1 as [<- _]. by injection E0 as _ <-.
Qed.

(** The allocations and the descriptor loop of [init_queue]. *)
Lemma init_queue_inv q s free s' :
  init_queue q s = Ok (free, s') →
  ∃ pd pa pu s1 s2 d1,
    d1 = cfg_write F_queue_desc pd (cfg_write F_queue_select q (vdev s)) ∧
    s1 = Machine (ports s1) d1 (paging s1) (vram s) ∧
    for_each (range 0 (queue_size (cfg d1))) (init_desc pd) s1 = Ok (tt, s2) ∧
    free = QueueFreeDescsImpl.new (queue_size (cfg d1)) ∧
    gets_pages (paging s) [pd] (paging s1) ∧ gets_pages (paging s2) [pa; pu] (paging s') ∧
    vdev s' = cfg_write F_queue_enable 1 (cfg_write F_queue_device pu (cfg_write F_queue_driver pa d1)) ∧
    vram s' = store_bytes (vram s2) pa (le_bytes 2 1).
Proof.
  unfold init_queue. intros E. minv E. injection E0 as _ <-. minv E. injection E0 as <- <-.
  cbv zeta in E. minv E. pose proof (new_page_gets _ _ _ E0) as G1. apply new_page_same in E0 as (V1 & R1 & _). simpl in V1, R1, G1.
  minv E. injection E0 as _ <-. minv E. injection E0 as <- <-.
  minv E. minv E. pose proof (new_page_gets _ _ _ E1) as G2. apply new_page_same in E1 as (V2 & R2 & _).
  minv E. injection E1 as _ <-. minv E. injection E1 as <- <-. minv E. injection E1 as _ <-.
  minv E. pose proof (new_page_gets _ _ _ E1) as G3. apply new_page_same in E1 as (V3 & R3 & _). simpl in V3, R3, G3.
  minv E. injection E1 as _ <-. minv E. injection E1 as _ <-. injection E as <- <-.
  cbn [vdev vram paging compose] in *. rewrite V1, R1 in *.
  set (d1 := cfg_write F_queue_desc a0 (cfg_write F_queue_select q (vdev s))) in *.
  assert (queue_desc (cfg d1) = a0 ∧ queue_size (cfg d1) = queue_size (cfg (cfg_write F_queue_select q (vdev s))))
    as [Hd Hq] by apply queue_desc_ok.
  rewrite Hd in E0. destruct a2. pose proof (init_descs_same _ _ _ _ E0) as V4. simpl in V4.
  rewrite V2, V4 in V3, R3. rewrite (queue_driver_ok a3 d1) in R3.
  eexists a0, a3, a6, _, s1, d1. split_and!; [done| |exact E0|by rewrite Hq| | |by rewrite V3|by rewrite R3, R2].
  - done.
  - by eexists.
  - eexists. split; [exact G2|]. by eexists.
Qed.

(** The descriptor table the loop writes: the [k]-th descriptor has the [k]-th page. *)
Lemma init_descs_table descs i n s s' :
  for_each (range i (i + Z.of_nat n)) (init_desc descs) s = Ok (tt, s') →
  same_outside (descs + 16 * i) (16 * Z.of_nat n) (vram s) (vram s') ∧
  ∃ pages, length pages = n ∧ gets_pages (paging s) pages (paging s') ∧
  ∀ k page, pages !! k = Some page → load_Desc (vram s') (descs + 16 * (i + Z.of_nat k)) =
    {| addr := page; desc_len := 4096; flags := VIRTQ_DESC_F_WRITE; next := 0xffff |}.
Proof.
  revert i s; induction n as [|n IH]; intros i s.
  - unfold range. rewrite Z.add_0_r, Z.sub_diag. intros [= <-]. split; [apply same_outside_refl|].
    exists []. split_and!; [done..|]. by intros k page.
  - assert (range i (i + Z.of_nat (Datatypes.S n)) = i :: range (i + 1) (i + 1 + Z.of_nat n)) as ->.
    { unfold range. rewrite (seqZ_cons i) by lia. f_equal. f_equal; lia. }
    cbn [for_each]. intros E. minv E. unfold init_desc in E0. minv E0. pose proof (new_page_gets _ _ _ E1) as Hg.
    apply new_page_same in E1 as (_ & R1 & _). injection E0 as _ <-.
    apply IH in E as (Ho & pages & Hl & Hgs & Hd). cbn [vram paging] in Ho, Hgs.
    set (d := {| addr := a0; desc_len := 4096; flags := VIRTQ_DESC_F_WRITE; next := 0xffff |}) in *.
    pose proof (store_bytes_outside (vram s1) (descs + 16 * i) (Desc_bytes d)) as O. rewrite len_Desc_bytes in O.
    rewrite R1 in O, Ho. split.
    + eapply same_outside_trans; [apply O|apply Ho|lia..].
    + exists (a0 :: pages). split; [simpl; congruence|]. split; [by exists (paging s1)|].
      intros [|k] page Hk; simplify_eq/=.
      * rewrite Z.add_0_r. rewrite (load_Desc_outside _ _ _ _ _ Ho) by (unfold disjoint_ranges; lia).
        destruct Hg as (_ & (_ & Hf & _) & _). by apply load_store_Desc.
      * rewrite <-(Hd k page Hk). f_equal. lia.
Qed.

Lemma init_queue_same q s free s' :
  init_queue q s = Ok (free, s') →
  same_status (vdev s) (vdev s') ∧ ∃ pages, cfg_log (vdev s') = cfg_log (vdev s) ++ queue_writes q pages.
Proof.
  intros (pd & pa & pu & s1 & s2 & d1 & -> & _ & _ & _ & _ & _ & Hv & _)%init_queue_inv. rewrite Hv. split.
  - split; by rewrite ?status_kept, ?num_queues_kept.
  - exists (pd, pa, pu). rewrite !cfg_log_ok, <-!app_assoc. done.
Qed.

Lemma init_queues_same qs s fs s' :
  init_queues qs s = Ok (fs, s') →
  same_status (vdev s) (vdev s') ∧ length fs = length qs ∧
  ∃ pages, length pages = length qs ∧
    cfg_log (vdev s') = cfg_log (vdev s) ++ mjoin (zip_with queue_writes qs pages).
Proof.
  revert s fs; induction qs as [|q qs IH]; intros s fs; cbn [init_queues].
  - intros [= <- <-]. split_and!; [done..|]. exists []. by rewrite app_nil_r.
  - intros E. minv E. minv E. injection E as <- <-.
    apply init_queue_same in E0 as ([S1 S2] & pg & L1). apply IH in E1 as ([S3 S4] & Hl & pages & Hp & L2).
    split; [split; congruence|]. split; [simpl; congruence|]. exists (pg :: pages).
    split; [simpl; congruence|]. rewrite L2, L1. by rewrite <-app_assoc.
Qed.

Lemma or_status_run bit s :
  or_status bit s = Ok (tt, Machine (ports s)
    (cfg_write F_device_status (Z.lor (device_status (cfg (vdev s))) bit) (vdev s)) (paging s) (vram s)).
Proof. done. Qed.

Lemma input_name_same s s' :
  input_name s = Ok (tt, s') → cfg_log (vdev s') = cfg_log (vdev s) ∧ cfg (vdev s') = cfg (vdev s).
Proof.
  unfold input_name. intros E. minv E. injection E0 as _ <-. minv E. injection E0 as _ <-. minv E.
  assert (vdev s0 = input_select 1 (vdev s)) as Hv.
  { destruct (_ <? _); [done|]. by injection E0 as _ <-. }
  injection E as <-. simpl. rewrite Hv. destruct (input_select_log 0 (input_select 1 (vdev s))) as [-> ->].
  apply input_select_log.
Qed.
End setup.

(** The values the handshake goes through, when the device accepts the features. *)
Lemma status_step {D} `{VirtioDevice D} `{!VirtioBoot D} v (d : D) :
  0 ≤ v → Z.land v 8 = 0 → device_status (cfg (cfg_write F_device_status v d)) = v.
Proof.
  intros Hv H8. destruct (status_ok v d) as [E|E]; [done|]. rewrite E. unfold VirtioStatusFeatureOk.
  apply Z.bits_inj'. intros i Hi. rewrite Z.ldiff_spec by done.
  pose proof (f_equal (λ x, Z.testbit x i) H8) as Hb. simpl in Hb. rewrite Z.land_spec, Z.bits_0 in Hb.
  by destruct (Z.testbit v i), (Z.testbit 8 i).
Qed.

(** C19: the handshake follows the specification. When the set-up of a device
    returns, the registers were written in the prescribed order (virtio 1.2,
    3.1.1): reset, ACKNOWLEDGE, DRIVER, the driver features, FEATURES_OK, then
    for each queue in turn its selection, three ring addresses and enable bit,
    and DRIVER_OK last; one descriptor list per queue comes back. *)
Theorem init_device_handshake {S D P F} `{PciPorts S} `{X86Addr} `{VirtioDevice D} `{!VirtioBoot D} `{Mapper P F}
    ty (s s' : machine S D P F) queues :
  init_device ty s = Ok (queues, s') →
  let n := num_queues (cfg (vdev s)) in
  length queues = Z.to_nat n ∧
  ∃ pages, length pages = Z.to_nat n ∧
    cfg_log (vdev s') = cfg_log (vdev s) ++
      [(F_device_status, 0); (F_device_status, 1); (F_device_status, 3);
       (F_driver_feature, match ty with Gpu => 3 | Input => 0 end); (F_device_status, 11)] ++
      mjoin (zip_with queue_writes (range 0 n) pages) ++ [(F_device_status, 15)].
Proof.
  intros E n. unfold init_device in E.
  apply M_bind_ok in E as (? & s1 & E1 & E). injection E1 as _ <-.
  rewrite (M_bind_run _ _ _ _ _ (or_status_run _ _)) in E. rewrite (M_bind_run _ _ _ _ _ (or_status_run _ _)) in E.
  apply M_bind_ok in E as (? & s2 & E2 & E). injection E2 as _ <-.
  rewrite (M_bind_run _ _ _ _ _ (or_status_run _ _)) in E. cbn [vdev ports paging vram] in E.
  rewrite status_kept in E by done.
  rewrite (status_step 0) in E by done. change (Z.lor 0 VirtioStatusAcknowledge) with 1 in E.
  rewrite (status_step 1) in E by done. change (Z.lor 1 VirtioStatusDriver) with 3 in E.
  rewrite (status_step 3) in E by done. change (Z.lor 3 VirtioStatusFeatureOk) with 11 in E.
  set (d := cfg_write F_driver_feature _ _) in E.
  apply M_bind_ok in E as (c & s3 & E3 & E). injection E3 as <- <-. cbn [compose vdev] in E.
  assert (device_status (cfg (cfg_write F_device_status 11 d)) = 11) as H11.
  { destruct (status_ok 11 d) as [E11|E11]; [done|]. by rewrite E11 in E. }
  rewrite H11 in E. change (Z.land 11 VirtioStatusFeatureOk =? 0) with false in E.
  apply M_bind_ok in E as (? & s3 & E3 & E). injection E3 as _ <-.
  apply M_bind_ok in E as (c & s3 & E3 & E). injection E3 as <- <-.
  apply M_bind_ok in E as (qs & s4 & E4 & E). apply init_queues_same in E4 as ([S1 S2] & Hl & pages & Hp & L).
  cbn [vdev compose] in *. rewrite num_queues_kept in Hl, Hp, L.
  assert (num_queues (cfg d) = n) as Hn by (unfold d; by rewrite !num_queues_kept). rewrite Hn in *.
  apply M_bind_ok in E as (u & s5 & E5 & E).
  assert (cfg_log (vdev s5) = cfg_log (vdev s4) ∧ cfg (vdev s5) = cfg (vdev s4)) as [L5 C5].
  { destruct ty; [destruct u; by apply input_name_same|]. by injection E5 as _ <-. }
  rewrite (M_bind_run _ _ _ _ _ (or_status_run _ _)) in E. injection E as <- <-. cbn [vdev].
  rewrite C5, S1, H11. split; [rewrite Hl; unfold range; rewrite length_seqZ; lia|]. exists pages.
  split; [rewrite Hp; unfold range; rewrite length_seqZ; lia|].
  rewrite cfg_log_ok, L5, L. unfold d. rewrite !cfg_log_ok, <-!app_assoc. done.
Qed.

(** C20: queue memory. When [init_queue] returns on a queue of at most 256
    entries, it has taken a page for each ring and one for each entry, pairwise
    distinct, each aligned, not mapped before, and mapped to a frame that the
    allocator handed out during the call, the frame at the page's own address as
    long as frames are below the canonical hole; nothing else was mapped. The three
    ring pages are those given to the device; the descriptor [i] is a writable one
    for the [i]-th of the other pages, whole; the available ring has interrupts
    off. Nothing else is written: the ring indices are whatever the frames held. *)
Theorem init_queue_memory {S D P F} `{PciPorts S} `{X86Addr} `{VirtioDevice D} `{!VirtioBoot D} `{Mapper P F}
    q (s s' : machine S D P F) free :
  init_queue q s = Ok (free, s') →
  let qs := queue_size (cfg (cfg_write F_queue_select q (vdev s))) in
  let p := (paging s).1 in let f := (paging s).2 in let p' := (paging s').1 in let f' := (paging s').2 in
  0 ≤ qs ≤ 256 →
  free = QueueFreeDescsImpl.new qs ∧
  ∃ pd buffers pa pu, cfg_log (vdev s') = cfg_log (vdev s) ++ queue_writes q (pd, pa, pu) ∧
    len buffers = qs ∧ NoDup ([pd; pa; pu] ++ buffers) ∧
    (∀ page, page ∈ [pd; pa; pu] ++ buffers → (4096 | page) ∧ translate p page = None ∧
       ∃ frame, translate p' page = Some frame ∧ handed_out f f' frame ∧ (0 ≤ frame < 2 ^ 47 → page = containing_address frame)) ∧
    (∀ page, page ∉ [pd; pa; pu] ++ buffers → translate p' page = translate p page) ∧
    (∀ i page, buffers !! i = Some page → load_Desc (vram s') (pd + 16 * Z.of_nat i) =
       {| addr := page; desc_len := 4096; flags := VIRTQ_DESC_F_WRITE; next := 0xffff |}) ∧
    load 2 (vram s') pa = 1 ∧ load 2 (vram s') (pa + 2) = load 2 (vram s) (pa + 2) ∧
    (∀ x, (x < pd ∨ pd + 16 * qs ≤ x) → (x < pa ∨ pa + 2 ≤ x) → load8 (vram s') x = load8 (vram s) x).
Proof.
  intros (pd & pa & pu & s1 & s2 & d1 & Hd1 & Hs1 & Hl & Hf & G1 & G3 & Hv & Hr)%init_queue_inv qs p f p' f' Hqs.
  assert (queue_size (cfg d1) = qs) as Hq by (subst d1; apply queue_desc_ok). rewrite Hq in Hl, Hf.
  split; [done|]. replace qs with (0 + Z.of_nat (Z.to_nat qs)) in Hl by lia.
  apply init_descs_table in Hl as (Ho & buffers & Hn & G2 & Ht).
  assert (gets_pages (paging s) ([pd] ++ buffers ++ [pa; pu]) (paging s')) as G.
  { apply gets_pages_app. exists (paging s1). split; [exact G1|]. apply gets_pages_app. by exists (paging s2). }
  assert ([pd] ++ buffers ++ [pa; pu] ≡ₚ [pd; pa; pu] ++ buffers) as Hperm by solve_Permutation.
  exists pd, buffers, pa, pu. pose proof (gets_pages_spec _ _ _ G) as (Hnd & Hall & Hk & _).
  rewrite Hperm in Hnd. assert (len buffers = qs) as Hlb by (unfold len; lia).
  assert (vram s1 = vram s) as Hr1 by (rewrite Hs1; done). rewrite Hr1, Z.mul_0_r, Z.add_0_r, Z2Nat.id in Ho by lia.
  pose proof (store_bytes_outside (vram s2) pa (le_bytes 2 1)) as O2. rewrite <-Hr, len_le_bytes in O2.
  assert (disjoint_ranges pd 4096 pa 4096) as Hd.
  { apply (pages_apart _ _ _ _ _ G); [set_solver|set_solver|]. intros ->. cbn [app] in Hnd. apply NoDup_cons in Hnd. set_solver. }
  split; [rewrite Hv, Hd1, !cfg_log_ok, <-!app_assoc; done|]. split; [done|]. split; [done|]. split.
  { intros page Hp. rewrite <-Hperm in Hp. rewrite Forall_forall in Hall. destruct (Hall page Hp) as (? & ? & ? & ?). done. }
  split; [intros page Hp; apply Hk; by rewrite Hperm|]. split; [|split_and!].
  - intros i page Hi. rewrite <-(Ht i page Hi). apply lookup_lt_Some in Hi. rewrite Z.add_0_l.
    apply (load_Desc_outside _ _ _ _ _ O2). unfold disjoint_ranges in *. lia.
  - rewrite Hr. apply load_store_le.
  - rewrite (same_outside_load _ _ _ _ _ _ O2) by (unfold disjoint_ranges; lia).
    apply (same_outside_load _ _ _ _ _ _ Ho). unfold disjoint_ranges in *. lia.
  - intros x Hx1 Hx2. rewrite O2, Ho by lia. done.
Qed.

(** ** A machine to set a device up on *)
Record LoggedDevice := { ld : VirtioMem; ld_log : list (CfgField * Z) }.

#[local] Existing Instance virtio_instance.
Program Definition logged_instance : VirtioDevice LoggedDevice := {|
  cfg d := vm_read (ld d);
  cfg_write f v d := {| ld := vm_write f v (ld d); ld_log := ld_log d ++ [(f, v)] |};
  notify_store a v d := {| ld := @notify_store _ virtio_instance a v (ld d); ld_log := ld_log d |};
  notified d := vm_notified (ld d);
  queue_regs d := vm_regs (ld d)
|}.
Next Obligation. intros d. exact (@cfg_selected _ virtio_instance (ld d)). Qed.
Next Obligation. intros q d. exact (@cfg_select_ok _ virtio_instance q (ld d)). Qed.
Next Obligation. done. Qed.

(** Reduces a statement about [vm_read] of [vm_write] to its fields. *)
Ltac vm_fields :=
  intros; simpl; unfold vm_read, vm_write, vm_regs;
  repeat match goal with
  | |- context [match default ?d ?x with _ => _ end] =>
      destruct (default d x) as [[[[? ?] ?] ?] ?] eqn:?; simpl
  end.

#[local] Existing Instance logged_instance.
Program Definition logged_boot : VirtioBoot LoggedDevice := {|
  input_select v d := d;
  input_size d := 4;
  cfg_log := ld_log
|}.
Next Obligation. done. Qed.
Next Obligation. done. Qed.
Next Obligation. left. vm_fields. done. Qed.
Next Obligation. intros f v d Hf. destruct f; try done; vm_fields; done. Qed.
Next Obligation. intros f v d. destruct f; vm_fields; done. Qed.
Next Obligation.
  intros v [[c q l] ld]. simpl. unfold vm_read, vm_write, vm_regs. simpl.
  destruct (default (0, 0, 0, 0, 0) (q !! cfg_queue_select c)) as [[[[? ?] ?] ?] ?] eqn:E. simpl.
  by rewrite lookup_insert_eq.
Qed.
Next Obligation.
  intros v [[c q l] ld]. simpl. unfold vm_read, vm_write, vm_regs. simpl.
  destruct (default (0, 0, 0, 0, 0) (q !! cfg_queue_select c)) as [[[[? ?] ?] ?] ?] eqn:E. simpl.
  by rewrite lookup_insert_eq.
Qed.

#[local] Existing Instance logged_boot.
#[local] Existing Instance count_frames.
#[local] Existing Instance table_mapper.

Definition example_machine : machine PortSpace LoggedDevice (gmap Z Z) Z :=
  Machine example_caps
    {| ld := {| vm_cfg := example_cfg; vm_queues := {[0 := (4, 0, 0, 0, 0)]}; vm_notified := [] |}; ld_log := [] |}
    (∅, 16) ∅.

Lemma init_device_handshake_witness :
  ∃ queues s', init_device Input example_machine = Ok (queues, s') ∧ length queues = 1%nat.
Proof.
  destruct (init_device Input example_machine) as [[queues s']|p] eqn:E; [|vm_compute in E; discriminate E].
  exists queues, s'. split; [reflexivity|].
  destruct (init_device_handshake Input example_machine s' queues E) as [Hl _]. exact Hl.
Defined.

Lemma init_queue_memory_witness :
  ∃ free s', init_queue 0 example_machine = Ok (free, s') ∧ free = QueueFreeDescsImpl.new 4.
Proof.
  destruct (init_queue 0 example_machine) as [[free s']|p] eqn:E; [|vm_compute in E; discriminate E].
  exists free, s'. split; [reflexivity|].
  destruct (init_queue_memory 0 example_machine s' free E) as [Hf _]; [by vm_compute|]. exact Hf.
Defined.
