(* ===== verification/VirtioInput.v ===== *)
(** The virtio input driver ([bootloader/kernel/src/drivers/virtio_input.rs]):
    the asynchronous [drive] function, as what it does up to its loop and what
    it does between two yields. *)
From S2P Require Import Prelude Bytes Interfaces Pci Virtio Globals.

Record VirtioInputEvent := { type_ : Z; code : Z; value : Z }.

Definition load_event (m : mem) (p : Z) : VirtioInputEvent :=
  {| type_ := load 2 m p; code := load 2 m (p + 2); value := load 4 m (p + 4) |}.

Definition with_mouse (i : Input) (x y : Z) : Input :=
  {| mouse_x := x; mouse_y := y; keys := keys i; history_last_index := history_last_index i;
     history_ring := history_ring i |}.

(** [(pos as i32 + d).max(0) as usize] *)
Definition moved (pos d : Z) : Z := Z.max (swrap 32 (swrap 32 pos + d)) 0.

(** The closure given to [INPUT.update]; what it logs is left out. *)
Definition apply_event (evt : VirtioInputEvent) (input : Input) : res Input :=
  if type_ evt =? 0 then mret input
  else if type_ evt =? 1 then Input.handle_incoming_state input (code evt) (negb (value evt =? 0))
  else if type_ evt =? 2 then
    let d := swrap 32 (value evt) in
    if code evt =? 0 then mret (with_mouse input (moved (mouse_x input) d) (mouse_y input))
    else if code evt =? 1 then mret (with_mouse input (mouse_x input) (moved (mouse_y input) d))
    else mret input
  else mret input.

Section drive.
Context {D : Type} `{VirtioDevice D}.

(** The first part: every free descriptor is offered to the device. *)
Definition drive_start (fuel : nat) : M (sys D) bool :=
  VirtioImpl.queue_select 0 ;;
  while_some fuel VirtioImpl.get_free_desc_id VirtioImpl.set_writable_available.

Definition handle_used (used : UsedElem) : M (sys D * Input) unit :=
  desc ← VirtioImpl.on_sys (VirtioImpl.read_desc (wrap 16 (used_id used)));
  evt ← gets (λ s, load_event (ram s.1) (addr desc));
  (λ s, i ← GLOBAL.update s.2 (apply_event evt); Ok (tt, (s.1, i))) ;;
  VirtioImpl.on_sys (VirtioImpl.set_writable_available (wrap 16 (used_id used))).

(** The body of the loop, up to [yield_once().await]. *)
Definition drive_iteration (fuel : nat) : M (sys D * Input) bool :=
  while_some fuel (VirtioImpl.on_sys VirtioImpl.next_used) handle_used.
End drive.

(** ** Events *)
Definition event_ok (evt : VirtioInputEvent) : Prop := type_ evt = 1 → 0 ≤ code evt < 1024.

Lemma moved_range pos d : 0 ≤ moved pos d < 2 ^ 31.
Proof. unfold moved, swrap. lia. Qed.

Lemma apply_event_ok evt i :
  Input.wf i → event_ok evt → ∃ i', apply_event evt i = Ok i' ∧ Input.wf i'.
Proof.
  intros Hwf He. unfold apply_event. destruct (Z.eqb_spec (type_ evt) 0); [by eexists|].
  destruct (Z.eqb_spec (type_ evt) 1).
  - destruct (input_handle_ok i (code evt) (negb (value evt =? 0))) as (i' & ks & Hi & _); [done|by apply He|].
    exists i'. split; [done|by eapply input_handle_wf].
  - destruct Hwf as (Hk & Hr & Hh & Hx & Hy).
    pose proof (moved_range (mouse_x i) (swrap 32 (value evt))). pose proof (moved_range (mouse_y i) (swrap 32 (value evt))).
    repeat case_match; (eexists; split; [done|]); unfold Input.wf, with_mouse, fits in *; simpl; split_and!; lia || done.
Qed.

Section drive_spec.
Context {D : Type} `{VirtioDevice D}.

(** The event in the buffer of descriptor [i]. *)
Definition event_of (qd : Z) (m : mem) (i : Z) : VirtioInputEvent := load_event m (addr (load_Desc m (qd + 16 * i))).

(** The queue's structures do not overlap each other, nor the event buffers. *)
Record input_layout (qs qd qa qu : Z) (m : mem) : Prop := {
  layout_da : disjoint_ranges qd (16 * qs) qa (4 + 2 * qs);
  layout_du : disjoint_ranges qd (16 * qs) qu (4 + 8 * qs);
  layout_au : disjoint_ranges qa (4 + 2 * qs) qu (4 + 8 * qs);
  layout_buffers i : 0 ≤ i < qs → let b := addr (load_Desc m (qd + 16 * i)) in
    disjoint_ranges b 8 qd (16 * qs) ∧ disjoint_ranges b 8 qa (4 + 2 * qs)
}.

Lemma load_event_ext m m' p : (∀ x, p ≤ x < p + 8 → load8 m' x = load8 m x) → load_event m' p = load_event m p.
Proof. intros He. unfold load_event. f_equal; apply load_ext; intros; apply He; lia. Qed.

(** What handling the elements [handled] has done, from memory [m0] and input [i0]. *)
Record handled_inv (qs qd qa qu : Z) (m0 : mem) (i0 : Input) (pos : Z) (ids : list Z) (c : VirtioPciCommonCfg)
    (handled : list UsedElem) (st : sys D * Input) : Prop := {
  inv_cfg : cfg (dev st.1) = c;
  inv_avail : avail_queue qs qa (ram st.1) pos (ids ++ (used_id <$> handled));
  inv_addr i : 0 ≤ i < qs → addr (load_Desc (ram st.1) (qd + 16 * i)) = addr (load_Desc m0 (qd + 16 * i));
  inv_outside x : (x < qd ∨ qd + 16 * qs ≤ x) → (x < qa ∨ qa + 4 + 2 * qs ≤ x) → load8 (ram st.1) x = load8 m0 x;
  inv_input : foldM (λ i e, apply_event (event_of qd m0 (used_id e)) i) i0 handled = Ok st.2;
  inv_wf : Input.wf st.2
}.

(** Handling one element keeps the invariant. *)
Lemma handle_used_step qs qd qa qu m0 i0 pos ids c handled e s i :
  input_layout qs qd qa qu m0 → 0 < qs → (qs | 2 ^ 16) → fits 16 qs →
  queue_size c = qs → queue_desc c = qd → queue_driver c = qa →
  len ids + len handled < qs → 0 ≤ used_id e < qs → event_ok (event_of qd m0 (used_id e)) →
  handled_inv qs qd qa qu m0 i0 pos ids c handled (s, i) →
  ∃ s' i', handle_used e (s, i) = Ok (tt, (s', i')) ∧
    handled_inv qs qd qa qu m0 i0 pos ids c (handled ++ [e]) (s', i') ∧ cfg (dev s') = cfg (dev s) ∧
    last_of s' = last_of s ∧ (∀ y, qu + 2 ≤ y < qu + 4 + 8 * qs → load8 (ram s') y = load8 (ram s) y).
Proof.
  intros [L1 L2 L3 L4] Hq Hdiv Hqf Hcs Hcd Hca Hroom He Hev [Ic Ia Iad Io Ii Iw]. cbn [fst snd] in *.
  assert (event_of qd (ram s) (used_id e) = event_of qd m0 (used_id e)) as Hevt.
  { destruct (L4 _ He) as [B1 B2]. unfold event_of. rewrite Iad by done. apply load_event_ext.
    intros x Hx. unfold disjoint_ranges in *. apply Io; lia. }
  destruct (apply_event_ok _ i Iw Hev) as (i' & Hi' & Hw').
  destruct (set_writable_available_spec s pos (ids ++ (used_id <$> handled)) (used_id e)) as (m & ms & R & P1 & P2 & P3);
    rewrite ?Ic, ?Hcs, ?Hcd, ?Hca; try done.
  { rewrite len_app. unfold len in *. rewrite length_fmap. lia. }
  { unfold fits in *. lia. }
  rewrite Ic, Hcs, Hca in P1. rewrite Ic, Hcs, Hcd in P2. rewrite Ic, Hcs, Hcd, Hca in P3.
  exists (Sys (drv s) (dev s) m (seen s ++ ms)), i'. split_and!; [| |done|done|].
  - unfold handle_used. rewrite (wrap_small 16 (used_id e)) by (unfold fits in *; lia).
    unfold mbind at 1, M_bind at 1, VirtioImpl.on_sys at 1, VirtioImpl.read_desc. simpl.
    unfold mbind at 1, M_bind at 1, gets. cbn [fst snd]. rewrite Ic, Hcd.
    change (load_event _ _) with (event_of qd (ram s) (used_id e)). rewrite Hevt. unfold mbind at 1, M_bind at 1. unfold GLOBAL.update, GLOBAL.read. cbn [snd fst]. rewrite Hi'. simpl.
    unfold VirtioImpl.on_sys. by rewrite R.
  - constructor; cbn [fst snd dev ram]; [done| | | | |done].
    + rewrite fmap_app, app_assoc. exact P1.
    + intros k Hk. by rewrite P2, Iad.
    + intros x H1 H2. rewrite P3, Io; done.
    + rewrite foldM_app, Ii. simpl. rewrite Hi'. done.
  - intros y Hy. cbn [ram]. unfold disjoint_ranges in *. apply P3; lia.
Qed.
End drive_spec.

(** No input event is lost, duplicated or reordered. Between two yields the
    driver takes every completed buffer, oldest first, applies its event to the
    input record, and offers the buffer to the device again; the loop ends by
    itself with the used ring empty, and as long as key codes are below 1024
    nothing panics. *)
Theorem drive_iteration_processes_all {D} `{VirtioDevice D} (s : sys D) (i : Input) last pos ids es :
  let c := cfg (dev s) in
  let qs := queue_size c in let qd := queue_desc c in let qa := queue_driver c in let qu := queue_device c in
  0 < qs → (qs | 2 ^ 16) → fits 16 qs → input_layout qs qd qa qu (ram s) →
  len ids + len es ≤ qs → fits 16 last → last_of s = Ok last → Input.wf i →
  avail_queue qs qa (ram s) pos ids → used_queue qs qu (ram s) last es →
  Forall (λ e, 0 ≤ used_id e < qs ∧ event_ok (event_of qd (ram s) (used_id e))) es →
  ∃ s' i', drive_iteration (Datatypes.S (length es)) (s, i) = Ok (true, (s', i')) ∧
    foldM (λ i e, apply_event (event_of qd (ram s) (used_id e)) i) i es = Ok i' ∧ Input.wf i' ∧
    avail_queue qs qa (ram s') pos (ids ++ (used_id <$> es)) ∧
    last_of s' = Ok (wrap 16 (last + len es)) ∧ used_queue qs qu (ram s') (wrap 16 (last + len es)) [].
Proof.
  intros c qs qd qa qu Hq Hdiv Hqf Hlay Hroom Hlast Hl Hwf Ha Hu Hes.
  pose proof (len_nonneg ids). pose proof (len_nonneg es).
  destruct (next_used_drain (λ h st, handled_inv qs qd qa qu (ram s) i pos ids c h st)
    handle_used qs qu es s i last []) as (s' & i' & R & [Ic Ia Iad Io Ii Iw] & Hc' & Hu' & Hl'); try done.
  - unfold fits in *. lia.
  - intros pre e post s1 i1 Hr HI Hqs Hqu. subst es. rewrite Forall_app, Forall_cons in Hes.
    destruct Hes as (_ & [He1 He2] & _). rewrite len_app, len_cons in Hroom. pose proof (len_nonneg post).
    apply (handle_used_step qs qd qa qu); [done..|simpl; lia|done|done|done].
  - intros h s1 i1 []. destruct (advance_same s1) as (A1 & A2 & _).
    constructor; cbn [fst snd] in *; rewrite ?A1, ?A2; done.
  - by constructor; cbn [fst snd]; rewrite ?app_nil_r.
  - exists s', i'. split_and!; done.
Qed.

(** ** The start of the driver *)
Section start.
Context {D : Type} `{VirtioDevice D}.

Lemma get_free_desc_id_run (s : sys D) l :
  Virtio.queue_select (drv s) = 0 → queues_free (drv s) !! 0%nat = Some {| free := l |} →
  VirtioImpl.get_free_desc_id s =
    match pop l with
    | Some (d, l') => Ok (Some d, Sys (VirtioImpl.with_queues_free (drv s)
                        (<[0%nat := {| free := l' |}]> (queues_free (drv s)))) (dev s) (ram s) (seen s))
    | None => Ok (None, Sys (VirtioImpl.with_queues_free (drv s)
                        (<[0%nat := {| free := l |}]> (queues_free (drv s)))) (dev s) (ram s) (seen s))
    end.
Proof.
  intros Hq Hl. unfold VirtioImpl.get_free_desc_id, mbind, M_bind, gets, lift. simpl. rewrite Hq.
  assert (index (queues_free (drv s)) 0 = Ok {| free := l |}) as -> by by apply index_ok.
  unfold QueueFreeDescsImpl.get_free. simpl.
  assert (∀ q, update (queues_free (drv s)) 0 q = Ok (<[0%nat := q]> (queues_free (drv s)))) as Hu.
  { intros q. apply update_in. apply lookup_lt_Some in Hl. unfold len. lia. }
  destruct (pop l) as [[d l']|]; by rewrite Hu.
Qed.

Lemma offer_loop (s : sys D) l pos ids :
  let c := cfg (dev s) in
  let qs := queue_size c in let qd := queue_desc c in let qa := queue_driver c in
  0 < qs → (qs | 2 ^ 16) → fits 16 qs → disjoint_ranges qd (16 * qs) qa (4 + 2 * qs) →
  len ids + len l ≤ qs → Forall (λ d, 0 ≤ d < qs) l →
  Virtio.queue_select (drv s) = 0 → queues_free (drv s) !! 0%nat = Some {| free := l |} →
  avail_queue qs qa (ram s) pos ids →
  ∃ s', while_some (Datatypes.S (length l)) VirtioImpl.get_free_desc_id VirtioImpl.set_writable_available s = Ok (true, s') ∧
    dev s' = dev s ∧ avail_queue qs qa (ram s') pos (ids ++ reverse l) ∧
    queues_free (drv s') !! 0%nat = Some {| free := [] |} ∧
    ∀ i, 0 ≤ i < qs → addr (load_Desc (ram s') (qd + 16 * i)) = addr (load_Desc (ram s) (qd + 16 * i)).
Proof.
  intros c qs qd qa Hq Hdiv Hqf Hda. subst c.
  revert s ids qs qd qa Hq Hdiv Hqf Hda; induction l as [|d l IH] using rev_ind; intros s ids qs qd qa Hq Hdiv Hqf Hda Hroom Hl Hsel Hf Ha.
  - cbn [while_some length]. pose proof (get_free_desc_id_run s [] Hsel Hf) as Hg. rewrite pop_nil in Hg.
    rewrite (M_bind_run _ _ _ _ _ Hg). eexists. split; [done|]. simpl. rewrite app_nil_r.
    split_and!; [done|done| |done]. apply list_lookup_insert_eq. by apply lookup_lt_Some in Hf.
  - rewrite length_app, Nat.add_comm. cbn [while_some length Nat.add].
    pose proof (get_free_desc_id_run s _ Hsel Hf) as Hg. rewrite pop_snoc in Hg. cbv iota in Hg.
    rewrite (M_bind_run _ _ _ _ _ Hg). clear Hg.
    set (s1 := Sys _ _ _ _). apply Forall_app in Hl as [Hl [Hd _]%Forall_cons].
    autorewrite with fomos in Hroom. pose proof (len_nonneg ids). pose proof (len_nonneg l).
    destruct (set_writable_available_spec s1 pos ids d) as (m & ms & R & P1 & P2 & _);
      cbn [s1 dev ram]; fold qs qa qd; try done.
    { unfold qs in *. lia. }
    { unfold fits, qs in *. lia. }
    rewrite (M_bind_run _ _ _ _ _ R). clear R. set (s2 := Sys _ _ _ _).
    destruct (IH s2 (ids ++ [d])) as (s' & R & V & A & Q & B); cbn [s2 s1 dev ram drv]; fold qs qa qd; try done.
    { autorewrite with fomos. lia. }
    { apply list_lookup_insert_eq. by apply lookup_lt_Some in Hf. }
    exists s'. split; [exact R|]. split; [done|]. rewrite reverse_snoc.
    split; [by rewrite <-app_assoc in A|]. split; [done|].
    intros i Hi. etrans; [apply (B i Hi)|apply (P2 i Hi)].
Qed.
End start.

(** The driver starts with everything offered. [drive] selects queue 0 and
    offers each of its free descriptors once, last freed first, as a writable
    page; the loop ends by itself and leaves none free. *)
Theorem drive_start_offers_all {D} `{VirtioDevice D} (s : sys D) l pos ids :
  let c := cfg (cfg_write F_queue_select 0 (dev s)) in
  let qs := queue_size c in let qd := queue_desc c in let qa := queue_driver c in
  0 < qs → (qs | 2 ^ 16) → fits 16 qs → disjoint_ranges qd (16 * qs) qa (4 + 2 * qs) →
  len ids + len l ≤ qs → Forall (λ d, 0 ≤ d < qs) l →
  queues_free (drv s) !! 0%nat = Some {| free := l |} → avail_queue qs qa (ram s) pos ids →
  ∃ s', drive_start (Datatypes.S (length l)) s = Ok (true, s') ∧
    cfg (dev s') = c ∧ cfg_queue_select (cfg (dev s')) = 0 ∧
    avail_queue qs qa (ram s') pos (ids ++ reverse l) ∧ queues_free (drv s') !! 0%nat = Some {| free := [] |}.
Proof.
  intros c qs qd qa Hq Hdiv Hqf Hda Hroom Hl Hf Ha.
  assert (VirtioImpl.queue_select 0 s = Ok (tt, Sys (VirtioImpl.with_queue_select (drv s) 0)
    (cfg_write F_queue_select 0 (dev s)) (ram s) (seen s))) as Hs by done.
  unfold drive_start. rewrite (M_bind_run _ _ _ _ _ Hs).
  destruct (offer_loop (Sys (VirtioImpl.with_queue_select (drv s) 0) (cfg_write F_queue_select 0 (dev s)) (ram s) (seen s))
    l pos ids) as (s' & R & V & A & Q & _); try done.
  exists s'. rewrite V. cbn [dev]. split_and!; [exact R|done|apply cfg_select_ok|done|done].
Qed.

(** ** A mouse movement on a queue of four buffers *)
#[local] Existing Instance virtio_instance.

Definition example_event_ram : mem :=
  store_bytes (ram example_sys) 0x6000 (le_bytes 2 2 ++ le_bytes 2 0 ++ le_bytes 4 7).
Definition example_input_sys : sys VirtioMem := Sys example_virtio (dev example_sys) example_event_ram [].

Lemma drive_iteration_processes_all_witness :
  ∃ s' i', drive_iteration 2 (example_input_sys, Input.new) = Ok (true, (s', i')) ∧ mouse_x i' = 7.
Proof.
  destruct (drive_iteration_processes_all example_input_sys Input.new 65535 0 [] [{| used_id := 2; used_len := 24 |}])
    as (s' & i' & R & Hi & _).
  - by vm_compute.
  - exact example_divide.
  - by split; vm_compute.
  - constructor; [left; by vm_compute|left; by vm_compute|left; by vm_compute|].
    intros i Hi. assert (i = 0 ∨ i = 1 ∨ i = 2 ∨ i = 3) as [->|[->|[->| ->]]]
      by (change (queue_size _) with 4 in Hi; lia); (split; right; left; by vm_compute).
  - by vm_compute.
  - by split; vm_compute.
  - by vm_compute.
  - apply input_new_wf.
  - split; [by vm_compute|done].
  - split; [by vm_compute|]. intros [|[|k]] e He; simplify_eq/=. by vm_compute.
  - constructor; [|constructor]. split; [by split; vm_compute|]. intros E. by vm_compute in E.
  - exists s', i'. split; [exact R|].
    assert (foldM (λ i e, apply_event (event_of 0x1000 example_event_ram (used_id e)) i) Input.new
      [{| used_id := 2; used_len := 24 |}] = Ok (with_mouse Input.new 7 0)) as E by by vm_compute.
    change (foldM (λ i e, apply_event (event_of 0x1000 example_event_ram (used_id e)) i) Input.new
      [{| used_id := 2; used_len := 24 |}] = Ok i') in Hi.
    rewrite E in Hi. injection Hi as <-. reflexivity.
Defined.

Lemma drive_start_offers_all_witness :
  ∃ s', drive_start 5 example_sys = Ok (true, s') ∧ avail_queue 4 0x2000 (ram s') 0 [3; 2; 1; 0].
Proof.
  destruct (drive_start_offers_all example_sys [0; 1; 2; 3] 0 []) as (s' & R & _ & _ & A & _).
  - by vm_compute.
  - exact example_divide.
  - by split; vm_compute.
  - left. by vm_compute.
  - by vm_compute.
  - by repeat constructor.
  - reflexivity.
  - split; [by vm_compute|done].
  - exists s'. split; [exact R|exact A].
Defined.
