(* ===== verification/Executor.v ===== *)
(** The cooperative executor ([bootloader/kernel/src/task/executor.rs] and
    [task/mod.rs]): tasks, the bounded queues, wakers and the run loop. What a
    future does when it is polled is a parameter: its next state, whether it is
    ready, and the calls it makes into the executor on the way. *)
From S2P Require Import Prelude.

(** ** [ArrayQueue]: a bounded FIFO (crate [crossbeam]) *)
Definition QUEUE_CAPACITY : nat := 100.

Module ArrayQueue.
(** [push]: [Err] with the element when the queue is full. *)
Definition push {A} (q : list A) (a : A) : option (list A) :=
  if (length q <? QUEUE_CAPACITY)%nat then Some (q ++ [a]) else None.

Definition pop {A} (q : list A) : option (A * list A) :=
  match q with
  | [] => None
  | a :: q => Some (a, q)
  end.
End ArrayQueue.

(** What polling a future calls: [Spawner::run], [yield_once] on its first poll,
    and [wake] on the waker of a task. *)
Inductive Effect (F : Type) :=
| ESpawn (f : F)
| EYield
| EWake (task : Z).
Arguments ESpawn {F} _.
Arguments EYield {F}.
Arguments EWake {F} _.

Record Task (F : Type) := { id : Z; future : F }.
Arguments id {F} _.
Arguments future {F} _.

(** [Executor], the static [YIELDERS] and [TaskId::new]'s counter. *)
Record Executor (F : Type) := Exec {
  tasks : gmap Z F;
  task_queue : list Z;
  spawn_queue : list (Task F);
  waker_cache : gset Z;
  yielders : list Z;
  next_id : Z
}.
Arguments Exec {F} _ _ _ _ _ _.
Arguments tasks {F} _.
Arguments task_queue {F} _.
Arguments spawn_queue {F} _.
Arguments waker_cache {F} _.
Arguments yielders {F} _.
Arguments next_id {F} _.

Module ExecutorImpl.
Section run.
Context {F : Type} (poll : F → Z → F * bool * list (Effect F)).
Implicit Types (s : Executor F).

Definition new (next_id : Z) : Executor F := Exec ∅ [] [] ∅ [] next_id.

(** [Task::new] and [Spawner::run]: the result of the push is dropped. *)
Definition spawner_run (f : F) : M (Executor F) unit := modify (λ s,
  let task := {| id := next_id s; future := f |} in
  Exec (tasks s) (task_queue s)
    (match ArrayQueue.push (spawn_queue s) task with Some q => q | None => spawn_queue s end)
    (waker_cache s) (yielders s) (next_id s +u[64] 1)).

(** [TaskWaker::wake_task]. *)
Definition wake_task (task : Z) : M (Executor F) unit := λ s,
  match ArrayQueue.push (task_queue s) task with
  | Some q => Ok (tt, Exec (tasks s) q (spawn_queue s) (waker_cache s) (yielders s) (next_id s))
  | None => Panic PUnwrap
  end.

(** [YieldOnce::poll], first call: a fresh waker holding the task's is pushed,
    and the result of the push is dropped. *)
Definition yield_once (task : Z) : M (Executor F) unit := modify (λ s,
  Exec (tasks s) (task_queue s) (spawn_queue s) (waker_cache s)
    (match ArrayQueue.push (yielders s) task with Some q => q | None => yielders s end) (next_id s)).

Definition effect (task : Z) (e : Effect F) : M (Executor F) unit :=
  match e with
  | ESpawn f => spawner_run f
  | EYield => yield_once task
  | EWake t => wake_task t
  end.

(** [Executor::spawn]. *)
Definition spawn (task : Task F) : M (Executor F) unit := λ s,
  match tasks s !! id task with
  | Some _ => Panic (PExplicit "task with same ID already in tasks")
  | None =>
      match ArrayQueue.push (task_queue s) (id task) with
      | None => Panic PUnwrap
      | Some q => Ok (tt, Exec (<[id task := future task]> (tasks s)) q (spawn_queue s) (waker_cache s) (yielders s) (next_id s))
      end
  end.

Definition pop_task : M (Executor F) (option Z) := λ s,
  match ArrayQueue.pop (task_queue s) with
  | Some (t, q) => Ok (Some t, Exec (tasks s) q (spawn_queue s) (waker_cache s) (yielders s) (next_id s))
  | None => Ok (None, s)
  end.
Definition pop_spawn : M (Executor F) (option (Task F)) := λ s,
  match ArrayQueue.pop (spawn_queue s) with
  | Some (t, q) => Ok (Some t, Exec (tasks s) (task_queue s) q (waker_cache s) (yielders s) (next_id s))
  | None => Ok (None, s)
  end.
Definition pop_yielder : M (Executor F) (option Z) := λ s,
  match ArrayQueue.pop (yielders s) with
  | Some (t, q) => Ok (Some t, Exec (tasks s) (task_queue s) (spawn_queue s) (waker_cache s) q (next_id s))
  | None => Ok (None, s)
  end.

Definition with_tasks (t : gmap Z F) (w : gset Z) : M (Executor F) unit := modify (λ s,
  Exec t (task_queue s) (spawn_queue s) w (yielders s) (next_id s)).

(** The body of the loop of [run_ready_tasks]. *)
Definition poll_task (task_id : Z) : M (Executor F) unit :=
  ts ← gets tasks;
  match ts !! task_id with
  | None => mret tt
  | Some f =>
      ws ← gets waker_cache;
      let '(f', ready, effs) := poll f task_id in
      for_each effs (effect task_id) ;;
      if ready : bool then with_tasks (delete task_id ts) (ws ∖ {[task_id]})
      else with_tasks (<[task_id := f']> ts) (ws ∪ {[task_id]})
  end.

Definition run_ready_tasks (fuel : nat) : M (Executor F) bool := while_some fuel pop_task poll_task.

(** One turn of the loop of [run]; the boolean is whether it went to [hlt],
    which waits for an interrupt. *)
Definition run_once (fuel : nat) : M (Executor F) (option bool) :=
  a ← while_some fuel pop_spawn spawn;
  b ← run_ready_tasks fuel;
  s ← get;
  let halts := bool_decide (task_queue s = []) && bool_decide (spawn_queue s = []) in
  c ← while_some fuel pop_yielder wake_task;
  mret (if a && b && c then Some halts else None).
End run.
End ExecutorImpl.

(** ** Task identity *)
Section identity.
Context {F : Type} (poll : F → Z → F * bool * list (Effect F)).
Implicit Types (s : Executor F).

Fixpoint spawns (effs : list (Effect F)) : Z :=
  match effs with
  | [] => 0
  | ESpawn _ :: effs => 1 + spawns effs
  | _ :: effs => spawns effs
  end.

(** Executors reachable from boot, with the number of tasks ever created: a call
    of the spawner, a waker called by a task or an interrupt handler, a yield,
    and the moves of the run loop, in any order. *)
Inductive reach : Z → Executor F → Prop :=
| reach_new : reach 0 (ExecutorImpl.new 0)
| reach_spawner n s f s' : reach n s → ExecutorImpl.spawner_run f s = Ok (tt, s') → reach (n + 1) s'
| reach_wake n s t s' : reach n s → ExecutorImpl.wake_task t s = Ok (tt, s') → reach n s'
| reach_yield n s t s' : reach n s → ExecutorImpl.yield_once t s = Ok (tt, s') → reach n s'
| reach_wake_yielder n s t s1 s' : reach n s →
    ExecutorImpl.pop_yielder s = Ok (Some t, s1) → ExecutorImpl.wake_task t s1 = Ok (tt, s') → reach n s'
| reach_spawn n s task s1 s' : reach n s →
    ExecutorImpl.pop_spawn s = Ok (Some task, s1) → ExecutorImpl.spawn task s1 = Ok (tt, s') → reach n s'
| reach_poll n s t s1 s' f : reach n s →
    ExecutorImpl.pop_task s = Ok (Some t, s1) → tasks s !! t = Some f →
    ExecutorImpl.poll_task poll t s1 = Ok (tt, s') → reach (n + spawns (poll f t).2) s'.

Record ids_ok (n : Z) s : Prop := {
  ids_next : next_id s = n;
  ids_tasks i : is_Some (tasks s !! i) → 0 ≤ i < n;
  ids_spawning : NoDup (id <$> spawn_queue s);
  ids_fresh t : t ∈ spawn_queue s → 0 ≤ id t < n ∧ tasks s !! id t = None;
  ids_caps : (length (task_queue s) ≤ QUEUE_CAPACITY)%nat ∧ (length (spawn_queue s) ≤ QUEUE_CAPACITY)%nat ∧
             (length (yielders s) ≤ QUEUE_CAPACITY)%nat
}.

Lemma push_some {A} (q q' : list A) a :
  ArrayQueue.push q a = Some q' ↔ q' = q ++ [a] ∧ (length q < QUEUE_CAPACITY)%nat.
Proof.
  unfold ArrayQueue.push. destruct (Nat.ltb_spec (length q) QUEUE_CAPACITY); naive_solver (try lia).
Qed.

Lemma push_length {A} (q : list A) a :
  (length q ≤ QUEUE_CAPACITY)%nat →
  (length (match ArrayQueue.push q a with Some q' => q' | None => q end) ≤ QUEUE_CAPACITY)%nat.
Proof.
  intros Hq. destruct (ArrayQueue.push q a) eqn:E; [|done]. apply push_some in E as [-> E].
  rewrite length_app. simpl. lia.
Qed.

Lemma spawns_nonneg effs : 0 ≤ spawns effs.
Proof. induction effs as [|[] effs IH]; simpl; lia. Qed.

Lemma spawner_run_ids n s f s' :
  0 ≤ n → n + 1 < 2 ^ 64 → ids_ok n s → ExecutorImpl.spawner_run f s = Ok (tt, s') → ids_ok (n + 1) s'.
Proof.
  intros Hn Hb [N T S Fr (C1 & C2 & C3)] [= <-]. constructor; cbn [tasks task_queue spawn_queue yielders next_id].
  - rewrite N. apply wrap_small. unfold fits. lia.
  - intros i Hi. apply T in Hi. lia.
  - destruct (ArrayQueue.push _ _) as [q|] eqn:E; [|done]. apply push_some in E as [-> _].
    rewrite fmap_app. apply NoDup_app. split_and!; [done| |apply NoDup_singleton].
    intros x (t & -> & Ht)%list_elem_of_fmap. apply Fr in Ht as [Ht _]. simpl. rewrite N. intros E'%list_elem_of_singleton. lia.
  - intros t Ht. assert (t ∈ spawn_queue s ∨ id t = n) as [Hs| ->].
    { destruct (ArrayQueue.push _ _) as [q|] eqn:E; [|by left]. apply push_some in E as [-> _].
      apply elem_of_app in Ht as [Ht| ->%list_elem_of_singleton]; [by left|by right]. }
    + apply Fr in Hs as [Hs ?]. split; [lia|done].
    + split; [lia|]. destruct (tasks s !! n) eqn:E; [|done]. assert (0 ≤ n < n) by (apply T; by eexists). lia.
  - split_and!; [done|by apply push_length|done].
Qed.

Lemma wake_task_ids n s t s' : ids_ok n s → ExecutorImpl.wake_task t s = Ok (tt, s') → ids_ok n s'.
Proof.
  intros [N T S Fr (C1 & C2 & C3)]. unfold ExecutorImpl.wake_task.
  destruct (ArrayQueue.push (task_queue s) t) as [q|] eqn:E; [|done]. intros [= <-].
  apply push_some in E as [-> E]. constructor; cbn; try done. split_and!; [|done..].
  rewrite length_app. simpl. lia.
Qed.

Lemma yield_once_ids n s t s' : ids_ok n s → ExecutorImpl.yield_once t s = Ok (tt, s') → ids_ok n s'.
Proof.
  intros [N T S Fr (C1 & C2 & C3)] [= <-]. constructor; cbn; try done. split_and!; [done..|by apply push_length].
Qed.

Lemma effects_ids n s t effs s' :
  0 ≤ n → n + spawns effs < 2 ^ 64 → ids_ok n s →
  for_each effs (ExecutorImpl.effect t) s = Ok (tt, s') → ids_ok (n + spawns effs) s' ∧ tasks s' = tasks s.
Proof.
  revert n s; induction effs as [|e effs IH]; intros n s Hn Hb Hi; cbn [for_each].
  - intros [= <-]. split; [|done]. by rewrite Z.add_0_r.
  - intros ([] & s1 & E & E')%M_bind_ok. pose proof (spawns_nonneg effs).
    assert (tasks s1 = tasks s) as Ht.
    { destruct e; cbn [ExecutorImpl.effect] in E; [by injection E as <-|by injection E as <-|].
      unfold ExecutorImpl.wake_task in E. destruct (ArrayQueue.push _ _); [|done]. by injection E as <-. }
    rewrite <-Ht. destruct e as [f| |w]; cbn [ExecutorImpl.effect spawns] in *.
    + rewrite Z.add_assoc. apply IH; [lia..|by apply (spawner_run_ids n s f); [lia..| |]|done].
    + apply IH; [done..|by eapply yield_once_ids|done].
    + apply IH; [done..|by eapply wake_task_ids|done].
Qed.

Lemma poll_task_ids n s t s1 s' f :
  0 ≤ n → n + spawns (poll f t).2 < 2 ^ 64 → ids_ok n s → ExecutorImpl.pop_task s = Ok (Some t, s1) →
  tasks s !! t = Some f → ExecutorImpl.poll_task poll t s1 = Ok (tt, s') → ids_ok (n + spawns (poll f t).2) s'.
Proof.
  intros Hn Hb Hi Hp Hf. assert (ids_ok n s1 ∧ tasks s1 = tasks s) as [Hi1 Ht].
  { unfold ExecutorImpl.pop_task in Hp. destruct (task_queue s) as [|x q] eqn:Eq; [done|]. injection Hp as -> <-.
    destruct Hi as [N T S Fr (C1 & C2 & C3)]. split; [|done]. constructor; cbn; try done.
    rewrite Eq in C1. simpl in C1. split_and!; lia || done. }
  unfold ExecutorImpl.poll_task. intros (ts & s2 & [= <- <-] & E)%M_bind_ok. rewrite Ht, Hf in E.
  apply M_bind_ok in E as (ws & s2 & [= <- <-] & E).
  destruct (poll f t) as [[f' ready] effs]. cbn [snd] in *.
  apply M_bind_ok in E as ([] & s3 & E3 & E). apply (effects_ids n) in E3 as [Hi3 Ht3]; [|done..].
  destruct Hi3 as [N T S Fr (C1 & C2 & C3)]. rewrite Ht3, Ht in T, Fr.
  destruct ready; injection E as <-; constructor; cbn; try done.
  - intros i [x Hx]. apply lookup_delete_Some in Hx as [_ Hx]. apply T. by eexists.
  - intros t' Ht'. destruct (Fr t' Ht') as [? Hn']. split; [done|]. by apply lookup_delete_None; right.
  - intros i [x Hx]. apply lookup_insert_Some in Hx as [[-> _]|[_ Hx]]; apply T; by eexists.
  - intros t' Ht'. destruct (Fr t' Ht') as [? Hn']. split; [done|]. apply lookup_insert_None. split; [done|].
    intros ->. congruence.
Qed.

Lemma reach_ids n s : reach n s → n < 2 ^ 64 → 0 ≤ n ∧ ids_ok n s.
Proof.
  induction 1 as [|n s f s' _ IH E|n s t s' _ IH E|n s t s' _ IH E|n s t s1 s' _ IH Ep E
    |n s task s1 s' _ IH Ep E|n s t s1 s' f _ IH Ep Hf E]; intros Hb.
  - split; [done|]. constructor; cbn; [done|by intros i []|constructor|by intros t ?%elem_of_nil|unfold QUEUE_CAPACITY; lia].
  - destruct IH as [Hn Hi]; [lia|]. split; [lia|]. by eapply spawner_run_ids.
  - destruct IH as [Hn Hi]; [lia|]. split; [lia|]. by eapply wake_task_ids.
  - destruct IH as [Hn Hi]; [lia|]. split; [lia|]. by eapply yield_once_ids.
  - destruct IH as [Hn Hi]; [lia|]. split; [lia|]. eapply wake_task_ids; [|done].
    unfold ExecutorImpl.pop_yielder in Ep. destruct (yielders s) as [|x q] eqn:Eq; [done|]. injection Ep as -> <-.
    destruct Hi as [N T S Fr (C1 & C2 & C3)]. constructor; cbn; try done.
    rewrite Eq in C3. simpl in C3. split_and!; lia || done.
  - destruct IH as [Hn Hi]; [lia|]. split; [lia|].
    unfold ExecutorImpl.pop_spawn in Ep. destruct (spawn_queue s) as [|x q] eqn:Eq; [done|]. injection Ep as -> <-.
    unfold ExecutorImpl.spawn in E. cbn [tasks task_queue] in E. destruct (tasks s !! id task) eqn:Et; [done|].
    destruct (ArrayQueue.push _ _) as [q'|] eqn:Eq'; [|done]. injection E as <-. apply push_some in Eq' as [-> Hl].
    destruct Hi as [N T S Fr (C1 & C2 & C3)]. rewrite Eq in S, Fr, C2.
    destruct (Fr task) as [Ht1 Ht2]; [left|]. rewrite fmap_cons in S. apply NoDup_cons in S as [S1 S2].
    constructor; cbn; try done.
    + intros i [f Hi]. apply lookup_insert_Some in Hi as [[<- _]|[_ Hi]]; [done|]. apply T. by eexists.
    + intros t Ht. destruct (Fr t) as [? ?]; [by right|]. split; [done|]. apply lookup_insert_None. split; [done|].
      intros Ei. apply S1. rewrite Ei. apply list_elem_of_fmap. by exists t.
    + rewrite length_app. simpl in *. split_and!; lia || done.
  - pose proof (spawns_nonneg (poll f t).2). destruct IH as [Hn Hi]; [lia|]. split; [lia|].
    by eapply poll_task_ids.
Qed.
End identity.

(** Tasks are told apart. Whatever the tasks and interrupt handlers do,
    while fewer than 2^64 tasks have been created every task has an id of its
    own, below the counter, the queues respect their capacity, and the panic
    for a duplicate id in [Executor::spawn] cannot happen: the only one left
    there is a full task queue. *)
Theorem task_ids_unique {F} (poll : F → Z → F * bool * list (Effect F)) n (s : Executor F) :
  reach poll n s → n < 2 ^ 64 →
  ids_ok n s ∧
  ∀ task s1, ExecutorImpl.pop_spawn s = Ok (Some task, s1) →
    (∃ s2, ExecutorImpl.spawn task s1 = Ok (tt, s2)) ∨
    ExecutorImpl.spawn task s1 = Panic PUnwrap ∧ length (task_queue s) = QUEUE_CAPACITY.
Proof.
  intros Hr Hb. destruct (reach_ids poll n s Hr Hb) as [_ Hi]. split; [done|]. intros task s1 Ep.
  unfold ExecutorImpl.pop_spawn in Ep. destruct (spawn_queue s) as [|x q] eqn:Eq; [done|]. injection Ep as -> <-.
  destruct Hi as [N T S Fr (C1 & C2 & C3)]. rewrite Eq in Fr. destruct (Fr task) as [_ Ht]; [left|].
  unfold ExecutorImpl.spawn. cbn [tasks task_queue]. rewrite Ht. unfold ArrayQueue.push.
  destruct (Nat.ltb_spec (length (task_queue s)) QUEUE_CAPACITY); [left; by eexists|right]. split; [done|lia].
Qed.

(** ** Round robin *)
Section round_robin.
Context {F : Type} (poll : F → Z → F * bool * list (Effect F)) (Y : F → Prop).
(** Futures that, each time they are polled, finish or [yield_once().await] and
    do nothing else to the executor: the drivers and the application loop. *)
Hypothesis Hpoll : ∀ f t, Y f →
  (∃ f', poll f t = (f', true, [])) ∨ (∃ f', poll f t = (f', false, [EYield]) ∧ Y f').
Implicit Types (s : Executor F).

(** The future after one poll, unless it finished. *)
Definition polled (t : Z) (f : F) : option F := let '(f', ready, _) := poll f t in if ready then None else Some f'.

Definition after_poll (ts : gmap Z F) (t : Z) (f : F) : gmap Z F :=
  match polled t f with Some f' => <[t := f']> ts | None => delete t ts end.

Lemma poll_task_run t f s :
  tasks s !! t = Some f → Y f → (length (yielders s) < QUEUE_CAPACITY)%nat →
  ∃ w, ExecutorImpl.poll_task poll t s = Ok (tt,
    Exec (after_poll (tasks s) t f) (task_queue s) (spawn_queue s) w
      (yielders s ++ match polled t f with Some _ => [t] | None => [] end) (next_id s)).
Proof.
  intros Hf Hy Hc. unfold ExecutorImpl.poll_task, mbind, M_bind, gets. rewrite Hf. unfold after_poll, polled.
  destruct (Hpoll f t Hy) as [[f' ->]|[f' [-> Hy']]]; simpl.
  - eexists. rewrite app_nil_r. done.
  - unfold ArrayQueue.push. destruct (Nat.ltb_spec (length (yielders s)) QUEUE_CAPACITY); [|lia].
    eexists. done.
Qed.

Lemma polled_Y t f f' : Y f → polled t f = Some f' → Y f'.
Proof.
  intros Hy. unfold polled. destruct (Hpoll f t Hy) as [[f1 ->]|[f1 [-> Hy']]]; [done|]. by intros [= <-].
Qed.

(** The tasks of [q] left after one poll each, in order. *)
Definition survivors (ts : gmap Z F) (q : list Z) : list Z :=
  filter (λ t, is_Some (ts !! t ≫= polled t)) q.

Lemma after_poll_other ts t f t' : t ≠ t' → after_poll ts t f !! t' = ts !! t'.
Proof.
  intros Hne. unfold after_poll. destruct (polled t f); [by rewrite lookup_insert_ne|by rewrite lookup_delete_ne].
Qed.

Lemma after_poll_self ts t f : after_poll ts t f !! t = polled t f.
Proof. unfold after_poll. destruct (polled t f); [by rewrite lookup_insert_eq|by rewrite lookup_delete_eq]. Qed.

Lemma survivors_ext ts ts' q : (∀ t, t ∈ q → ts' !! t = ts !! t) → survivors ts' q = survivors ts q.
Proof.
  intros He. unfold survivors. induction q as [|t q IH]; [done|].
  rewrite !filter_cons, He by left. rewrite IH by (intros; apply He; by right). done.
Qed.

Lemma run_ready_round q s :
  NoDup q → (length (yielders s) + length q ≤ QUEUE_CAPACITY)%nat → task_queue s = q →
  (∀ t, t ∈ q → ∃ f, tasks s !! t = Some f ∧ Y f) →
  ∃ ts w, ExecutorImpl.run_ready_tasks poll (S (length q)) s =
      Ok (true, Exec ts [] (spawn_queue s) w (yielders s ++ survivors (tasks s) q) (next_id s)) ∧
    ∀ t, ts !! t = if decide (t ∈ q) then tasks s !! t ≫= polled t else tasks s !! t.
Proof.
  unfold ExecutorImpl.run_ready_tasks. revert s; induction q as [|t q IH]; intros s Hnd Hc Hq Hall.
  - exists (tasks s), (waker_cache s). cbn [length while_some].
    unfold mbind, M_bind, ExecutorImpl.pop_task. rewrite Hq. simpl. rewrite app_nil_r.
    split; [by destruct s; simpl in *; subst|done].
  - apply NoDup_cons in Hnd as [Hni Hnd]. simpl in Hc. destruct (Hall t) as (f & Hf & Hy); [left|].
    cbn [length]. cbn [while_some]. set (s1 := Exec (tasks s) q (spawn_queue s) (waker_cache s) (yielders s) (next_id s)).
    assert (ExecutorImpl.pop_task s = Ok (Some t, s1)) as Hp by (unfold ExecutorImpl.pop_task; by rewrite Hq).
    rewrite (M_bind_run _ _ _ _ _ Hp).
    destruct (poll_task_run t f s1) as (w & Hr); [done..|cbn; lia|]. rewrite (M_bind_run _ _ _ _ _ Hr).
    cbn [s1 tasks task_queue spawn_queue yielders next_id] in *.
    set (s2 := Exec (after_poll (tasks s) t f) q _ w _ _).
    destruct (IH s2) as (ts & w' & R & Hts); cbn [s2 tasks task_queue spawn_queue yielders next_id];
      [done| |done| |].
    + rewrite length_app. destruct (polled t f); simpl; lia.
    + intros t' Ht'. destruct (Hall t') as (f1 & Hf1 & Hy1); [by right|]. exists f1.
      rewrite after_poll_other; [done|]. by intros ->.
    + exists ts, w'. split.
      * cbn [s2 tasks task_queue spawn_queue yielders next_id] in R. etrans; [exact R|]. do 3 f_equal. rewrite <-app_assoc. f_equal.
        rewrite (survivors_ext (tasks s)) by (intros t' Ht'; apply after_poll_other; by intros ->).
        unfold survivors. rewrite filter_cons. case_decide as Hd; rewrite Hf in Hd; simpl in Hd.
        -- by destruct Hd as [f' ->].
        -- destruct (polled t f) eqn:Ep; [|done]. by destruct Hd; eexists.
      * intros t'. rewrite Hts. cbn [s2 tasks]. destruct (decide (t' = t)) as [->|Hne].
        -- rewrite decide_False by done. rewrite decide_True by left. rewrite after_poll_self, Hf. done.
        -- rewrite after_poll_other by done. destruct (decide (t' ∈ q)) as [Hin|Hin].
           ++ by rewrite decide_True by (by right).
           ++ rewrite decide_False; [done|]. by intros [?|?]%elem_of_cons.
Qed.

(** The wakers of the yielders put their tasks back, in order. *)
Lemma wake_yielders s q :
  yielders s = q → (length (task_queue s) + length q ≤ QUEUE_CAPACITY)%nat →
  while_some (S (length q)) ExecutorImpl.pop_yielder ExecutorImpl.wake_task s =
    Ok (true, Exec (tasks s) (task_queue s ++ q) (spawn_queue s) (waker_cache s) [] (next_id s)).
Proof.
  revert s; induction q as [|t q IH]; intros s Hq Hc; cbn [length]; cbn [while_some].
  - unfold mbind, M_bind, ExecutorImpl.pop_yielder. rewrite Hq. simpl. rewrite app_nil_r. by destruct s; simpl in *; subst.
  - set (s1 := Exec (tasks s) (task_queue s) (spawn_queue s) (waker_cache s) q (next_id s)).
    assert (ExecutorImpl.pop_yielder s = Ok (Some t, s1)) as Hp by (unfold ExecutorImpl.pop_yielder; by rewrite Hq).
    rewrite (M_bind_run _ _ _ _ _ Hp). simpl in Hc.
    assert (ExecutorImpl.wake_task t s1 = Ok (tt, Exec (tasks s) (task_queue s ++ [t]) (spawn_queue s) (waker_cache s) q (next_id s))) as Hw.
    { unfold ExecutorImpl.wake_task, ArrayQueue.push. cbn [s1 task_queue].
      by destruct (Nat.ltb_spec (length (task_queue s)) QUEUE_CAPACITY); [|lia]. }
    rewrite (M_bind_run _ _ _ _ _ Hw). etrans; [apply IH; [done|cbn; rewrite length_app; simpl; lia]|].
    cbn. by rewrite <-app_assoc.
Qed.
End round_robin.

(** C10: round robin. When the ready tasks are [yield_once] loops, at most as
    many as a queue holds, one turn of [Executor::run] polls each of them exactly
    once, in queue order, removes those that finish and queues the others again
    in the same order; nothing is dropped and nothing panics. Each such turn
    also goes through [hlt]: a task that only yields runs once per interrupt. *)
Theorem run_once_round_robin {F} (poll : F → Z → F * bool * list (Effect F)) (Y : F → Prop) (s : Executor F) fuel :
  (∀ f t, Y f → (∃ f', poll f t = (f', true, [])) ∨ (∃ f', poll f t = (f', false, [EYield]) ∧ Y f')) →
  (length (task_queue s) < fuel)%nat → (length (task_queue s) ≤ QUEUE_CAPACITY)%nat → NoDup (task_queue s) →
  yielders s = [] → spawn_queue s = [] →
  (∀ t, t ∈ task_queue s → ∃ f, tasks s !! t = Some f ∧ Y f) →
  ∃ s', ExecutorImpl.run_once poll fuel s = Ok (Some true, s') ∧
    task_queue s' = survivors poll (tasks s) (task_queue s) ∧ yielders s' = [] ∧ spawn_queue s' = [] ∧
    (∀ t, tasks s' !! t = if decide (t ∈ task_queue s) then tasks s !! t ≫= polled poll t else tasks s !! t) ∧
    (∀ t, t ∈ task_queue s' → ∃ f, tasks s' !! t = Some f ∧ Y f).
Proof.
  intros Hp Hfuel Hcap Hnd Hy Hs Hall. unfold ExecutorImpl.run_once.
  assert (while_some fuel ExecutorImpl.pop_spawn ExecutorImpl.spawn s = Ok (true, s)) as E1.
  { apply (while_some_more 1); [lia|]. cbn [while_some]. unfold mbind, M_bind, ExecutorImpl.pop_spawn. by rewrite Hs. }
  rewrite (M_bind_run _ _ _ _ _ E1).
  destruct (run_ready_round poll Y Hp (task_queue s) s) as (ts & w & E2 & Hts); [done|by rewrite Hy|done..|].
  apply (while_some_more _ fuel) in E2; [|lia]. unfold ExecutorImpl.run_ready_tasks at 1. rewrite (M_bind_run _ _ _ _ _ E2).
  rewrite Hy, Hs. simpl app. set (q' := survivors poll (tasks s) (task_queue s)).
  assert (length q' ≤ length (task_queue s))%nat as Hq' by apply length_filter.
  set (s1 := Exec ts [] [] w q' (next_id s)).
  pose proof (wake_yielders s1 q' eq_refl ltac:(cbn; lia)) as E3.
  apply (while_some_more _ fuel) in E3; [|lia].
  unfold mbind at 1, M_bind at 1, get. rewrite (M_bind_run _ _ _ _ _ E3).
  eexists. split; [done|]. cbn. split_and!; [done..|exact Hts|].
  intros t Ht. rewrite Hts. apply list_elem_of_filter in Ht as [[f' Hf'] Hin]. rewrite decide_True by done.
  exists f'. split; [done|]. destruct (Hall t Hin) as (f & Hf & Hyf). rewrite Hf in Hf'. simpl in Hf'.
  by eapply (polled_Y poll Y Hp).
Qed.

(** Two counters that count down to their end, yielding in between. *)
Definition countdown (f : nat) (t : Z) : nat * bool * list (Effect nat) :=
  match f with O => (O, true, []) | S n => (n, false, [EYield]) end.

Lemma task_ids_unique_witness :
  ∃ s, reach countdown 2 s ∧ next_id s = 2.
Proof.
  assert (reach countdown (0 + 1 + 1)
    (Exec ∅ [] [{| id := 0; future := 3%nat |}; {| id := 1; future := 0%nat |}] ∅ [] 2)) as H.
  { eapply reach_spawner; [eapply reach_spawner; [apply reach_new|reflexivity]|reflexivity]. }
  eexists. split; [exact H|]. destruct (task_ids_unique countdown _ _ H ltac:(done)) as [Hi _].
  exact (ids_next _ _ Hi).
Defined.

Lemma run_once_round_robin_witness :
  ∃ s', ExecutorImpl.run_once countdown 3 (Exec {[0 := 3%nat; 1 := 0%nat]} [1; 0] [] ∅ [] 2) = Ok (Some true, s') ∧
        task_queue s' = [0].
Proof.
  destruct (run_once_round_robin countdown (λ _, True) (Exec {[0 := 3%nat; 1 := 0%nat]} [1; 0] [] ∅ [] 2) 3)
    as (s' & R & Hq & _).
  - intros [|f] t _; [left; by eexists|right; by eexists].
  - simpl. lia.
  - unfold QUEUE_CAPACITY. simpl. lia.
  - apply (bool_decide_unpack _). by vm_compute.
  - reflexivity.
  - reflexivity.
  - intros t Ht. assert (t = 1 ∨ t = 0) as [->| ->] by (cbn in Ht; set_solver); by eexists.
  - exists s'. split; [exact R|]. rewrite Hq. by vm_compute.
Defined.

(** ** [SimpleExecutor]: poll in turn until every task is ready *)
Module SimpleExecutorImpl.
Section run.
(** Polling with a waker that does nothing. *)
Context {F : Type} (poll : F → F * bool).

Definition new : list (Task F) := [].
Definition spawn (task : Task F) (task_queue : list (Task F)) : list (Task F) := task_queue ++ [task].

(** [run], and the identifiers in the order of the polls. *)
Fixpoint run (fuel : nat) (task_queue : list (Task F)) : option (list Z) :=
  match task_queue with
  | [] => Some []
  | task :: q =>
      match fuel with
      | O => None
      | S n =>
          let '(f, ready) := poll (future task) in
          (id task ::.) <$> run n (if ready : bool then q else q ++ [{| id := id task; future := f |}])
      end
  end.

(** A future that is pending [polls] times, then ready. *)
Context (polls : F → nat).
Context (Hpoll : ∀ f, (poll f).2 = bool_decide (polls f = 0%nat) ∧ polls (poll f).1 = pred (polls f)).

Fixpoint work (q : list (Task F)) : nat :=
  match q with [] => 0%nat | t :: q => (S (polls (future t)) + work q)%nat end.

(** The rounds: everybody once, then those still pending. *)
Definition pending (q : list (Task F)) : list (Task F) :=
  (λ t, {| id := id t; future := (poll (future t)).1 |}) <$> filter (λ t, polls (future t) ≠ 0%nat) q.
Fixpoint rounds (n : nat) (q : list (Task F)) : list Z :=
  match n with O => [] | S n => (id <$> q) ++ rounds n (pending q) end.

Lemma work_pending q : (work (pending q) + length q)%nat = work q.
Proof.
  induction q as [|t q IH]; [done|]. unfold pending. rewrite filter_cons. case_decide as Ht;
    cbn [work fmap list_fmap future length]; fold (pending q); rewrite ?(proj2 (Hpoll (future t))); lia.
Qed.

(** One round. *)
Lemma run_round q acc n : run (length q + n) (q ++ acc) = ((id <$> q) ++.) <$> run n (acc ++ pending q).
Proof.
  revert acc; induction q as [|t q IH]; intros acc.
  - cbn [pending filter list_filter fmap list_fmap app length Nat.add]. rewrite app_nil_r. by destruct (run n acc).
  - cbn [app length Nat.add run fmap list_fmap]. destruct (Hpoll (future t)) as [Hr _].
    destruct (poll (future t)) as [f ready] eqn:Ef. cbn [fst snd] in Hr. subst ready.
    destruct (decide (polls (future t) = 0%nat)) as [Ht|Ht].
    + rewrite bool_decide_eq_true_2 by done. rewrite IH. unfold pending. rewrite filter_cons_False by tauto. by destruct (run n _).
    + rewrite bool_decide_eq_false_2 by done. unfold pending. rewrite filter_cons_True by done.
      rewrite <-app_assoc, IH, <-app_assoc. unfold pending. cbn [app fmap list_fmap]. rewrite Ef. by destruct (run n _).
Qed.

Lemma rounds_nil n : rounds n [] = [].
Proof. by induction n. Qed.

(** The loop ends, after as many polls as the tasks need, in rounds. *)
Lemma run_rounds m n q : (work q ≤ m)%nat → (work q ≤ n)%nat → run n q = Some (rounds m q).
Proof.
  revert n q; induction m as [|m IH]; intros n q Hm Hn; (destruct q as [|t q]; [rewrite rounds_nil; by destruct n|]).
  { cbn [work] in Hm. lia. }
  pose proof (work_pending (t :: q)) as Hw. pose proof (run_round (t :: q) [] (n - length (t :: q))) as Hr.
  rewrite app_nil_r in Hr. replace (length (t :: q) + (n - length (t :: q)))%nat with n in Hr by lia.
  rewrite Hr. cbn [app]. rewrite (IH (n - length (t :: q))%nat (pending (t :: q))); [done|cbn [length] in *; lia|lia].
Qed.
End run.
End SimpleExecutorImpl.
