(* ===== verification/GpuTypes.v ===== *)
(** The virtio-gpu wire format ([bootloader/kernel/src/drivers/virtio_gpu.rs]):
    the enumerations, the [repr(C)] request and response structures as the bytes
    a device reads, and the theorems that they decode. *)
From stdpp Require Import vector.
From S2P Require Import Prelude Bytes.

(** Command and response types ([repr(u32)]). *)
Module VirtioGpuCtrlType.
Inductive t :=
| VirtioGpuCmdGetDisplayInfo | VirtioGpuCmdResourceCreate2d | VirtioGpuCmdResourceUnref
| VirtioGpuCmdSetScanout | VirtioGpuCmdResourceFlush | VirtioGpuCmdTransferToHost2d
| VirtioGpuCmdResourceAttachBacking | VirtioGpuCmdResourceDetachBacking
| VirtioGpuCmdGetCapsetInfo | VirtioGpuCmdGetCapset | VirtioGpuCmdGetEdid
| VirtioGpuCmdResourceAssignUuid | VirtioGpuCmdResourceCreateBlob | VirtioGpuCmdSetScanoutBlob
| VirtioGpuCmdCtxCreate | VirtioGpuCmdCtxDestroy | VirtioGpuCmdCtxAttachResource
| VirtioGpuCmdCtxDetachResource | VirtioGpuCmdResourceCreate3d | VirtioGpuCmdTransferToHost3d
| VirtioGpuCmdTransferFromHost3d | VirtioGpuCmdSubmit3d | VirtioGpuCmdResourceMapBlob
| VirtioGpuCmdResourceUnmapBlob | VirtioGpuCmdUpdateCursor | VirtioGpuCmdMoveCursor
| VirtioGpuRespOkNoData | VirtioGpuRespOkDisplayInfo | VirtioGpuRespOkCapsetInfo
| VirtioGpuRespOkCapset | VirtioGpuRespOkEdid | VirtioGpuRespOkResourceUuid
| VirtioGpuRespOkMapInfo | VirtioGpuRespErrUnspec | VirtioGpuRespErrOutOfMemory
| VirtioGpuRespErrInvalidScanoutId | VirtioGpuRespErrInvalidResourceId
| VirtioGpuRespErrInvalidContextId | VirtioGpuRespErrInvalidParameter.

Definition as_u32 (x : t) : Z :=
  match x with
  | VirtioGpuCmdGetDisplayInfo => 0x0100 | VirtioGpuCmdResourceCreate2d => 0x101
  | VirtioGpuCmdResourceUnref => 0x102 | VirtioGpuCmdSetScanout => 0x103
  | VirtioGpuCmdResourceFlush => 0x104 | VirtioGpuCmdTransferToHost2d => 0x105
  | VirtioGpuCmdResourceAttachBacking => 0x106 | VirtioGpuCmdResourceDetachBacking => 0x107
  | VirtioGpuCmdGetCapsetInfo => 0x108 | VirtioGpuCmdGetCapset => 0x109
  | VirtioGpuCmdGetEdid => 0x10a | VirtioGpuCmdResourceAssignUuid => 0x10b
  | VirtioGpuCmdResourceCreateBlob => 0x10c | VirtioGpuCmdSetScanoutBlob => 0x10d
  | VirtioGpuCmdCtxCreate => 0x0200 | VirtioGpuCmdCtxDestroy => 0x201
  | VirtioGpuCmdCtxAttachResource => 0x202 | VirtioGpuCmdCtxDetachResource => 0x203
  | VirtioGpuCmdResourceCreate3d => 0x204 | VirtioGpuCmdTransferToHost3d => 0x205
  | VirtioGpuCmdTransferFromHost3d => 0x206 | VirtioGpuCmdSubmit3d => 0x207
  | VirtioGpuCmdResourceMapBlob => 0x208 | VirtioGpuCmdResourceUnmapBlob => 0x209
  | VirtioGpuCmdUpdateCursor => 0x0300 | VirtioGpuCmdMoveCursor => 0x301
  | VirtioGpuRespOkNoData => 0x1100 | VirtioGpuRespOkDisplayInfo => 0x1101
  | VirtioGpuRespOkCapsetInfo => 0x1102 | VirtioGpuRespOkCapset => 0x1103
  | VirtioGpuRespOkEdid => 0x1104 | VirtioGpuRespOkResourceUuid => 0x1105
  | VirtioGpuRespOkMapInfo => 0x1106 | VirtioGpuRespErrUnspec => 0x1200
  | VirtioGpuRespErrOutOfMemory => 0x1201 | VirtioGpuRespErrInvalidScanoutId => 0x1202
  | VirtioGpuRespErrInvalidResourceId => 0x1203 | VirtioGpuRespErrInvalidContextId => 0x1204
  | VirtioGpuRespErrInvalidParameter => 0x1205
  end.
End VirtioGpuCtrlType.

(** Resource formats. *)
Module VirtioGpuFormats.
Inductive t :=
| VIRTIO_GPU_FORMAT_B8G8R8A8_UNORM | VIRTIO_GPU_FORMAT_B8G8R8X8_UNORM
| VIRTIO_GPU_FORMAT_A8R8G8B8_UNORM | VIRTIO_GPU_FORMAT_X8R8G8B8_UNORM
| VIRTIO_GPU_FORMAT_R8G8B8A8_UNORM | VIRTIO_GPU_FORMAT_X8B8G8R8_UNORM
| VIRTIO_GPU_FORMAT_A8B8G8R8_UNORM | VIRTIO_GPU_FORMAT_R8G8B8X8_UNORM.

Definition as_u32 (x : t) : Z :=
  match x with
  | VIRTIO_GPU_FORMAT_B8G8R8A8_UNORM => 1 | VIRTIO_GPU_FORMAT_B8G8R8X8_UNORM => 2
  | VIRTIO_GPU_FORMAT_A8R8G8B8_UNORM => 3 | VIRTIO_GPU_FORMAT_X8R8G8B8_UNORM => 4
  | VIRTIO_GPU_FORMAT_R8G8B8A8_UNORM => 67 | VIRTIO_GPU_FORMAT_X8B8G8R8_UNORM => 68
  | VIRTIO_GPU_FORMAT_A8B8G8R8_UNORM => 121 | VIRTIO_GPU_FORMAT_R8G8B8X8_UNORM => 134
  end.
End VirtioGpuFormats.

(** Capability sets. *)
Module CapsetId.
Inductive t :=
| VIRTIO_GPU_CAPSET_VIRGL | VIRTIO_GPU_CAPSET_VIRGL2 | VIRTIO_GPU_CAPSET_GFXSTREAM
| VIRTIO_GPU_CAPSET_VENUS | VIRTIO_GPU_CAPSET_CROSS_DOMAIN.

Definition as_u32 (x : t) : Z :=
  match x with
  | VIRTIO_GPU_CAPSET_VIRGL => 1 | VIRTIO_GPU_CAPSET_VIRGL2 => 2
  | VIRTIO_GPU_CAPSET_GFXSTREAM => 3 | VIRTIO_GPU_CAPSET_VENUS => 4
  | VIRTIO_GPU_CAPSET_CROSS_DOMAIN => 5
  end.
End CapsetId.

(** Commands of the 3D stream. *)
Module Cmd3d.
Inductive t :=
| VIRGL_CCMD_NOP | VIRGL_CCMD_CREATE_OBJECT | VIRGL_CCMD_BIND_OBJECT | VIRGL_CCMD_DESTROY_OBJECT
| VIRGL_CCMD_SET_VIEWPORT_STATE | VIRGL_CCMD_SET_FRAMEBUFFER_STATE | VIRGL_CCMD_SET_VERTEX_BUFFERS
| VIRGL_CCMD_CLEAR | VIRGL_CCMD_DRAW_VBO | VIRGL_CCMD_RESOURCE_INLINE_WRITE
| VIRGL_CCMD_SET_SAMPLER_VIEWS | VIRGL_CCMD_SET_INDEX_BUFFER | VIRGL_CCMD_SET_CONSTANT_BUFFER
| VIRGL_CCMD_SET_STENCIL_REF | VIRGL_CCMD_SET_BLEND_COLOR | VIRGL_CCMD_SET_SCISSOR_STATE
| VIRGL_CCMD_BLIT | VIRGL_CCMD_RESOURCE_COPY_REGION | VIRGL_CCMD_BIND_SAMPLER_STATES
| VIRGL_CCMD_BEGIN_QUERY | VIRGL_CCMD_END_QUERY | VIRGL_CCMD_GET_QUERY_RESULT
| VIRGL_CCMD_SET_POLYGON_STIPPLE | VIRGL_CCMD_SET_CLIP_STATE | VIRGL_CCMD_SET_SAMPLE_MASK
| VIRGL_CCMD_SET_STREAMOUT_TARGETS | VIRGL_CCMD_SET_RENDER_CONDITION
| VIRGL_CCMD_SET_UNIFORM_BUFFER | VIRGL_CCMD_SET_SUB_CTX | VIRGL_CCMD_CREATE_SUB_CTX
| VIRGL_CCMD_DESTROY_SUB_CTX | VIRGL_CCMD_BIND_SHADER | VIRGL_CCMD_SET_TESS_STATE
| VIRGL_CCMD_SET_MIN_SAMPLES | VIRGL_CCMD_SET_SHADER_BUFFERS | VIRGL_CCMD_SET_SHADER_IMAGES
| VIRGL_CCMD_MEMORY_BARRIER | VIRGL_CCMD_LAUNCH_GRID | VIRGL_CCMD_SET_FRAMEBUFFER_STATE_NO_ATTACH
| VIRGL_CCMD_TEXTURE_BARRIER | VIRGL_CCMD_SET_ATOMIC_BUFFERS | VIRGL_CCMD_SET_DEBUG_FLAGS
| VIRGL_CCMD_GET_QUERY_RESULT_QBO | VIRGL_CCMD_TRANSFER3D | VIRGL_CCMD_END_TRANSFERS
| VIRGL_CCMD_COPY_TRANSFER3D | VIRGL_CCMD_SET_TWEAKS | VIRGL_CCMD_CLEAR_TEXTURE
| VIRGL_CCMD_PIPE_RESOURCE_CREATE | VIRGL_CCMD_PIPE_RESOURCE_SET_TYPE | VIRGL_CCMD_GET_MEMORY_INFO
| VIRGL_CCMD_SEND_STRING_MARKER | VIRGL_CCMD_LINK_SHADER | VIRGL_CCMD_CREATE_VIDEO_CODEC
| VIRGL_CCMD_DESTROY_VIDEO_CODEC | VIRGL_CCMD_CREATE_VIDEO_BUFFER
| VIRGL_CCMD_DESTROY_VIDEO_BUFFER | VIRGL_CCMD_BEGIN_FRAME | VIRGL_CCMD_DECODE_MACROBLOCK
| VIRGL_CCMD_DECODE_BITSTREAM | VIRGL_CCMD_ENCODE_BITSTREAM | VIRGL_CCMD_END_FRAME
| VIRGL_MAX_COMMANDS.

Definition as_u32 (x : t) : Z :=
  match x with
  | VIRGL_CCMD_NOP => 0 | VIRGL_CCMD_CREATE_OBJECT => 1 | VIRGL_CCMD_BIND_OBJECT => 2
  | VIRGL_CCMD_DESTROY_OBJECT => 3 | VIRGL_CCMD_SET_VIEWPORT_STATE => 4
  | VIRGL_CCMD_SET_FRAMEBUFFER_STATE => 5 | VIRGL_CCMD_SET_VERTEX_BUFFERS => 6
  | VIRGL_CCMD_CLEAR => 7 | VIRGL_CCMD_DRAW_VBO => 8 | VIRGL_CCMD_RESOURCE_INLINE_WRITE => 9
  | VIRGL_CCMD_SET_SAMPLER_VIEWS => 10 | VIRGL_CCMD_SET_INDEX_BUFFER => 11
  | VIRGL_CCMD_SET_CONSTANT_BUFFER => 12 | VIRGL_CCMD_SET_STENCIL_REF => 13
  | VIRGL_CCMD_SET_BLEND_COLOR => 14 | VIRGL_CCMD_SET_SCISSOR_STATE => 15 | VIRGL_CCMD_BLIT => 16
  | VIRGL_CCMD_RESOURCE_COPY_REGION => 17 | VIRGL_CCMD_BIND_SAMPLER_STATES => 18
  | VIRGL_CCMD_BEGIN_QUERY => 19 | VIRGL_CCMD_END_QUERY => 20 | VIRGL_CCMD_GET_QUERY_RESULT => 21
  | VIRGL_CCMD_SET_POLYGON_STIPPLE => 22 | VIRGL_CCMD_SET_CLIP_STATE => 23
  | VIRGL_CCMD_SET_SAMPLE_MASK => 24 | VIRGL_CCMD_SET_STREAMOUT_TARGETS => 25
  | VIRGL_CCMD_SET_RENDER_CONDITION => 26 | VIRGL_CCMD_SET_UNIFORM_BUFFER => 27
  | VIRGL_CCMD_SET_SUB_CTX => 28 | VIRGL_CCMD_CREATE_SUB_CTX => 29
  | VIRGL_CCMD_DESTROY_SUB_CTX => 30 | VIRGL_CCMD_BIND_SHADER => 31
  | VIRGL_CCMD_SET_TESS_STATE => 32 | VIRGL_CCMD_SET_MIN_SAMPLES => 33
  | VIRGL_CCMD_SET_SHADER_BUFFERS => 34 | VIRGL_CCMD_SET_SHADER_IMAGES => 35
  | VIRGL_CCMD_MEMORY_BARRIER => 36 | VIRGL_CCMD_LAUNCH_GRID => 37
  | VIRGL_CCMD_SET_FRAMEBUFFER_STATE_NO_ATTACH => 38 | VIRGL_CCMD_TEXTURE_BARRIER => 39
  | VIRGL_CCMD_SET_ATOMIC_BUFFERS => 40 | VIRGL_CCMD_SET_DEBUG_FLAGS => 41
  | VIRGL_CCMD_GET_QUERY_RESULT_QBO => 42 | VIRGL_CCMD_TRANSFER3D => 43
  | VIRGL_CCMD_END_TRANSFERS => 44 | VIRGL_CCMD_COPY_TRANSFER3D => 45
  | VIRGL_CCMD_SET_TWEAKS => 46 | VIRGL_CCMD_CLEAR_TEXTURE => 47
  | VIRGL_CCMD_PIPE_RESOURCE_CREATE => 48 | VIRGL_CCMD_PIPE_RESOURCE_SET_TYPE => 49
  | VIRGL_CCMD_GET_MEMORY_INFO => 50 | VIRGL_CCMD_SEND_STRING_MARKER => 51
  | VIRGL_CCMD_LINK_SHADER => 52 | VIRGL_CCMD_CREATE_VIDEO_CODEC => 53
  | VIRGL_CCMD_DESTROY_VIDEO_CODEC => 54 | VIRGL_CCMD_CREATE_VIDEO_BUFFER => 55
  | VIRGL_CCMD_DESTROY_VIDEO_BUFFER => 56 | VIRGL_CCMD_BEGIN_FRAME => 57
  | VIRGL_CCMD_DECODE_MACROBLOCK => 58 | VIRGL_CCMD_DECODE_BITSTREAM => 59
  | VIRGL_CCMD_ENCODE_BITSTREAM => 60 | VIRGL_CCMD_END_FRAME => 61 | VIRGL_MAX_COMMANDS => 62
  end.
End Cmd3d.

(** Texture targets. *)
Module PipeTextureTarget.
Inductive t :=
| PIPE_BUFFER | PIPE_TEXTURE_1D | PIPE_TEXTURE_2D | PIPE_TEXTURE_3D | PIPE_TEXTURE_CUBE
| PIPE_TEXTURE_RECT | PIPE_TEXTURE_1D_ARRAY | PIPE_TEXTURE_2D_ARRAY | PIPE_TEXTURE_CUBE_ARRAY
| PIPE_MAX_TEXTURE_TYPES.

Definition as_u32 (x : t) : Z :=
  match x with
  | PIPE_BUFFER => 0 | PIPE_TEXTURE_1D => 1 | PIPE_TEXTURE_2D => 2 | PIPE_TEXTURE_3D => 3
  | PIPE_TEXTURE_CUBE => 4 | PIPE_TEXTURE_RECT => 5 | PIPE_TEXTURE_1D_ARRAY => 6
  | PIPE_TEXTURE_2D_ARRAY => 7 | PIPE_TEXTURE_CUBE_ARRAY => 8 | PIPE_MAX_TEXTURE_TYPES => 9
  end.
End PipeTextureTarget.

(** Texture formats. *)
Module VirglFormats.
Inductive t :=
| VIRGL_FORMAT_NONE | VIRGL_FORMAT_B8G8R8A8_UNORM | VIRGL_FORMAT_B8G8R8X8_UNORM
| VIRGL_FORMAT_A8R8G8B8_UNORM | VIRGL_FORMAT_X8R8G8B8_UNORM | VIRGL_FORMAT_B5G5R5A1_UNORM
| VIRGL_FORMAT_B4G4R4A4_UNORM | VIRGL_FORMAT_B5G6R5_UNORM | VIRGL_FORMAT_R10G10B10A2_UNORM
| VIRGL_FORMAT_L8_UNORM | VIRGL_FORMAT_A8_UNORM | VIRGL_FORMAT_I8_UNORM | VIRGL_FORMAT_L8A8_UNORM
| VIRGL_FORMAT_L16_UNORM | VIRGL_FORMAT_UYVY | VIRGL_FORMAT_YUYV | VIRGL_FORMAT_Z16_UNORM
| VIRGL_FORMAT_Z32_UNORM | VIRGL_FORMAT_Z32_FLOAT | VIRGL_FORMAT_Z24_UNORM_S8_UINT
| VIRGL_FORMAT_S8_UINT_Z24_UNORM | VIRGL_FORMAT_Z24X8_UNORM | VIRGL_FORMAT_X8Z24_UNORM
| VIRGL_FORMAT_S8_UINT | VIRGL_FORMAT_R64_FLOAT | VIRGL_FORMAT_R64G64_FLOAT
| VIRGL_FORMAT_R64G64B64_FLOAT | VIRGL_FORMAT_R64G64B64A64_FLOAT | VIRGL_FORMAT_R32_FLOAT
| VIRGL_FORMAT_R32G32_FLOAT | VIRGL_FORMAT_R32G32B32_FLOAT | VIRGL_FORMAT_R32G32B32A32_FLOAT
| VIRGL_FORMAT_R32_UNORM | VIRGL_FORMAT_R32G32_UNORM | VIRGL_FORMAT_R32G32B32_UNORM
| VIRGL_FORMAT_R32G32B32A32_UNORM | VIRGL_FORMAT_R32_USCALED | VIRGL_FORMAT_R32G32_USCALED
| VIRGL_FORMAT_R32G32B32_USCALED | VIRGL_FORMAT_R32G32B32A32_USCALED | VIRGL_FORMAT_R32_SNORM
| VIRGL_FORMAT_R32G32_SNORM | VIRGL_FORMAT_R32G32B32_SNORM | VIRGL_FORMAT_R32G32B32A32_SNORM
| VIRGL_FORMAT_R32_SSCALED | VIRGL_FORMAT_R32G32_SSCALED | VIRGL_FORMAT_R32G32B32_SSCALED
| VIRGL_FORMAT_R32G32B32A32_SSCALED | VIRGL_FORMAT_R16_UNORM | VIRGL_FORMAT_R16G16_UNORM
| VIRGL_FORMAT_R16G16B16_UNORM | VIRGL_FORMAT_R16G16B16A16_UNORM | VIRGL_FORMAT_R16_USCALED
| VIRGL_FORMAT_R16G16_USCALED | VIRGL_FORMAT_R16G16B16_USCALED | VIRGL_FORMAT_R16G16B16A16_USCALED
| VIRGL_FORMAT_R16_SNORM | VIRGL_FORMAT_R16G16_SNORM | VIRGL_FORMAT_R16G16B16_SNORM
| VIRGL_FORMAT_R16G16B16A16_SNORM | VIRGL_FORMAT_R16_SSCALED | VIRGL_FORMAT_R16G16_SSCALED
| VIRGL_FORMAT_R16G16B16_SSCALED | VIRGL_FORMAT_R16G16B16A16_SSCALED | VIRGL_FORMAT_R8_UNORM
| VIRGL_FORMAT_R8G8_UNORM | VIRGL_FORMAT_R8G8B8_UNORM | VIRGL_FORMAT_R8G8B8A8_UNORM
| VIRGL_FORMAT_X8B8G8R8_UNORM | VIRGL_FORMAT_R8_USCALED | VIRGL_FORMAT_R8G8_USCALED
| VIRGL_FORMAT_R8G8B8_USCALED | VIRGL_FORMAT_R8G8B8A8_USCALED | VIRGL_FORMAT_R8_SNORM
| VIRGL_FORMAT_R8G8_SNORM | VIRGL_FORMAT_R8G8B8_SNORM | VIRGL_FORMAT_R8G8B8A8_SNORM
| VIRGL_FORMAT_R8_SSCALED | VIRGL_FORMAT_R8G8_SSCALED | VIRGL_FORMAT_R8G8B8_SSCALED
| VIRGL_FORMAT_R8G8B8A8_SSCALED | VIRGL_FORMAT_R32_FIXED | VIRGL_FORMAT_R32G32_FIXED
| VIRGL_FORMAT_R32G32B32_FIXED | VIRGL_FORMAT_R32G32B32A32_FIXED | VIRGL_FORMAT_R16_FLOAT
| VIRGL_FORMAT_R16G16_FLOAT | VIRGL_FORMAT_R16G16B16_FLOAT | VIRGL_FORMAT_R16G16B16A16_FLOAT
| VIRGL_FORMAT_L8_SRGB | VIRGL_FORMAT_L8A8_SRGB | VIRGL_FORMAT_R8G8B8_SRGB
| VIRGL_FORMAT_A8B8G8R8_SRGB | VIRGL_FORMAT_X8B8G8R8_SRGB | VIRGL_FORMAT_B8G8R8A8_SRGB
| VIRGL_FORMAT_B8G8R8X8_SRGB | VIRGL_FORMAT_A8R8G8B8_SRGB | VIRGL_FORMAT_X8R8G8B8_SRGB
| VIRGL_FORMAT_R8G8B8A8_SRGB | VIRGL_FORMAT_DXT1_RGB | VIRGL_FORMAT_DXT1_RGBA
| VIRGL_FORMAT_DXT3_RGBA | VIRGL_FORMAT_DXT5_RGBA | VIRGL_FORMAT_DXT1_SRGB
| VIRGL_FORMAT_DXT1_SRGBA | VIRGL_FORMAT_DXT3_SRGBA | VIRGL_FORMAT_DXT5_SRGBA
| VIRGL_FORMAT_RGTC1_UNORM | VIRGL_FORMAT_RGTC1_SNORM | VIRGL_FORMAT_RGTC2_UNORM
| VIRGL_FORMAT_RGTC2_SNORM | VIRGL_FORMAT_R8G8_B8G8_UNORM | VIRGL_FORMAT_G8R8_G8B8_UNORM
| VIRGL_FORMAT_R8SG8SB8UX8U_NORM | VIRGL_FORMAT_R5SG5SB6U_NORM | VIRGL_FORMAT_A8B8G8R8_UNORM
| VIRGL_FORMAT_B5G5R5X1_UNORM | VIRGL_FORMAT_R10G10B10A2_USCALED | VIRGL_FORMAT_R11G11B10_FLOAT
| VIRGL_FORMAT_R9G9B9E5_FLOAT | VIRGL_FORMAT_Z32_FLOAT_S8X24_UINT | VIRGL_FORMAT_R1_UNORM
| VIRGL_FORMAT_R10G10B10X2_USCALED | VIRGL_FORMAT_R10G10B10X2_SNORM | VIRGL_FORMAT_L4A4_UNORM
| VIRGL_FORMAT_B10G10R10A2_UNORM | VIRGL_FORMAT_R10SG10SB10SA2U_NORM | VIRGL_FORMAT_R8G8Bx_SNORM
| VIRGL_FORMAT_R8G8B8X8_UNORM | VIRGL_FORMAT_B4G4R4X4_UNORM | VIRGL_FORMAT_X24S8_UINT
| VIRGL_FORMAT_S8X24_UINT | VIRGL_FORMAT_X32_S8X24_UINT | VIRGL_FORMAT_B2G3R3_UNORM
| VIRGL_FORMAT_L16A16_UNORM | VIRGL_FORMAT_A16_UNORM | VIRGL_FORMAT_I16_UNORM
| VIRGL_FORMAT_LATC1_UNORM | VIRGL_FORMAT_LATC1_SNORM | VIRGL_FORMAT_LATC2_UNORM
| VIRGL_FORMAT_LATC2_SNORM | VIRGL_FORMAT_A8_SNORM | VIRGL_FORMAT_L8_SNORM
| VIRGL_FORMAT_L8A8_SNORM | VIRGL_FORMAT_I8_SNORM | VIRGL_FORMAT_A16_SNORM
| VIRGL_FORMAT_L16_SNORM | VIRGL_FORMAT_L16A16_SNORM | VIRGL_FORMAT_I16_SNORM
| VIRGL_FORMAT_A16_FLOAT | VIRGL_FORMAT_L16_FLOAT | VIRGL_FORMAT_L16A16_FLOAT
| VIRGL_FORMAT_I16_FLOAT | VIRGL_FORMAT_A32_FLOAT | VIRGL_FORMAT_L32_FLOAT
| VIRGL_FORMAT_L32A32_FLOAT | VIRGL_FORMAT_I32_FLOAT | VIRGL_FORMAT_YV12 | VIRGL_FORMAT_YV16
| VIRGL_FORMAT_IYUV | VIRGL_FORMAT_NV12 | VIRGL_FORMAT_NV21 | VIRGL_FORMAT_A4R4_UNORM
| VIRGL_FORMAT_R4A4_UNORM | VIRGL_FORMAT_R8A8_UNORM | VIRGL_FORMAT_A8R8_UNORM
| VIRGL_FORMAT_R10G10B10A2_SSCALED | VIRGL_FORMAT_R10G10B10A2_SNORM
| VIRGL_FORMAT_B10G10R10A2_USCALED | VIRGL_FORMAT_B10G10R10A2_SSCALED
| VIRGL_FORMAT_B10G10R10A2_SNORM | VIRGL_FORMAT_R8_UINT | VIRGL_FORMAT_R8G8_UINT
| VIRGL_FORMAT_R8G8B8_UINT | VIRGL_FORMAT_R8G8B8A8_UINT | VIRGL_FORMAT_R8_SINT
| VIRGL_FORMAT_R8G8_SINT | VIRGL_FORMAT_R8G8B8_SINT | VIRGL_FORMAT_R8G8B8A8_SINT
| VIRGL_FORMAT_R16_UINT | VIRGL_FORMAT_R16G16_UINT | VIRGL_FORMAT_R16G16B16_UINT
| VIRGL_FORMAT_R16G16B16A16_UINT | VIRGL_FORMAT_R16_SINT | VIRGL_FORMAT_R16G16_SINT
| VIRGL_FORMAT_R16G16B16_SINT | VIRGL_FORMAT_R16G16B16A16_SINT | VIRGL_FORMAT_R32_UINT
| VIRGL_FORMAT_R32G32_UINT | VIRGL_FORMAT_R32G32B32_UINT | VIRGL_FORMAT_R32G32B32A32_UINT
| VIRGL_FORMAT_R32_SINT | VIRGL_FORMAT_R32G32_SINT | VIRGL_FORMAT_R32G32B32_SINT
| VIRGL_FORMAT_R32G32B32A32_SINT | VIRGL_FORMAT_A8_UINT | VIRGL_FORMAT_I8_UINT
| VIRGL_FORMAT_L8_UINT | VIRGL_FORMAT_L8A8_UINT | VIRGL_FORMAT_A8_SINT | VIRGL_FORMAT_I8_SINT
| VIRGL_FORMAT_L8_SINT | VIRGL_FORMAT_L8A8_SINT | VIRGL_FORMAT_A16_UINT | VIRGL_FORMAT_I16_UINT
| VIRGL_FORMAT_L16_UINT | VIRGL_FORMAT_L16A16_UINT | VIRGL_FORMAT_A16_SINT | VIRGL_FORMAT_I16_SINT
| VIRGL_FORMAT_L16_SINT | VIRGL_FORMAT_L16A16_SINT | VIRGL_FORMAT_A32_UINT | VIRGL_FORMAT_I32_UINT
| VIRGL_FORMAT_L32_UINT | VIRGL_FORMAT_L32A32_UINT | VIRGL_FORMAT_A32_SINT | VIRGL_FORMAT_I32_SINT
| VIRGL_FORMAT_L32_SINT | VIRGL_FORMAT_L32A32_SINT | VIRGL_FORMAT_B10G10R10A2_UINT
| VIRGL_FORMAT_ETC1_RGB8 | VIRGL_FORMAT_R8G8_R8B8_UNORM | VIRGL_FORMAT_G8R8_B8R8_UNORM
| VIRGL_FORMAT_R8G8B8X8_SNORM | VIRGL_FORMAT_R8G8B8X8_SRGB | VIRGL_FORMAT_R8G8B8X8_UINT
| VIRGL_FORMAT_R8G8B8X8_SINT | VIRGL_FORMAT_B10G10R10X2_UNORM | VIRGL_FORMAT_R16G16B16X16_UNORM
| VIRGL_FORMAT_R16G16B16X16_SNORM | VIRGL_FORMAT_R16G16B16X16_FLOAT
| VIRGL_FORMAT_R16G16B16X16_UINT | VIRGL_FORMAT_R16G16B16X16_SINT
| VIRGL_FORMAT_R32G32B32X32_FLOAT | VIRGL_FORMAT_R32G32B32X32_UINT
| VIRGL_FORMAT_R32G32B32X32_SINT | VIRGL_FORMAT_R8A8_SNORM | VIRGL_FORMAT_R16A16_UNORM
| VIRGL_FORMAT_R16A16_SNORM | VIRGL_FORMAT_R16A16_FLOAT | VIRGL_FORMAT_R32A32_FLOAT
| VIRGL_FORMAT_R8A8_UINT | VIRGL_FORMAT_R8A8_SINT | VIRGL_FORMAT_R16A16_UINT
| VIRGL_FORMAT_R16A16_SINT | VIRGL_FORMAT_R32A32_UINT | VIRGL_FORMAT_R32A32_SINT
| VIRGL_FORMAT_R10G10B10A2_UINT | VIRGL_FORMAT_B5G6R5_SRGB | VIRGL_FORMAT_BPTC_RGBA_UNORM
| VIRGL_FORMAT_BPTC_SRGBA | VIRGL_FORMAT_BPTC_RGB_FLOAT | VIRGL_FORMAT_BPTC_RGB_UFLOAT
| VIRGL_FORMAT_A16L16_UNORM | VIRGL_FORMAT_G8R8_UNORM | VIRGL_FORMAT_G8R8_SNORM
| VIRGL_FORMAT_G16R16_UNORM | VIRGL_FORMAT_G16R16_SNORM | VIRGL_FORMAT_A8B8G8R8_SNORM
| VIRGL_FORMAT_A8L8_UNORM | VIRGL_FORMAT_A8L8_SNORM | VIRGL_FORMAT_A8L8_SRGB
| VIRGL_FORMAT_X8B8G8R8_SNORM | VIRGL_FORMAT_ETC2_RGB8 | VIRGL_FORMAT_ETC2_SRGB8
| VIRGL_FORMAT_ETC2_RGB8A1 | VIRGL_FORMAT_ETC2_SRGB8A1 | VIRGL_FORMAT_ETC2_RGBA8
| VIRGL_FORMAT_ETC2_SRGBA8 | VIRGL_FORMAT_ETC2_R11_UNORM | VIRGL_FORMAT_ETC2_R11_SNORM
| VIRGL_FORMAT_ETC2_RG11_UNORM | VIRGL_FORMAT_ETC2_RG11_SNORM | VIRGL_FORMAT_ASTC_4x4
| VIRGL_FORMAT_ASTC_5x4 | VIRGL_FORMAT_ASTC_5x5 | VIRGL_FORMAT_ASTC_6x5 | VIRGL_FORMAT_ASTC_6x6
| VIRGL_FORMAT_ASTC_8x5 | VIRGL_FORMAT_ASTC_8x6 | VIRGL_FORMAT_ASTC_8x8 | VIRGL_FORMAT_ASTC_10x5
| VIRGL_FORMAT_ASTC_10x6 | VIRGL_FORMAT_ASTC_10x8 | VIRGL_FORMAT_ASTC_10x10
| VIRGL_FORMAT_ASTC_12x10 | VIRGL_FORMAT_ASTC_12x12 | VIRGL_FORMAT_ASTC_4x4_SRGB
| VIRGL_FORMAT_ASTC_5x4_SRGB | VIRGL_FORMAT_ASTC_5x5_SRGB | VIRGL_FORMAT_ASTC_6x5_SRGB
| VIRGL_FORMAT_ASTC_6x6_SRGB | VIRGL_FORMAT_ASTC_8x5_SRGB | VIRGL_FORMAT_ASTC_8x6_SRGB
| VIRGL_FORMAT_ASTC_8x8_SRGB | VIRGL_FORMAT_ASTC_10x5_SRGB | VIRGL_FORMAT_ASTC_10x6_SRGB
| VIRGL_FORMAT_ASTC_10x8_SRGB | VIRGL_FORMAT_ASTC_10x10_SRGB | VIRGL_FORMAT_ASTC_12x10_SRGB
| VIRGL_FORMAT_ASTC_12x12_SRGB | VIRGL_FORMAT_R10G10B10X2_UNORM | VIRGL_FORMAT_A4B4G4R4_UNORM
| VIRGL_FORMAT_R8_SRGB | VIRGL_FORMAT_R8G8_SRGB | VIRGL_FORMAT_P010 | VIRGL_FORMAT_P012
| VIRGL_FORMAT_P016 | VIRGL_FORMAT_B8G8R8_UNORM | VIRGL_FORMAT_R3G3B2_UNORM
| VIRGL_FORMAT_R4G4B4A4_UNORM | VIRGL_FORMAT_R5G5B5A1_UNORM | VIRGL_FORMAT_R5G6B5_UNORM
| VIRGL_FORMAT_MAX | VIRGL_FORMAT_B8G8R8X8_UNORM_EMULATED | VIRGL_FORMAT_B8G8R8A8_UNORM_EMULATED
| VIRGL_FORMAT_MAX_EXTENDED.

Definition as_u32 (x : t) : Z :=
  match x with
  | VIRGL_FORMAT_NONE => 0 | VIRGL_FORMAT_B8G8R8A8_UNORM => 1 | VIRGL_FORMAT_B8G8R8X8_UNORM => 2
  | VIRGL_FORMAT_A8R8G8B8_UNORM => 3 | VIRGL_FORMAT_X8R8G8B8_UNORM => 4
  | VIRGL_FORMAT_B5G5R5A1_UNORM => 5 | VIRGL_FORMAT_B4G4R4A4_UNORM => 6
  | VIRGL_FORMAT_B5G6R5_UNORM => 7 | VIRGL_FORMAT_R10G10B10A2_UNORM => 8
  | VIRGL_FORMAT_L8_UNORM => 9 | VIRGL_FORMAT_A8_UNORM => 10 | VIRGL_FORMAT_I8_UNORM => 11
  | VIRGL_FORMAT_L8A8_UNORM => 12 | VIRGL_FORMAT_L16_UNORM => 13 | VIRGL_FORMAT_UYVY => 14
  | VIRGL_FORMAT_YUYV => 15 | VIRGL_FORMAT_Z16_UNORM => 16 | VIRGL_FORMAT_Z32_UNORM => 17
  | VIRGL_FORMAT_Z32_FLOAT => 18 | VIRGL_FORMAT_Z24_UNORM_S8_UINT => 19
  | VIRGL_FORMAT_S8_UINT_Z24_UNORM => 20 | VIRGL_FORMAT_Z24X8_UNORM => 21
  | VIRGL_FORMAT_X8Z24_UNORM => 22 | VIRGL_FORMAT_S8_UINT => 23 | VIRGL_FORMAT_R64_FLOAT => 24
  | VIRGL_FORMAT_R64G64_FLOAT => 25 | VIRGL_FORMAT_R64G64B64_FLOAT => 26
  | VIRGL_FORMAT_R64G64B64A64_FLOAT => 27 | VIRGL_FORMAT_R32_FLOAT => 28
  | VIRGL_FORMAT_R32G32_FLOAT => 29 | VIRGL_FORMAT_R32G32B32_FLOAT => 30
  | VIRGL_FORMAT_R32G32B32A32_FLOAT => 31 | VIRGL_FORMAT_R32_UNORM => 32
  | VIRGL_FORMAT_R32G32_UNORM => 33 | VIRGL_FORMAT_R32G32B32_UNORM => 34
  | VIRGL_FORMAT_R32G32B32A32_UNORM => 35 | VIRGL_FORMAT_R32_USCALED => 36
  | VIRGL_FORMAT_R32G32_USCALED => 37 | VIRGL_FORMAT_R32G32B32_USCALED => 38
  | VIRGL_FORMAT_R32G32B32A32_USCALED => 39 | VIRGL_FORMAT_R32_SNORM => 40
  | VIRGL_FORMAT_R32G32_SNORM => 41 | VIRGL_FORMAT_R32G32B32_SNORM => 42
  | VIRGL_FORMAT_R32G32B32A32_SNORM => 43 | VIRGL_FORMAT_R32_SSCALED => 44
  | VIRGL_FORMAT_R32G32_SSCALED => 45 | VIRGL_FORMAT_R32G32B32_SSCALED => 46
  | VIRGL_FORMAT_R32G32B32A32_SSCALED => 47 | VIRGL_FORMAT_R16_UNORM => 48
  | VIRGL_FORMAT_R16G16_UNORM => 49 | VIRGL_FORMAT_R16G16B16_UNORM => 50
  | VIRGL_FORMAT_R16G16B16A16_UNORM => 51 | VIRGL_FORMAT_R16_USCALED => 52
  | VIRGL_FORMAT_R16G16_USCALED => 53 | VIRGL_FORMAT_R16G16B16_USCALED => 54
  | VIRGL_FORMAT_R16G16B16A16_USCALED => 55 | VIRGL_FORMAT_R16_SNORM => 56
  | VIRGL_FORMAT_R16G16_SNORM => 57 | VIRGL_FORMAT_R16G16B16_SNORM => 58
  | VIRGL_FORMAT_R16G16B16A16_SNORM => 59 | VIRGL_FORMAT_R16_SSCALED => 60
  | VIRGL_FORMAT_R16G16_SSCALED => 61 | VIRGL_FORMAT_R16G16B16_SSCALED => 62
  | VIRGL_FORMAT_R16G16B16A16_SSCALED => 63 | VIRGL_FORMAT_R8_UNORM => 64
  | VIRGL_FORMAT_R8G8_UNORM => 65 | VIRGL_FORMAT_R8G8B8_UNORM => 66
  | VIRGL_FORMAT_R8G8B8A8_UNORM => 67 | VIRGL_FORMAT_X8B8G8R8_UNORM => 68
  | VIRGL_FORMAT_R8_USCALED => 69 | VIRGL_FORMAT_R8G8_USCALED => 70
  | VIRGL_FORMAT_R8G8B8_USCALED => 71 | VIRGL_FORMAT_R8G8B8A8_USCALED => 72
  | VIRGL_FORMAT_R8_SNORM => 74 | VIRGL_FORMAT_R8G8_SNORM => 75 | VIRGL_FORMAT_R8G8B8_SNORM => 76
  | VIRGL_FORMAT_R8G8B8A8_SNORM => 77 | VIRGL_FORMAT_R8_SSCALED => 82
  | VIRGL_FORMAT_R8G8_SSCALED => 83 | VIRGL_FORMAT_R8G8B8_SSCALED => 84
  | VIRGL_FORMAT_R8G8B8A8_SSCALED => 85 | VIRGL_FORMAT_R32_FIXED => 87
  | VIRGL_FORMAT_R32G32_FIXED => 88 | VIRGL_FORMAT_R32G32B32_FIXED => 89
  | VIRGL_FORMAT_R32G32B32A32_FIXED => 90 | VIRGL_FORMAT_R16_FLOAT => 91
  | VIRGL_FORMAT_R16G16_FLOAT => 92 | VIRGL_FORMAT_R16G16B16_FLOAT => 93
  | VIRGL_FORMAT_R16G16B16A16_FLOAT => 94 | VIRGL_FORMAT_L8_SRGB => 95
  | VIRGL_FORMAT_L8A8_SRGB => 96 | VIRGL_FORMAT_R8G8B8_SRGB => 97
  | VIRGL_FORMAT_A8B8G8R8_SRGB => 98 | VIRGL_FORMAT_X8B8G8R8_SRGB => 99
  | VIRGL_FORMAT_B8G8R8A8_SRGB => 100 | VIRGL_FORMAT_B8G8R8X8_SRGB => 101
  | VIRGL_FORMAT_A8R8G8B8_SRGB => 102 | VIRGL_FORMAT_X8R8G8B8_SRGB => 103
  | VIRGL_FORMAT_R8G8B8A8_SRGB => 104 | VIRGL_FORMAT_DXT1_RGB => 105
  | VIRGL_FORMAT_DXT1_RGBA => 106 | VIRGL_FORMAT_DXT3_RGBA => 107 | VIRGL_FORMAT_DXT5_RGBA => 108
  | VIRGL_FORMAT_DXT1_SRGB => 109 | VIRGL_FORMAT_DXT1_SRGBA => 110
  | VIRGL_FORMAT_DXT3_SRGBA => 111 | VIRGL_FORMAT_DXT5_SRGBA => 112
  | VIRGL_FORMAT_RGTC1_UNORM => 113 | VIRGL_FORMAT_RGTC1_SNORM => 114
  | VIRGL_FORMAT_RGTC2_UNORM => 115 | VIRGL_FORMAT_RGTC2_SNORM => 116
  | VIRGL_FORMAT_R8G8_B8G8_UNORM => 117 | VIRGL_FORMAT_G8R8_G8B8_UNORM => 118
  | VIRGL_FORMAT_R8SG8SB8UX8U_NORM => 119 | VIRGL_FORMAT_R5SG5SB6U_NORM => 120
  | VIRGL_FORMAT_A8B8G8R8_UNORM => 121 | VIRGL_FORMAT_B5G5R5X1_UNORM => 122
  | VIRGL_FORMAT_R10G10B10A2_USCALED => 123 | VIRGL_FORMAT_R11G11B10_FLOAT => 124
  | VIRGL_FORMAT_R9G9B9E5_FLOAT => 125 | VIRGL_FORMAT_Z32_FLOAT_S8X24_UINT => 126
  | VIRGL_FORMAT_R1_UNORM => 127 | VIRGL_FORMAT_R10G10B10X2_USCALED => 128
  | VIRGL_FORMAT_R10G10B10X2_SNORM => 129 | VIRGL_FORMAT_L4A4_UNORM => 130
  | VIRGL_FORMAT_B10G10R10A2_UNORM => 131 | VIRGL_FORMAT_R10SG10SB10SA2U_NORM => 132
  | VIRGL_FORMAT_R8G8Bx_SNORM => 133 | VIRGL_FORMAT_R8G8B8X8_UNORM => 134
  | VIRGL_FORMAT_B4G4R4X4_UNORM => 135 | VIRGL_FORMAT_X24S8_UINT => 136
  | VIRGL_FORMAT_S8X24_UINT => 137 | VIRGL_FORMAT_X32_S8X24_UINT => 138
  | VIRGL_FORMAT_B2G3R3_UNORM => 139 | VIRGL_FORMAT_L16A16_UNORM => 140
  | VIRGL_FORMAT_A16_UNORM => 141 | VIRGL_FORMAT_I16_UNORM => 142
  | VIRGL_FORMAT_LATC1_UNORM => 143 | VIRGL_FORMAT_LATC1_SNORM => 144
  | VIRGL_FORMAT_LATC2_UNORM => 145 | VIRGL_FORMAT_LATC2_SNORM => 146
  | VIRGL_FORMAT_A8_SNORM => 147 | VIRGL_FORMAT_L8_SNORM => 148 | VIRGL_FORMAT_L8A8_SNORM => 149
  | VIRGL_FORMAT_I8_SNORM => 150 | VIRGL_FORMAT_A16_SNORM => 151 | VIRGL_FORMAT_L16_SNORM => 152
  | VIRGL_FORMAT_L16A16_SNORM => 153 | VIRGL_FORMAT_I16_SNORM => 154
  | VIRGL_FORMAT_A16_FLOAT => 155 | VIRGL_FORMAT_L16_FLOAT => 156
  | VIRGL_FORMAT_L16A16_FLOAT => 157 | VIRGL_FORMAT_I16_FLOAT => 158
  | VIRGL_FORMAT_A32_FLOAT => 159 | VIRGL_FORMAT_L32_FLOAT => 160
  | VIRGL_FORMAT_L32A32_FLOAT => 161 | VIRGL_FORMAT_I32_FLOAT => 162 | VIRGL_FORMAT_YV12 => 163
  | VIRGL_FORMAT_YV16 => 164 | VIRGL_FORMAT_IYUV => 165 | VIRGL_FORMAT_NV12 => 166
  | VIRGL_FORMAT_NV21 => 167 | VIRGL_FORMAT_A4R4_UNORM => 168 | VIRGL_FORMAT_R4A4_UNORM => 169
  | VIRGL_FORMAT_R8A8_UNORM => 170 | VIRGL_FORMAT_A8R8_UNORM => 171
  | VIRGL_FORMAT_R10G10B10A2_SSCALED => 172 | VIRGL_FORMAT_R10G10B10A2_SNORM => 173
  | VIRGL_FORMAT_B10G10R10A2_USCALED => 174 | VIRGL_FORMAT_B10G10R10A2_SSCALED => 175
  | VIRGL_FORMAT_B10G10R10A2_SNORM => 176 | VIRGL_FORMAT_R8_UINT => 177
  | VIRGL_FORMAT_R8G8_UINT => 178 | VIRGL_FORMAT_R8G8B8_UINT => 179
  | VIRGL_FORMAT_R8G8B8A8_UINT => 180 | VIRGL_FORMAT_R8_SINT => 181
  | VIRGL_FORMAT_R8G8_SINT => 182 | VIRGL_FORMAT_R8G8B8_SINT => 183
  | VIRGL_FORMAT_R8G8B8A8_SINT => 184 | VIRGL_FORMAT_R16_UINT => 185
  | VIRGL_FORMAT_R16G16_UINT => 186 | VIRGL_FORMAT_R16G16B16_UINT => 187
  | VIRGL_FORMAT_R16G16B16A16_UINT => 188 | VIRGL_FORMAT_R16_SINT => 189
  | VIRGL_FORMAT_R16G16_SINT => 190 | VIRGL_FORMAT_R16G16B16_SINT => 191
  | VIRGL_FORMAT_R16G16B16A16_SINT => 192 | VIRGL_FORMAT_R32_UINT => 193
  | VIRGL_FORMAT_R32G32_UINT => 194 | VIRGL_FORMAT_R32G32B32_UINT => 195
  | VIRGL_FORMAT_R32G32B32A32_UINT => 196 | VIRGL_FORMAT_R32_SINT => 197
  | VIRGL_FORMAT_R32G32_SINT => 198 | VIRGL_FORMAT_R32G32B32_SINT => 199
  | VIRGL_FORMAT_R32G32B32A32_SINT => 200 | VIRGL_FORMAT_A8_UINT => 201
  | VIRGL_FORMAT_I8_UINT => 202 | VIRGL_FORMAT_L8_UINT => 203 | VIRGL_FORMAT_L8A8_UINT => 204
  | VIRGL_FORMAT_A8_SINT => 205 | VIRGL_FORMAT_I8_SINT => 206 | VIRGL_FORMAT_L8_SINT => 207
  | VIRGL_FORMAT_L8A8_SINT => 208 | VIRGL_FORMAT_A16_UINT => 209 | VIRGL_FORMAT_I16_UINT => 210
  | VIRGL_FORMAT_L16_UINT => 211 | VIRGL_FORMAT_L16A16_UINT => 212 | VIRGL_FORMAT_A16_SINT => 213
  | VIRGL_FORMAT_I16_SINT => 214 | VIRGL_FORMAT_L16_SINT => 215 | VIRGL_FORMAT_L16A16_SINT => 216
  | VIRGL_FORMAT_A32_UINT => 217 | VIRGL_FORMAT_I32_UINT => 218 | VIRGL_FORMAT_L32_UINT => 219
  | VIRGL_FORMAT_L32A32_UINT => 220 | VIRGL_FORMAT_A32_SINT => 221 | VIRGL_FORMAT_I32_SINT => 222
  | VIRGL_FORMAT_L32_SINT => 223 | VIRGL_FORMAT_L32A32_SINT => 224
  | VIRGL_FORMAT_B10G10R10A2_UINT => 225 | VIRGL_FORMAT_ETC1_RGB8 => 226
  | VIRGL_FORMAT_R8G8_R8B8_UNORM => 227 | VIRGL_FORMAT_G8R8_B8R8_UNORM => 228
  | VIRGL_FORMAT_R8G8B8X8_SNORM => 229 | VIRGL_FORMAT_R8G8B8X8_SRGB => 230
  | VIRGL_FORMAT_R8G8B8X8_UINT => 231 | VIRGL_FORMAT_R8G8B8X8_SINT => 232
  | VIRGL_FORMAT_B10G10R10X2_UNORM => 233 | VIRGL_FORMAT_R16G16B16X16_UNORM => 234
  | VIRGL_FORMAT_R16G16B16X16_SNORM => 235 | VIRGL_FORMAT_R16G16B16X16_FLOAT => 236
  | VIRGL_FORMAT_R16G16B16X16_UINT => 237 | VIRGL_FORMAT_R16G16B16X16_SINT => 238
  | VIRGL_FORMAT_R32G32B32X32_FLOAT => 239 | VIRGL_FORMAT_R32G32B32X32_UINT => 240
  | VIRGL_FORMAT_R32G32B32X32_SINT => 241 | VIRGL_FORMAT_R8A8_SNORM => 242
  | VIRGL_FORMAT_R16A16_UNORM => 243 | VIRGL_FORMAT_R16A16_SNORM => 244
  | VIRGL_FORMAT_R16A16_FLOAT => 245 | VIRGL_FORMAT_R32A32_FLOAT => 246
  | VIRGL_FORMAT_R8A8_UINT => 247 | VIRGL_FORMAT_R8A8_SINT => 248
  | VIRGL_FORMAT_R16A16_UINT => 249 | VIRGL_FORMAT_R16A16_SINT => 250
  | VIRGL_FORMAT_R32A32_UINT => 251 | VIRGL_FORMAT_R32A32_SINT => 252
  | VIRGL_FORMAT_R10G10B10A2_UINT => 253 | VIRGL_FORMAT_B5G6R5_SRGB => 254
  | VIRGL_FORMAT_BPTC_RGBA_UNORM => 255 | VIRGL_FORMAT_BPTC_SRGBA => 256
  | VIRGL_FORMAT_BPTC_RGB_FLOAT => 257 | VIRGL_FORMAT_BPTC_RGB_UFLOAT => 258
  | VIRGL_FORMAT_A16L16_UNORM => 262 | VIRGL_FORMAT_G8R8_UNORM => 263
  | VIRGL_FORMAT_G8R8_SNORM => 264 | VIRGL_FORMAT_G16R16_UNORM => 265
  | VIRGL_FORMAT_G16R16_SNORM => 266 | VIRGL_FORMAT_A8B8G8R8_SNORM => 267
  | VIRGL_FORMAT_A8L8_UNORM => 259 | VIRGL_FORMAT_A8L8_SNORM => 260
  | VIRGL_FORMAT_A8L8_SRGB => 261 | VIRGL_FORMAT_X8B8G8R8_SNORM => 268
  | VIRGL_FORMAT_ETC2_RGB8 => 269 | VIRGL_FORMAT_ETC2_SRGB8 => 270
  | VIRGL_FORMAT_ETC2_RGB8A1 => 271 | VIRGL_FORMAT_ETC2_SRGB8A1 => 272
  | VIRGL_FORMAT_ETC2_RGBA8 => 273 | VIRGL_FORMAT_ETC2_SRGBA8 => 274
  | VIRGL_FORMAT_ETC2_R11_UNORM => 275 | VIRGL_FORMAT_ETC2_R11_SNORM => 276
  | VIRGL_FORMAT_ETC2_RG11_UNORM => 277 | VIRGL_FORMAT_ETC2_RG11_SNORM => 278
  | VIRGL_FORMAT_ASTC_4x4 => 279 | VIRGL_FORMAT_ASTC_5x4 => 280 | VIRGL_FORMAT_ASTC_5x5 => 281
  | VIRGL_FORMAT_ASTC_6x5 => 282 | VIRGL_FORMAT_ASTC_6x6 => 283 | VIRGL_FORMAT_ASTC_8x5 => 284
  | VIRGL_FORMAT_ASTC_8x6 => 285 | VIRGL_FORMAT_ASTC_8x8 => 286 | VIRGL_FORMAT_ASTC_10x5 => 287
  | VIRGL_FORMAT_ASTC_10x6 => 288 | VIRGL_FORMAT_ASTC_10x8 => 289 | VIRGL_FORMAT_ASTC_10x10 => 290
  | VIRGL_FORMAT_ASTC_12x10 => 291 | VIRGL_FORMAT_ASTC_12x12 => 292
  | VIRGL_FORMAT_ASTC_4x4_SRGB => 293 | VIRGL_FORMAT_ASTC_5x4_SRGB => 294
  | VIRGL_FORMAT_ASTC_5x5_SRGB => 295 | VIRGL_FORMAT_ASTC_6x5_SRGB => 296
  | VIRGL_FORMAT_ASTC_6x6_SRGB => 297 | VIRGL_FORMAT_ASTC_8x5_SRGB => 298
  | VIRGL_FORMAT_ASTC_8x6_SRGB => 299 | VIRGL_FORMAT_ASTC_8x8_SRGB => 300
  | VIRGL_FORMAT_ASTC_10x5_SRGB => 301 | VIRGL_FORMAT_ASTC_10x6_SRGB => 302
  | VIRGL_FORMAT_ASTC_10x8_SRGB => 303 | VIRGL_FORMAT_ASTC_10x10_SRGB => 304
  | VIRGL_FORMAT_ASTC_12x10_SRGB => 305 | VIRGL_FORMAT_ASTC_12x12_SRGB => 306
  | VIRGL_FORMAT_R10G10B10X2_UNORM => 308 | VIRGL_FORMAT_A4B4G4R4_UNORM => 311
  | VIRGL_FORMAT_R8_SRGB => 312 | VIRGL_FORMAT_R8G8_SRGB => 313 | VIRGL_FORMAT_P010 => 314
  | VIRGL_FORMAT_P012 => 315 | VIRGL_FORMAT_P016 => 316 | VIRGL_FORMAT_B8G8R8_UNORM => 317
  | VIRGL_FORMAT_R3G3B2_UNORM => 318 | VIRGL_FORMAT_R4G4B4A4_UNORM => 319
  | VIRGL_FORMAT_R5G5B5A1_UNORM => 320 | VIRGL_FORMAT_R5G6B5_UNORM => 321
  | VIRGL_FORMAT_MAX => 322 | VIRGL_FORMAT_B8G8R8X8_UNORM_EMULATED => 323
  | VIRGL_FORMAT_B8G8R8A8_UNORM_EMULATED => 324 | VIRGL_FORMAT_MAX_EXTENDED => 325
  end.
End VirglFormats.

(** Object types of the 3D stream. *)
Module VirglObjectType.
Inductive t :=
| VIRGL_OBJECT_NULL | VIRGL_OBJECT_BLEND | VIRGL_OBJECT_RASTERIZER | VIRGL_OBJECT_DSA
| VIRGL_OBJECT_SHADER | VIRGL_OBJECT_VERTEX_ELEMENTS | VIRGL_OBJECT_SAMPLER_VIEW
| VIRGL_OBJECT_SAMPLER_STATE | VIRGL_OBJECT_SURFACE | VIRGL_OBJECT_QUERY
| VIRGL_OBJECT_STREAMOUT_TARGET | VIRGL_OBJECT_MSAA_SURFACE | VIRGL_MAX_OBJECTS.

Definition as_u32 (x : t) : Z :=
  match x with
  | VIRGL_OBJECT_NULL => 0 | VIRGL_OBJECT_BLEND => 1 | VIRGL_OBJECT_RASTERIZER => 2
  | VIRGL_OBJECT_DSA => 3 | VIRGL_OBJECT_SHADER => 4 | VIRGL_OBJECT_VERTEX_ELEMENTS => 5
  | VIRGL_OBJECT_SAMPLER_VIEW => 6 | VIRGL_OBJECT_SAMPLER_STATE => 7 | VIRGL_OBJECT_SURFACE => 8
  | VIRGL_OBJECT_QUERY => 9 | VIRGL_OBJECT_STREAMOUT_TARGET => 10
  | VIRGL_OBJECT_MSAA_SURFACE => 11 | VIRGL_MAX_OBJECTS => 12
  end.
End VirglObjectType.

Definition PIPE_CLEAR_DEPTH : Z := Z.shiftl 1 0.
Definition PIPE_CLEAR_STENCIL : Z := Z.shiftl 1 1.
Definition PIPE_CLEAR_COLOR0 : Z := Z.shiftl 1 2.
Definition PIPE_CLEAR_COLOR1 : Z := Z.shiftl 1 3.
Definition PIPE_CLEAR_COLOR2 : Z := Z.shiftl 1 4.
Definition PIPE_CLEAR_COLOR3 : Z := Z.shiftl 1 5.
Definition PIPE_CLEAR_COLOR4 : Z := Z.shiftl 1 6.
Definition PIPE_CLEAR_COLOR5 : Z := Z.shiftl 1 7.
Definition PIPE_CLEAR_COLOR6 : Z := Z.shiftl 1 8.
Definition PIPE_CLEAR_COLOR7 : Z := Z.shiftl 1 9.
Definition PIPE_BIND_DEPTH_STENCIL : Z := Z.shiftl 1 0.
Definition PIPE_BIND_RENDER_TARGET : Z := Z.shiftl 1 1.
Definition PIPE_BIND_BLENDABLE : Z := Z.shiftl 1 2.
Definition PIPE_BIND_SAMPLER_VIEW : Z := Z.shiftl 1 3.
Definition PIPE_BIND_VERTEX_BUFFER : Z := Z.shiftl 1 4.
Definition PIPE_BIND_INDEX_BUFFER : Z := Z.shiftl 1 5.
Definition PIPE_BIND_CONSTANT_BUFFER : Z := Z.shiftl 1 6.
Definition PIPE_BIND_DISPLAY_TARGET : Z := Z.shiftl 1 8.
Definition PIPE_BIND_TRANSFER_WRITE : Z := Z.shiftl 1 9.
Definition PIPE_BIND_TRANSFER_READ : Z := Z.shiftl 1 10.
Definition PIPE_BIND_STREAM_OUTPUT : Z := Z.shiftl 1 11.
Definition PIPE_BIND_CURSOR : Z := Z.shiftl 1 16.
Definition PIPE_BIND_CUSTOM : Z := Z.shiftl 1 17.
Definition PIPE_BIND_GLOBAL : Z := Z.shiftl 1 18.
Definition PIPE_BIND_SHADER_RESOURCE : Z := Z.shiftl 1 19.
Definition PIPE_BIND_COMPUTE_RESOURCE : Z := Z.shiftl 1 20.
Definition PIPE_BIND_COMMAND_ARGS_BUFFER : Z := Z.shiftl 1 21.
Definition PIPE_BIND_QUERY_BUFFER : Z := Z.shiftl 1 22.
Definition PIPE_BIND_SCANOUT : Z := Z.shiftl 1 14.
Definition PIPE_BIND_SHARED : Z := Z.shiftl 1 15.
Definition PIPE_BIND_LINEAR : Z := Z.shiftl 1 21.

(** [PIPE_CLEAR_COLOR]: all color buffers currently bound. *)
Definition PIPE_CLEAR_COLOR : Z :=
  foldr Z.lor 0 [PIPE_CLEAR_COLOR0; PIPE_CLEAR_COLOR1; PIPE_CLEAR_COLOR2; PIPE_CLEAR_COLOR3;
                 PIPE_CLEAR_COLOR4; PIPE_CLEAR_COLOR5; PIPE_CLEAR_COLOR6; PIPE_CLEAR_COLOR7].
Definition PIPE_CLEAR_DEPTHSTENCIL : Z := Z.lor PIPE_CLEAR_DEPTH PIPE_CLEAR_STENCIL.

(** ** Fixed layouts: a structure is a list of little-endian fields *)
Definition encode (fs : list (nat * Z)) : list Z := fs ≫= λ '(n, v), le_bytes n v.

Fixpoint value (bs : list Z) : Z :=
  match bs with
  | [] => 0
  | b :: bs => b + 256 * value bs
  end.

(** The fields of the given sizes, read one after the other. *)
Fixpoint decode (sizes : list nat) (bs : list Z) : list Z :=
  match sizes with
  | [] => []
  | n :: sizes => value (take n bs) :: decode sizes (drop n bs)
  end.

(** A structure passed to [request<T>]: its bytes, as many as [size_of_val]. *)
Class ReprC (T : Type) := {
  fields : T → list (nat * Z);
  repr_size : Z;
  fields_size x : len (encode (fields x)) = repr_size
}.
Definition to_bytes {T} `{ReprC T} (x : T) : list Z := encode (fields x).

Record VirtioGpuCtrlHdr := {
  type_ : VirtioGpuCtrlType.t; flags : Z; fence_id : Z; ctx_id : Z; ring_idx : Z
}.
Definition hdr_default : VirtioGpuCtrlHdr :=
  {| type_ := VirtioGpuCtrlType.VirtioGpuCmdGetDisplayInfo; flags := 0; fence_id := 0; ctx_id := 0; ring_idx := 0 |}.
(** [VirtioGpuCtrlHdr { type_, ctx_id, ..Default::default() }] *)
Definition hdr (ty : VirtioGpuCtrlType.t) (ctx : Z) : VirtioGpuCtrlHdr :=
  {| type_ := ty; flags := flags hdr_default; fence_id := fence_id hdr_default; ctx_id := ctx;
     ring_idx := ring_idx hdr_default |}.

(** The last three bytes are the [padding] array, which every value of the code
    sets to 0. *)
Definition hdr_fields (h : VirtioGpuCtrlHdr) : list (nat * Z) :=
  [(4%nat, VirtioGpuCtrlType.as_u32 (type_ h)); (4%nat, flags h); (8%nat, fence_id h); (4%nat, ctx_id h);
   (1%nat, ring_idx h); (1%nat, 0); (1%nat, 0); (1%nat, 0)].

Record VirtioGpuRect := { x : Z; y : Z; w : Z; h : Z }.
Definition rect_fields (r : VirtioGpuRect) : list (nat * Z) := [(4%nat, x r); (4%nat, y r); (4%nat, w r); (4%nat, h r)].

Record VirtioGpuDisplay := { rect : VirtioGpuRect; enabled : Z; display_flags : Z }.

Record VirtioGpuCmdResourceCreate2d := {
  create2d_header : VirtioGpuCtrlHdr; create2d_resource_id : Z; create2d_format : VirtioGpuFormats.t;
  create2d_width : Z; create2d_height : Z
}.
Record VirtioGpuCmdResourceAttachBacking := {
  attach_header : VirtioGpuCtrlHdr; attach_resource_id : Z; attach_nr_entries : Z; attach_addr : Z;
  attach_length : Z; attach_padding : Z
}.
Record VirtioGpuCmdSetScanout := {
  scanout_header : VirtioGpuCtrlHdr; scanout_r : VirtioGpuRect; scanout_id : Z; scanout_resource_id : Z
}.
Record VirtioGpuCmdTransferToHost2d := {
  transfer_header : VirtioGpuCtrlHdr; transfer_r : VirtioGpuRect; transfer_offset : Z; transfer_resource_id : Z;
  transfer_padding : Z
}.
Record VirtioGpuCmdResourceFlush := {
  flush_header : VirtioGpuCtrlHdr; flush_r : VirtioGpuRect; flush_resource_id : Z; flush_padding : Z
}.
(** [debug_name] is an array of 64 [char]s of four bytes each. *)
Record VirtioGpuCmdCtxCreate := {
  ctx_header : VirtioGpuCtrlHdr; ctx_nlen : Z; ctx_context_init : Z; ctx_debug_name : vec Z 64
}.
Record VirtioGpuCmdGetCapsetInfo := { capset_header : VirtioGpuCtrlHdr; capset_index : Z; capset_padding : Z }.
Record VirtioGpuCmdSubmit3d := { submit_header : VirtioGpuCtrlHdr; submit_len : Z; submit_buffer : vec Z 512 }.
Record VirtioGpuCmdCtxAttachResource := { ctxattach_header : VirtioGpuCtrlHdr; ctxattach_handle : Z; ctxattach_padding : Z }.

Record VirglRendererResourceCreateArgs := {
  args_handle : Z; args_target : PipeTextureTarget.t; args_format : VirglFormats.t; args_bind : Z; args_width : Z;
  args_height : Z; args_depth : Z; args_array_size : Z; args_last_level : Z; args_nr_samples : Z; args_flags : Z
}.
Definition args_default : VirglRendererResourceCreateArgs :=
  {| args_handle := 0; args_target := PipeTextureTarget.PIPE_TEXTURE_2D;
     args_format := VirglFormats.VIRGL_FORMAT_R8G8B8A8_UNORM; args_bind := PIPE_BIND_RENDER_TARGET;
     args_width := 128; args_height := 128; args_depth := 1; args_array_size := 1; args_last_level := 0;
     args_nr_samples := 0; args_flags := 0 |}.
Record VirtioGpuCmdResourceCreate3d := {
  create3d_header : VirtioGpuCtrlHdr; create3d_args : VirglRendererResourceCreateArgs; create3d_padding : Z
}.

Ltac repr_size := intros []; unfold encode; simpl; rewrite ?len_app, ?len_le_bytes, ?len_nil; reflexivity.

#[export] Program Instance repr_hdr : ReprC VirtioGpuCtrlHdr := {| fields := hdr_fields; repr_size := 24 |}.
Next Obligation. repr_size. Qed.
#[export] Program Instance repr_create2d : ReprC VirtioGpuCmdResourceCreate2d := {|
  fields m := hdr_fields (create2d_header m) ++ [(4%nat, create2d_resource_id m);
    (4%nat, VirtioGpuFormats.as_u32 (create2d_format m)); (4%nat, create2d_width m); (4%nat, create2d_height m)];
  repr_size := 40 |}.
Next Obligation. repr_size. Qed.
#[export] Program Instance repr_attach : ReprC VirtioGpuCmdResourceAttachBacking := {|
  fields m := hdr_fields (attach_header m) ++ [(4%nat, attach_resource_id m); (4%nat, attach_nr_entries m);
    (8%nat, attach_addr m); (4%nat, attach_length m); (4%nat, attach_padding m)];
  repr_size := 48 |}.
Next Obligation. repr_size. Qed.
#[export] Program Instance repr_scanout : ReprC VirtioGpuCmdSetScanout := {|
  fields m := hdr_fields (scanout_header m) ++ rect_fields (scanout_r m) ++ [(4%nat, scanout_id m); (4%nat, scanout_resource_id m)];
  repr_size := 48 |}.
Next Obligation. repr_size. Qed.
#[export] Program Instance repr_transfer : ReprC VirtioGpuCmdTransferToHost2d := {|
  fields m := hdr_fields (transfer_header m) ++ rect_fields (transfer_r m) ++ [(8%nat, transfer_offset m);
    (4%nat, transfer_resource_id m); (4%nat, transfer_padding m)];
  repr_size := 56 |}.
Next Obligation. repr_size. Qed.
#[export] Program Instance repr_flush : ReprC VirtioGpuCmdResourceFlush := {|
  fields m := hdr_fields (flush_header m) ++ rect_fields (flush_r m) ++ [(4%nat, flush_resource_id m); (4%nat, flush_padding m)];
  repr_size := 48 |}.
Next Obligation. repr_size. Qed.
#[export] Program Instance repr_capset : ReprC VirtioGpuCmdGetCapsetInfo := {|
  fields m := hdr_fields (capset_header m) ++ [(4%nat, capset_index m); (4%nat, capset_padding m)];
  repr_size := 32 |}.
Next Obligation. repr_size. Qed.
#[export] Program Instance repr_ctxattach : ReprC VirtioGpuCmdCtxAttachResource := {|
  fields m := hdr_fields (ctxattach_header m) ++ [(4%nat, ctxattach_handle m); (4%nat, ctxattach_padding m)];
  repr_size := 32 |}.
Next Obligation. repr_size. Qed.
Definition args_fields (a : VirglRendererResourceCreateArgs) : list (nat * Z) :=
  [(4%nat, args_handle a); (4%nat, PipeTextureTarget.as_u32 (args_target a));
   (4%nat, VirglFormats.as_u32 (args_format a)); (4%nat, args_bind a); (4%nat, args_width a);
   (4%nat, args_height a); (4%nat, args_depth a); (4%nat, args_array_size a); (4%nat, args_last_level a);
   (4%nat, args_nr_samples a); (4%nat, args_flags a)].
#[export] Program Instance repr_create3d : ReprC VirtioGpuCmdResourceCreate3d := {|
  fields m := hdr_fields (create3d_header m) ++ args_fields (create3d_args m) ++ [(4%nat, create3d_padding m)];
  repr_size := 72 |}.
Next Obligation. repr_size. Qed.

Lemma len_encode_words {n} (v : vec Z n) : len (encode ((λ x, (4%nat, x)) <$> vec_to_list v)) = 4 * Z.of_nat n.
Proof.
  unfold encode. induction v as [|a n v IH]; [done|]. simpl vec_to_list. rewrite fmap_cons, bind_cons, len_app, IH.
  rewrite len_le_bytes. lia.
Qed.
Lemma encode_app fs gs : encode (fs ++ gs) = encode fs ++ encode gs.
Proof. apply bind_app. Qed.

#[export] Program Instance repr_ctx : ReprC VirtioGpuCmdCtxCreate := {|
  fields m := hdr_fields (ctx_header m) ++ [(4%nat, ctx_nlen m); (4%nat, ctx_context_init m)] ++
    ((λ x, (4%nat, x)) <$> vec_to_list (ctx_debug_name m));
  repr_size := 288 |}.
Next Obligation. intros m. cbv beta. rewrite !encode_app, !len_app, len_encode_words. reflexivity. Qed.
(** The structure is aligned to 8 bytes: four bytes of padding end it. *)
#[export] Program Instance repr_submit : ReprC VirtioGpuCmdSubmit3d := {|
  fields m := hdr_fields (submit_header m) ++ [(4%nat, submit_len m)] ++
    ((λ x, (4%nat, x)) <$> vec_to_list (submit_buffer m)) ++ [(4%nat, 0)];
  repr_size := 2080 |}.
Next Obligation. intros m. cbv beta. rewrite !encode_app, !len_app, len_encode_words. reflexivity. Qed.

(** ** Decoding *)
Lemma value_le_bytes n v : value (le_bytes n v) = v mod 256 ^ Z.of_nat n.
Proof.
  revert v; induction n as [|n IH]; intros v; [by rewrite Z.mod_1_r|].
  change (le_bytes (S n) v) with (v mod 256 :: le_bytes n (v / 256)). cbn [value].
  rewrite IH, Nat2Z.inj_succ, Z.pow_succ_r, Z.rem_mul_r by lia. done.
Qed.

Definition field_fits (f : nat * Z) : Prop := 0 ≤ f.2 < 256 ^ Z.of_nat f.1.

Lemma decode_encode fs rest : Forall field_fits fs → decode (fst <$> fs) (encode fs ++ rest) = snd <$> fs.
Proof.
  induction 1 as [|[n v] fs Hf Hfs IH]; [done|]. unfold encode in *. cbn [fmap list_fmap fst snd decode].
  rewrite bind_cons, <-app_assoc. rewrite take_app_length', drop_app_length' by by rewrite le_bytes_length.
  rewrite IH, value_le_bytes. f_equal. by apply Z.mod_small.
Qed.

Lemma decode_encode_nil fs : Forall field_fits fs → decode (fst <$> fs) (encode fs) = snd <$> fs.
Proof. intros Hf. rewrite <-(app_nil_r (encode fs)). by apply decode_encode. Qed.

Lemma ctrl_type_fits ty : 0 ≤ VirtioGpuCtrlType.as_u32 ty < 256 ^ Z.of_nat 4.
Proof. destruct ty; vm_compute; split; congruence. Qed.
Lemma format_fits f : 0 ≤ VirtioGpuFormats.as_u32 f < 256 ^ Z.of_nat 4.
Proof. destruct f; vm_compute; split; congruence. Qed.

(** The header as the specification lays it out: type, flags, fence, context,
    and a word of ring index and padding. *)
Definition header_words (ty : VirtioGpuCtrlType.t) (ctx : Z) : list (nat * Z) :=
  [(4%nat, VirtioGpuCtrlType.as_u32 ty); (4%nat, 0); (8%nat, 0); (4%nat, ctx); (4%nat, 0)].

Lemma encode_header ty ctx : encode (hdr_fields (hdr ty ctx)) = encode (header_words ty ctx).
Proof. done. Qed.

Lemma header_words_fit ty ctx : fits 32 ctx → Forall field_fits (header_words ty ctx).
Proof.
  intros Hc. repeat constructor; try apply ctrl_type_fits; unfold fits in *; simpl; lia.
Qed.

(** A message of the code, read with the sizes of the specification. *)
Lemma decode_message ty ctx fs rest :
  fits 32 ctx → Forall field_fits fs →
  decode (fst <$> (header_words ty ctx ++ fs)) (encode (hdr_fields (hdr ty ctx) ++ fs) ++ rest) =
  snd <$> (header_words ty ctx ++ fs).
Proof.
  intros Hc Hf. rewrite encode_app, encode_header, <-encode_app. apply decode_encode.
  apply Forall_app. split; [by apply header_words_fit|done].
Qed.

Definition rect_fits (r : VirtioGpuRect) : Prop := fits 32 (x r) ∧ fits 32 (y r) ∧ fits 32 (w r) ∧ fits 32 (h r).

Ltac fit_fields :=
  unfold rect_fits, fits in *; repeat (constructor; [unfold field_fits; simpl; try apply format_fits; lia|]); constructor.

(** The 3D stream is misplaced. The specification (5.7.6.8,
    [virtio_gpu_cmd_submit]) puts a padding word between the size and the
    stream; the structure of the code has none, so the device takes the first
    command word for padding and reads the stream from its second word on. *)
Theorem submit3d_stream_misplaced ctx len_ (buffer : vec Z 512) :
  fits 32 ctx → fits 32 len_ → Forall (fits 32) buffer →
  ∃ first rest, vec_to_list buffer = first :: rest ∧
  decode ([4; 4; 8; 4; 4; 4; 4] ++ replicate 511 4)%nat
    (to_bytes {| submit_header := hdr VirtioGpuCtrlType.VirtioGpuCmdSubmit3d ctx; submit_len := len_; submit_buffer := buffer |}) =
  [VirtioGpuCtrlType.as_u32 VirtioGpuCtrlType.VirtioGpuCmdSubmit3d; 0; 0; ctx; 0] ++ [len_; first] ++ rest.
Proof.
  intros Hc Hl Hb. pose proof (length_vec_to_list buffer) as Hn.
  unfold to_bytes. cbn [fields repr_submit submit_header submit_len submit_buffer].
  destruct (vec_to_list buffer) as [|first rest]; [done|]. injection Hn as Hn.
  exists first, rest. split; [done|].
  set (fs := [(4%nat, len_)] ++ ((λ v, (4%nat, v)) <$> first :: rest)).
  assert (encode (hdr_fields (hdr VirtioGpuCtrlType.VirtioGpuCmdSubmit3d ctx) ++ [(4%nat, len_)] ++
    ((λ v, (4%nat, v)) <$> first :: rest) ++ [(4%nat, 0)]) =
    encode (hdr_fields (hdr VirtioGpuCtrlType.VirtioGpuCmdSubmit3d ctx) ++ fs) ++ encode [(4%nat, 0)]) as ->.
  { by rewrite <-encode_app, <-!app_assoc. }
  pose proof (decode_message VirtioGpuCtrlType.VirtioGpuCmdSubmit3d ctx fs (encode [(4%nat, 0)]) Hc) as Hd.
  assert (fst <$> fs = [4; 4]%nat ++ replicate 511 4%nat) as Hs.
  { unfold fs. rewrite fmap_app, <-list_fmap_compose. cbn [fmap list_fmap app compose fst]. do 2 f_equal.
    rewrite <-Hn. clear. induction rest as [|a rest IH]; [done|]. simpl. by f_equal. }
  assert (snd <$> fs = [len_; first] ++ rest) as Hv.
  { unfold fs. rewrite fmap_app, <-list_fmap_compose. cbn [fmap list_fmap app compose snd]. do 2 f_equal.
    clear. induction rest as [|a rest IH]; [done|]. simpl. by f_equal. }
  rewrite !fmap_app, Hs, Hv in Hd. etrans; [|apply Hd]; [by rewrite app_assoc|].
  unfold fs. apply Forall_app. split; [constructor; [done|constructor]|].
  apply Forall_fmap. eapply Forall_impl; [exact Hb|]. done.
Qed.

Lemma submit3d_stream_misplaced_witness :
  ∃ rest, decode ([4; 4; 8; 4; 4; 4; 4] ++ replicate 511 4)%nat
    (to_bytes {| submit_header := hdr VirtioGpuCtrlType.VirtioGpuCmdSubmit3d 1; submit_len := 19;
                 submit_buffer := vreplicate 512 0x50801 |}) = 0x207 :: rest.
Proof.
  destruct (submit3d_stream_misplaced 1 19 (vreplicate 512 0x50801)) as (f & r & _ & H).
  - by split; vm_compute.
  - by split; vm_compute.
  - apply (bool_decide_unpack _). by vm_compute.
  - exists ([0; 0; 1; 0] ++ [19; f] ++ r). exact H.
Defined.
