(* ===== verification/Gpu.v ===== *)
(** The virtio-gpu driver ([bootloader/kernel/src/drivers/virtio_gpu.rs]): the
    wakers that connect completions to waiting requests, [request] around its
    await, the task that reaps completions, and the 3D command stream. *)
From S2P Require Import Prelude Bytes Interfaces Pci Virtio GpuTypes.

(** ** Wakers

    An [AtomicWaker] (crate [futures]) holds the waker registered last; a waker
    is the id of the task it wakes. *)
Inductive IdWaker := INone | IDone | IWaker (task : Z).

Module IdWakerImpl.
(** The new slot and the task woken, if any. *)
Definition wake (slot : IdWaker) : IdWaker * option Z :=
  let old := slot in
  match old with
  | IWaker e => (IDone, Some e)
  | _ => (IDone, None)
  end.
End IdWakerImpl.

Definition WAKERS : list IdWaker := replicate 256 INone.

Module IdWait.
(** [IdWait::poll] on its slot: the two critical sections, and whether the
    future is ready. *)
Definition poll (slot : IdWaker) (task : Z) : IdWaker * bool :=
  match slot with
  | INone => (IWaker task, false)
  | IDone => (INone, true)
  | IWaker _ =>
      let slot := IWaker task in
      match slot with
      | IDone => (INone, true)
      | _ => (slot, false)
      end
  end.

(** The slot of descriptor [id] in the table. *)
Definition poll_at (id task : Z) : M (list IdWaker) bool := λ arr,
  slot ← index arr id;
  let '(slot, ready) := poll slot task in
  arr ← update arr id slot;
  Ok (ready, arr).
End IdWait.

(** ** Requests *)
Section request.
Context {D : Type} `{VirtioDevice D} `{X86Addr}.

(** [request] up to its await: two descriptors, the chain, the doorbell. *)
Definition request_start {T} `{ReprC T} (phys_offset : Z) (data : T) : M (sys D) (Z * Z) :=
  twice ← VirtioImpl.get_free_twice_desc_id;
  match twice with
  | Some (desc_id, desc_next_id) =>
      VirtioImpl.add_request desc_id desc_next_id (to_bytes data) ;;
      VirtioImpl.kick phys_offset 0 ;;
      mret (desc_id, desc_next_id)
  | None => lift (Panic (PExplicit "No more desc available"))
  end.

(** ... and after it. *)
Definition request_finish (desc_id desc_next_id : Z) : M (sys D) Desc :=
  VirtioImpl.set_free_desc_id desc_id ;;
  VirtioImpl.set_free_desc_id desc_next_id ;;
  VirtioImpl.read_desc desc_next_id.

(** What the reaping task does for one completion: the tasks it wakes are
    collected in order. *)
Definition wake_used (used : UsedElem) : M (sys D * (list IdWaker * list Z)) unit := λ '(s, (arr, woken)),
  slot ← index arr (used_id used);
  let '(slot, t) := IdWakerImpl.wake slot in
  arr ← update arr (used_id used) slot;
  Ok (tt, (s, (arr, woken ++ match t with Some t => [t] | None => [] end))).

(** The ['checkall] loop. *)
Definition checkall (fuel : nat) : M (sys D * (list IdWaker * list Z)) bool :=
  while_some fuel (VirtioImpl.on_sys VirtioImpl.next_used) wake_used.
End request.

(** ** The 3D command stream *)
Definition cmd_clear (buffer : list Z) (buffers : Z) (rgba : list Z) (depth : Z) (stencil : Z) : res (list Z) :=
  let len := 8 in
  let buffer := buffer ++ [(len <<u[32] 16) +u[32] (0 <<u[32] 8) +u[32] Cmd3d.as_u32 Cmd3d.VIRGL_CCMD_CLEAR] in
  let buffer := buffer ++ [buffers] in
  r0 ← index rgba 0; let buffer := buffer ++ [r0] in
  r1 ← index rgba 1; let buffer := buffer ++ [r1] in
  r2 ← index rgba 2; let buffer := buffer ++ [r2] in
  r3 ← index rgba 3; let buffer := buffer ++ [r3] in
  let buffer := buffer ++ [0] in
  let buffer := buffer ++ [0] in
  let buffer := buffer ++ [0] in
  mret buffer.

Definition cmd_set_framebuffer_state (buffer : list Z) (handles : list Z) : list Z :=
  let n := wrap 32 (len handles) +u[32] 2 in
  let buffer := buffer ++ [(n <<u[32] 16) +u[32] (0 <<u[32] 8) +u[32] Cmd3d.as_u32 Cmd3d.VIRGL_CCMD_SET_FRAMEBUFFER_STATE] in
  let buffer := buffer ++ [wrap 32 (len handles)] in
  let buffer := buffer ++ [0] in
  fold_left (λ buffer handle, buffer ++ [handle]) handles buffer.

Definition cmd_create_surface (buffer : list Z) (handle : Z) (format : VirglFormats.t) : list Z :=
  let len := 5 in
  let buffer := buffer ++ [Z.lor (Z.lor (len <<u[32] 16) (VirglObjectType.as_u32 VirglObjectType.VIRGL_OBJECT_SURFACE <<u[32] 8))
                             (Cmd3d.as_u32 Cmd3d.VIRGL_CCMD_CREATE_OBJECT)] in
  buffer ++ [handle; handle; VirglFormats.as_u32 format; 0; 0].

(** The stream the driver submits, with its length, padded to 512 words. *)
Definition first_submit (res_handle : Z) (format : VirglFormats.t) : res (Z * list Z) :=
  let buffer := cmd_create_surface [] res_handle format in
  let buffer := cmd_set_framebuffer_state buffer [res_handle] in
  buffer ← cmd_clear buffer PIPE_CLEAR_COLOR [255; 0; 0; 255] 0 0;
  let n := wrap 32 (len buffer) in
  mret (n, buffer ++ replicate (512 - length buffer) 0).

(** ** No lost wake-up *)

(** What happens to one slot: a task polls its wait, or the device completes. *)
Inductive slot_event := EPoll (task : Z) | EWoken.
Inductive slot_outcome := OPending | OReady | OWoke (task : option Z).

Definition slot_step (slot : IdWaker) (e : slot_event) : IdWaker * slot_outcome :=
  match e with
  | EPoll task => let '(slot, r) := IdWait.poll slot task in (slot, if r : bool then OReady else OPending)
  | EWoken => let '(slot, t) := IdWakerImpl.wake slot in (slot, OWoke t)
  end.

Definition slot_run (h : list slot_event) : IdWaker := fold_left (λ s e, (slot_step s e).1) h INone.
Definition slot_outcome_of (h : list slot_event) (e : slot_event) : slot_outcome := (slot_step (slot_run h) e).2.

(** A wait is pending for [task]: its poll came last and found no completion. *)
Definition waits (h : list slot_event) (task : Z) : Prop :=
  ∃ h', h = h' ++ [EPoll task] ∧ last h' ≠ Some EWoken.

Lemma slot_run_snoc h e : slot_run (h ++ [e]) = (slot_step (slot_run h) e).1.
Proof. unfold slot_run. by rewrite fold_left_app. Qed.

Lemma slot_run_spec h :
  match slot_run h with
  | IDone => last h = Some EWoken
  | IWaker t => waits h t
  | INone => last h ≠ Some EWoken ∧ ∀ t, ¬ waits h t
  end.
Proof.
  induction h as [|e h IH] using rev_ind.
  - split; [done|]. intros t (h' & E & _). by destruct h'.
  - rewrite slot_run_snoc. destruct e as [t|]; [|destruct (slot_run h); apply last_snoc].
    destruct (slot_run h) as [| |t']; simpl.
    + exists h. split; [done|]. apply IH.
    + split; [by rewrite last_snoc|]. intros t' (h' & E & Hl). apply app_inj_tail in E as [-> _]. done.
    + exists h. split; [done|]. destruct IH as (h' & -> & _). by rewrite last_snoc.
Qed.

(** C34: no wake-up is lost and none is invented. Over any history of polls and
    completions of one descriptor, a poll is ready exactly when the event before
    it on the slot was a completion; and a completion wakes the task whose
    pending poll came last, and no other, so that its next poll is ready. *)
Theorem idwait_no_lost_wakeup h t :
  (slot_outcome_of h (EPoll t) = OReady ↔ last h = Some EWoken) ∧
  (slot_outcome_of h EWoken = OWoke (Some t) ↔ waits h t) ∧
  (waits h t → slot_outcome_of (h ++ [EWoken]) (EPoll t) = OReady).
Proof.
  unfold slot_outcome_of. rewrite slot_run_snoc. pose proof (slot_run_spec h) as Hs.
  destruct (slot_run h) as [| |t'] eqn:E; simpl; split_and!; try done.
  - split; [done|]. by destruct Hs.
  - split; [done|]. intros Hw. by apply Hs in Hw.
  - split; [done|]. intros (h' & -> & _). by rewrite last_snoc in Hs.
  - split; [done|]. destruct Hs as (h' & -> & _). by rewrite last_snoc.
  - destruct Hs as (h1 & -> & Hl). split.
    + intros [= ->]. by exists h1.
    + intros (h2 & E2 & _). apply app_inj_tail in E2 as [_ [= ->]]. done.
Qed.

Lemma idwait_no_lost_wakeup_witness :
  slot_outcome_of [EPoll 4; EPoll 7; EWoken] (EPoll 7) = OReady.
Proof.
  apply (idwait_no_lost_wakeup [EPoll 4; EPoll 7] 7). by exists [EPoll 4].
Defined.

(** ** The stream is well formed *)

(** A command: opcode, object type and payload. The host's decoder takes a
    header word (length in the high half, object type and opcode below), then
    that many words. *)
Inductive stream : list Z → list (Z * Z * list Z) → Prop :=
| stream_nil : stream [] []
| stream_cmd hd payload rest cs :
    len payload = hd / 2 ^ 16 → stream rest cs →
    stream (hd :: payload ++ rest) ((hd mod 2 ^ 8, hd / 2 ^ 8 mod 2 ^ 8, payload) :: cs).

Lemma stream_app b cs b' cs' : stream b cs → stream b' cs' → stream (b ++ b') (cs ++ cs').
Proof.
  induction 1 as [|hd payload rest cs Hl Hs IH]; intros Hs'; [done|].
  cbn [app]. rewrite <-app_assoc. constructor; [done|by apply IH].
Qed.

Lemma stream_one hd payload :
  len payload = hd / 2 ^ 16 → stream (hd :: payload) [(hd mod 2 ^ 8, hd / 2 ^ 8 mod 2 ^ 8, payload)].
Proof. intros Hl. rewrite <-(app_nil_r payload) at 1. constructor; [done|constructor]. Qed.

Lemma stream_nops n : stream (replicate n 0) (replicate n (0, 0, [])).
Proof. induction n as [|n IH]; [constructor|]. apply (stream_cmd 0 [] _ _); done. Qed.

Lemma fold_left_snoc {A} (b l : list A) : fold_left (λ b x, b ++ [x]) l b = b ++ l.
Proof.
  revert b; induction l as [|x l IH]; intros b; simpl; [by rewrite app_nil_r|]. by rewrite IH, <-app_assoc.
Qed.

Lemma cmd_create_surface_stream b cs handle format :
  stream b cs →
  stream (cmd_create_surface b handle format) (cs ++ [(1, 8, [handle; handle; VirglFormats.as_u32 format; 0; 0])]).
Proof.
  intros Hs. unfold cmd_create_surface. rewrite <-app_assoc. apply stream_app; [done|].
  by apply (stream_one 0x50801).
Qed.

Lemma cmd_set_framebuffer_state_stream b cs handles :
  len handles < 2 ^ 16 - 2 → stream b cs →
  stream (cmd_set_framebuffer_state b handles) (cs ++ [(5, 0, len handles :: 0 :: handles)]).
Proof.
  intros Hl Hs. pose proof (len_nonneg handles). unfold cmd_set_framebuffer_state. rewrite fold_left_snoc, <-!app_assoc.
  rewrite (wrap_small 32 (len handles)), (wrap_small 32 (len handles + 2)) by (unfold fits; lia).
  rewrite shiftl_mul by lia. change (0 <<u[32] 8) with 0.
  change (Cmd3d.as_u32 Cmd3d.VIRGL_CCMD_SET_FRAMEBUFFER_STATE) with 5.
  rewrite (wrap_small 32 ((len handles + 2) * 2 ^ 16)) by (unfold fits; lia).
  rewrite Z.add_0_r, !wrap_small by (unfold fits; rewrite ?wrap_small by (unfold fits; lia); lia).
  set (hd := (len handles + 2) * 2 ^ 16 + 5). apply stream_app; [done|]. simpl.
  replace 5 with (hd mod 2 ^ 8) by (unfold hd; change (2 ^ 16) with 65536; change (2 ^ 8) with 256; lia).
  replace 0 with (hd / 2 ^ 8 mod 2 ^ 8) at 2 by (unfold hd; change (2 ^ 16) with 65536; change (2 ^ 8) with 256; lia).
  apply stream_one. rewrite !len_cons. unfold hd. change (2 ^ 16) with 65536. lia.
Qed.

Lemma cmd_clear_stream b cs buffers r0 r1 r2 r3 depth stencil :
  stream b cs →
  ∃ b', cmd_clear b buffers [r0; r1; r2; r3] depth stencil = Ok b' ∧
    stream b' (cs ++ [(7, 0, [buffers; r0; r1; r2; r3; 0; 0; 0])]).
Proof.
  intros Hs. unfold cmd_clear. simpl. eexists. split; [done|]. rewrite <-!app_assoc. apply stream_app; [done|].
  by apply (stream_one 0x80007).
Qed.

Lemma gpu_stream_parts res_handle format :
  ∃ buf, first_submit res_handle format = Ok (19, buf) ∧ length buf = 512%nat.
Proof. unfold first_submit. eexists. split; [reflexivity|done]. Qed.

(** The 3D command stream is well formed. Every command function extends a
    well-formed stream by the one command it is named after; the stream the
    driver submits is 512 words: creating the surface, binding it, clearing it
    red, and no-operations, with the 19 words before them as its length. *)
Theorem gpu_stream_well_formed b cs :
  stream b cs →
  (∀ handle format, stream (cmd_create_surface b handle format)
     (cs ++ [(1, 8, [handle; handle; VirglFormats.as_u32 format; 0; 0])])) ∧
  (∀ handles, len handles < 2 ^ 16 - 2 →
     stream (cmd_set_framebuffer_state b handles) (cs ++ [(5, 0, len handles :: 0 :: handles)])) ∧
  (∀ buffers r0 r1 r2 r3 depth stencil, ∃ b', cmd_clear b buffers [r0; r1; r2; r3] depth stencil = Ok b' ∧
     stream b' (cs ++ [(7, 0, [buffers; r0; r1; r2; r3; 0; 0; 0])])) ∧
  (∀ res_handle format, ∃ buf, first_submit res_handle format = Ok (19, buf) ∧ length buf = 512%nat ∧
     stream buf ([(1, 8, [res_handle; res_handle; VirglFormats.as_u32 format; 0; 0]); (5, 0, [1; 0; res_handle]);
       (7, 0, [PIPE_CLEAR_COLOR; 255; 0; 0; 255; 0; 0; 0])] ++ replicate 493 (0, 0, []))).
Proof.
  intros Hs. split_and!; intros.
  - by apply cmd_create_surface_stream.
  - by apply cmd_set_framebuffer_state_stream.
  - by apply cmd_clear_stream.
  - pose proof (cmd_create_surface_stream [] [] res_handle format stream_nil) as S1.
    pose proof (cmd_set_framebuffer_state_stream _ _ [res_handle] ltac:(done) S1) as S2.
    destruct (cmd_clear_stream _ _ PIPE_CLEAR_COLOR 255 0 0 255 0 0 S2) as (b' & E & S3).
    unfold first_submit. rewrite E. simpl in E. injection E as <-.
    eexists. split; [done|]. split; [done|]. apply (stream_app _ _ _ _ S3). apply stream_nops.
Qed.

Lemma gpu_stream_well_formed_witness :
  stream (cmd_create_surface [0] 2 VirglFormats.VIRGL_FORMAT_R8G8B8A8_UNORM) [(0, 0, []); (1, 8, [2; 2; 67; 0; 0])].
Proof.
  destruct (gpu_stream_well_formed [0] [(0, 0, [])] (stream_nops 1)) as [H _].
  exact (H 2 VirglFormats.VIRGL_FORMAT_R8G8B8A8_UNORM).
Defined.

(** ** Completions *)
Section reaping.
Context {D : Type} `{VirtioDevice D}.

(** The tasks waiting in the slots of [es]. *)
Definition waiting (arr : list IdWaker) (es : list UsedElem) : list Z :=
  omap (λ e, match arr !! Z.to_nat (used_id e) with Some (IWaker t) => Some t | _ => None end) es.

(** The table after the completions [es]. *)
Definition completed (arr : list IdWaker) (es : list UsedElem) : list IdWaker :=
  fold_left (λ arr e, <[Z.to_nat (used_id e) := IDone]> arr) es arr.

Lemma completed_snoc arr es e : completed arr (es ++ [e]) = <[Z.to_nat (used_id e) := IDone]> (completed arr es).
Proof. unfold completed. by rewrite fold_left_app. Qed.

Lemma length_completed arr es : length (completed arr es) = length arr.
Proof. induction es as [|e es IH] using rev_ind; [done|]. by rewrite completed_snoc, length_insert. Qed.

Lemma completed_lookup arr es i :
  (i < length arr)%nat → Forall (λ e, 0 ≤ used_id e) es →
  completed arr es !! i = if decide (Z.of_nat i ∈ used_id <$> es) then Some IDone else arr !! i.
Proof.
  intros Hi Hes. induction es as [|e es IH] using rev_ind; [done|].
  apply Forall_app in Hes as [Hes [He _]%Forall_cons]. rewrite completed_snoc, fmap_app.
  destruct (decide (i = Z.to_nat (used_id e))) as [->|Hne].
  - rewrite list_lookup_insert_eq by (rewrite length_completed; done).
    rewrite decide_True; [done|]. apply elem_of_app. right. rewrite Z2Nat.id by done. left.
  - rewrite list_lookup_insert_ne by done. rewrite IH by done.
    destruct (decide (Z.of_nat i ∈ used_id <$> es)) as [Hin|Hin].
    + rewrite decide_True; [done|]. apply elem_of_app. by left.
    + rewrite decide_False; [done|]. intros [?|E]%elem_of_app; [done|].
      apply list_elem_of_singleton in E. simpl in E. lia.
Qed.
End reaping.

(** Every completion reaches its request. The reaping task takes every
    completed element in order and leaves the used ring empty; the slots of the
    completed descriptors, and no others, are marked done, and the tasks waiting
    on them are woken in completion order. *)
Theorem checkall_wakes_completed {D} `{VirtioDevice D} (s : sys D) arr woken last es :
  let qs := queue_size (cfg (dev s)) in let qu := queue_device (cfg (dev s)) in
  0 < qs → (qs | 2 ^ 16) → fits 16 (len es) → fits 16 last → last_of s = Ok last →
  used_queue qs qu (ram s) last es →
  len arr = 256 → Forall (λ e, 0 ≤ used_id e < 256) es → NoDup (used_id <$> es) →
  ∃ s' arr', checkall (Datatypes.S (length es)) (s, (arr, woken)) = Ok (true, (s', (arr', woken ++ waiting arr es))) ∧
    ram s' = ram s ∧ last_of s' = Ok (wrap 16 (last + len es)) ∧
    used_queue qs qu (ram s') (wrap 16 (last + len es)) [] ∧
    ∀ i, (i < 256)%nat → arr' !! i = if decide (Z.of_nat i ∈ used_id <$> es) then Some IDone else arr !! i.
Proof.
  intros qs qu Hq Hdiv Hlen Hlast Hl Hu Harr Hes Hnd. unfold len in Harr.
  destruct (next_used_drain (λ h st, ram st.1 = ram s ∧ st.2 = (completed arr h, woken ++ waiting arr h))
    wake_used qs qu es s (arr, woken) last []) as (s' & x' & R & [I1 I2] & _ & Hu' & Hl'); try done.
  - intros pre e post s1 x1 -> [J1 J2] _ _. cbn [fst snd] in J1, J2. subst x1.
    apply Forall_app in Hes as [Hpre [He _]%Forall_cons]. rewrite fmap_app in Hnd. simpl in Hnd.
    apply NoDup_app in Hnd as (_ & Hni & _).
    assert (Forall (λ e, 0 ≤ used_id e) pre) as Hpre0 by (eapply Forall_impl; [exact Hpre|]; simpl; lia).
    assert (completed arr pre !! Z.to_nat (used_id e) = arr !! Z.to_nat (used_id e)) as Hlk.
    { rewrite completed_lookup by (done || lia). rewrite Z2Nat.id by lia.
      rewrite decide_False; [done|]. intros Hin. apply (Hni _ Hin). left. }
    destruct (lookup_lt_is_Some_2 arr (Z.to_nat (used_id e))) as [slot Hslot]; [lia|].
    exists s1, (completed arr (pre ++ [e]), woken ++ waiting arr (pre ++ [e])).
    unfold wake_used. cbn [app].
    assert (index (completed arr pre) (used_id e) = Ok slot) as ->.
    { apply index_ok. split; [lia|]. by rewrite Hlk. }
    assert (update (completed arr pre) (used_id e) IDone = Ok (completed arr (pre ++ [e]))) as Hupd.
    { rewrite completed_snoc. apply update_in. unfold len. rewrite length_completed. lia. }
    assert (waiting arr (pre ++ [e]) = waiting arr pre ++ match slot with IWaker t => [t] | _ => [] end) as Hw.
    { unfold waiting. rewrite omap_app. simpl. rewrite Hslot. by destruct slot. }
    split_and!; [|done|done|done|done|done].
    rewrite Hw, app_assoc. destruct slot; simpl; by rewrite Hupd.
  - intros h s1 x1 [J1 J2]. destruct (advance_same s1) as (_ & A2 & _). cbn [fst snd] in *. by rewrite A2.
  - split; [done|]. simpl. by rewrite app_nil_r.
  - simpl in I2. subst x'. exists s', (completed arr es). split_and!; [done|done|done|done|].
    intros i Hi. apply completed_lookup; [lia|]. eapply Forall_impl; [exact Hes|]. simpl. lia.
Qed.

#[local] Existing Instance virtio_instance.
Lemma checkall_wakes_completed_witness :
  ∃ s' arr', checkall 2 (example_sys, (<[2%nat := IWaker 9]> WAKERS, [])) = Ok (true, (s', (arr', [9]))) ∧
    arr' !! 2%nat = Some IDone.
Proof.
  destruct (checkall_wakes_completed example_sys (<[2%nat := IWaker 9]> WAKERS) [] 65535 [{| used_id := 2; used_len := 24 |}])
    as (s' & arr' & R & _ & _ & _ & Hl).
  - by vm_compute.
  - exact example_divide.
  - by split; vm_compute.
  - by split; vm_compute.
  - by vm_compute.
  - split; [by vm_compute|]. intros [|[|k]] e He; simplify_eq/=. by vm_compute.
  - by vm_compute.
  - by repeat constructor.
  - apply NoDup_singleton.
  - exists s', arr'. split; [exact R|]. apply (Hl 2%nat). lia.
Defined.

(** ** The life of a request *)
Lemma encode_fits fs : Forall (fits 8) (encode fs).
Proof.
  unfold encode. induction fs as [|[n v] fs IH]; [constructor|]. rewrite bind_cons. apply Forall_app.
  split; [apply le_bytes_fits|done].
Qed.

Section lifecycle.
Context {D : Type} `{VirtioDevice D} `{X86Addr}.

(** The free list of the selected queue. *)
Definition free_of (v : Virtio) : option (list Z) := free <$> queues_free v !! Z.to_nat (Virtio.queue_select v).

Definition with_free (v : Virtio) (l : list Z) : Virtio :=
  VirtioImpl.with_queues_free v (<[Z.to_nat (Virtio.queue_select v) := {| free := l |}]> (queues_free v)).

Lemma with_free_of v l l' : free_of v = Some l → free_of (with_free v l') = Some l'.
Proof.
  unfold free_of, with_free. intros (q & Hq & _)%fmap_Some. cbn.
  rewrite list_lookup_insert_eq; [done|]. by apply lookup_lt_Some in Hq.
Qed.

Lemma free_index v l : 0 ≤ Virtio.queue_select v → free_of v = Some l →
  index (queues_free v) (Virtio.queue_select v) = Ok {| free := l |} ∧
  ∀ l', update (queues_free v) (Virtio.queue_select v) {| free := l' |} =
        Ok (<[Z.to_nat (Virtio.queue_select v) := {| free := l' |}]> (queues_free v)).
Proof.
  unfold free_of. intros Hs0 (q & Hq & ->)%fmap_Some. split.
  - apply index_ok. split; [done|]. by destruct q.
  - intros l'. apply update_in. apply lookup_lt_Some in Hq. unfold len. lia.
Qed.

Lemma get_twice_run (s : sys D) l :
  0 ≤ Virtio.queue_select (drv s) → free_of (drv s) = Some l →
  VirtioImpl.get_free_twice_desc_id s =
    match reverse l with
    | a :: b :: r => Ok (Some (a, b), Sys (with_free (drv s) (reverse r)) (dev s) (ram s) (seen s))
    | _ => Ok (None, Sys (with_free (drv s) l) (dev s) (ram s) (seen s))
    end.
Proof.
  intros Hs0 Hl. destruct (free_index _ _ Hs0 Hl) as [Hi Hu].
  unfold VirtioImpl.get_free_twice_desc_id, mbind, M_bind, gets, lift. rewrite Hi, get_free_twice_spec.
  destruct (reverse l) as [|a [|b r]]; by rewrite Hu.
Qed.

Lemma set_free_run (s : sys D) l d :
  0 ≤ Virtio.queue_select (drv s) → free_of (drv s) = Some l →
  VirtioImpl.set_free_desc_id d s = Ok (tt, Sys (with_free (drv s) (l ++ [d])) (dev s) (ram s) (seen s)).
Proof.
  intros Hs0 Hl. destruct (free_index _ _ Hs0 Hl) as [Hi Hu].
  unfold VirtioImpl.set_free_desc_id, mbind, M_bind, gets, lift. rewrite Hi. unfold QueueFreeDescsImpl.set_free. simpl.
  by rewrite Hu.
Qed.

(** The doorbell of the selected queue, as the notification structure gives it. *)
Definition doorbell (phys_offset : Z) (s : sys D) : option Z :=
  match bar (notify (drv s)) with
  | BarMm a => Some (phys_offset + (a + offset (notify (drv s)) + cap (notify (drv s)) * queue_notify_off (cfg (dev s))))
  | _ => None
  end.

Lemma kick_run (s : sys D) phys_offset q p :
  doorbell phys_offset s = Some p → 0 ≤ phys_offset → p < 2 ^ 47 →
  (∀ a, bar (notify (drv s)) = BarMm a → 0 ≤ a) → 0 ≤ offset (notify (drv s)) → 0 ≤ cap (notify (drv s)) →
  0 ≤ queue_notify_off (cfg (dev s)) →
  VirtioImpl.kick phys_offset q s = Ok (tt, Sys (drv s) (notify_store p q (dev s)) (ram s) (seen s)).
Proof.
  unfold doorbell. intros Hb Hp0 Hp Ha Ho Hc Hn. unfold VirtioImpl.kick, mbind, M_bind, gets, lift. simpl.
  destruct (bar (notify (drv s))) as [|port|a]; [done..|]. injection Hb as <-. specialize (Ha a eq_refl).
  assert (0 ≤ cap (notify (drv s)) * queue_notify_off (cfg (dev s))) by (by apply Z.mul_nonneg_nonneg).
  rewrite !wrap_small by (unfold fits; rewrite ?wrap_small by (unfold fits; lia); lia).
  unfold VirtAddr_add. rewrite PhysAddr_new_ok, VirtAddr_new_ok by lia. done.
Qed.
End lifecycle.

(** The life of a request. With two descriptors free, [request] takes them,
    publishes the message as a chain whose response descriptor is the second
    one, and rings the queue's doorbell once; after the await it puts both back
    and returns the response descriptor. With fewer than two it panics. *)
Theorem request_lifecycle {D} `{VirtioDevice D} `{X86Addr} {T} `{ReprC T}
    (s : sys D) (data : T) phys_offset p l did nid pos ids :
  let c := cfg (dev s) in
  let qs := queue_size c in let qd := queue_desc c in let qa := queue_driver c in
  let b := addr (load_Desc (ram s) (qd + 16 * did)) in
  0 < qs → (qs | 2 ^ 16) → fits 16 qs → 0 ≤ did < qs → 0 ≤ nid < qs → did ≠ nid →
  len ids < qs → repr_size (T:=T) ≤ 4096 →
  disjoint_ranges qd (16 * qs) qa (4 + 2 * qs) →
  disjoint_ranges b (repr_size (T:=T)) qd (16 * qs) → disjoint_ranges b (repr_size (T:=T)) qa (4 + 2 * qs) →
  avail_queue qs qa (ram s) pos ids →
  0 ≤ Virtio.queue_select (drv s) →
  doorbell phys_offset s = Some p → 0 ≤ phys_offset → p < 2 ^ 47 →
  (∀ a, bar (notify (drv s)) = BarMm a → 0 ≤ a) → 0 ≤ offset (notify (drv s)) → 0 ≤ cap (notify (drv s)) →
  0 ≤ queue_notify_off c →
  (free_of (drv s) = Some (l ++ [nid; did]) →
   ∃ m ms, request_start phys_offset data s = Ok ((did, nid),
       Sys (with_free (drv s) l) (notify_store p 0 (dev s)) m (seen s ++ ms)) ∧
     avail_queue qs qa m pos (ids ++ [did]) ∧
     chain qd did nid b (addr (load_Desc (ram s) (qd + 16 * nid))) (to_bytes data) m) ∧
  (free_of (drv s) = Some l → len l < 2 →
   request_start phys_offset data s = Panic (PExplicit "No more desc available")) ∧
  (free_of (drv s) = Some l →
   request_finish did nid s = Ok (load_Desc (ram s) (qd + 16 * nid),
     Sys (with_free (with_free (drv s) (l ++ [did])) ((l ++ [did]) ++ [nid])) (dev s) (ram s) (seen s))).
Proof.
  intros c qs qd qa b Hq Hdiv Hqf Hd Hn Hne Hroom Hsz Hda Hbd Hba Ha Hsel Hp Hp0 Hp47 Hbar Hof Hcap Hno.
  split_and!.
  - intros Hf. unfold request_start. pose proof (get_twice_run s _ Hsel Hf) as Hg.
    rewrite !reverse_app in Hg. simpl in Hg. rewrite reverse_involutive in Hg. rewrite (M_bind_run _ _ _ _ _ Hg). clear Hg.
    set (s1 := Sys _ _ _ _).
    assert (len (to_bytes data) = repr_size (T:=T)) as Hlen by apply fields_size.
    destruct (add_request_publishes s1 pos ids did nid (to_bytes data)) as (m & ms & R & A & Ch & _);
      cbn [s1 dev ram]; try done.
    + unfold fits, qs in *. lia.
    + unfold fits, qs in *. lia.
    + lia.
    + apply encode_fits.
    + by rewrite Hlen.
    + by rewrite Hlen.
    + rewrite (M_bind_run _ _ _ _ _ R). set (s2 := Sys _ _ _ _).
      pose proof (kick_run s2 phys_offset 0 p) as Hk. cbn [s2 s1 drv dev ram seen] in Hk.
      rewrite (M_bind_run _ _ _ _ _ (Hk Hp Hp0 Hp47 Hbar Hof Hcap Hno)). exists m, ms. done.
  - intros Hf Hlt. unfold request_start. pose proof (get_twice_run s _ Hsel Hf) as Hg.
    pose proof (length_reverse l) as Hr. unfold len in Hlt.
    destruct (reverse l) as [|x [|y r]]; simpl in Hr; [| |lia]; by rewrite (M_bind_run _ _ _ _ _ Hg).
  - intros Hf. unfold request_finish. rewrite (M_bind_run _ _ _ _ _ (set_free_run s l did Hsel Hf)).
    set (s1 := Sys _ _ _ _). assert (free_of (drv s1) = Some (l ++ [did])) as Hf1 by by eapply with_free_of.
    by rewrite (M_bind_run _ _ _ _ _ (set_free_run s1 _ nid Hsel Hf1)).
Qed.

#[local] Existing Instance x86_addr_instance.
Lemma request_lifecycle_witness :
  ∃ m ms, request_start 0x10000000000 (hdr VirtioGpuCtrlType.VirtioGpuCmdGetDisplayInfo 0) example_sys =
    Ok ((3, 2), Sys (with_free (drv example_sys) [0; 1]) (notify_store 0x100FE003000 0 (dev example_sys)) m (seen example_sys ++ ms)).
Proof.
  destruct (request_lifecycle example_sys (hdr VirtioGpuCtrlType.VirtioGpuCmdGetDisplayInfo 0) 0x10000000000 0x100FE003000
    [0; 1] 3 2 0 []) as [H _].
  - by vm_compute.
  - exact example_divide.
  - by split; vm_compute.
  - by split; vm_compute.
  - by split; vm_compute.
  - done.
  - by vm_compute.
  - by vm_compute.
  - left. by vm_compute.
  - right. left. by vm_compute.
  - right. left. by vm_compute.
  - exact example_avail.
  - by vm_compute.
  - by vm_compute.
  - by vm_compute.
  - by vm_compute.
  - intros a E. injection E as <-. by vm_compute.
  - by vm_compute.
  - by vm_compute.
  - by vm_compute.
  - destruct (H ltac:(reflexivity)) as (m & ms & R & _). exists m, ms. exact R.
Defined.
