(* ===== verification/GpuStart.v ===== *)
(** How the GPU driver brings the display up ([drive] of
    [bootloader/kernel/src/drivers/virtio_gpu.rs]): the messages it sends, in
    order, byte by byte, and what a device that reads them with the structures of
    the virtio specification (5.7.6) answers and does, to the well-formed ones and
    to the others. *)
From stdpp Require Import vector.
From S2P Require Import Prelude Bytes GpuTypes Gpu.

Inductive message :=
| MHdr (h : VirtioGpuCtrlHdr)
| MCapset (m : VirtioGpuCmdGetCapsetInfo)
| MCreate2d (m : VirtioGpuCmdResourceCreate2d)
| MAttach (m : VirtioGpuCmdResourceAttachBacking)
| MScanout (m : VirtioGpuCmdSetScanout)
| MTransfer (m : VirtioGpuCmdTransferToHost2d)
| MFlush (m : VirtioGpuCmdResourceFlush)
| MCtxCreate (m : VirtioGpuCmdCtxCreate)
| MCreate3d (m : VirtioGpuCmdResourceCreate3d)
| MCtxAttach (m : VirtioGpuCmdCtxAttachResource)
| MSubmit (m : VirtioGpuCmdSubmit3d).

Module Drive.
(** [display_info.pmodes.rect] with its size overwritten. *)
Definition screen (r : VirtioGpuRect) : VirtioGpuRect := {| x := x r; y := y r; w := 1600; h := 900 |}.
Definition capacity (r : VirtioGpuRect) : Z := wrap 32 (w (screen r) * h (screen r)).
Definition framebuffer_bytes (r : VirtioGpuRect) : Z := capacity r *u[64] 4.
Definition pages_needed (bytes : Z) : Z := 1 +u[64] (bytes / 4096).

(** The messages of the 2D part: the request for the display, whose answer is
    [r], one per capability set, the EDID, then the framebuffer's resource. *)
Definition queries (num_capsets : Z) : list message :=
  [MHdr (hdr VirtioGpuCtrlType.VirtioGpuCmdGetDisplayInfo 0)] ++
  ((λ i, MCapset {| capset_header := hdr VirtioGpuCtrlType.VirtioGpuCmdGetCapsetInfo 0;
                    capset_index := i; capset_padding := 0 |}) <$> range 0 num_capsets) ++
  [MHdr (hdr VirtioGpuCtrlType.VirtioGpuCmdGetEdid 0)].

Definition transfer (r : VirtioGpuRect) : message := MTransfer {|
  transfer_header := hdr VirtioGpuCtrlType.VirtioGpuCmdTransferToHost2d 0; transfer_r := screen r;
  transfer_offset := 0; transfer_resource_id := 1; transfer_padding := 0 |}.
Definition flush (r : VirtioGpuRect) : message := MFlush {|
  flush_header := hdr VirtioGpuCtrlType.VirtioGpuCmdResourceFlush 0; flush_r := screen r;
  flush_resource_id := 1; flush_padding := 0 |}.

Definition setup_2d (r : VirtioGpuRect) (addr : Z) : list message :=
  [MCreate2d {| create2d_header := hdr VirtioGpuCtrlType.VirtioGpuCmdResourceCreate2d 0; create2d_resource_id := 1;
                create2d_format := VirtioGpuFormats.VIRTIO_GPU_FORMAT_R8G8B8A8_UNORM;
                create2d_width := w (screen r); create2d_height := h (screen r) |};
   MAttach {| attach_header := hdr VirtioGpuCtrlType.VirtioGpuCmdResourceAttachBacking 0; attach_resource_id := 1;
              attach_nr_entries := 1; attach_addr := addr; attach_length := wrap 32 (4 * capacity r);
              attach_padding := 0 |};
   MScanout {| scanout_header := hdr VirtioGpuCtrlType.VirtioGpuCmdSetScanout 0; scanout_r := screen r;
               scanout_resource_id := 1; scanout_id := 0 |};
   transfer r; flush r].

(** The name: [Debug] and a zero, then the digit 1 to the end of the array. *)
Definition debug_name : vec Z 64 :=
  list_to_vec ([68; 101; 98; 117; 103; 0] ++ replicate 58 49).

(** The 3D part; [addr3] is where the example texture was mapped. *)
Definition args3d : VirglRendererResourceCreateArgs := {|
  args_handle := 2; args_target := args_target args_default; args_format := args_format args_default;
  args_bind := PIPE_BIND_SAMPLER_VIEW; args_width := 256; args_height := 256; args_depth := args_depth args_default;
  args_array_size := args_array_size args_default; args_last_level := args_last_level args_default;
  args_nr_samples := args_nr_samples args_default; args_flags := args_flags args_default |}.

(** [buffer.try_into().unwrap()]: an array of exactly 512 words. *)
Definition to_array (l : list Z) : res (vec Z 512) :=
  if (length l =? 512)%nat then Ok (fun_to_vec (λ i : fin 512, nth (fin_to_nat i) l 0)) else Panic PUnwrap.

Definition setup_3d (addr3 : Z) : res (list message) :=
  '(len, buffer) ← first_submit 2 (args_format args3d);
  buffer ← to_array buffer;
  mret [MCtxCreate {| ctx_header := hdr VirtioGpuCtrlType.VirtioGpuCmdCtxCreate 1; ctx_nlen := 6;
                      ctx_debug_name := debug_name; ctx_context_init := 0 |};
        MCreate3d {| create3d_header := hdr VirtioGpuCtrlType.VirtioGpuCmdResourceCreate3d 1; create3d_args := args3d;
                     create3d_padding := 0 |};
        MCtxAttach {| ctxattach_header := hdr VirtioGpuCtrlType.VirtioGpuCmdCtxAttachResource 1; ctxattach_handle := 2;
                      ctxattach_padding := 0 |};
        MAttach {| attach_header := hdr VirtioGpuCtrlType.VirtioGpuCmdResourceAttachBacking 1; attach_resource_id := 2;
                   attach_nr_entries := 1; attach_addr := addr3; attach_length := wrap 32 (4 * (256 * 256));
                   attach_padding := 0 |};
        MSubmit {| submit_header := hdr VirtioGpuCtrlType.VirtioGpuCmdSubmit3d 1; submit_len := len;
                   submit_buffer := buffer |}].

Definition setup (num_capsets : Z) (r : VirtioGpuRect) (addr addr3 : Z) : res (list message) :=
  m3 ← setup_3d addr3;
  mret (queries num_capsets ++ setup_2d r addr ++ m3).
End Drive.

(** The two loops the driver ends in, in any interleaving. *)
Definition loops (r : VirtioGpuRect) (l : list bool) : list message :=
  (λ b : bool, if b then Drive.transfer r else Drive.flush r) <$> l.

(** The bytes of a message, as [request] puts them in a page. *)
Definition message_bytes (m : message) : list Z :=
  match m with
  | MHdr h => encode (hdr_fields h)
  | MCapset m => to_bytes m
  | MCreate2d m => to_bytes m
  | MAttach m => to_bytes m
  | MScanout m => to_bytes m
  | MTransfer m => to_bytes m
  | MFlush m => to_bytes m
  | MCtxCreate m => to_bytes m
  | MCreate3d m => to_bytes m
  | MCtxAttach m => to_bytes m
  | MSubmit m => to_bytes m
  end.

(** ** Reading a request by the specification *)

(** The header: type, flags, fence, context, and the ring index with its padding. *)
Definition spec_header : list nat := [4; 4; 8; 4; 4]%nat.

(** The sizes of the fields after the header, of the requests that the driver
    sends: GET_DISPLAY_INFO, RESOURCE_CREATE_2D, SET_SCANOUT, RESOURCE_FLUSH,
    TRANSFER_TO_HOST_2D, RESOURCE_ATTACH_BACKING with one entry, GET_CAPSET_INFO,
    GET_EDID, CTX_CREATE with its 64 bytes of name, CTX_ATTACH_RESOURCE,
    RESOURCE_CREATE_3D, and SUBMIT_3D, whose stream follows. *)
Definition spec_fields (ty : Z) : option (list nat) :=
  match ty with
  | 0x100 => Some []
  | 0x101 => Some [4; 4; 4; 4]%nat
  | 0x103 => Some [4; 4; 4; 4; 4; 4]%nat
  | 0x104 => Some [4; 4; 4; 4; 4; 4]%nat
  | 0x105 => Some [4; 4; 4; 4; 8; 4; 4]%nat
  | 0x106 => Some [4; 4; 8; 4; 4]%nat
  | 0x108 => Some [4; 4]%nat
  | 0x10a => Some [4; 4]%nat
  | 0x200 => Some ([4; 4] ++ replicate 64 1)%nat
  | 0x202 => Some [4; 4]%nat
  | 0x204 => Some (replicate 12 4)%nat
  | 0x207 => Some [4; 4]%nat
  | _ => None
  end.

(** The type of a request, its fields with those of the header, and the bytes
    after them; none if it is shorter than its structure. *)
Definition read (bs : list Z) : option (Z * list Z * list Z) :=
  let ty := value (take 4 bs) in
  sizes ← spec_fields ty;
  let all := spec_header ++ sizes in
  if (sum_list all <=? length bs)%nat then Some (ty, decode all bs, drop (sum_list all) bs) else None.

(** ** The device *)

(** Resources with their size and the one range behind them; the resource and the
    rectangle that are scanned out; contexts with their names; and the streams given
    to the 3D renderer, each with its context. *)
Record gpu := GpuState {
  resources : gmap Z (Z * Z * option (Z * Z));
  scanout : option (Z * VirtioGpuRect);
  contexts : gmap Z (list Z);
  streams : list (Z * list Z)
}.
Definition reset : gpu := GpuState ∅ None ∅ [].

Definition with_resource (id : Z) (rs : Z * Z * option (Z * Z)) (g : gpu) : gpu :=
  GpuState (<[id := rs]> (resources g)) (scanout g) (contexts g) (streams g).

(** A rectangle inside a resource of the given size. *)
Definition rect_in (x y w h rw rh : Z) : bool := (x + w <=? rw) && (y + h <=? rh).

(** One request: the state after it, and whether it was granted. A request that
    cannot be read, or names what is not there or too small, is refused with an
    error, and changes nothing. [num_capsets] is the device's configuration. *)
Definition execute (num_capsets : Z) (g : gpu) (request : option (Z * list Z * list Z)) : gpu * bool :=
  let refused := (g, false) in
  match request with
  | None => refused
  | Some (ty, values, rest) =>
      let ctx := nth 3%nat values 0 in
      match ty, drop 5 values with
      | 0x100, [] => (g, true)
      | 0x108, [index; _] => (g, index <? num_capsets)
      | 0x10a, [scanout; _] => (g, scanout <? 16)
      | 0x101, [id; format; width; height] =>
          if (id =? 0) || bool_decide (is_Some (resources g !! id)) || negb (bool_decide (format ∈ [1; 2; 3; 4; 67; 68; 121; 134]))
          then refused else (with_resource id (width, height, None) g, true)
      | 0x106, [id; nr_entries; addr; length; _] =>
          match resources g !! id with
          | Some (width, height, None) =>
              if nr_entries =? 1 then (with_resource id (width, height, Some (addr, length)) g, true) else refused
          | _ => refused
          end
      | 0x103, [x; y; w; h; scanout_id; id] =>
          match resources g !! id with
          | Some (width, height, _) =>
              if rect_in x y w h width height && (scanout_id =? 0)
              then (GpuState (resources g) (Some (id, {| x := x; y := y; w := w; h := h |})) (contexts g) (streams g), true)
              else refused
          | None => refused
          end
      | 0x105, [x; y; w; h; offset; id; _] =>
          match resources g !! id with
          | Some (width, height, Some (_, bytes)) =>
              if rect_in x y w h width height && (offset + 4 * ((h - 1) * width + w) <=? bytes) then (g, true) else refused
          | _ => refused
          end
      | 0x104, [x; y; w; h; id; _] =>
          match resources g !! id with
          | Some (width, height, _) => if rect_in x y w h width height then (g, true) else refused
          | None => refused
          end
      | 0x200, nlen :: context_init :: name =>
          if (ctx =? 0) || bool_decide (is_Some (contexts g !! ctx)) || (64 <? nlen) then refused
          else (GpuState (resources g) (scanout g) (<[ctx := take (Z.to_nat nlen) name]> (contexts g)) (streams g), true)
      | 0x202, [id; _] =>
          if bool_decide (is_Some (contexts g !! ctx)) && bool_decide (is_Some (resources g !! id)) then (g, true) else refused
      | 0x204, id :: target :: format :: bind :: width :: height :: _ =>
          if (id =? 0) || bool_decide (is_Some (resources g !! id)) then refused
          else (with_resource id (width, height, None) g, true)
      | 0x207, [size; _] =>
          if bool_decide (is_Some (contexts g !! ctx)) && (size <=? len rest)
          then (GpuState (resources g) (scanout g) (contexts g) (streams g ++ [(ctx, take (Z.to_nat size) rest)]), true)
          else refused
      | _, _ => refused
      end
  end.

(** Messages in order: the state after them, and which were granted. *)
Fixpoint run (num_capsets : Z) (g : gpu) (ms : list message) : gpu * list bool :=
  match ms with
  | [] => (g, [])
  | m :: ms =>
      let '(g, granted) := execute num_capsets g (read (message_bytes m)) in
      let '(g, l) := run num_capsets g ms in (g, granted :: l)
  end.

(** ** Reading what was written *)
Lemma sum_list_sizes fs : Z.of_nat (sum_list (fst <$> fs)) = len (encode fs).
Proof.
  unfold encode. induction fs as [|[n v] fs IH]; [done|]. cbn [fmap list_fmap fst sum_list foldr].
  change (((n, v) :: fs) ≫= _) with (le_bytes n v ++ (fs ≫= λ '(n, v), le_bytes n v)). rewrite len_app, len_le_bytes, <-IH. cbn [id]. lia.
Qed.

(** A message whose fields after the header have the specified sizes is read back,
    with whatever comes after them. *)
Lemma read_message ty ctx fs rest :
  spec_fields (VirtioGpuCtrlType.as_u32 ty) = Some (fst <$> fs) → fits 32 ctx → Forall field_fits fs →
  read (encode (hdr_fields (hdr ty ctx) ++ fs) ++ rest) =
    Some (VirtioGpuCtrlType.as_u32 ty, [VirtioGpuCtrlType.as_u32 ty; 0; 0; ctx; 0] ++ (snd <$> fs), rest) ∧
  len (encode (hdr_fields (hdr ty ctx) ++ fs)) = 24 + Z.of_nat (sum_list (fst <$> fs)).
Proof.
  intros Hs Hc Hf. pose proof (decode_message ty ctx fs rest Hc Hf) as Hd.
  assert (encode (hdr_fields (hdr ty ctx) ++ fs) = encode (header_words ty ctx ++ fs)) as Ee.
  { by rewrite !encode_app, encode_header. }
  assert (fst <$> (header_words ty ctx ++ fs) = spec_header ++ (fst <$> fs)) as Ez by by rewrite fmap_app.
  pose proof (sum_list_sizes (header_words ty ctx ++ fs)) as Hn. rewrite Ez in Hn, Hd.
  rewrite fmap_app in Hd. rewrite Ee in *. set (bs := encode (header_words ty ctx ++ fs)) in *.
  assert (sum_list (spec_header ++ (fst <$> fs)) = length bs) as Hl by (unfold len in Hn; lia).
  assert (value (take 4 (bs ++ rest)) = VirtioGpuCtrlType.as_u32 ty) as Ht.
  { exact (f_equal (λ l, nth 0%nat l 0) Hd). }
  unfold read. rewrite Ht, Hs. cbn [mbind option_bind]. rewrite Hl, length_app.
  assert ((length bs <=? length bs + length rest)%nat = true) as -> by (apply Nat.leb_le; lia).
  rewrite drop_app_length, Hd. split; [done|]. unfold len. rewrite <-Hl, sum_list_with_app, Nat2Z.inj_add. done.
Qed.

Lemma read_exact ty ctx fs :
  spec_fields (VirtioGpuCtrlType.as_u32 ty) = Some (fst <$> fs) → fits 32 ctx → Forall field_fits fs →
  read (encode (hdr_fields (hdr ty ctx) ++ fs)) =
    Some (VirtioGpuCtrlType.as_u32 ty, [VirtioGpuCtrlType.as_u32 ty; 0; 0; ctx; 0] ++ (snd <$> fs), []) ∧
  len (encode (hdr_fields (hdr ty ctx) ++ fs)) = 24 + Z.of_nat (sum_list (fst <$> fs)).
Proof. intros Hs Hc Hf. rewrite <-(app_nil_r (encode _)) at 1. by apply read_message. Qed.

(** A message is exactly the structure of its type, with a zero header and the given
    fields, and fits a page. *)
Definition reads_as (m : message) (request : Z * list Z) : Prop :=
  let '(ty, values) := request in
  read (message_bytes m) = Some (ty, [ty; 0; 0; 0; 0] ++ values, []) ∧
  (∃ sizes, spec_fields ty = Some sizes ∧ len (message_bytes m) = 24 + Z.of_nat (sum_list sizes)) ∧
  len (message_bytes m) ≤ 4096.

Section requests.
Context (r : VirtioGpuRect) (addr : Z) (Hx : fits 32 (x r)) (Hy : fits 32 (y r)) (Ha : fits 64 addr).

(** The requests of the 2D part, as the device reads them. *)
Definition requests_2d : list (Z * list Z) :=
  [(0x101, [1; 67; 1600; 900]); (0x106, [1; 1; addr; 5760000; 0]); (0x103, [x r; y r; 1600; 900; 0; 1]);
   (0x105, [x r; y r; 1600; 900; 0; 1; 0]); (0x104, [x r; y r; 1600; 900; 1; 0])].

Lemma setup_2d_read :
  Forall2 reads_as (Drive.setup_2d r addr) requests_2d.
Proof.
  assert (∀ m ty fs, message_bytes m = encode (hdr_fields (hdr ty 0) ++ fs) →
    spec_fields (VirtioGpuCtrlType.as_u32 ty) = Some (fst <$> fs) → Forall field_fits fs → (sum_list (fst <$> fs) ≤ 100)%nat →
    read (message_bytes m) = Some (VirtioGpuCtrlType.as_u32 ty, [VirtioGpuCtrlType.as_u32 ty; 0; 0; 0; 0] ++ (snd <$> fs), []) ∧
    (∃ sizes, spec_fields (VirtioGpuCtrlType.as_u32 ty) = Some sizes ∧ len (message_bytes m) = 24 + Z.of_nat (sum_list sizes)) ∧
    len (message_bytes m) ≤ 4096) as Hm.
  { intros m ty fs -> Hs Hf Hb. destruct (read_exact ty 0 fs Hs) as [Hr Hl]; [done|done|].
    split; [done|]. rewrite Hl. split; [by eexists|lia]. }
  unfold Drive.setup_2d, Drive.transfer, Drive.flush, requests_2d, Drive.screen, Drive.capacity. unfold fits in *.
  constructor; [|constructor; [|constructor; [|constructor; [|constructor; [|constructor]]]]].
  - apply (Hm _ VirtioGpuCtrlType.VirtioGpuCmdResourceCreate2d [(4%nat, 1); (4%nat, 67); (4%nat, 1600); (4%nat, 900)]);
      [done|done|fit_fields|cbn; lia].
  - apply (Hm _ VirtioGpuCtrlType.VirtioGpuCmdResourceAttachBacking
      [(4%nat, 1); (4%nat, 1); (8%nat, addr); (4%nat, 5760000); (4%nat, 0)]); [done|done|fit_fields|cbn; lia].
  - apply (Hm _ VirtioGpuCtrlType.VirtioGpuCmdSetScanout
      [(4%nat, x r); (4%nat, y r); (4%nat, 1600); (4%nat, 900); (4%nat, 0); (4%nat, 1)]); [done|done|fit_fields|cbn; lia].
  - apply (Hm _ VirtioGpuCtrlType.VirtioGpuCmdTransferToHost2d
      [(4%nat, x r); (4%nat, y r); (4%nat, 1600); (4%nat, 900); (8%nat, 0); (4%nat, 1); (4%nat, 0)]); [done|done|fit_fields|cbn; lia].
  - apply (Hm _ VirtioGpuCtrlType.VirtioGpuCmdResourceFlush
      [(4%nat, x r); (4%nat, y r); (4%nat, 1600); (4%nat, 900); (4%nat, 1); (4%nat, 0)]); [done|done|fit_fields|cbn; lia].
Qed.
End requests.

(** C40: the 2D requests are what the device expects. Each message that the driver
    sends to create, back, scan out, fill and flush the screen's resource, and so
    each that the two loops send again, is as long as the structure of the virtio
    specification (5.7.6.8) for its type, and fits a descriptor's page; and
    reading that structure back, field by field with the specified sizes, gives the
    type, zero flags, fence and context, and then exactly the resource 1, the format
    R8G8B8A8, the size 1600 by 900, the display's position, and the address and the
    5760000 bytes of the framebuffer, in their places, with nothing left over. *)
Theorem gpu_2d_messages_decode r addr :
  fits 32 (x r) → fits 32 (y r) → fits 64 addr →
  Forall2 reads_as (Drive.setup_2d r addr)
    [(0x101, [1; 67; 1600; 900]); (0x106, [1; 1; addr; 5760000; 0]); (0x103, [x r; y r; 1600; 900; 0; 1]);
     (0x105, [x r; y r; 1600; 900; 0; 1; 0]); (0x104, [x r; y r; 1600; 900; 1; 0])] ∧
  (∀ l m, m ∈ loops r l → m ∈ drop 3 (Drive.setup_2d r addr)).
Proof.
  intros Hx Hy Ha. split; [by apply setup_2d_read|]. intros l m (b & -> & _)%list_elem_of_fmap.
  destruct b; cbn; [left|right; left].
Qed.

Lemma gpu_2d_messages_decode_witness :
  read (message_bytes (Drive.transfer {| x := 0; y := 0; w := 1024; h := 768 |})) =
    Some (0x105, [0x105; 0; 0; 0; 0; 0; 0; 1600; 900; 0; 1; 0], []).
Proof.
  destruct (gpu_2d_messages_decode {| x := 0; y := 0; w := 1024; h := 768 |} 0x200000) as [H _];
    [by split; vm_compute|by split; vm_compute|by split; vm_compute|].
  destruct (Forall2_lookup_lr reads_as _ _ 3%nat _ _ H eq_refl eq_refl) as [E _]. exact E.
Defined.

(** ** The start-up on the device *)
Lemma run_cons n g m ms g1 a g2 l :
  execute n g (read (message_bytes m)) = (g1, a) → run n g1 ms = (g2, l) → run n g (m :: ms) = (g2, a :: l).
Proof. intros E1 E2. cbn [run]. by rewrite E1, E2. Qed.

Lemma run_app n g ms1 ms2 g1 l1 g2 l2 :
  run n g ms1 = (g1, l1) → run n g1 ms2 = (g2, l2) → run n g (ms1 ++ ms2) = (g2, l1 ++ l2).
Proof.
  revert g l1; induction ms1 as [|m ms1 IH]; intros g l1; cbn [run app].
  - by intros [= <- <-] ->.
  - destruct (execute n g (read (message_bytes m))) as [g' a]. destruct (run n g' ms1) as [g'' l'] eqn:E.
    intros [= <- <-] E2. by rewrite (IH g' l' E E2).
Qed.

Lemma run_same n g ms a : (∀ m, m ∈ ms → execute n g (read (message_bytes m)) = (g, a)) → run n g ms = (g, replicate (length ms) a).
Proof.
  induction ms as [|m ms IH]; intros Hm; [done|]. eapply run_cons; [apply Hm; by left|]. apply IH. intros m' Hin. apply Hm. by right.
Qed.

(** The queries: all are granted but the one for the EDID. *)
Lemma queries_run n g : 0 ≤ n < 2 ^ 32 → run n g (Drive.queries n) = (g, replicate (Z.to_nat n + 1) true ++ [false]).
Proof.
  intros Hn. unfold Drive.queries. rewrite Nat.add_comm, replicate_add, <-app_assoc.
  eapply run_app; [by apply (run_same n g [_] true); intros m ->%list_elem_of_singleton; vm_compute|].
  eapply run_app; [|by apply (run_same n g [_] false); intros m ->%list_elem_of_singleton; vm_compute].
  rewrite (run_same n g _ true).
  - rewrite length_fmap. unfold range. by rewrite length_seqZ, Z.sub_0_r.
  - intros m (i & -> & Hi%elem_of_range)%list_elem_of_fmap. cbn [message_bytes].
    destruct (read_exact VirtioGpuCtrlType.VirtioGpuCmdGetCapsetInfo 0 [(4%nat, i); (4%nat, 0)]) as [E _];
      [done|done|repeat constructor; unfold field_fits; cbn; lia|].
    change (to_bytes _) with (encode (hdr_fields (hdr VirtioGpuCtrlType.VirtioGpuCmdGetCapsetInfo 0) ++ [(4%nat, i); (4%nat, 0)])).
    rewrite E. cbn. f_equal. lia.
Qed.

(** The screen's resource with its framebuffer, and then scanned out. *)
Definition backed (addr : Z) : gpu := GpuState {[1 := (1600, 900, Some (addr, 5760000))]} None ∅ [].
Definition displayed (addr : Z) : gpu :=
  GpuState {[1 := (1600, 900, Some (addr, 5760000))]} (Some (1, {| x := 0; y := 0; w := 1600; h := 900 |})) ∅ [].

(** A rectangle of the screen's size, anywhere. *)
Lemma screen_rect_in px py : 0 ≤ px → 0 ≤ py → rect_in px py 1600 900 1600 900 = bool_decide (px = 0 ∧ py = 0).
Proof. intros. unfold rect_in. case_bool_decide; lia. Qed.

(** The requests with a rectangle, on a resource 1 of the screen's size. *)
Lemma execute_rects n g addr px py :
  resources g !! 1 = Some (1600, 900, Some (addr, 5760000)) → 0 ≤ px → 0 ≤ py →
  let b := bool_decide (px = 0 ∧ py = 0) in
  execute n g (Some (0x103, [0x103; 0; 0; 0; 0] ++ [px; py; 1600; 900; 0; 1], [])) =
    (if b then GpuState (resources g) (Some (1, {| x := px; y := py; w := 1600; h := 900 |})) (contexts g) (streams g) else g, b) ∧
  execute n g (Some (0x105, [0x105; 0; 0; 0; 0] ++ [px; py; 1600; 900; 0; 1; 0], [])) = (g, b) ∧
  execute n g (Some (0x104, [0x104; 0; 0; 0; 0] ++ [px; py; 1600; 900; 1; 0], [])) = (g, b).
Proof.
  intros Hg Hpx Hpy b. unfold execute. cbn [drop nth app]. rewrite !Hg, screen_rect_in by done. fold b.
  by destruct b.
Qed.

Lemma loops_run n g r addr l :
  resources g !! 1 = Some (1600, 900, Some (addr, 5760000)) → fits 32 (x r) → fits 32 (y r) → fits 64 addr →
  run n g (loops r l) = (g, replicate (length l) (bool_decide (x r = 0 ∧ y r = 0))).
Proof.
  intros Hg Hx Hy Ha. destruct (execute_rects n g addr (x r) (y r) Hg) as (_ & E2 & E3); [apply Hx|apply Hy|].
  pose proof (setup_2d_read r addr Hx Hy Ha) as H. unfold Drive.setup_2d, requests_2d in H. rewrite !Forall2_cons in H.
  destruct H as (_ & _ & _ & (R4 & _) & (R5 & _) & _).
  rewrite (run_same n g (loops r l) (bool_decide (x r = 0 ∧ y r = 0))); [by unfold loops; rewrite length_fmap|].
  intros m (b & -> & _)%list_elem_of_fmap. destruct b; [by rewrite R4|by rewrite R5].
Qed.

Lemma setup_2d_run n r addr :
  fits 32 (x r) → fits 32 (y r) → fits 64 addr →
  run n reset (Drive.setup_2d r addr) =
    if bool_decide (x r = 0 ∧ y r = 0) then (displayed addr, [true; true; true; true; true])
    else (backed addr, [true; true; false; false; false]).
Proof.
  intros Hx Hy Ha. pose proof (setup_2d_read r addr Hx Hy Ha) as H. unfold Drive.setup_2d, requests_2d in *. rewrite !Forall2_cons in H.
  destruct H as ((R1 & _) & (R2 & _) & (R3 & _) & (R4 & _) & (R5 & _) & _).
  pose proof (λ g Hg, execute_rects n g addr (x r) (y r) Hg (proj1 Hx) (proj1 Hy)) as Hr.
  destruct (Hr (backed addr) eq_refl) as (E3 & E4 & E5).
  match goal with |- run n reset (?m1 :: ?m2 :: ?ms) = _ =>
    assert (∀ g l, run n (backed addr) ms = (g, l) → run n reset (m1 :: m2 :: ms) = (g, true :: true :: l)) as Hs end.
  { intros g l El. eapply run_cons; [rewrite R1; by vm_compute|]. eapply run_cons; [rewrite R2; by vm_compute|]. exact El. }
  case_bool_decide as Hb.
  - destruct Hb as [Hx0 Hy0]. destruct (Hr (displayed addr) eq_refl) as (_ & E4' & E5').
    apply Hs. eapply run_cons; [rewrite R3, E3, Hx0, Hy0; reflexivity|].
    eapply run_cons; [rewrite R4; exact E4'|]. eapply run_cons; [rewrite R5; exact E5'|]. done.
  - apply Hs. eapply run_cons; [rewrite R3; exact E3|]. eapply run_cons; [rewrite R4; exact E4|].
    eapply run_cons; [rewrite R5; exact E5|]. done.
Qed.

(** The 3D part: the name of the context is the first [nlen] of the bytes of its
    characters, and the renderer gets, of the words of the stream, the [len] bytes
    after the first word. *)
Definition name_read : list Z := [68; 0; 0; 0; 101; 0].
Definition stream_read (size : Z) (words : list Z) : list Z := take (Z.to_nat size) (drop 4 (words ≫= le_bytes 4)).

Definition with_3d (addr3 : Z) (words : list Z) (g : gpu) : gpu :=
  GpuState (<[2 := (256, 256, Some (addr3, 262144))]> (resources g)) (scanout g) (<[1 := name_read]> (contexts g))
    (streams g ++ [(1, stream_read 19 words)]).

Lemma setup_3d_run n addr addr3 sc :
  fits 64 addr3 → ∃ words ms, first_submit 2 (args_format Drive.args3d) = Ok (19, words) ∧ length words = 512%nat ∧
    Drive.setup_3d addr3 = Ok ms ∧
    let g := GpuState {[1 := (1600, 900, Some (addr, 5760000))]} sc ∅ [] in
    run n g ms = (with_3d addr3 words g, [true; true; true; true; true]).
Proof.
  intros Ha. eexists _, _. split; [vm_compute; reflexivity|]. split; [reflexivity|]. split; [vm_compute; reflexivity|].
  intros g. eapply run_cons; [vm_compute; reflexivity|]. eapply run_cons; [vm_compute; reflexivity|].
  eapply run_cons; [vm_compute; reflexivity|]. eapply run_cons.
  { destruct (read_exact VirtioGpuCtrlType.VirtioGpuCmdResourceAttachBacking 1
      [(4%nat, 2); (4%nat, 1); (8%nat, addr3); (4%nat, 262144); (4%nat, 0)]) as [E _]; [done|done|fit_fields|].
    change (message_bytes _) with (encode (hdr_fields (hdr VirtioGpuCtrlType.VirtioGpuCmdResourceAttachBacking 1) ++
      [(4%nat, 2); (4%nat, 1); (8%nat, addr3); (4%nat, 262144); (4%nat, 0)])).
    rewrite E. vm_compute. reflexivity. }
  eapply run_cons; [vm_compute; reflexivity|]. vm_compute. reflexivity.
Qed.

(** C35: what the device answers to the start-up. To a device that reads requests
    with the structures of the specification, the driver sends the queries, the
    messages of the display and those of the 3D part, in this order. The queries
    are granted, but the one for the EDID is refused: it is a bare header, without
    the scanout it should name. When the device reports its display at the origin,
    every message of the display is granted: the resource 1 is created once, backed
    by the framebuffer before it is transferred, and scanned out, its rectangles
    lie in it; and so is every later transfer and flush, however the two loops
    interleave; the pages mapped for the framebuffer hold it. A display reported
    anywhere else is never scanned out: that message and every transfer and flush are
    refused, since the driver keeps the reported position and overwrites the size.
    The 3D messages are granted and are not what they mean to be: of the name
    [Debug], written with four bytes for each character, the context gets six bytes,
    [D] and [e] among zeros; and of the 19 words of the stream the renderer gets 19
    bytes, after the first word, which takes the place of the missing padding. *)
Theorem gpu_startup_answers num_capsets r addr addr3 :
  0 ≤ num_capsets < 2 ^ 32 → fits 32 (x r) → fits 32 (y r) → fits 64 addr → fits 64 addr3 →
  let origin := bool_decide (x r = 0 ∧ y r = 0) in
  ∃ words ms3, first_submit 2 (args_format Drive.args3d) = Ok (19, words) ∧ Drive.setup_3d addr3 = Ok ms3 ∧
    Drive.setup num_capsets r addr addr3 = Ok (Drive.queries num_capsets ++ Drive.setup_2d r addr ++ ms3) ∧
    let g := with_3d addr3 words (if origin then displayed addr else backed addr) in
    run num_capsets reset (Drive.queries num_capsets ++ Drive.setup_2d r addr ++ ms3) =
      (g, (replicate (Z.to_nat num_capsets + 1) true ++ [false]) ++ [true; true; origin; origin; origin] ++
          [true; true; true; true; true]) ∧
    (∀ l, run num_capsets g (loops r l) = (g, replicate (length l) origin)) ∧
    Drive.framebuffer_bytes r ≤ Drive.pages_needed (Drive.framebuffer_bytes r) * 4096.
Proof.
  intros Hn Hx Hy Ha Ha3 origin.
  destruct (setup_3d_run num_capsets addr addr3 (scanout (if origin then displayed addr else backed addr)) Ha3)
    as (words & ms3 & E1 & _ & E3 & R3).
  exists words, ms3. split; [done|]. split; [done|]. split; [unfold Drive.setup; by rewrite E3|].
  cbv zeta in R3. replace (GpuState _ (scanout _) ∅ []) with (if origin then displayed addr else backed addr) in R3 by by destruct origin.
  pose proof (setup_2d_run num_capsets r addr Hx Hy Ha) as R2. fold origin in R2.
  split; [|split].
  - eapply run_app; [by apply queries_run|]. eapply run_app; [|exact R3].
    rewrite R2. by destruct origin.
  - intros l. apply (loops_run num_capsets _ r addr); [|done..]. by destruct origin.
  - by vm_compute.
Qed.

Lemma gpu_startup_answers_witness :
  ∃ ms3 g, Drive.setup_3d 0x800000 = Ok ms3 ∧
    run 2 reset (Drive.queries 2 ++ Drive.setup_2d {| x := 0; y := 0; w := 1024; h := 768 |} 0x200000 ++ ms3) =
      (g, [true; true; true; false; true; true; true; true; true; true; true; true; true; true]) ∧
    run 2 g (loops {| x := 0; y := 0; w := 1024; h := 768 |} [true; false; false]) = (g, [true; true; true]).
Proof.
  destruct (gpu_startup_answers 2 {| x := 0; y := 0; w := 1024; h := 768 |} 0x200000 0x800000)
    as (words & ms3 & _ & E & _ & R & L & _); [lia|by split; vm_compute|by split; vm_compute|by split; vm_compute|by split; vm_compute|].
  eexists ms3, _. split; [exact E|]. split; [exact R|exact (L [true; false; false])].
Defined.
