(* ===== verification/LocalApic.v ===== *)
(** The local APIC driver ([bootloader/kernel/src/local_apic.rs]) and the legacy
    interrupt controllers it silences. *)
From S2P Require Import Prelude Interfaces.

Record LocalApic := { lapic_address : Z }.

(** The processor as this driver sees it: the memory-mapped registers, the
    APIC-base MSR, and the bytes written to I/O ports, oldest first. *)
Record cpu (D : Type) := Cpu { regs : D; msr_apic_base : Z; port_log : list (Z * Z) }.
Arguments Cpu {D} _ _ _.
Arguments regs {D} _.
Arguments msr_apic_base {D} _.
Arguments port_log {D} _.

Module LocalApicImpl.
Section ops.
Context {D : Type} `{Mmio D} `{X86Addr}.

Definition read (a : LocalApic) (reg : Z) : M D Z := mmio_load (lapic_address a +u[64] reg).
Definition write (a : LocalApic) (reg value : Z) : M D unit := mmio_store (lapic_address a +u[64] reg) value.

Definition id (a : LocalApic) : M D Z := read a 0x20.
Definition version (a : LocalApic) : M D Z := read a 0x30.
Definition icr (a : LocalApic) : M D Z :=
  hi ← read a 0x310; lo ← read a 0x300; mret (Z.lor (hi <<u[64] 32) lo).

Definition PENDING : Z := Z.shiftl 1 12.

(** [while self.read(0x300) & PENDING == PENDING { spin_loop() }]; the boolean
    says whether it ended within [fuel] reads. *)
Fixpoint wait_idle (fuel : nat) (a : LocalApic) : M D bool :=
  match fuel with
  | O => mret false
  | S fuel => v ← read a 0x300; if Z.land v PENDING =? PENDING then wait_idle fuel a else mret true
  end.

Definition set_icr (fuel : nat) (a : LocalApic) (value : Z) : M D bool :=
  b1 ← wait_idle fuel a;
  if b1 : bool then
    write a 0x310 (wrap 32 (Z.shiftr value 32)) ;;
    write a 0x300 (wrap 32 value) ;;
    wait_idle fuel a
  else mret false.

Definition ipi (fuel : nat) (a : LocalApic) (apic_id : Z) : M D bool :=
  let icr := 0x4040 in
  let icr := Z.lor icr (apic_id <<u[64] 56) in
  set_icr fuel a icr.

Definition ipi_nmi (fuel : nat) (a : LocalApic) (apic_id : Z) : M D bool :=
  set_icr fuel a (Z.lor (Z.lor (apic_id <<u[64] 56) (Z.shiftl 1 14)) (Z.shiftl 4 8)).

Definition eoi (a : LocalApic) : M D unit := write a 0xB0 0.
Definition esr (a : LocalApic) : M D Z := write a 0x280 0 ;; read a 0x280.
Definition lvt_timer (a : LocalApic) : M D Z := read a 0x320.
Definition set_lvt_timer (a : LocalApic) (value : Z) : M D unit := write a 0x320 value.
Definition init_count (a : LocalApic) : M D Z := read a 0x380.
Definition set_init_count (a : LocalApic) (initial_count : Z) : M D unit := write a 0x380 initial_count.
Definition cur_count (a : LocalApic) : M D Z := read a 0x390.
Definition div_conf (a : LocalApic) : M D Z := read a 0x3E0.
Definition set_div_conf (a : LocalApic) (div_conf : Z) : M D unit := write a 0x3E0 div_conf.
Definition lvt_error (a : LocalApic) : M D Z := read a 0x370.
Definition set_lvt_error (a : LocalApic) (lvt_error : Z) : M D unit := write a 0x370 lvt_error.
Definition setup_error_int (a : LocalApic) : M D unit := set_lvt_error a 49.

Definition on_regs {A} (m : M D A) : M (cpu D) A := λ c,
  '(a, d) ← m (regs c); mret (a, Cpu d (msr_apic_base c) (port_log c)).
Definition out (port v : Z) : M (cpu D) unit := modify (λ c, Cpu (regs c) (msr_apic_base c) (port_log c ++ [(port, v)])).

(** The writes of [disable_pic]; [wait] is a write to port 0x80 after each. *)
Definition pic_bytes : list (Z * Z) :=
  [(0x20, 0x11); (0xA0, 0x11); (0x21, 0xf0); (0xA1, 0xf8); (0x21, 0x4); (0xA1, 0x2);
   (0x21, 0x1); (0xA1, 0x1); (0x21, 0xff); (0xA1, 0xff)].
Definition disable_pic : M (cpu D) unit :=
  for_each pic_bytes (λ '(port, v), out port v ;; out 0x80 0).

Definition init (phys_offset : Z) (cell : option LocalApic) (local_apic_address : Z) : M (cpu D) LocalApic :=
  disable_pic ;;
  virtaddr ← lift (VirtAddr_add phys_offset local_apic_address);
  let this := match cell with Some this => this | None => {| lapic_address := virtaddr |} end in
  r ← gets msr_apic_base;
  modify (λ c, Cpu (regs c) (Z.lor r (Z.shiftl 1 11)) (port_log c)) ;;
  v ← on_regs (read this 0xF0);
  on_regs (write this 0xF0 (Z.lor v 0x1FF)) ;;
  mret this.

(** The timer programming of [kernel_main]: divider 1, periodic on vector 48. *)
Definition start_timer (a : LocalApic) (freq : Z) : M D unit :=
  set_div_conf a 0xB ;;
  set_lvt_timer a (Z.shiftl 1 17 + 48) ;;
  let wanted_freq_hz := 1000 in
  set_init_count a (freq / wanted_freq_hz).
End ops.
End LocalApicImpl.

(** ** The 8259 controllers *)

(** A controller's initialisation: 0x11 on the command port starts it, the next
    three data writes are the vector offset, the cascade wiring and the mode;
    any other data write sets the interrupt mask. *)
Record Pic := { pic_step : Z; pic_offset : Z; pic_mask : Z }.

Definition pic_write (base : Z) (p : Pic) (w : Z * Z) : Pic :=
  let '(port, v) := w in
  if port =? base then
    if v =? 0x11 then {| pic_step := 1; pic_offset := pic_offset p; pic_mask := 0 |} else p
  else if port =? base + 1 then
    if pic_step p =? 1 then {| pic_step := 2; pic_offset := v; pic_mask := pic_mask p |}
    else if pic_step p =? 2 then {| pic_step := 3; pic_offset := pic_offset p; pic_mask := pic_mask p |}
    else if pic_step p =? 3 then {| pic_step := 0; pic_offset := pic_offset p; pic_mask := pic_mask p |}
    else {| pic_step := 0; pic_offset := pic_offset p; pic_mask := v |}
  else p.

Section spec.
Context {D : Type} `{Mmio D} `{X86Addr}.

Lemma write_log a reg v (d : D) :
  ∃ d', LocalApicImpl.write a reg v d = Ok (tt, d') ∧ mlog d' = mlog d ++ [(lapic_address a +u[64] reg, v)].
Proof. apply mmio_store_ok. Qed.

Lemma wait_idle_log fuel a (d : D) :
  ∃ b d', LocalApicImpl.wait_idle fuel a d = Ok (b, d') ∧ mlog d' = mlog d.
Proof.
  revert d; induction fuel as [|fuel IH]; intros d; cbn [LocalApicImpl.wait_idle]; [by exists false, d|].
  destruct (mmio_load_ok (lapic_address a +u[64] 0x300) d) as (v & d1 & E & L & _).
  unfold LocalApicImpl.read. rewrite (M_bind_run _ _ _ _ _ E). destruct (_ =? _); [|by exists true, d1].
  destruct (IH d1) as (b & d2 & E2 & L2). exists b, d2. split; [done|congruence].
Qed.

Lemma set_icr_log fuel a value (d : D) :
  ∃ b d', LocalApicImpl.set_icr fuel a value d = Ok (b, d') ∧
    (mlog d' = mlog d ∧ b = false ∨
     mlog d' = mlog d ++ [(lapic_address a +u[64] 0x310, wrap 32 (Z.shiftr value 32)); (lapic_address a +u[64] 0x300, wrap 32 value)]).
Proof.
  unfold LocalApicImpl.set_icr. destruct (wait_idle_log fuel a d) as (b & d1 & E & L).
  rewrite (M_bind_run _ _ _ _ _ E). destruct b; [|exists false, d1; split; [done|by left]].
  destruct (write_log a 0x310 (wrap 32 (Z.shiftr value 32)) d1) as (d2 & E2 & L2). rewrite (M_bind_run _ _ _ _ _ E2).
  destruct (write_log a 0x300 (wrap 32 value) d2) as (d3 & E3 & L3). rewrite (M_bind_run _ _ _ _ _ E3).
  destruct (wait_idle_log fuel a d3) as (b & d4 & E4 & L4). exists b, d4. split; [done|]. right.
  by rewrite L4, L3, L2, L, <-app_assoc.
Qed.

Lemma out_loop_log l (c : cpu D) :
  ∃ c', for_each l (λ '(port, v), LocalApicImpl.out port v ;; LocalApicImpl.out 0x80 0) c = Ok (tt, c') ∧
    port_log c' = port_log c ++ (l ≫= λ w, [w; (0x80, 0)]).
Proof.
  revert c; induction l as [|[port v] l IH]; intros c; cbn [for_each]; [exists c; by rewrite app_nil_r|].
  destruct (IH (Cpu (regs c) (msr_apic_base c) ((port_log c ++ [(port, v)]) ++ [(0x80, 0)]))) as (c' & E & L).
  exists c'. split; [exact E|]. rewrite L, bind_cons. cbn [port_log]. by rewrite <-!app_assoc.
Qed.
End spec.

(** Interrupt commands are written in order. Sending an interrupt to
    another processor writes the destination to the high command register
    before the low one, whose write sends it; nothing is written while the
    previous command is still pending. The legacy controllers end with their
    vectors moved to 0xF0 and every line masked, and the timer is programmed
    divider first, count last. *)
Theorem lapic_commands_ordered {D} `{Mmio D} fuel a apic_id (d : D) (c : cpu D) freq p0 p1 :
  0 ≤ apic_id < 256 →
  (∃ b d', LocalApicImpl.ipi fuel a apic_id d = Ok (b, d') ∧
     (mlog d' = mlog d ∧ b = false ∨
      mlog d' = mlog d ++ [(lapic_address a +u[64] 0x310, 2 ^ 24 * apic_id); (lapic_address a +u[64] 0x300, 0x4040)])) ∧
  (∃ c', LocalApicImpl.disable_pic c = Ok (tt, c') ∧ ∃ l, port_log c' = port_log c ++ l ∧
     fold_left (pic_write 0x20) l p0 = {| pic_step := 0; pic_offset := 0xF0; pic_mask := 0xFF |} ∧
     fold_left (pic_write 0xA0) l p1 = {| pic_step := 0; pic_offset := 0xF8; pic_mask := 0xFF |}) ∧
  (∃ d', LocalApicImpl.start_timer a freq d = Ok (tt, d') ∧
     mlog d' = mlog d ++ [(lapic_address a +u[64] 0x3E0, 0xB); (lapic_address a +u[64] 0x320, 0x20030);
                          (lapic_address a +u[64] 0x380, freq / 1000)]).
Proof.
  intros Hid. split_and!.
  - unfold LocalApicImpl.ipi. rewrite shiftl_mul, wrap_small by (unfold fits; lia).
    rewrite Z.lor_comm, (lor_add _ _ 56) by lia.
    destruct (set_icr_log fuel a (apic_id * 2 ^ 56 + 0x4040) d) as (b & d' & E & L).
    exists b, d'. split; [done|]. destruct L as [L|L]; [by left|right]. rewrite L. do 3 f_equal.
    + f_equal. rewrite shiftr_div by lia. unfold wrap. lia.
    + f_equal. f_equal. unfold wrap. lia.
  - destruct (out_loop_log LocalApicImpl.pic_bytes c) as (c' & E & L). exists c'. split; [exact E|].
    eexists. split; [exact L|]. split; destruct p0, p1; vm_compute; reflexivity.
  - unfold LocalApicImpl.start_timer, LocalApicImpl.set_div_conf, LocalApicImpl.set_lvt_timer, LocalApicImpl.set_init_count.
    destruct (write_log a 0x3E0 0xB d) as (d1 & E1 & L1). rewrite (M_bind_run _ _ _ _ _ E1).
    destruct (write_log a 0x320 0x20030 d1) as (d2 & E2 & L2). rewrite (M_bind_run _ _ _ _ _ E2).
    destruct (write_log a 0x380 (freq / 1000) d2) as (d3 & E3 & L3). exists d3. split; [done|].
    by rewrite L3, L2, L1, <-!app_assoc.
Qed.

#[local] Existing Instance mmio_instance.
Lemma lapic_commands_ordered_witness :
  ∃ b d', LocalApicImpl.ipi 1 {| lapic_address := 0xFEE00000 |} 3 {| im_sel := 0; im_regs := ∅; im_log := [] |} = Ok (b, d') ∧
    mlog d' = [(0xFEE00310, 0x3000000); (0xFEE00300, 0x4040)].
Proof.
  destruct (lapic_commands_ordered 1 {| lapic_address := 0xFEE00000 |} 3 {| im_sel := 0; im_regs := ∅; im_log := [] |}
    (Cpu {| im_sel := 0; im_regs := ∅; im_log := [] |} 0 []) 1000000000
    {| pic_step := 0; pic_offset := 0; pic_mask := 0 |} {| pic_step := 0; pic_offset := 0; pic_mask := 0 |} ltac:(lia))
    as ((b & d' & E & L) & _ & _).
  exists b, d'. split; [exact E|]. destruct L as [[L Hb]|L]; [|exact L].
  subst b. vm_compute in E. discriminate E.
Defined.
