(* ===== verification/Interrupts.v ===== *)
(** Interrupt handling ([bootloader/kernel/src/interrupts.rs]): the descriptor
    table, what every handler does, the millisecond clock, and the timer
    futures it wakes. *)
From S2P Require Import Prelude Interfaces IoApic LocalApic.

Inductive Handler :=
| breakpoint_handler | alignment_check | invalid_opcode | bound_range_exceeded
| general_protection_fault | double_fault_handler | overflow_handler | invalid_tss_handler
| segment_not_present_handler | stack_segment_fault_handler | alignment_check_handler
| page_fault_handler | generic_handler | lapic_timer | lapic_timer2 | ioapic_handler (n : Z).

#[export] Instance handler_eq_dec : EqDecision Handler.
Proof. solve_decision. Defined.

(** The descriptor table: the writes of the [IDT] initialiser, in order. The
    exceptions are at the vectors of the architecture. *)
Definition idt_writes : list (Z * Handler) :=
  [(3, breakpoint_handler); (17, alignment_check); (6, invalid_opcode); (5, bound_range_exceeded);
   (13, general_protection_fault); (8, double_fault_handler); (4, overflow_handler); (10, invalid_tss_handler);
   (11, segment_not_present_handler); (12, stack_segment_fault_handler); (17, alignment_check_handler);
   (14, page_fault_handler)] ++
  ((λ i, (i, generic_handler)) <$> range 32 256) ++
  [(48, lapic_timer); (49, lapic_timer2)] ++
  ((λ n, (50 + n, ioapic_handler n)) <$> range 0 24).

Definition IDT : gmap Z Handler := fold_left (λ t '(v, h), <[v := h]> t) idt_writes ∅.

(** ** The state the handlers touch

    [LOCAL_APIC] and [IO_APIC_0] once initialised, the clock, the timer wakers
    (each the task whose waker it holds), and the tasks woken so far. *)
Record istate (D : Type) := IState {
  mmio : D;
  local_apic : option LocalApic;
  io_apic_0 : option IoApic;
  time_ms : Z;
  wakers : list (option Z);
  woken : list Z
}.
Arguments IState {D} _ _ _ _ _ _.
Arguments mmio {D} _.
Arguments local_apic {D} _.
Arguments io_apic_0 {D} _.
Arguments time_ms {D} _.
Arguments wakers {D} _.
Arguments woken {D} _.

Definition WAKERS : list (option Z) := replicate 128 None.

Module InterruptsImpl.
Section handlers.
Context {D : Type} `{Mmio D} `{X86Addr}.
Implicit Types (s : istate D).

Definition on_mmio {A} (m : M D A) : M (istate D) A := λ s,
  '(a, d) ← m (mmio s);
  mret (a, IState d (local_apic s) (io_apic_0 s) (time_ms s) (wakers s) (woken s)).

Definition eoi : M (istate D) unit :=
  o ← gets local_apic; a ← lift (unwrap o); on_mmio (LocalApicImpl.eoi a).

Definition ioa : M (istate D) IoApic := o ← gets io_apic_0; lift (unwrap o).

(** The loop over the wakers wakes each one and clears its slot. The static
    [WAKER], which nothing registers with, is left out. *)
Definition wake_all : M (istate D) unit := modify (λ s,
  IState (mmio s) (local_apic s) (io_apic_0 s) (time_ms s) (replicate (length (wakers s)) None)
    (woken s ++ omap (λ w, w) (wakers s))).

Definition tick : M (istate D) unit := modify (λ s,
  IState (mmio s) (local_apic s) (io_apic_0 s) (time_ms s +u[64] 1) (wakers s) (woken s)).

(** [ioapic_handler_0] to [ioapic_handler_23]. *)
Definition handle_line (n : Z) : M (istate D) unit :=
  if n =? 1 then
    a ← ioa;
    n ← on_mmio (IoApicImpl.read_redtlb a 1);
    let red := RedTblImpl.new n in
    eoi
  else if n =? 2 then
    a ← ioa;
    n ← on_mmio (IoApicImpl.read_redtlb a 2);
    let red := RedTblImpl.new n in
    let stored := RedTblImpl.store red in
    on_mmio (IoApicImpl.write_redtlb a 2 stored) ;;
    eoi
  else if (n =? 10) || (n =? 11) then eoi
  else mret tt.

(** What a handler does, apart from its log lines. *)
Definition handle (h : Handler) : M (istate D) unit :=
  match h with
  | breakpoint_handler => mret tt
  | overflow_handler => lift (Panic (PExplicit ""))
  | invalid_tss_handler => lift (Panic (PExplicit ""))
  | segment_not_present_handler => lift (Panic (PExplicit ""))
  | stack_segment_fault_handler => lift (Panic (PExplicit ""))
  | alignment_check_handler => lift (Panic (PExplicit ""))
  | double_fault_handler => lift (Panic (PExplicit "EXCEPTION: DOUBLE FAULT"))
  | alignment_check => lift (Panic (PExplicit "EXCEPTION: alignment_check"))
  | invalid_opcode => lift (Panic (PExplicit "EXCEPTION: invalid_opcode"))
  | bound_range_exceeded => lift (Panic (PExplicit "EXCEPTION: bound_range_exceeded"))
  | general_protection_fault => lift (Panic (PExplicit "EXCEPTION: general_protection_fault"))
  | page_fault_handler => lift (Panic (PExplicit "EXCEPTION: PAGE FAULT"))
  | generic_handler => mret tt
  | lapic_timer => eoi ;; tick ;; wake_all
  | lapic_timer2 => mret tt
  | ioapic_handler n => handle_line n
  end.

Definition global_time_ms : M (istate D) Z := gets time_ms.

(** [wait_block]: the clock as successive reads of it see it; the number of reads
    it takes, or none if the readings run out. *)
Fixpoint wait_block_reads (target : Z) (readings : list Z) : option nat :=
  match readings with
  | [] => None
  | t :: readings => if target <? t then Some O else S <$> wait_block_reads target readings
  end.
Definition wait_block (current ms : Z) (readings : list Z) : option nat :=
  wait_block_reads (current +u[64] ms) readings.

(** The body of [add_waker], under the lock of the table: the first empty slot, or
    nothing. *)
Fixpoint fill_first (ws : list (option Z)) (task : Z) (i : Z) : list (option Z) * Z :=
  match ws with
  | [] => ([], 0)
  | None :: ws => (Some task :: ws, i)
  | Some w :: ws => let '(ws', r) := fill_first ws task (i + 1) in (Some w :: ws', r)
  end.
Definition add_waker (task : Z) : M (istate D) Z := λ s,
  let '(ws, r) := fill_first (wakers s) task 0 in
  Ok (r, IState (mmio s) (local_apic s) (io_apic_0 s) (time_ms s) ws (woken s)).

(** [add_waker] with the lock it takes, interrupts being enabled: [inside] is the
    number of timer interrupts that come before the lock is released. The handler
    of the first acknowledges it, advances the clock and spins on the lock, which
    the task it interrupted cannot release: the call never returns. *)
Definition add_waker_locked (inside : nat) (task : Z) : M (istate D) (option Z) :=
  match inside with
  | O => r ← add_waker task; mret (Some r)
  | S _ => eoi ;; tick ;; mret None
  end.

(** [Timer::new] and [Timer::poll]; the timer interrupts between the two readings
    of the clock are those [before] the lock of the table is taken, [inside] it,
    and [after] it is released. There is no result when the poll never returns. *)
Definition timer_new (ms : Z) : M (istate D) Z := now ← global_time_ms; mret (now +u[64] ms).

Fixpoint interrupts (ticks : nat) : M (istate D) unit :=
  match ticks with O => mret tt | S n => handle lapic_timer ;; interrupts n end.

Definition timer_poll (before inside after : nat) (stop task : Z) : M (istate D) (option bool) :=
  now ← global_time_ms;
  if stop <=? now then mret (Some true)
  else
    interrupts before ;;
    id ← add_waker_locked inside task;
    match id with
    | None => mret None
    | Some _ =>
        interrupts after ;;
        now ← global_time_ms;
        mret (Some (stop <=? now))
    end.
End handlers.
End InterruptsImpl.

(** ** Vectors *)
(** The handler of an interrupt vector. *)
Definition vector_handler (v : Z) : Handler :=
  if v =? 48 then lapic_timer else if v =? 49 then lapic_timer2
  else if (50 <=? v) && (v <? 74) then ioapic_handler (v - 50) else generic_handler.

Lemma idt_lookup v : 32 ≤ v < 256 → IDT !! v = Some (vector_handler v).
Proof.
  intros Hv. pose (f := λ v, bool_decide (IDT !! v = Some (vector_handler v))).
  assert (f v = true) as Hf by (apply (by_range f 32 256); [by vm_compute|done]).
  by apply bool_decide_eq_true in Hf.
Qed.

(** ** End of interrupt *)

(** The in-service side of a local APIC: the vectors accepted and not yet
    acknowledged, latest first. A vector is delivered when its priority class,
    the high half of its number, is above every class in service; writing the
    EOI register retires the highest. *)
Definition class_of (v : Z) : Z := v / 16.
Definition deliverable (isr : list Z) (v : Z) : bool := forallb (λ u, class_of u <? class_of v) isr.

Definition acknowledges (h : Handler) : bool :=
  match h with
  | lapic_timer => true
  | ioapic_handler n => (n =? 1) || (n =? 2) || (n =? 10) || (n =? 11)
  | _ => false
  end.

(** One interrupt taken: delivered if it may be, retired if its handler writes
    the EOI register. *)
Definition accept (isr : list Z) (v : Z) : list Z :=
  if deliverable isr v then
    match IDT !! v with
    | Some h => if acknowledges h then isr else v :: isr
    | None => isr
    end
  else isr.

Section eoi.
Context {D : Type} `{Mmio D} `{X86Addr}.

Lemma eoi_run (s : istate D) a :
  local_apic s = Some a →
  ∃ d, InterruptsImpl.eoi s = Ok (tt, IState d (local_apic s) (io_apic_0 s) (time_ms s) (wakers s) (woken s)) ∧
    mlog d = mlog (mmio s) ++ [(lapic_address a +u[64] 0xB0, 0)].
Proof.
  intros Ha. destruct (mmio_store_ok (lapic_address a +u[64] 0xB0) 0 (mmio s)) as (d & E & L).
  exists d. split; [|done]. unfold InterruptsImpl.eoi, mbind, M_bind, gets, lift. rewrite Ha. simpl.
  unfold InterruptsImpl.on_mmio, LocalApicImpl.eoi, LocalApicImpl.write. rewrite E. by rewrite Ha.
Qed.

Lemma timer_handler_run (s : istate D) a :
  local_apic s = Some a →
  ∃ d, InterruptsImpl.handle lapic_timer s = Ok (tt, IState d (local_apic s) (io_apic_0 s) (time_ms s +u[64] 1)
      (replicate (length (wakers s)) None) (woken s ++ omap (λ w, w) (wakers s))) ∧
    mlog d = mlog (mmio s) ++ [(lapic_address a +u[64] 0xB0, 0)].
Proof.
  intros Ha. destruct (eoi_run s a Ha) as (d & E & L). exists d. split; [|done].
  unfold InterruptsImpl.handle. by rewrite (M_bind_run _ _ _ _ _ E).
Qed.
End eoi.

(** *** What each handler writes *)
Section writes.
Context {D : Type} `{Mmio D} `{X86Addr}.

(** The device log only grows. *)
Definition ext (d d' : D) : Prop := ∃ l, mlog d' = mlog d ++ l.
Lemma ext_refl d : ext d d.
Proof. exists []. by rewrite app_nil_r. Qed.
Lemma ext_trans d1 d2 d3 : ext d1 d2 → ext d2 d3 → ext d1 d3.
Proof. intros [l1 H1] [l2 H2]. exists (l1 ++ l2). by rewrite H2, H1, app_assoc. Qed.

Lemma mmio_store_grows a v d x d' : mmio_store a v d = Ok (x, d') → ext d d'.
Proof. destruct (mmio_store_ok a v d) as (d1 & E & L). rewrite E. intros [= _ <-]. by eexists. Qed.
Lemma mmio_load_grows a d x d' : mmio_load a d = Ok (x, d') → ext d d'.
Proof.
  destruct (mmio_load_ok a d) as (v & d1 & E & L & _). rewrite E. intros [= _ <-]. rewrite <-(app_nil_r (mlog d)) in L.
  by eexists.
Qed.

Lemma ioapic_read_ext a r d x d' : IoApicImpl.read a r d = Ok (x, d') → ext d d'.
Proof.
  unfold IoApicImpl.read, IoApicImpl.set_sel. intros (u & d1 & E1 & E)%M_bind_ok. apply mmio_store_grows in E1.
  apply M_bind_ok in E as (sec & d2 & E2 & E). unfold lift in E2. destruct (VirtAddr_add _ _); [|done].
  injection E2 as _ <-. apply mmio_load_grows in E. by eapply ext_trans.
Qed.
Lemma ioapic_write_ext a r v d x d' : IoApicImpl.write a r v d = Ok (x, d') → ext d d'.
Proof.
  unfold IoApicImpl.write, IoApicImpl.set_sel. intros (u & d1 & E1 & E)%M_bind_ok. apply mmio_store_grows in E1.
  apply M_bind_ok in E as (sec & d2 & E2 & E). unfold lift in E2. destruct (VirtAddr_add _ _); [|done].
  injection E2 as _ <-. apply mmio_store_grows in E. by eapply ext_trans.
Qed.
Lemma read_redtlb_ext a i d x d' : IoApicImpl.read_redtlb a i d = Ok (x, d') → ext d d'.
Proof.
  unfold IoApicImpl.read_redtlb. intros (lo & d1 & E1 & E)%M_bind_ok. apply ioapic_read_ext in E1.
  apply M_bind_ok in E as (hi & d2 & E2 & E). apply ioapic_read_ext in E2. injection E as _ <-. by eapply ext_trans.
Qed.
Lemma write_redtlb_ext a i v d x d' : IoApicImpl.write_redtlb a i v d = Ok (x, d') → ext d d'.
Proof.
  unfold IoApicImpl.write_redtlb. intros (u & d1 & E1 & E)%M_bind_ok. apply ioapic_write_ext in E1, E.
  by eapply ext_trans.
Qed.

(** A handler that ran: what its log ends with. *)
Definition ends_interrupt (s s' : istate D) : Prop :=
  ∃ a l, local_apic s = Some a ∧ mlog (mmio s') = (mlog (mmio s) ++ l) ++ [(lapic_address a +u[64] 0xB0, 0)].

Lemma on_mmio_inv {A} (m : M D A) (s : istate D) x s' :
  InterruptsImpl.on_mmio m s = Ok (x, s') →
  ∃ d, m (mmio s) = Ok (x, d) ∧ s' = IState d (local_apic s) (io_apic_0 s) (time_ms s) (wakers s) (woken s).
Proof. unfold InterruptsImpl.on_mmio. destruct (m (mmio s)) as [[y d]|]; [|done]. intros [= -> <-]. by exists d. Qed.

Lemma eoi_ends (s0 s s' : istate D) x :
  local_apic s = local_apic s0 → ext (mmio s0) (mmio s) → InterruptsImpl.eoi s = Ok (x, s') → ends_interrupt s0 s'.
Proof.
  intros Ha [l Hl] E. destruct (local_apic s) as [a|] eqn:Es; [|unfold InterruptsImpl.eoi, mbind, M_bind, gets, lift in E; by rewrite Es in E].
  destruct (eoi_run s a Es) as (d & E1 & L). rewrite E1 in E. injection E as _ <-.
  exists a, l. split; [done|]. cbn [mmio]. by rewrite L, Hl.
Qed.

Lemma handle_writes h (s s' : istate D) :
  InterruptsImpl.handle h s = Ok (tt, s') →
  if acknowledges h then ends_interrupt s s' else mlog (mmio s') = mlog (mmio s).
Proof.
  destruct h; cbn [InterruptsImpl.handle acknowledges]; try (by intros [= <-]); try done.
  - intros (u & s1 & E1 & E)%M_bind_ok. apply M_bind_ok in E as (v & s2 & E2 & E).
    injection E2 as _ <-. injection E as <-. apply (eoi_ends s) in E1 as (a & l & Ha & L); [|done|apply ext_refl].
    exists a, l. done.
  - unfold InterruptsImpl.handle_line. destruct (Z.eqb_spec n 1); [|destruct (Z.eqb_spec n 2); [|destruct (Z.eqb_spec n 10), (Z.eqb_spec n 11)]]; cbn [orb].
    + intros (a & s1 & E1 & E)%M_bind_ok. apply M_bind_ok in E1 as (o & s2 & [= <- <-] & E1).
      unfold lift in E1. destruct (unwrap (io_apic_0 s)); [|done]. injection E1 as <- <-.
      apply M_bind_ok in E as (r & s3 & (d & E3 & ->)%on_mmio_inv & E). apply read_redtlb_ext in E3.
      by apply (eoi_ends s) in E.
    + intros (a & s1 & E1 & E)%M_bind_ok. apply M_bind_ok in E1 as (o & s2 & [= <- <-] & E1).
      unfold lift in E1. destruct (unwrap (io_apic_0 s)); [|done]. injection E1 as <- <-.
      apply M_bind_ok in E as (r & s3 & (d & E3 & ->)%on_mmio_inv & E). apply read_redtlb_ext in E3.
      apply M_bind_ok in E as (r2 & s4 & (d4 & E4 & ->)%on_mmio_inv & E). apply write_redtlb_ext in E4.
      apply (eoi_ends s) in E; [done|done|]. by eapply ext_trans.
    + by apply eoi_ends; [|apply ext_refl].
    + by apply eoi_ends; [|apply ext_refl].
    + by apply eoi_ends; [|apply ext_refl].
    + by intros [= <-].
Qed.
End writes.

(** Every interrupt line has its handler, and few of them end the
    interrupt. Line [i] of the I/O APIC, routed to vector [50 + i], enters
    handler [i]; a handler that returns has written the end-of-interrupt
    register, last, if it is the timer's or that of line 1, 2, 10 or 11, and has
    written no device register at all otherwise. *)
Theorem handlers_end_of_interrupt {D} `{Mmio D} `{X86Addr} v h (s s' : istate D) :
  32 ≤ v < 256 → IDT !! v = Some h → InterruptsImpl.handle h s = Ok (tt, s') →
  (∀ i, 0 ≤ i < 24 → v = 50 + i → h = ioapic_handler i) ∧
  (v = 48 ∨ v ∈ [51; 52; 60; 61] → ends_interrupt s s') ∧
  (v ≠ 48 → v ∉ [51; 52; 60; 61] → mlog (mmio s') = mlog (mmio s)).
Proof.
  intros Hv. rewrite idt_lookup by done. intros [= <-] E. apply handle_writes in E.
  assert (acknowledges (vector_handler v) = bool_decide (v = 48 ∨ v ∈ [51; 52; 60; 61])) as Hk.
  { pose (f := λ v, eqb (acknowledges (vector_handler v)) (bool_decide (v = 48 ∨ v ∈ [51; 52; 60; 61]))).
    assert (f v = true) as Hf by (apply (by_range f 32 256); [by vm_compute|done]). by apply eqb_prop in Hf. }
  rewrite Hk in E. split_and!.
  - intros i Hi ->. unfold vector_handler. bsplit; try lia. f_equal. lia.
  - intros Hin. by rewrite bool_decide_eq_true_2 in E.
  - intros H1 H2. rewrite bool_decide_eq_false_2 in E; [done|]. by intros [?|?].
Qed.

Definition example_istate : istate IoApicMem :=
  IState {| im_sel := 0; im_regs := ∅; im_log := [] |} (Some {| lapic_address := 0xFEE00000 |}) None 7 WAKERS [].

#[local] Existing Instance mmio_instance.
#[local] Existing Instance x86_addr_instance.

(** Line 1 without the I/O APIC set up cannot run; line 10 acknowledges; line 8 does not. *)
Lemma handlers_end_of_interrupt_witness :
  (∃ s', InterruptsImpl.handle (ioapic_handler 10) example_istate = Ok (tt, s') ∧ ends_interrupt example_istate s') ∧
  (∃ s', InterruptsImpl.handle (ioapic_handler 8) example_istate = Ok (tt, s') ∧
     mlog (mmio s') = mlog (mmio example_istate)).
Proof.
  split; eexists; (split; [reflexivity|]).
  - eapply (handlers_end_of_interrupt 60 (ioapic_handler 10) example_istate);
      [lia|by vm_compute|reflexivity|right; apply (bool_decide_unpack _); by vm_compute].
  - eapply (handlers_end_of_interrupt 58 (ioapic_handler 8) example_istate);
      [lia|by vm_compute|reflexivity|lia|apply (bool_decide_unpack _); by vm_compute].
Defined.

Lemma accept_keeps isr v u : u ∈ isr → u ∈ accept isr v.
Proof.
  unfold accept. intros Hu. destruct (deliverable isr v); [|done]. destruct (IDT !! v) as [h|]; [|done].
  destruct (acknowledges h); [done|by right].
Qed.

Lemma accept_first v : 32 ≤ v < 256 → acknowledges (vector_handler v) = false → accept [] v = [v].
Proof. intros Hv Ha. unfold accept. rewrite idt_lookup by done. by rewrite Ha. Qed.

(** An unacknowledged line stops the clock. Once an interrupt has come in
    on any line but 1, 2, 10 and 11, its vector stays in service, and whatever
    interrupts follow, the local APIC never delivers the timer's vector again. *)
Theorem unacknowledged_line_stops_timer i vs :
  0 ≤ i < 24 → i ∉ [1; 2; 10; 11] →
  deliverable (fold_left accept vs (accept [] (50 + i))) 48 = false.
Proof.
  intros Hi Hni. rewrite accept_first; [|lia|].
  - assert (50 + i ∈ fold_left accept vs [50 + i]) as Hin.
    { induction vs as [|v vs IH] using rev_ind; [by left|]. rewrite fold_left_app. by apply accept_keeps. }
    unfold deliverable. apply not_true_iff_false. rewrite forallb_forall. intros Hall.
    specialize (Hall (50 + i)). rewrite <-list_elem_of_In in Hall. specialize (Hall Hin).
    unfold class_of in Hall. lia.
  - unfold vector_handler. bsplit; try lia. cbn [acknowledges]. replace (50 + i - 50) with i by lia.
    rewrite !not_elem_of_cons in Hni. lia.
Qed.

Lemma unacknowledged_line_stops_timer_witness :
  deliverable (fold_left accept [48; 61; 48] (accept [] 58)) 48 = false.
Proof.
  apply (unacknowledged_line_stops_timer 8 [48; 61; 48]); [lia|]. apply (bool_decide_unpack _). by vm_compute.
Defined.

(** ** Timers *)
Lemma fill_first_spec ws task i :
  let '(ws', r) := InterruptsImpl.fill_first ws task i in
  (None ∈ ws → ∃ k, ws !! k = Some None ∧ r = i + Z.of_nat k ∧ ws' = <[k := Some task]> ws ∧
                   ∀ j, (j < k)%nat → ws !! j ≠ Some None) ∧
  (None ∉ ws → ws' = ws ∧ r = 0).
Proof.
  revert i; induction ws as [|[w|] ws IH]; intros i; cbn [InterruptsImpl.fill_first].
  - split; [by intros ?%elem_of_nil|done].
  - specialize (IH (i + 1)). destruct (InterruptsImpl.fill_first ws task (i + 1)) as [ws' r].
    destruct IH as [IH1 IH2]. split.
    + intros [E|Hin]%elem_of_cons; [done|]. destruct (IH1 Hin) as (k & Hk & -> & -> & Hf).
      exists (S k). split_and!; [done|lia|done|]. intros [|j] Hj; [done|]. apply Hf. lia.
    + intros Hni. destruct IH2 as [-> ->]; [|done]. intros Hin. apply Hni. by right.
  - split; [|intros Hni; destruct Hni; left]. intros _. exists 0%nat. split_and!; [done|lia|done|lia].
Qed.

Lemma interrupts_run {D} `{Mmio D} `{X86Addr} n (s : istate D) a :
  local_apic s = Some a → 0 ≤ time_ms s → time_ms s + Z.of_nat n < 2 ^ 64 →
  ∃ s', InterruptsImpl.interrupts n s = Ok (tt, s') ∧ time_ms s' = time_ms s + Z.of_nat n ∧
    local_apic s' = Some a ∧
    (wakers s', woken s') = match n with O => (wakers s, woken s)
                            | S _ => (replicate (length (wakers s)) None, woken s ++ omap (λ w, w) (wakers s)) end.
Proof.
  revert s; induction n as [|n IH]; intros s Ha Ht Hb; cbn [InterruptsImpl.interrupts].
  - exists s. by rewrite Z.add_0_r.
  - destruct (timer_handler_run s a Ha) as (d & E & _). rewrite (M_bind_run _ _ _ _ _ E).
    rewrite wrap_small by (unfold fits; lia).
    destruct (IH (IState d (local_apic s) (io_apic_0 s) (time_ms s + 1) (replicate (length (wakers s)) None)
      (woken s ++ omap (λ w, w) (wakers s)))) as (s' & E' & T & A & W); cbn [time_ms local_apic]; [done|lia|lia|].
    exists s'. split_and!; [done|cbn in T; lia|done|]. rewrite W. cbn [wakers woken].
    destruct n; [done|]. rewrite length_replicate. f_equal. rewrite <-app_assoc. f_equal.
    assert (∀ m, omap (λ w : option Z, w) (replicate m None) = []) as Hm by (induction m; done).
    by rewrite Hm, app_nil_r.
Qed.

(** A poll before the deadline: the interrupts before the lock, the slot, and the
    interrupts after it. *)
Lemma timer_poll_waits {D} `{Mmio D} `{X86Addr} (s sb s1 : istate D) before after stop task :
  time_ms s < stop → InterruptsImpl.interrupts before s = Ok (tt, sb) →
  InterruptsImpl.interrupts after (IState (mmio sb) (local_apic sb) (io_apic_0 sb) (time_ms sb)
    (InterruptsImpl.fill_first (wakers sb) task 0).1 (woken sb)) = Ok (tt, s1) →
  InterruptsImpl.timer_poll before 0 after stop task s = Ok (Some (stop <=? time_ms s1), s1).
Proof.
  intros Hs Eb E. unfold InterruptsImpl.timer_poll, InterruptsImpl.global_time_ms.
  unfold mbind at 1, M_bind at 1, gets at 1. cbn. assert ((stop <=? time_ms s) = false) as -> by lia.
  rewrite (M_bind_run _ _ _ _ _ Eb). unfold InterruptsImpl.add_waker_locked.
  unfold mbind at 1, M_bind at 1. unfold mbind at 1, M_bind at 1, InterruptsImpl.add_waker. cbn.
  destruct (InterruptsImpl.fill_first (wakers sb) task 0) as [ws r]. cbn in E |- *. by rewrite (M_bind_run _ _ _ _ _ E).
Qed.

(** A poll interrupted under the lock. *)
Lemma timer_poll_stuck {D} `{Mmio D} `{X86Addr} (s sb : istate D) a before n after stop task :
  time_ms s < stop → InterruptsImpl.interrupts before s = Ok (tt, sb) → local_apic sb = Some a →
  ∃ s1, InterruptsImpl.timer_poll before (S n) after stop task s = Ok (None, s1) ∧
    wakers s1 = wakers sb ∧ woken s1 = woken sb.
Proof.
  intros Hs Eb Ha. destruct (eoi_run sb a Ha) as (d & E & _).
  unfold InterruptsImpl.timer_poll, InterruptsImpl.global_time_ms.
  unfold mbind at 1, M_bind at 1, gets at 1. cbn. assert ((stop <=? time_ms s) = false) as -> by lia.
  rewrite (M_bind_run _ _ _ _ _ Eb). unfold InterruptsImpl.add_waker_locked.
  eexists. unfold mbind at 1, M_bind at 1. rewrite (M_bind_run _ _ _ _ _ E). split; [reflexivity|]. by split.
Qed.

Lemma omap_none m : omap (λ w : option Z, w) (replicate m None) = [].
Proof. by induction m. Qed.

(** The wakers that a number of interrupts leaves and the tasks they woke. *)
Lemma interrupts_woken {D} `{Mmio D} `{X86Addr} n (s : istate D) a :
  local_apic s = Some a → 0 ≤ time_ms s → time_ms s + Z.of_nat n < 2 ^ 64 →
  ∃ s', InterruptsImpl.interrupts n s = Ok (tt, s') ∧ time_ms s' = time_ms s + Z.of_nat n ∧ local_apic s' = Some a ∧
    wakers s' = (if decide (n = 0%nat) then wakers s else replicate (length (wakers s)) None) ∧
    woken s' ++ omap (λ w, w) (wakers s') = woken s ++ omap (λ w, w) (wakers s) ∧
    (n = 0%nat → woken s' = woken s).
Proof.
  intros Ha Ht Hb. destruct (interrupts_run n s a Ha Ht Hb) as (s' & E & T & A & W). exists s'.
  destruct n; injection W as W1 W2; rewrite W1, W2; split_and!; try done. by rewrite omap_none, app_nil_r.
Qed.

(** C39: sleeping tasks wake, or stop the machine. A timer polled at or after its
    deadline is ready. Polled before it, with timer interrupts at any of three
    places: [before] the poll takes the lock of the waker table, [inside] the
    lock, and [after] it. If there is one inside, its handler spins on the lock and
    the poll never returns. If there is none inside, the poll returns, ready if the
    interrupts reached the deadline; and if a slot of the table was free or an
    interrupt came before the lock, which frees them all, the task is woken at the
    first timer interrupt after the lock, whether that comes before the poll
    returns or later. Otherwise all 128 slots are taken and the waker is
    dropped: no number of later interrupts wakes the task for it. *)
Theorem timer_wakes_or_drops {D} `{Mmio D} `{X86Addr} (s : istate D) a stop task before inside after later :
  local_apic s = Some a → length (wakers s) = 128%nat →
  0 ≤ time_ms s → time_ms s + Z.of_nat (before + after + later) < 2 ^ 64 →
  (stop ≤ time_ms s → InterruptsImpl.timer_poll before inside after stop task s = Ok (Some true, s)) ∧
  (time_ms s < stop → (0 < inside)%nat → ∃ s1, InterruptsImpl.timer_poll before inside after stop task s = Ok (None, s1)) ∧
  (time_ms s < stop → inside = 0%nat → ∃ s1 s2,
     InterruptsImpl.timer_poll before inside after stop task s = Ok (Some (stop <=? time_ms s + Z.of_nat (before + after)), s1) ∧
     InterruptsImpl.interrupts later s1 = Ok (tt, s2) ∧
     (None ∈ wakers s ∨ (0 < before)%nat →
        if decide (after + later = 0)%nat then Some task ∈ wakers s2 else ∃ l1 l2, woken s2 = woken s ++ l1 ++ task :: l2) ∧
     (None ∉ wakers s → before = 0%nat →
        if decide (after + later = 0)%nat then wakers s2 = wakers s else woken s2 = woken s ++ omap (λ w, w) (wakers s))).
Proof.
  intros Ha Hlen Ht Hb. split.
  { intros Hs. unfold InterruptsImpl.timer_poll, InterruptsImpl.global_time_ms.
    unfold mbind at 1, M_bind at 1, gets at 1. cbn. by assert ((stop <=? time_ms s) = true) as -> by lia. }
  destruct (interrupts_woken before s a) as (sb & Eb & Tb & Ab & Wb & Kb & Nb); [done..|lia|].
  split.
  { intros Hs Hin. destruct inside as [|n]; [lia|]. destruct (timer_poll_stuck s sb a before n after stop task) as (s1 & E & _); [done..|].
    by exists s1. }
  intros Hs ->. pose proof (fill_first_spec (wakers sb) task 0) as Hf. pose proof (timer_poll_waits s sb) as Hp.
  destruct (InterruptsImpl.fill_first (wakers sb) task 0) as [ws r] eqn:Ef.
  set (s0 := IState (mmio sb) (local_apic sb) (io_apic_0 sb) (time_ms sb) ws (woken sb)).
  destruct (interrupts_woken after s0 a) as (s1 & E1 & T1 & A1 & W1 & K1 & N1); cbn [s0 local_apic time_ms]; [done|lia|lia|].
  destruct (interrupts_woken later s1 a) as (s2 & E2 & T2 & A2 & W2 & K2 & N2); [done|cbn in T1; lia|cbn in T1; lia|].
  exists s1, s2. specialize (Hp s1 before after stop task Hs Eb). rewrite Ef in Hp.
  split; [rewrite (Hp E1), T1; cbn [s0 time_ms]; by rewrite Tb, Nat2Z.inj_add, Z.add_assoc|]. split; [done|]. cbn [s0 wakers woken] in *.
  assert (wakers s2 = if decide (after + later = 0)%nat then ws else replicate (length ws) None) as Hw2.
  { rewrite W2, W1. repeat case_decide; try lia; by rewrite ?length_replicate. }
  assert (woken s2 ++ omap (λ w, w) (wakers s2) = woken sb ++ omap (λ w, w) ws) as Hk2 by by rewrite K2, K1.
  split.
  - intros Hfree. destruct Hf as [Hf _]. destruct Hf as (k & Hk & _ & -> & _).
      { rewrite Wb. destruct (decide (before = 0%nat)) as [Hb0|Hb0]; [destruct Hfree; [done|lia]|]. rewrite Hlen. by left. }
    pose proof (lookup_lt_Some _ _ _ Hk) as Hkl. destruct (decide (after + later = 0)%nat) as [He|He].
    + rewrite Hw2. apply list_elem_of_lookup. exists k. by apply list_lookup_insert_eq.
    + rewrite Hw2, omap_none, app_nil_r in Hk2. rewrite Hk2.
      assert (∃ l, woken sb = woken s ++ l) as [l0 ->].
      { destruct (decide (before = 0%nat)) as [Hb0|Hb0]; [exists []; rewrite app_nil_r; by apply Nb|].
        rewrite Wb, omap_none, app_nil_r in Kb. by eexists. }
      exists (l0 ++ omap (λ w, w) (take k (wakers sb))), (omap (λ w, w) (drop (S k) (wakers sb))).
      rewrite <-!app_assoc. do 2 f_equal. rewrite insert_take_drop by done. by rewrite omap_app.
  - intros Hni ->. cbn in Wb. rewrite Wb, (Nb eq_refl) in *. destruct Hf as [_ Hf]. destruct (Hf Hni) as [-> _].
    destruct (decide (after + later = 0)%nat) as [He|He]; [done|]. by rewrite Hw2, omap_none, app_nil_r in Hk2.
Qed.

(** A sleep of 5 ms started at time 7, with a tick before the lock and two before
    the poll returns; and with a tick under the lock. *)
Lemma timer_wakes_or_drops_witness :
  (∃ s1 s2, InterruptsImpl.timer_poll 1 0 2 12 42 example_istate = Ok (Some false, s1) ∧
    InterruptsImpl.interrupts 3 s1 = Ok (tt, s2) ∧ ∃ l1 l2, woken s2 = l1 ++ 42 :: l2) ∧
  (∃ s1, InterruptsImpl.timer_poll 0 1 0 12 42 example_istate = Ok (None, s1)).
Proof.
  split.
  - destruct (timer_wakes_or_drops example_istate {| lapic_address := 0xFEE00000 |} 12 42 1 0 2 3) as (_ & _ & Hw);
      [reflexivity|reflexivity|by vm_compute|by vm_compute|].
    destruct Hw as (s1 & s2 & E1 & E2 & Hw & _); [by vm_compute|reflexivity|].
    exists s1, s2. split; [exact E1|]. split; [exact E2|].
    destruct Hw as (l1 & l2 & Hw); [right; lia|]. exists l1, l2. exact Hw.
  - destruct (timer_wakes_or_drops example_istate {| lapic_address := 0xFEE00000 |} 12 42 0 1 0 0) as (_ & Hw & _);
      [reflexivity|reflexivity|by vm_compute|by vm_compute|].
    apply Hw; [by vm_compute|lia].
Defined.
