(* ===== verification/Gdt.v ===== *)
(** Segments and the stacks of exceptions ([gdt.rs] and the stack indexes of the
    [IDT] in [interrupts.rs], under [bootloader/kernel/src]): the tables that are
    built, the registers that [gdt::init] loads, and what the processor makes of
    them when an exception is taken. *)
From S2P Require Import Prelude Interfaces IoApic LocalApic Interrupts.

(** ** The crate

    [GlobalDescriptorTable], [Descriptor] and [SegmentSelector] of [x86_64]: the
    table is a list of 8-byte entries of which the first is null; [add_entry]
    appends the entries of a descriptor and returns the selector of the first,
    its index times eight and the privilege level in the low bits. *)
Inductive Descriptor := kernel_code_segment | kernel_data_segment | tss_segment (tss : Z).

Class GdtCrate (T : Type) := {
  gdt_new : T;
  add_entry : Descriptor → M T Z;
  entries : T → list Z;
  entries_of : Descriptor → list Z;
  gdt_new_null : entries gdt_new = [0];
  add_entry_ok d t : (length (entries t) + length (entries_of d) <= 8)%nat →
    ∃ t', add_entry d t = Ok (8 * len (entries t), t') ∧ entries t' = entries t ++ entries_of d;
  segments_one d : (∀ a, d ≠ tss_segment a) → length (entries_of d) = 1%nat;
  tss_two a : length (entries_of (tss_segment a)) = 2%nat
}.

(** ** The code *)
Record Selectors := { code_selector : Z; data_selector : Z; tss_selector : Z }.

Definition DOUBLE_FAULT_IST_INDEX : Z := 0.
Definition STACK_SIZE : Z := 4 * 1024.

(** The interrupt stacks of the [TaskStateSegment]; [stack] is where [STACK] is. *)
Record TaskStateSegment := { interrupt_stack_table : list Z }.

Definition TSS `{X86Addr} (stack : Z) : res TaskStateSegment :=
  stack_end ← VirtAddr_add stack STACK_SIZE;
  t ← update (replicate 7 0) DOUBLE_FAULT_IST_INDEX stack_end;
  mret {| interrupt_stack_table := t |}.

(** The processor's segment registers. *)
Record segments (T : Type) := Segments { gdtr : option T; ds : Z; es : Z; ss : Z; cs : Z; tr : Z }.
Arguments Segments {T} _ _ _ _ _ _.
Arguments gdtr {T} _. Arguments ds {T} _. Arguments es {T} _. Arguments ss {T} _. Arguments cs {T} _. Arguments tr {T} _.

Section gdt.
Context {T : Type} `{GdtCrate T}.

(** [tss] is the address of [TSS]. *)
Definition build (tss : Z) : M T Selectors :=
  code_selector ← add_entry kernel_code_segment;
  data_selector ← add_entry kernel_data_segment;
  tss_selector ← add_entry (tss_segment tss);
  mret {| code_selector := code_selector; tss_selector := tss_selector; data_selector := data_selector |}.

Definition GDT (tss : Z) : res (T * Selectors) :=
  '(selectors, gdt) ← build tss gdt_new;
  mret (gdt, selectors).

Definition load (g : T) : M (segments T) unit := modify (λ r, Segments (Some g) (ds r) (es r) (ss r) (cs r) (tr r)).
Definition set_ds (v : Z) : M (segments T) unit := modify (λ r, Segments (gdtr r) v (es r) (ss r) (cs r) (tr r)).
Definition set_es (v : Z) : M (segments T) unit := modify (λ r, Segments (gdtr r) (ds r) v (ss r) (cs r) (tr r)).
Definition set_ss (v : Z) : M (segments T) unit := modify (λ r, Segments (gdtr r) (ds r) (es r) v (cs r) (tr r)).
Definition set_cs (v : Z) : M (segments T) unit := modify (λ r, Segments (gdtr r) (ds r) (es r) (ss r) v (tr r)).
Definition load_tss (v : Z) : M (segments T) unit := modify (λ r, Segments (gdtr r) (ds r) (es r) (ss r) (cs r) v).

Definition init (tss : Z) : M (segments T) unit :=
  g ← lift (GDT tss);
  load g.1 ;;
  set_ds (data_selector g.2) ;;
  set_es (data_selector g.2) ;;
  set_ss (data_selector g.2) ;;
  set_cs (code_selector g.2) ;;
  load_tss (tss_selector g.2).

(** The entries a selector names, of the loaded table. *)
Definition named (r : segments T) (selector : Z) (n : nat) : option (list Z) :=
  g ← gdtr r;
  let l := take n (drop (Z.to_nat (selector / 8)) (entries g)) in
  if (length l =? n)%nat then Some l else None.
End gdt.

(** ** The gates of the descriptor table

    [set_handler_fn] fills a gate that uses the current stack, [set_stack_index]
    gives it a stack of the task state segment. *)
Record Gate := { handler : Handler; stack_index : option Z }.

Definition set_handler_fn (h : Handler) : Gate := {| handler := h; stack_index := None |}.
Definition set_stack_index (i : Z) (g : Gate) : Gate := {| handler := handler g; stack_index := Some i |}.

Definition gate_writes : list (Z * Gate) :=
  (λ '(v, h), (v, if (v =? 8) || (v =? 4) then set_stack_index DOUBLE_FAULT_IST_INDEX (set_handler_fn h) else set_handler_fn h))
    <$> idt_writes.

Definition gates : gmap Z Gate := fold_left (λ t '(v, g), <[v := g]> t) gate_writes ∅.

(** Taking vector [v] on the stack [rsp]: the handler, and the stack it runs on.
    A vector without a gate is a fault of its own. *)
Definition take_vector (tss : TaskStateSegment) (rsp v : Z) : option (Handler * Z) :=
  g ← gates !! v;
  match stack_index g with
  | None => Some (handler g, rsp)
  | Some i => s ← interrupt_stack_table tss !! Z.to_nat i; Some (handler g, s)
  end.

(** *** Properties *)
Section spec.
Context {T : Type} `{GdtCrate T}.

Lemma GDT_run tss : ∃ g : T, GDT tss = Ok (g, {| code_selector := 8; data_selector := 16; tss_selector := 24 |}) ∧
  entries g = [0] ++ entries_of kernel_code_segment ++ entries_of kernel_data_segment ++ entries_of (tss_segment tss).
Proof.
  assert (length (entries_of kernel_code_segment) = 1%nat) as Hc by by apply segments_one.
  assert (length (entries_of kernel_data_segment) = 1%nat) as Hd by by apply segments_one.
  pose proof (tss_two tss) as Ht. pose proof gdt_new_null as Hn.
  destruct (add_entry_ok kernel_code_segment gdt_new) as (g1 & E1 & L1); [rewrite Hn; cbn; lia|].
  destruct (add_entry_ok kernel_data_segment g1) as (g2 & E2 & L2); [rewrite L1, Hn, length_app; cbn; lia|].
  destruct (add_entry_ok (tss_segment tss) g2) as (g3 & E3 & L3); [rewrite L2, L1, Hn, !length_app; cbn; lia|].
  exists g3. unfold GDT, build. rewrite (M_bind_run _ _ _ _ _ E1), (M_bind_run _ _ _ _ _ E2), (M_bind_run _ _ _ _ _ E3).
  cbn [mbind res_bind mret M_ret]. split; [|by rewrite L3, L2, L1, Hn, <-!app_assoc].
  rewrite L2, L1, Hn, !len_app. unfold len. rewrite Hc, Hd. done.
Qed.
End spec.

Lemma gates_lookup v :
  gates !! v = (λ h, {| handler := h; stack_index := if bool_decide (v = 8 ∨ v = 4) then Some 0 else None |}) <$> IDT !! v.
Proof.
  unfold gates, IDT, gate_writes.
  assert (∀ l (t : gmap Z Gate) (u : gmap Z Handler),
    (∀ v, t !! v = (λ h, {| handler := h; stack_index := if bool_decide (v = 8 ∨ v = 4) then Some 0 else None |}) <$> u !! v) →
    ∀ v, fold_left (λ t '(v, g), <[v := g]> t) ((λ '(v, h), (v, if (v =? 8) || (v =? 4)
      then set_stack_index DOUBLE_FAULT_IST_INDEX (set_handler_fn h) else set_handler_fn h)) <$> l) t !! v =
     (λ h, {| handler := h; stack_index := if bool_decide (v = 8 ∨ v = 4) then Some 0 else None |}) <$>
       fold_left (λ t '(v, h), <[v := h]> t) l u !! v) as Hl.
  { intros l. induction l as [|[w h] l IH]; intros t u Htu v'; [apply Htu|]. cbn [fmap list_fmap fold_left]. apply IH.
    intros x. destruct (decide (x = w)) as [->|Hne].
    - rewrite !lookup_insert_eq. cbn. f_equal.
      destruct (Z.eqb_spec w 8), (Z.eqb_spec w 4); cbn; [lia|..]; case_bool_decide; done || lia.
    - rewrite !lookup_insert_ne by done. apply Htu. }
  apply Hl. intros x. by rewrite !lookup_empty.
Qed.

(** C37: the tables the processor is given are the intended ones. After [gdt::init]
    the data registers name the data segment of the loaded table, CS its code
    segment and the task register the two entries of the task state segment; and
    with that segment every vector runs the handler of the [IDT], on the stack it
    interrupts, except that a double fault (8) and an overflow (4) run from the top
    of the 4096 bytes of [STACK]. *)
Theorem descriptor_tables_loaded `{X86Addr} {T} `{GdtCrate T} tss stack (r : segments T) :
  0 ≤ stack → stack + 4096 < 2 ^ 47 →
  ∃ r' t, init tss r = Ok (tt, r') ∧ TSS stack = Ok t ∧
    named r' (ds r') 1 = Some (entries_of kernel_data_segment) ∧ es r' = ds r' ∧ ss r' = ds r' ∧
    named r' (cs r') 1 = Some (entries_of kernel_code_segment) ∧
    named r' (tr r') 2 = Some (entries_of (tss_segment tss)) ∧
    ∀ rsp v, take_vector t rsp v = (λ h, (h, if bool_decide (v = 8 ∨ v = 4) then stack + 4096 else rsp)) <$> IDT !! v.
Proof.
  intros Hs He. destruct (GDT_run (T:=T) tss) as (g & Eg & Lg).
  exists (Segments (Some g) 16 16 16 8 24), {| interrupt_stack_table := stack + 4096 :: replicate 6 0 |}.
  split; [unfold init; by rewrite Eg|]. split.
  { unfold TSS, VirtAddr_add. change (stack + STACK_SIZE) with (stack + 4096). by rewrite VirtAddr_new_ok by lia. }
  pose proof (segments_one kernel_code_segment ltac:(done)) as Hc. pose proof (segments_one kernel_data_segment ltac:(done)) as Hd.
  pose proof (tss_two tss) as Ht.
  destruct (entries_of kernel_code_segment) as [|c [|]]; try done. destruct (entries_of kernel_data_segment) as [|d [|]]; try done.
  destruct (entries_of (tss_segment tss)) as [|t1 [|t2 [|]]]; try done.
  unfold named. cbn [gdtr ds es ss cs tr mbind option_bind]. rewrite Lg. do 5 (split; [done|]).
  intros rsp v. unfold take_vector. rewrite gates_lookup. destruct (IDT !! v) as [h|]; [|done].
  cbn [fmap option_fmap option_map mbind option_bind stack_index handler]. by case_bool_decide.
Qed.

(** *** The claim at a concrete input *)
Program Definition gdt_list : GdtCrate (list Z) := {|
  gdt_new := [0];
  entries_of d := match d with
    | kernel_code_segment => [0x00af9b000000ffff] | kernel_data_segment => [0x00cf93000000ffff]
    | tss_segment a => [a; 0] end;
  entries l := l;
  add_entry d l :=
    let e := match d with
      | kernel_code_segment => [0x00af9b000000ffff] | kernel_data_segment => [0x00cf93000000ffff]
      | tss_segment a => [a; 0] end in
    if (length l + length e <=? 8)%nat then Ok (8 * len l, l ++ e) else Panic (PExplicit "GDT full")
|}.
Next Obligation. done. Qed.
Next Obligation. intros d l Hl. cbn in *. rewrite (proj2 (Nat.leb_le _ _)) by done. by eexists. Qed.
Next Obligation. intros [| |a] Ha; [done..|]. by destruct (Ha a). Qed.
Next Obligation. done. Qed.

#[local] Existing Instance gdt_list.
#[local] Existing Instance x86_addr_instance.

Lemma descriptor_tables_loaded_witness :
  ∃ r' t, init 0x8000 (Segments None 0 0 0 0 0) = Ok (tt, r') ∧ TSS 0x9000 = Ok t ∧ cs r' = 8 ∧
    take_vector t 0x7000 8 = Some (double_fault_handler, 0xA000).
Proof.
  destruct (descriptor_tables_loaded 0x8000 0x9000 (Segments None 0 0 0 0 0)) as (r' & t & E & Et & _ & _ & _ & _ & _ & Hv); [lia..|].
  exists r', t. split; [exact E|]. split; [exact Et|]. split; [by injection E as <-|].
  rewrite (Hv 0x7000 8). reflexivity.
Defined.
