(* ===== verification/App.v ===== *)
(** Applications ([bootloader/kernel/src/app.rs] and the application task of
    [main.rs]): loading an ELF image, calling an application with the pointer to
    its store, and the frame loop, over memory that every application can reach. *)
From Stdlib Require Import Sorted.
From stdpp Require Import sorting.
From S2P Require Import Prelude Bytes Globals.

(** ** What the [xmas_elf] crate reads from a file *)
Record ProgramHeader := {
  load_type : bool;        (* [get_type] is [Ok(program::Type::Load)] *)
  virtual_addr : Z;
  offset : Z;
  file_size : Z;
  mem_size : Z
}.
Record Rela := { r_offset : Z; r_addend : Z }.
(** [rela_dyn]: the entries of [.rela.dyn], when the section exists and holds
    64-bit relocations. *)
Record Elf := { entry_point : Z; program_iter : list ProgramHeader; rela_dyn : option (list Rela) }.

(** ** [App] *)
(** [store] is the pointer of the box, which is on the heap. *)
Record App := MkApp { code : Z; code_len : Z; func : Z; pid : Z; store : option Z }.

Module AppImpl.
(** The end of the highest segment ([min_virt] is computed and then set to 0). *)
Definition max_virt (elf : Elf) : Z :=
  fold_left (λ mx ph, if 0 <? mem_size ph then Z.max mx (virtual_addr ph +u[64] mem_size ph) else mx)
    (program_iter elf) 0.

(** [for i in min_virt..max_virt { owned_code.push(0) }] *)
Definition zeros (ptr : Z) (n : Z) (m : mem) : mem :=
  fold_left (λ m i, <[ptr + i := 0]> m) (range 0 n) m.

(** [owned_code[byte + seg_offset] = code[e]; byte += 1], for each [e] of the
    segment's file range. *)
Definition copy_segment (file : list Z) (ptr cap : Z) (ph : ProgramHeader) (m : mem) : res mem :=
  let seg_offset := virtual_addr ph in
  '(_, m) ← foldM (λ '(byte, m) e,
      b ← index file e;
      let at_ := byte +u[64] seg_offset in
      if at_ <? cap then mret (byte +u[64] 1, <[ptr + at_ := b]> m) else Panic PIndex)
    (0, m) (range (offset ph) (offset ph +u[64] file_size ph));
  mret m.

(** The relocations that fall inside the segment. The kind of a relocation is
    read and not looked at. *)
Definition relocate (ptr : Z) (elf : Elf) (ph : ProgramHeader) (m : mem) : mem :=
  match rela_dyn elf with
  | Some arr =>
      fold_left (λ m r,
        let off := r_offset r in
        let add := r_addend r in
        if (virtual_addr ph <=? off) && (off <? virtual_addr ph +u[64] mem_size ph)
        then Bytes.store 8 m (ptr + off) (add +u[64] ptr)
        else m) arr m
  | None => m
  end.

Definition load_segment (file : list Z) (ptr cap : Z) (elf : Elf) (m : mem) (ph : ProgramHeader) : res mem :=
  if load_type ph then
    m ← copy_segment file ptr cap ph m;
    mret (relocate ptr elf ph m)
  else mret m.

Section new.
(** [ElfFile::new] of the [xmas_elf] crate. *)
Context (ElfFile_new : list Z → option Elf).

(** [App::new(code, false)]: [ptr] is the block the allocator returned, [next_id]
    the value of [NEXT_ID]. The listing printed when [show] is set is left out:
    the kernel never asks for it. *)
Definition new (ptr next_id : Z) (file : list Z) (m : mem) : res (App * mem) :=
  elf ← unwrap (ElfFile_new file);
  let cap := max_virt elf in
  m ← foldM (load_segment file ptr cap elf) (zeros ptr cap m) (program_iter elf);
  mret (MkApp ptr cap (ptr + entry_point elf) next_id None, m).
End new.
End AppImpl.

(** ** Calls and frames *)
(** The part of [Context] the kernel writes or reads. Its [store] is always the
    reference to the static [none], so the cell is that of [kernel]. *)
Record Context := MkCtx { version : Z; start_time : Z; ctx_pid : Z; ctx_input : Input }.

(** What outlives a call, all of it within reach of any application: the static
    [none], the [INPUT] cell, the vector of applications, memory with everything the
    kernel and the applications have on the heap, and the rest of the machine. *)
Record kernel (R : Type) := Kernel { none : option Z; INPUT : Input; apps : list App; memory : mem; rest : R }.
Arguments Kernel {R} _ _ _ _ _.
Arguments none {R} _.
Arguments INPUT {R} _.
Arguments apps {R} _.
Arguments memory {R} _.
Arguments rest {R} _.

Section calls.
Context {R : Type}.
Implicit Types k : kernel R.
(** The machine code at an address, called with a context. [now] reads the clock. *)
Context (run_code : Z → Context → kernel R → Z * kernel R) (now : R → Z).

Definition ContextNew (time : Z) (input : Input) : Context := MkCtx 1 time 0 input.

Definition with_store (a : App) (s : option Z) : App := MkApp (code a) (code_len a) (func a) (pid a) s.
Definition with_pid (c : Context) (p : Z) : Context := MkCtx (version c) (start_time c) p (ctx_input c).
Definition set_none (s : option Z) k : kernel R := Kernel s (INPUT k) (apps k) (memory k) (rest k).
Definition set_apps (l : list App) k : kernel R := Kernel (none k) (INPUT k) l (memory k) (rest k).
Definition set_store (i : nat) (s : option Z) k : kernel R := set_apps (alter (λ a, with_store a s) i (apps k)) k.

(** [App::call], of the application at an index of the vector. *)
Definition call (i : nat) (arg : Context) k : res (Z * kernel R) :=
  let k := set_none None k in
  self ← unwrap (apps k !! i);
  let arg := with_pid arg (pid self) in
  let self_store := store self in
  let k := set_store i None k in
  let k := set_none self_store k in
  let '(res, k) := run_code (func self) arg k in
  let k := set_store i (none k) k in
  let k := set_none None k in
  mret (res, k).

(** The body of the loop over the applications. *)
Definition call_one (input : Input) k (i : nat) : res (kernel R) :=
  let arg := ContextNew (now (rest k)) input in
  '(_, k) ← call i arg k;
  mret k.

(** One turn of the application task, up to [yield_once]. *)
Definition frame k : res (kernel R) :=
  let input := GLOBAL.read (INPUT k) in
  k ← foldM (call_one input) k (seq 0 (length (apps k)));
  next ← GLOBAL.update (INPUT k) (λ e, mret (Input.step e));
  mret (Kernel (none k) next (apps k) (memory k) (rest k)).
End calls.

(** ** The loaded image *)
(** A write of the loader: an offset in the image and the bytes put there. *)
Definition apply_writes (ptr : Z) (ws : list (Z * list Z)) (m : mem) : mem :=
  fold_left (λ m '(o, bs), store_bytes m (ptr + o) bs) ws m.
Definition covers (a : Z) (w : Z * list Z) : Prop := w.1 ≤ a < w.1 + len w.2.

Lemma apply_writes_app ptr ws ws' m : apply_writes ptr (ws ++ ws') m = apply_writes ptr ws' (apply_writes ptr ws m).
Proof. apply fold_left_app. Qed.

Lemma apply_writes_cons ptr o bs ws m :
  apply_writes ptr ((o, bs) :: ws) m = apply_writes ptr ws (store_bytes m (ptr + o) bs).
Proof. done. Qed.

Lemma apply_writes_skip ptr ws m a :
  Forall (λ w, ¬ covers a w) ws → load8 (apply_writes ptr ws m) (ptr + a) = load8 m (ptr + a).
Proof.
  revert m; induction ws as [|[o bs] ws IH]; intros m Hf; [done|]. inversion_clear Hf as [|? ? Hc Hr].
  rewrite apply_writes_cons, IH by done. apply store_bytes_outside. unfold covers in Hc. simpl in Hc. lia.
Qed.

(** The byte a write left at [a], if no later one covers it. *)
Lemma apply_writes_last ptr pre o bs post m a i b :
  bs !! i = Some b → a = o + Z.of_nat i → Forall (λ w, ¬ covers a w) post →
  load8 (apply_writes ptr (pre ++ (o, bs) :: post) m) (ptr + a) = b mod 256.
Proof.
  intros Hb -> Hp. rewrite apply_writes_app, apply_writes_cons, apply_writes_skip by done. rewrite Z.add_assoc. by apply load8_store_bytes.
Qed.

(** The bytes of the file that a segment holds. *)
Definition segment_bytes (file : list Z) (ph : ProgramHeader) : list Z :=
  take (Z.to_nat (file_size ph)) (drop (Z.to_nat (offset ph)) file).
Definition in_segment (ph : ProgramHeader) (r : Rela) : Prop :=
  virtual_addr ph ≤ r_offset r < virtual_addr ph + mem_size ph.
#[export] Instance in_segment_dec ph r : Decision (in_segment ph r).
Proof. unfold in_segment. apply _. Defined.
Definition relas (elf : Elf) : list Rela := default [] (rela_dyn elf).
Definition rela_write (ptr : Z) (r : Rela) : Z * list Z := (r_offset r, le_bytes 8 (r_addend r +u[64] ptr)).
Definition segment_writes (file : list Z) (ptr : Z) (elf : Elf) (ph : ProgramHeader) : list (Z * list Z) :=
  if load_type ph then
    (virtual_addr ph, segment_bytes file ph) :: (rela_write ptr <$> filter (in_segment ph) (relas elf))
  else [].

(** A well-formed file: every segment lies in the file and in the address
    space, segments and relocations do not overlap, and a relocation that starts
    in a segment ends in it. *)
Definition segments_apart (p q : ProgramHeader) : Prop :=
  load_type p → load_type q → disjoint_ranges (virtual_addr p) (mem_size p) (virtual_addr q) (mem_size q).
Definition relas_apart (r s : Rela) : Prop := disjoint_ranges (r_offset r) 8 (r_offset s) 8.
Definition header_ok (file : list Z) (elf : Elf) (p : ProgramHeader) : Prop :=
  0 ≤ virtual_addr p ∧ 0 ≤ offset p ∧ 0 ≤ file_size p ≤ mem_size p ∧ virtual_addr p + mem_size p < 2 ^ 64 ∧
  offset p + file_size p ≤ len file ∧
  Forall (λ r, in_segment p r → r_offset r + 8 ≤ virtual_addr p + mem_size p) (relas elf).
Record elf_ok (file : list Z) (elf : Elf) : Prop := {
  ok_file : len file < 2 ^ 64 ∧ Forall (fits 8) file;
  ok_headers : Forall (header_ok file elf) (program_iter elf);
  ok_segments : StronglySorted segments_apart (program_iter elf);
  ok_relas : StronglySorted relas_apart (relas elf)
}.

Lemma max_virt_bound elf mx :
  let f := λ mx ph, if 0 <? mem_size ph then Z.max mx (virtual_addr ph +u[64] mem_size ph) else mx in
  mx ≤ fold_left f (program_iter elf) mx ∧
  ∀ p, p ∈ program_iter elf → 0 < mem_size p → virtual_addr p +u[64] mem_size p ≤ fold_left f (program_iter elf) mx.
Proof.
  intros f. generalize (program_iter elf). intros l. revert mx; induction l as [|q l IH]; intros mx; cbn.
  - split; [lia|]. by intros p ?%elem_of_nil.
  - destruct (IH (f mx q)) as [H1 H2]. assert (mx ≤ f mx q) by (unfold f; case_match; lia). split; [lia|].
    intros p [->|Hp]%elem_of_cons Hm; [|by apply H2]. etrans; [|exact H1].
    unfold f. destruct (Z.ltb_spec 0 (mem_size q)); lia.
Qed.

Lemma copy_loop file ptr cap ph m n :
  0 ≤ virtual_addr ph → 0 ≤ offset ph → (0 < n → virtual_addr ph + n ≤ cap) → cap < 2 ^ 64 → offset ph + n ≤ len file → 0 ≤ n →
  foldM (λ '(byte, m) e,
      b ← index file e;
      let at_ := byte +u[64] virtual_addr ph in
      if at_ <? cap then mret (byte +u[64] 1, <[ptr + at_ := b]> m) else Panic PIndex)
    (0, m) (range (offset ph) (offset ph + n)) =
  Ok (n, store_bytes m (ptr + virtual_addr ph) (take (Z.to_nat n) (drop (Z.to_nat (offset ph)) file))).
Proof.
  intros Hv Ho Hc Hcap Hf Hn. revert Hc Hf. pattern n. apply natlike_ind; [| |exact Hn]; clear n Hn.
  - intros _ _. unfold range. by rewrite Z.add_0_r, Z.sub_diag.
  - intros n Hn IH Hc Hf. unfold range in *. replace (offset ph + Z.succ n - offset ph) with (n + 1) by lia.
    replace (offset ph + n - offset ph) with n in IH by lia.
    rewrite seqZ_app, foldM_app, IH by lia. cbn [mbind res_bind]. cbn [seqZ fmap list_fmap].
    destruct (index_in file (offset ph + n)) as (b & Hb & Hb'); [lia|].
    rewrite (seqZ_cons (offset ph + n) 1) by lia. cbn [Z.pred foldM]. rewrite Hb. cbn [mbind res_bind].
    rewrite !wrap_small by (unfold fits; lia). assert ((n + virtual_addr ph <? cap) = true) as -> by lia.
    cbn. do 2 f_equal.
    replace (Z.to_nat (Z.succ n)) with (S (Z.to_nat n)) by lia.
    rewrite (take_S_r _ _ b) by (rewrite lookup_drop, <-Hb'; f_equal; lia).
    rewrite store_bytes_snoc. replace (len (take _ _)) with n
      by (unfold len in *; rewrite length_take, length_drop; lia).
    by replace (ptr + (n + virtual_addr ph)) with (ptr + virtual_addr ph + n) by lia.
Qed.

Lemma copy_segment_run file ptr cap elf ph m :
  header_ok file elf ph → len file < 2 ^ 64 → (0 < file_size ph → virtual_addr ph + file_size ph ≤ cap) → cap < 2 ^ 64 →
  AppImpl.copy_segment file ptr cap ph m = Ok (store_bytes m (ptr + virtual_addr ph) (segment_bytes file ph)).
Proof.
  intros (Hv & Ho & Hs & Hm & Hf & _) Hl Hc Hcap. unfold AppImpl.copy_segment.
  rewrite (wrap_small 64 (offset ph + file_size ph)) by (unfold fits; lia).
  rewrite copy_loop by lia. done.
Qed.

Lemma relocate_run ptr elf ph m :
  fits 64 (virtual_addr ph + mem_size ph) →
  AppImpl.relocate ptr elf ph m = apply_writes ptr (rela_write ptr <$> filter (in_segment ph) (relas elf)) m.
Proof.
  intros Hfit. unfold AppImpl.relocate, relas. destruct (rela_dyn elf) as [arr|]; [|done]. cbn [default from_option id].
  rewrite wrap_small by done. revert m; induction arr as [|r arr IH]; intros m; [done|]. cbn [fold_left].
  rewrite IH, filter_cons. unfold in_segment at 2. case_decide as Hd.
  - assert ((virtual_addr ph <=? r_offset r) && (r_offset r <? virtual_addr ph + mem_size ph) = true) as -> by lia.
    cbn [fmap list_fmap]. unfold rela_write at 2. by rewrite apply_writes_cons, store_le_bytes.
  - assert ((virtual_addr ph <=? r_offset r) && (r_offset r <? virtual_addr ph + mem_size ph) = false) as -> by lia.
    done.
Qed.

Lemma load_segment_run file ptr cap elf p m :
  len file < 2 ^ 64 → cap < 2 ^ 64 → header_ok file elf p → (load_type p → 0 < file_size p → virtual_addr p + file_size p ≤ cap) →
  AppImpl.load_segment file ptr cap elf m p = Ok (apply_writes ptr (segment_writes file ptr elf p) m).
Proof.
  intros Hl Hcap Hp Hb. unfold AppImpl.load_segment, segment_writes. destruct (load_type p) eqn:El; [|done].
  rewrite (copy_segment_run _ _ _ elf) by auto. cbn [mbind res_bind mret res_ret].
  rewrite relocate_run by (destruct Hp as (? & ? & ? & ? & _); unfold fits; lia). by rewrite apply_writes_cons.
Qed.

Lemma load_segments_run file ptr cap elf phs m :
  len file < 2 ^ 64 → cap < 2 ^ 64 →
  Forall (λ p, header_ok file elf p ∧ (load_type p → 0 < file_size p → virtual_addr p + file_size p ≤ cap)) phs →
  foldM (AppImpl.load_segment file ptr cap elf) m phs = Ok (apply_writes ptr (phs ≫= segment_writes file ptr elf) m).
Proof.
  intros Hl Hcap. revert m; induction phs as [|p phs IH]; intros m Hf; [done|].
  inversion_clear Hf as [|? ? [Hp Hb] Hr]. cbn [foldM]. rewrite load_segment_run by done. cbn [mbind res_bind].
  rewrite IH by done. cbn [list_bind]. by rewrite <-apply_writes_app.
Qed.

Lemma zeros_run ptr n m a :
  0 ≤ n →
  load8 (AppImpl.zeros ptr n m) a = if decide (ptr ≤ a < ptr + n) then 0 else load8 m a.
Proof.
  intros Hn. unfold AppImpl.zeros, range. rewrite Z.sub_0_r. pattern n. apply natlike_ind; [| |exact Hn].
  - cbn. case_decide; [lia|done].
  - intros k Hk IH. rewrite <-Z.add_1_r, seqZ_app, fold_left_app by lia.
    rewrite (seqZ_cons (0 + k) 1) by lia. cbn [fold_left Z.pred]. change (seqZ _ (Z.pred 1)) with (@nil Z). cbn [fold_left].
    rewrite load8_insert, IH. repeat case_decide; lia || done.
Qed.

Definition loaded_in (elf : Elf) (p : ProgramHeader) : Prop := p ∈ program_iter elf ∧ load_type p.
(** A relocation is applied when it starts in a loaded segment. *)
Definition applied (elf : Elf) (r : Rela) : Prop := r ∈ relas elf ∧ ∃ p, loaded_in elf p ∧ in_segment p r.
Definition relocated (elf : Elf) (a : Z) : Prop := ∃ r, applied elf r ∧ r_offset r ≤ a < r_offset r + 8.

Section image.
Context (file : list Z) (elf : Elf) (ptr : Z) (Hok : elf_ok file elf).

Lemma header_of p : p ∈ program_iter elf → header_ok file elf p.
Proof. intros Hp. pose proof (ok_headers _ _ Hok) as Hh. rewrite Forall_forall in Hh. by apply Hh. Qed.

Lemma segment_bytes_len p : header_ok file elf p → len (segment_bytes file p) = file_size p.
Proof.
  intros (_ & ? & ? & _ & ? & _). unfold segment_bytes, len in *. rewrite length_take, length_drop. lia.
Qed.

(** Every write of a segment that is not one of its relocations is its copy. *)
Lemma segment_write_cases p w :
  w ∈ segment_writes file ptr elf p → load_type p ∧
    (w = (virtual_addr p, segment_bytes file p) ∨ ∃ r, w = rela_write ptr r ∧ r ∈ relas elf ∧ in_segment p r).
Proof.
  unfold segment_writes. destruct (load_type p) eqn:E; [|by intros ?%elem_of_nil].
  intros [->|(r & -> & [Hs Hr]%list_elem_of_filter)%list_elem_of_fmap]%elem_of_cons; (split; [done|]); eauto.
Qed.

Lemma writes_not_cover l a :
  (∀ p, p ∈ l → p ∈ program_iter elf ∧ (load_type p → ¬ virtual_addr p ≤ a < virtual_addr p + file_size p)) →
  ¬ relocated elf a → Forall (λ w, ¬ covers a w) (l ≫= segment_writes file ptr elf).
Proof.
  intros Hl Hr. rewrite Forall_forall. intros w (p & Hw & Hp)%list_elem_of_bind. destruct (Hl p Hp) as [Hin Hno].
  destruct (segment_write_cases p w Hw) as [Ht [->|(r & -> & Hr1 & Hr2)]]; unfold covers; cbn [fst snd rela_write].
  - rewrite segment_bytes_len by by apply header_of. auto.
  - rewrite len_le_bytes. intros Hc. apply Hr. exists r. split; [|lia]. split; [done|]. by exists p.
Qed.

Lemma program_split p : loaded_in elf p → ∃ l1 l2, program_iter elf = l1 ++ p :: l2 ∧
  ∀ q, q ∈ l2 → q ∈ program_iter elf ∧ (load_type q → disjoint_ranges (virtual_addr p) (mem_size p) (virtual_addr q) (mem_size q)).
Proof.
  intros [(l1 & l2 & E)%list_elem_of_split Ht]. exists l1, l2. split; [done|].
  pose proof (ok_segments _ _ Hok) as Hs. rewrite E in Hs. apply StronglySorted_app in Hs as (_ & _ & Hs).
  inversion_clear Hs as [|? ? _ Hf]. rewrite Forall_forall in Hf.
  intros q Hq. split; [rewrite E, elem_of_app, elem_of_cons; auto|]. intros Hqt. by apply Hf.
Qed.

(** What the loader wrote for the file bytes of a segment. *)
Lemma image_file_byte p j m :
  loaded_in elf p → 0 ≤ j < file_size p → ¬ relocated elf (virtual_addr p + j) →
  index file (offset p + j) =
    Ok (load8 (apply_writes ptr (program_iter elf ≫= segment_writes file ptr elf) m) (ptr + (virtual_addr p + j))).
Proof.
  intros Hp Hj Hr. destruct (program_split p Hp) as (l1 & l2 & E & Hl2). destruct Hp as [Hin Ht].
  pose proof (header_of p Hin) as (Hv & Ho & Hs & Hm & Hf & _).
  rewrite E, bind_app, bind_cons. unfold segment_writes at 2. rewrite (Is_true_true_1 _ Ht). cbn [app].
  destruct (index_in file (offset p + j)) as (b & Hb & Hb'); [lia|]. rewrite Hb. f_equal.
  rewrite (apply_writes_last ptr _ _ _ _ _ _ (Z.to_nat j) b); [|..|lia|].
  - pose proof (ok_file _ _ Hok) as [_ Hfit]. rewrite Forall_lookup in Hfit. specialize (Hfit _ _ Hb').
    symmetry. by apply Z.mod_small.
  - unfold segment_bytes. rewrite lookup_take_lt by lia. rewrite lookup_drop, <-Hb'. f_equal. lia.
  - apply Forall_app. split.
    + rewrite Forall_forall. intros w (r & -> & [Hr1 Hr2]%list_elem_of_filter)%list_elem_of_fmap.
      unfold covers. cbn [fst snd rela_write]. rewrite len_le_bytes. intros Hc. apply Hr. exists r.
      split; [|lia]. split; [done|]. by exists p.
    + apply writes_not_cover; [|done]. intros q Hq. destruct (Hl2 q Hq) as [Hqi Hd]. split; [done|]. intros Hqt.
      specialize (Hd Hqt). destruct (header_of q Hqi) as (_ & _ & Hqs & _). unfold disjoint_ranges in Hd. lia.
Qed.

Lemma filter_sorted {A} (R : A → A → Prop) (P : A → Prop) `{∀ x, Decision (P x)} l :
  StronglySorted R l → StronglySorted R (filter P l).
Proof.
  induction 1 as [|x l Hs IH Hf]; [constructor|]. rewrite filter_cons. case_decide; [|done]. constructor; [done|].
  rewrite Forall_forall in Hf |- *. intros y [_ Hy]%list_elem_of_filter. by apply Hf.
Qed.

(** The slot of a relocation holds its addend plus the load address. *)
Lemma image_relocation r m :
  applied elf r →
  load 8 (apply_writes ptr (program_iter elf ≫= segment_writes file ptr elf) m) (ptr + r_offset r) = r_addend r +u[64] ptr.
Proof.
  intros [Hr (p & Hp & Hs)]. destruct (program_split p Hp) as (l1 & l2 & E & Hl2). destruct Hp as [Hin Ht].
  pose proof (header_of p Hin) as (Hv & Ho & Hsz & Hm & Hf & Hra).
  rewrite Forall_forall in Hra. specialize (Hra r Hr Hs).
  assert (r ∈ filter (in_segment p) (relas elf)) as (k1 & k2 & Ek)%list_elem_of_split by by apply list_elem_of_filter.
  assert (∀ s, s ∈ k2 → relas_apart r s) as Hk.
  { pose proof (filter_sorted _ (in_segment p) _ (ok_relas _ _ Hok)) as Hss. rewrite Ek in Hss.
    apply StronglySorted_app in Hss as (_ & _ & Hss). inversion_clear Hss as [|? ? _ Hfa].
    by rewrite Forall_forall in Hfa. }
  rewrite E, bind_app, bind_cons. unfold segment_writes at 2. rewrite (Is_true_true_1 _ Ht), Ek, fmap_app, fmap_cons.
  rewrite app_comm_cons, <-app_assoc, app_assoc. cbn [app]. unfold rela_write at 2.
  rewrite apply_writes_app, apply_writes_cons.
  erewrite load_ext; [rewrite load_store_le; apply Z.mod_small; apply (wrap_fits 64); lia|].
  intros x Hx. replace x with (ptr + (x - ptr)) by lia. apply apply_writes_skip. apply Forall_app. split.
  - rewrite Forall_forall. intros w (s & -> & Hsk)%list_elem_of_fmap. specialize (Hk s Hsk).
    unfold covers, relas_apart, disjoint_ranges in *. cbn [fst snd rela_write]. rewrite len_le_bytes. lia.
  - rewrite Forall_forall. intros w (q & Hw & Hq)%list_elem_of_bind. destruct (Hl2 q Hq) as [Hqi Hd].
    destruct (segment_write_cases q w Hw) as [Hqt Hc]. specialize (Hd Hqt).
    pose proof (header_of q Hqi) as (_ & _ & Hqs & _ & _ & Hqr). rewrite Forall_forall in Hqr.
    unfold disjoint_ranges, in_segment in *. destruct Hc as [->|(s & -> & Hs1 & Hs2)]; unfold covers; cbn [fst snd rela_write].
    + rewrite segment_bytes_len by by apply header_of. lia.
    + specialize (Hqr s Hs1 Hs2). rewrite len_le_bytes. lia.
Qed.

(** Everything else is zero. *)
Lemma image_zero a m :
  (∀ p, loaded_in elf p → ¬ virtual_addr p ≤ a < virtual_addr p + file_size p) → ¬ relocated elf a →
  load8 (apply_writes ptr (program_iter elf ≫= segment_writes file ptr elf) m) (ptr + a) = load8 m (ptr + a).
Proof.
  intros Hp Hr. apply apply_writes_skip, writes_not_cover; [|done].
  intros p Hin. split; [done|]. intros Ht. by apply Hp.
Qed.

Lemma max_virt_fits : 0 ≤ AppImpl.max_virt elf < 2 ^ 64 ∧
  ∀ p, p ∈ program_iter elf → virtual_addr p + mem_size p ≤ AppImpl.max_virt elf ∨ mem_size p = 0.
Proof.
  unfold AppImpl.max_virt. destruct (max_virt_bound elf 0) as [H1 H2]. split_and!; [exact H1| |].
  - assert (∀ l mx, mx < 2 ^ 64 → fold_left (λ mx ph, if 0 <? mem_size ph
      then Z.max mx (virtual_addr ph +u[64] mem_size ph) else mx) l mx < 2 ^ 64) as Hb; [|by apply Hb].
    induction l as [|q l IH]; intros mx Hmx; [done|]. cbn [fold_left]. apply IH.
    pose proof (wrap_fits 64 (virtual_addr q + mem_size q) ltac:(lia)) as [_ Hw]. case_match; lia.
  - intros p Hp. pose proof (header_of p Hp) as (? & ? & ? & ? & _). destruct (decide (mem_size p = 0)); [by right|].
    left. rewrite <-(wrap_small 64 (virtual_addr p + mem_size p)) by (unfold fits; lia). apply H2; [done|lia].
Qed.
End image.

(** The image of a file in the block at [ptr]. *)
Record image_of (file : list Z) (elf : Elf) (ptr : Z) (m : mem) : Prop := {
  image_bytes p j : loaded_in elf p → 0 ≤ j < file_size p → ¬ relocated elf (virtual_addr p + j) →
    index file (offset p + j) = Ok (load8 m (ptr + (virtual_addr p + j)));
  image_slots r : applied elf r → load 8 m (ptr + r_offset r) = r_addend r +u[64] ptr;
  image_rest a : 0 ≤ a < AppImpl.max_virt elf → ¬ relocated elf a →
    (∀ p, loaded_in elf p → ¬ virtual_addr p ≤ a < virtual_addr p + file_size p) → load8 m (ptr + a) = 0
}.

(** The slots of the relocations are in the block. *)
Lemma applied_in_block file elf r : elf_ok file elf → applied elf r → 0 ≤ r_offset r ∧ r_offset r + 8 ≤ AppImpl.max_virt elf.
Proof.
  intros Hok (Hr & p & [Hp _] & Hs). destruct (max_virt_fits file elf Hok) as [_ Hph].
  pose proof (header_of _ _ Hok p Hp) as (? & _ & ? & _ & _ & Hra).
  rewrite Forall_forall in Hra. specialize (Hra r Hr Hs). unfold in_segment in Hs. destruct (Hph p Hp); lia.
Qed.

Lemma new_loads (ElfFile_new : list Z → option Elf) file elf ptr next_id m :
  ElfFile_new file = Some elf → elf_ok file elf →
  ∃ m', AppImpl.new ElfFile_new ptr next_id file m =
      Ok (MkApp ptr (AppImpl.max_virt elf) (ptr + entry_point elf) next_id None, m') ∧
    same_outside ptr (AppImpl.max_virt elf) m m' ∧ image_of file elf ptr m'.
Proof.
  intros Hnew Hok. destruct (max_virt_fits file elf Hok) as [Hmv Hph]. destruct (ok_file _ _ Hok) as [Hlen _].
  set (m0 := AppImpl.zeros ptr (AppImpl.max_virt elf) m).
  exists (apply_writes ptr (program_iter elf ≫= segment_writes file ptr elf) m0). split; [|split; [|split]].
  - unfold AppImpl.new. rewrite Hnew. cbn [unwrap mbind res_bind]. fold m0. rewrite load_segments_run; [done|done|lia|].
    rewrite Forall_forall. intros p Hp. pose proof (header_of _ _ Hok p Hp) as Hh. split; [done|]. intros _ Hpos.
    destruct Hh as (_ & _ & Hs & _). destruct (Hph p Hp); lia.
  - intros x Hx. replace x with (ptr + (x - ptr)) by lia. rewrite (image_zero file elf ptr Hok).
    + unfold m0. rewrite zeros_run by lia. rewrite decide_False by lia. done.
    + intros p [Hp _]. pose proof (header_of _ _ Hok p Hp) as (? & _ & ? & _). destruct (Hph p Hp); lia.
    + intros (r & Hr & Ha). pose proof (applied_in_block file elf r Hok Hr). lia.
  - intros p j Hp Hj Hr. by apply image_file_byte.
  - intros r Hr. by apply (image_relocation file elf ptr Hok).
  - intros a Ha Hr Hp. rewrite (image_zero file elf ptr Hok) by done. unfold m0. rewrite zeros_run by lia.
    by rewrite decide_True by lia.
Qed.

(** C11: loading an application. For a well-formed ELF file [App::new] returns an
    application whose entry is the file's, relative to the block the allocator
    gave; it writes nothing outside the block; and in the block every byte of a
    segment is the file's byte, except that the slot of every relocation starting
    in a segment holds its addend plus the load address, and all the rest (the
    zero-initialised data, the gaps between segments) is zero. *)
Theorem elf_image_loaded (ElfFile_new : list Z → option Elf) file elf ptr next_id m :
  ElfFile_new file = Some elf → elf_ok file elf →
  ∃ m', AppImpl.new ElfFile_new ptr next_id file m =
      Ok (MkApp ptr (AppImpl.max_virt elf) (ptr + entry_point elf) next_id None, m') ∧
    same_outside ptr (AppImpl.max_virt elf) m m' ∧
    (∀ p j, loaded_in elf p → 0 ≤ j < file_size p → ¬ relocated elf (virtual_addr p + j) →
       index file (offset p + j) = Ok (load8 m' (ptr + (virtual_addr p + j)))) ∧
    (∀ r, applied elf r → load 8 m' (ptr + r_offset r) = r_addend r +u[64] ptr) ∧
    (∀ a, 0 ≤ a < AppImpl.max_virt elf → ¬ relocated elf a →
       (∀ p, loaded_in elf p → ¬ virtual_addr p ≤ a < virtual_addr p + file_size p) →
       load8 m' (ptr + a) = 0).
Proof.
  intros Hnew Hok. destruct (new_loads ElfFile_new file elf ptr next_id m Hnew Hok) as (m' & E & Hm & [Hb Hr Hz]).
  by exists m'.
Qed.

(** A file of six bytes: four of code at 0, two of data and ten of zeros at 16,
    with a pointer to the code at 24. *)
Definition example_file : list Z := [0x90; 0x90; 0xC3; 0x00; 0x2A; 0x2B].
Definition example_elf : Elf := {|
  entry_point := 2;
  program_iter := [ {| load_type := true; virtual_addr := 0; offset := 0; file_size := 4; mem_size := 4 |};
                    {| load_type := true; virtual_addr := 16; offset := 4; file_size := 2; mem_size := 16 |};
                    {| load_type := false; virtual_addr := 16; offset := 4; file_size := 2; mem_size := 16 |} ];
  rela_dyn := Some [ {| r_offset := 24; r_addend := 2 |} ]
|}.

Lemma example_elf_ok : elf_ok example_file example_elf.
Proof.
  split.
  - split; [by vm_compute|]. by repeat constructor.
  - repeat constructor; try (by vm_compute); unfold in_segment; cbn; lia.
  - repeat constructor; cbn; unfold segments_apart, disjoint_ranges; cbn; try done; lia.
  - repeat constructor.
Qed.

Lemma elf_image_loaded_witness :
  ∃ a m', AppImpl.new (λ _, Some example_elf) 0x10000 3 example_file ∅ = Ok (a, m') ∧ func a = 0x10002 ∧
    load8 m' 0x10001 = 0x90 ∧ load 8 m' 0x10018 = 0x10002 ∧ load8 m' 0x10012 = 0.
Proof.
  assert (∀ a, a < 24 ∨ 32 ≤ a → ¬ relocated example_elf a) as Hr.
  { intros a Ha (r & [Hr _] & Hc). apply list_elem_of_singleton in Hr as ->. cbn in Hc. lia. }
  destruct (elf_image_loaded (λ _, Some example_elf) example_file example_elf 0x10000 3 ∅)
    as (m' & E & _ & Hb & Hrel & Hz); [reflexivity|exact example_elf_ok|].
  exists (MkApp 0x10000 32 0x10002 3 None), m'. split; [exact E|]. split; [reflexivity|]. split_and!.
  - specialize (Hb {| load_type := true; virtual_addr := 0; offset := 0; file_size := 4; mem_size := 4 |} 1).
    cbn in Hb. assert (Ok 0x90 = Ok (load8 m' 0x10001)) as Heq; [|by injection Heq].
    apply Hb; [split; [by left|done]|lia|apply Hr; lia].
  - apply (Hrel {| r_offset := 24; r_addend := 2 |}). split; [by left|].
    exists {| load_type := true; virtual_addr := 16; offset := 4; file_size := 2; mem_size := 16 |}.
    split; [split; [by right; left|done]|unfold in_segment; cbn; lia].
  - apply (Hz 18); [by vm_compute|apply Hr; lia|].
    intros p [Hp Ht]. cbn in Hp. rewrite !elem_of_cons in Hp. destruct Hp as [->|[->|[->|Hp]]]; cbn; [lia|lia|lia|].
    by apply elem_of_nil in Hp.
Defined.

(** ** What an application finds at its next turn *)
Section turns.
Context {R : Type} (run_code : Z → Context → kernel R → Z * kernel R) (now : R → Z).
Implicit Types k : kernel R.

(** Code that does not write the variables of the kernel: nothing but the code
    itself prevents it. *)
Definition leaves_kernel : Prop :=
  ∀ f c k, apps (run_code f c k).2 = apps k ∧ INPUT (run_code f c k).2 = INPUT k.

Definition world k : mem * R := (memory k, rest k).

(** The call of [a] with an input: the machine [g] it is given, and the machine
    [l] it leaves. *)
Definition called (input : Input) (a : App) (g l : kernel R) : Prop :=
  none g = store a ∧ ∃ r, run_code (func a) (MkCtx 1 (now (rest g)) (pid a) input) g = (r, l).

(** A turn from [k] to [k']: the application at each index is called, and keeps
    the pointer it leaves in the cell; each call starts with the memory and the
    rest of the machine that the one before it left, the first with those of [k], and
    those the last one leaves are those of [k']. *)
Record turn k k' (given left : list (kernel R)) : Prop := {
  turn_len : length given = length (apps k) ∧ length left = length (apps k) ∧ length (apps k') = length (apps k);
  turn_calls i a g l : apps k !! i = Some a → given !! i = Some g → left !! i = Some l →
    called (INPUT k) a g l ∧ apps k' !! i = Some (with_store a (none l));
  turn_world : world <$> (given ++ [k']) = world <$> (k :: left)
}.

Lemma alter_twice (l : list App) i a s s' :
  l !! i = Some a → alter (λ a, with_store a s) i (alter (λ a, with_store a s') i l) = <[i := with_store a s]> l.
Proof.
  intros Hi. apply list_eq. intros j. destruct (decide (i = j)) as [<-|Hne].
  - rewrite list_lookup_insert_eq by (by eapply lookup_lt_Some). by rewrite !list_lookup_alter_eq, Hi.
  - by rewrite !list_lookup_alter_ne, list_lookup_insert_ne.
Qed.

Lemma call_one_run input k i a :
  leaves_kernel → apps k !! i = Some a →
  ∃ g l, call_one run_code now input k i = Ok (Kernel None (INPUT k) (<[i := with_store a (none l)]> (apps k)) (memory l) (rest l)) ∧
    world g = world k ∧ called input a g l.
Proof.
  intros Hl Hi. unfold call_one, call. cbn [apps set_none]. rewrite Hi. cbn [unwrap mbind res_bind].
  set (g := set_none (store a) (set_store i None (set_none None k))).
  destruct (run_code _ _ g) as [r l] eqn:E. destruct (Hl (func a) (with_pid (ContextNew (now (rest k)) input) (pid a)) g) as [Ha HI].
  rewrite E in Ha, HI. cbn [snd] in Ha, HI. exists g, l. split; [|split; [done|by split; [|exists r]]].
  cbn [mret res_ret]. unfold set_store, set_none, set_apps. cbn [none INPUT apps memory rest]. rewrite Ha, HI.
  unfold g, set_store, set_none, set_apps. cbn [none INPUT apps memory rest]. by rewrite (alter_twice _ _ a).
Qed.

Lemma calls_run input k n :
  leaves_kernel → (n ≤ length (apps k))%nat →
  ∃ k' given left, foldM (call_one run_code now input) k (seq 0 n) = Ok k' ∧
    length given = n ∧ length left = n ∧ length (apps k') = length (apps k) ∧
    INPUT k' = INPUT k ∧ (n ≠ 0%nat → none k' = None) ∧ (∀ i, (n ≤ i)%nat → apps k' !! i = apps k !! i) ∧
    (∀ i a g l, apps k !! i = Some a → given !! i = Some g → left !! i = Some l →
       called input a g l ∧ apps k' !! i = Some (with_store a (none l))) ∧
    world <$> (given ++ [k']) = world <$> (k :: left).
Proof.
  intros Hl. induction n as [|n IH]; intros Hn.
  { exists k, [], []. by split_and!. }
  destruct IH as (k1 & given & left & E & Hg & Hf & Ha & HI & _ & Hrest & Hcalls & Hw); [lia|].
  destruct (lookup_lt_is_Some_2 (apps k) n) as [a Hn']; [lia|].
  destruct (call_one_run input k1 n a Hl) as (g & l & E1 & Hwg & Hc); [by rewrite Hrest|].
  eexists _, (given ++ [g]), (left ++ [l]). rewrite seq_S, Nat.add_0_l, foldM_app, E. cbn [mbind res_bind foldM]. rewrite E1. cbn [mbind res_bind].
  split; [reflexivity|]. cbn [apps INPUT none]. rewrite !length_app, length_insert. cbn [length].
  split; [lia|]. split; [lia|]. split; [done|]. split; [done|]. split; [done|]. split; [|split].
  - intros i Hi. rewrite list_lookup_insert_ne by lia. apply Hrest. lia.
  - intros i b g' l' Hb Hg' Hl'. destruct (decide (i = n)) as [->|Hne].
    + rewrite lookup_app_r in Hg' by lia. rewrite lookup_app_r in Hl' by lia. rewrite Hg, Nat.sub_diag in Hg'. rewrite Hf, Nat.sub_diag in Hl'.
      injection Hg' as <-. injection Hl' as <-. assert (b = a) as -> by congruence. split; [done|].
      rewrite list_lookup_insert_eq; [done|lia].
    + apply lookup_lt_Some in Hg' as Hi. rewrite length_app in Hi. cbn [length] in Hi.
      rewrite lookup_app_l in Hg' by lia. rewrite lookup_app_l in Hl' by lia. rewrite list_lookup_insert_ne by lia. by apply Hcalls.
  - set (k' := Kernel _ _ _ _ _). assert (world k' = world l) as Hk' by done. clearbody k'.
    rewrite fmap_app in Hw. cbn [fmap list_fmap] in Hw |- *. rewrite !fmap_app. cbn [fmap list_fmap].
    rewrite Hk', Hwg, Hw. done.
Qed.

Lemma frame_turn k :
  leaves_kernel →
  ∃ k' given left, frame run_code now k = Ok k' ∧ turn k k' given left ∧ INPUT k' = Input.step (INPUT k) ∧
    (apps k ≠ [] → none k' = None).
Proof.
  intros Hl. destruct (calls_run (INPUT k) k (length (apps k)) Hl) as (k1 & given & left & E & Hg & Hf & Ha & HI & Hnone & _ & Hc & Hw); [done|].
  unfold frame, GLOBAL.read. rewrite E. cbn [mbind res_bind]. eexists _, given, left. split; [reflexivity|].
  cbn [none INPUT apps]. rewrite HI. split; [|split; [done|]].
  - constructor; [by split_and!|exact Hc|]. rewrite fmap_app in Hw |- *. exact Hw.
  - intros Hne. apply Hnone. by destruct (apps k).
Qed.

(** A call that keeps a byte. *)
Definition keeps (x : Z) (g l : kernel R) : Prop := load8 (memory l) x = load8 (memory g) x.

(** A byte stays from one point of a turn to a later one, when the calls between
    them keep it. *)
Lemma turn_keeps k k' given left x p q y z :
  turn k k' given left → (p ≤ q)%nat → (k :: left) !! p = Some y → (given ++ [k']) !! q = Some z →
  (∀ j g l, (p ≤ j < q)%nat → given !! j = Some g → left !! j = Some l → keeps x g l) → keeps x y z.
Proof.
  intros [(Hg & Hl & _) _ Hw] Hpq Hy. revert z. induction Hpq as [|q Hpq IH]; intros z Hz Hk.
  - assert (Some (world z) = Some (world y)) as [= Hm _]; [|unfold keeps; by rewrite Hm].
    pose proof (list_lookup_fmap world (given ++ [k']) p) as H1. rewrite Hw, list_lookup_fmap, Hy, Hz in H1. by cbn in H1.
  - apply lookup_lt_Some in Hz as Hq. rewrite length_app in Hq. cbn [length] in Hq.
    destruct (lookup_lt_is_Some_2 given q) as [g Eg]; [lia|]. destruct (lookup_lt_is_Some_2 left q) as [l El]; [lia|].
    unfold keeps. transitivity (load8 (memory l) x).
    + assert (Some (world z) = Some (world l)) as [= Hm _]; [|by rewrite Hm].
      pose proof (list_lookup_fmap world (given ++ [k']) (S q)) as H1. rewrite Hw, list_lookup_fmap, Hz in H1.
      change ((k :: left) !! S q) with (left !! q) in H1. rewrite El in H1. by cbn in H1.
    + rewrite (Hk q g l) by (done || lia). apply IH; [by rewrite lookup_app_l by lia|]. intros j g1 l1 Hj. apply Hk. lia.
Qed.
End turns.


(** Two applications that count their turns in a byte behind their store; the second
    also clears the byte of the first. Both find their pointers again; the second
    finds its count, the first does not. *)
Definition counters (f : Z) (c : Context) (k : kernel (list Z)) : Z * kernel (list Z) :=
  let p := default (if f =? 0 then 0x100 else 0x200) (none k) in
  let m := <[p := load8 (memory k) p + 1]> (memory k) in
  (0, Kernel (Some p) (INPUT k) (apps k) (if f =? 0 then m else <[0x100 := 0]> m) (rest k ++ [ctx_pid c])).

