(* ===== verification/XmapData.v ===== *)
(** The key names of the console ([app_console/src/st.rs], constant [xmap]): six
    per key code (French plain and shifted, English plain and shifted, then two
    for the right Alt key), in pieces of 25 keys. *)
From S2P Require Import Prelude.

Definition xmap_0 : list string := [
  EmptyString; EmptyString; EmptyString; EmptyString; EmptyString; EmptyString;
  "Escape"; "NoSymbol"; "Escape"; EmptyString; EmptyString; EmptyString;
  "ampersand"; "1"; "1"; "exclam"; "onesuperior"; "exclamdown";
  "eacute"; "2"; "2"; "at"; "asciitilde"; "oneeighth";
  "quotedbl"; "3"; "3"; "numbersign"; "numbersign"; "sterling";
  "apostrophe"; "4"; "4"; "dollar"; "braceleft"; "dollar";
  "parenleft"; "5"; "5"; "percent"; "bracketleft"; "threeeighths";
  "minus"; "6"; "6"; "asciicircum"; "bar"; "fiveeighths";
  "egrave"; "7"; "7"; "ampersand"; "grave"; "seveneighths";
  "underscore"; "8"; "8"; "asterisk"; "backslash"; "trademark";
  "ccedilla"; "9"; "9"; "parenleft"; "asciicircum"; "plusminus";
  "agrave"; "0"; "0"; "parenright"; "at"; "degree";
  "parenright"; "degree"; "minus"; "underscore"; "bracketright"; "questiondown";
  "equal"; "plus"; "equal"; "plus"; "braceright"; "dead_ogonek";
  "BackSpace"; "BackSpace"; "BackSpace"; "BackSpace"; EmptyString; EmptyString;
  "Tab"; "ISO_Left_Tab"; "Tab"; "ISO_Left_Tab"; EmptyString; EmptyString;
  "a"; "A"; "q"; "Q"; "ae"; "AE";
  "z"; "Z"; "w"; "W"; "guillemotleft"; "less";
  "e"; "E"; "e"; "E"; "EuroSign"; "cent";
  "r"; "R"; "r"; "R"; "paragraph"; "registered";
  "t"; "T"; "t"; "T"; "tslash"; "Tslash";
  "y"; "Y"; "y"; "Y"; "leftarrow"; "yen";
  "u"; "U"; "u"; "U"; "downarrow"; "uparrow";
  "i"; "I"; "i"; "I"; "rightarrow"; "idotless";
  "o"; "O"; "o"; "O"; "oslash"; "Oslash"
]%string.

Definition xmap_1 : list string := [
  "p"; "P"; "p"; "P"; "thorn"; "THORN";
  "dead_circumflex"; "dead_diaeresis"; "bracketleft"; "braceleft"; "dead_diaeresis"; "dead_abovering";
  "dollar"; "sterling"; "bracketright"; "braceright"; "currency"; "dead_macron";
  "Return"; "NoSymbol"; "Return"; EmptyString; EmptyString; EmptyString;
  "Control_L"; "NoSymbol"; "Control_L"; EmptyString; EmptyString; EmptyString;
  "q"; "Q"; "a"; "A"; "at"; "Greek_OMEGA";
  "s"; "S"; "s"; "S"; "ssharp"; "section";
  "d"; "D"; "d"; "D"; "eth"; "ETH";
  "f"; "F"; "f"; "F"; "dstroke"; "ordfeminine";
  "g"; "G"; "g"; "G"; "eng"; "ENG";
  "h"; "H"; "h"; "H"; "hstroke"; "Hstroke";
  "j"; "J"; "j"; "J"; "dead_hook"; "dead_horn";
  "k"; "K"; "k"; "K"; "kra"; "ampersand";
  "l"; "L"; "l"; "L"; "lstroke"; "Lstroke";
  "m"; "M"; "semicolon"; "colon"; "mu"; "masculine";
  "ugrave"; "percent"; "apostrophe"; "quotedbl"; "dead_circumflex"; "dead_caron";
  "twosuperior"; "asciitilde"; "grave"; "asciitilde"; "notsign"; "notsign";
  "Shift_L"; "NoSymbol"; "Shift_L"; EmptyString; EmptyString; EmptyString;
  "asterisk"; "mu"; "backslash"; "bar"; "dead_grave"; "dead_breve";
  "w"; "W"; "z"; "Z"; "lstroke"; "Lstroke";
  "x"; "X"; "x"; "X"; "guillemotright"; "greater";
  "c"; "C"; "c"; "C"; "cent"; "copyright";
  "v"; "V"; "v"; "V"; "leftdoublequotemark"; "leftsinglequotemark";
  "b"; "B"; "b"; "B"; "rightdoublequotemark"; "rightsinglequotemark";
  "n"; "N"; "n"; "N"; "n"; "N"
]%string.

Definition xmap_2 : list string := [
  "comma"; "question"; "m"; "M"; "dead_acute"; "dead_doubleacute";
  "semicolon"; "period"; "comma"; "less"; "horizconnector"; "multiply";
  "colon"; "slash"; "period"; "greater"; "periodcentered"; "division";
  "exclam"; "section"; "slash"; "question"; "dead_belowdot"; "dead_abovedot";
  "Shift_R"; "NoSymbol"; "Shift_R"; EmptyString; EmptyString; EmptyString;
  "KP_Multiply"; "KP_Multiply"; "KP_Multiply"; "KP_Multiply"; "KP_Multiply"; "KP_Multiply";
  "Alt_L"; "Meta_L"; "Alt_L"; "Meta_L"; EmptyString; EmptyString;
  "space"; "NoSymbol"; "space"; EmptyString; EmptyString; EmptyString;
  "Caps_Lock"; "NoSymbol"; "Caps_Lock"; EmptyString; EmptyString; EmptyString;
  "F1"; "F1"; "F1"; "F1"; "F1"; "F1";
  "F2"; "F2"; "F2"; "F2"; "F2"; "F2";
  "F3"; "F3"; "F3"; "F3"; "F3"; "F3";
  "F4"; "F4"; "F4"; "F4"; "F4"; "F4";
  "F5"; "F5"; "F5"; "F5"; "F5"; "F5";
  "F6"; "F6"; "F6"; "F6"; "F6"; "F6";
  "F7"; "F7"; "F7"; "F7"; "F7"; "F7";
  "F8"; "F8"; "F8"; "F8"; "F8"; "F8";
  "F9"; "F9"; "F9"; "F9"; "F9"; "F9";
  "F10"; "F10"; "F10"; "F10"; "F10"; "F10";
  "Num_Lock"; "NoSymbol"; "Num_Lock"; EmptyString; EmptyString; EmptyString;
  "Scroll_Lock"; "NoSymbol"; "Scroll_Lock"; EmptyString; EmptyString; EmptyString;
  "KP_Home"; "KP_7"; "KP_Home"; "KP_7"; EmptyString; EmptyString;
  "KP_Up"; "KP_8"; "KP_Up"; "KP_8"; EmptyString; EmptyString;
  "KP_Prior"; "KP_9"; "KP_Prior"; "KP_9"; EmptyString; EmptyString;
  "KP_Subtract"; "KP_Subtract"; "KP_Subtract"; "KP_Subtract"; "KP_Subtract"; "KP_Subtract"
]%string.

Definition xmap_3 : list string := [
  "KP_Left"; "KP_4"; "KP_Left"; "KP_4"; EmptyString; EmptyString;
  "KP_Begin"; "KP_5"; "KP_Begin"; "KP_5"; EmptyString; EmptyString;
  "KP_Right"; "KP_6"; "KP_Right"; "KP_6"; EmptyString; EmptyString;
  "KP_Add"; "KP_Add"; "KP_Add"; "KP_Add"; "KP_Add"; "KP_Add";
  "KP_End"; "KP_1"; "KP_End"; "KP_1"; EmptyString; EmptyString;
  "KP_Down"; "KP_2"; "KP_Down"; "KP_2"; EmptyString; EmptyString;
  "KP_Next"; "KP_3"; "KP_Next"; "KP_3"; EmptyString; EmptyString;
  "KP_Insert"; "KP_0"; "KP_Insert"; "KP_0"; EmptyString; EmptyString;
  "KP_Delete"; "KP_Decimal"; "KP_Delete"; "KP_Decimal"; EmptyString; EmptyString;
  "ISO_Level3_Shift"; "NoSymbol"; "ISO_Level3_Shift"; EmptyString; EmptyString; EmptyString;
  EmptyString; EmptyString; EmptyString; EmptyString; EmptyString; EmptyString;
  "less"; "greater"; "less"; "greater"; "bar"; "brokenbar";
  "F11"; "F11"; "F11"; "F11"; "F11"; "F11";
  "F12"; "F12"; "F12"; "F12"; "F12"; "F12";
  EmptyString; EmptyString; EmptyString; EmptyString; EmptyString; EmptyString;
  "Katakana"; "NoSymbol"; "Katakana"; EmptyString; EmptyString; EmptyString;
  "Hiragana"; "NoSymbol"; "Hiragana"; EmptyString; EmptyString; EmptyString;
  "Henkan_Mode"; "NoSymbol"; "Henkan_Mode"; EmptyString; EmptyString; EmptyString;
  "Hiragana_Katakana"; "NoSymbol"; "Hiragana_Katakana"; EmptyString; EmptyString; EmptyString;
  "Muhenkan"; "NoSymbol"; "Muhenkan"; EmptyString; EmptyString; EmptyString;
  EmptyString; EmptyString; EmptyString; EmptyString; EmptyString; EmptyString;
  "KP_Enter"; "NoSymbol"; "KP_Enter"; EmptyString; EmptyString; EmptyString;
  "Control_R"; "NoSymbol"; "Control_R"; EmptyString; EmptyString; EmptyString;
  "KP_Divide"; "KP_Divide"; "KP_Divide"; "KP_Divide"; "KP_Divide"; "KP_Divide";
  "Print"; "Sys_Req"; "Print"; "Sys_Req"; EmptyString; EmptyString
]%string.

Definition xmap_4 : list string := [
  "ISO_Level3_Shift"; "NoSymbol"; "ISO_Level3_Shift"; EmptyString; EmptyString; EmptyString;
  "Linefeed"; "NoSymbol"; "Linefeed"; EmptyString; EmptyString; EmptyString;
  "Home"; "NoSymbol"; "Home"; EmptyString; EmptyString; EmptyString;
  "Up"; "NoSymbol"; "Up"; EmptyString; EmptyString; EmptyString;
  "Prior"; "NoSymbol"; "Prior"; EmptyString; EmptyString; EmptyString;
  "Left"; "NoSymbol"; "Left"; EmptyString; EmptyString; EmptyString;
  "Right"; "NoSymbol"; "Right"; EmptyString; EmptyString; EmptyString;
  "End"; "NoSymbol"; "End"; EmptyString; EmptyString; EmptyString;
  "Down"; "NoSymbol"; "Down"; EmptyString; EmptyString; EmptyString;
  "Next"; "NoSymbol"; "Next"; EmptyString; EmptyString; EmptyString;
  "Insert"; "NoSymbol"; "Insert"; EmptyString; EmptyString; EmptyString;
  "Delete"; "NoSymbol"; "Delete"; EmptyString; EmptyString; EmptyString;
  EmptyString; EmptyString; EmptyString; EmptyString; EmptyString; EmptyString;
  "XF86AudioMute"; "NoSymbol"; "XF86AudioMute"; EmptyString; EmptyString; EmptyString;
  "XF86AudioLowerVolume"; "NoSymbol"; "XF86AudioLowerVolume"; EmptyString; EmptyString; EmptyString;
  "XF86AudioRaiseVolume"; "NoSymbol"; "XF86AudioRaiseVolume"; EmptyString; EmptyString; EmptyString;
  "XF86PowerOff"; "NoSymbol"; "XF86PowerOff"; EmptyString; EmptyString; EmptyString;
  "KP_Equal"; "NoSymbol"; "KP_Equal"; EmptyString; EmptyString; EmptyString;
  "plusminus"; "NoSymbol"; "plusminus"; EmptyString; EmptyString; EmptyString;
  "Pause"; "Break"; "Pause"; "Break"; EmptyString; EmptyString;
  "XF86LaunchA"; "NoSymbol"; "XF86LaunchA"; EmptyString; EmptyString; EmptyString;
  "KP_Decimal"; "KP_Decimal"; "KP_Decimal"; "KP_Decimal"; EmptyString; EmptyString;
  "Hangul"; "NoSymbol"; "Hangul"; EmptyString; EmptyString; EmptyString;
  "Hangul_Hanja"; "NoSymbol"; "Hangul_Hanja"; EmptyString; EmptyString; EmptyString;
  EmptyString; EmptyString; EmptyString; EmptyString; EmptyString; EmptyString
]%string.

Definition xmap_5 : list string := [
  "Super_L"; "NoSymbol"; "Super_L"; EmptyString; EmptyString; EmptyString;
  "Super_R"; "NoSymbol"; "Super_R"; EmptyString; EmptyString; EmptyString;
  "Menu"; "NoSymbol"; "Menu"; EmptyString; EmptyString; EmptyString;
  "Cancel"; "NoSymbol"; "Cancel"; EmptyString; EmptyString; EmptyString;
  "Redo"; "NoSymbol"; "Redo"; EmptyString; EmptyString; EmptyString;
  "SunProps"; "NoSymbol"; "SunProps"; EmptyString; EmptyString; EmptyString;
  "Undo"; "NoSymbol"; "Undo"; EmptyString; EmptyString; EmptyString;
  "SunFront"; "NoSymbol"; "SunFront"; EmptyString; EmptyString; EmptyString;
  "XF86Copy"; "NoSymbol"; "XF86Copy"; EmptyString; EmptyString; EmptyString;
  "XF86Open"; "NoSymbol"; "XF86Open"; EmptyString; EmptyString; EmptyString;
  "XF86Paste"; "NoSymbol"; "XF86Paste"; EmptyString; EmptyString; EmptyString;
  "Find"; "NoSymbol"; "Find"; EmptyString; EmptyString; EmptyString;
  "XF86Cut"; "NoSymbol"; "XF86Cut"; EmptyString; EmptyString; EmptyString;
  "Help"; "NoSymbol"; "Help"; EmptyString; EmptyString; EmptyString;
  "XF86MenuKB"; "NoSymbol"; "XF86MenuKB"; EmptyString; EmptyString; EmptyString;
  "XF86Calculator"; "NoSymbol"; "XF86Calculator"; EmptyString; EmptyString; EmptyString;
  EmptyString; EmptyString; EmptyString; EmptyString; EmptyString; EmptyString;
  "XF86Sleep"; "NoSymbol"; "XF86Sleep"; EmptyString; EmptyString; EmptyString;
  "XF86WakeUp"; "NoSymbol"; "XF86WakeUp"; EmptyString; EmptyString; EmptyString;
  "XF86Explorer"; "NoSymbol"; "XF86Explorer"; EmptyString; EmptyString; EmptyString;
  "XF86Send"; "NoSymbol"; "XF86Send"; EmptyString; EmptyString; EmptyString;
  EmptyString; EmptyString; EmptyString; EmptyString; EmptyString; EmptyString;
  "XF86Xfer"; "NoSymbol"; "XF86Xfer"; EmptyString; EmptyString; EmptyString;
  "XF86Launch1"; "NoSymbol"; "XF86Launch1"; EmptyString; EmptyString; EmptyString;
  "XF86Launch2"; "NoSymbol"; "XF86Launch2"; EmptyString; EmptyString; EmptyString
]%string.

Definition xmap_6 : list string := [
  "XF86WWW"; "NoSymbol"; "XF86WWW"; EmptyString; EmptyString; EmptyString;
  "XF86DOS"; "NoSymbol"; "XF86DOS"; EmptyString; EmptyString; EmptyString;
  "XF86ScreenSaver"; "NoSymbol"; "XF86ScreenSaver"; EmptyString; EmptyString; EmptyString;
  "XF86RotateWindows"; "NoSymbol"; "XF86RotateWindows"; EmptyString; EmptyString; EmptyString;
  "XF86TaskPane"; "NoSymbol"; "XF86TaskPane"; EmptyString; EmptyString; EmptyString;
  "XF86Mail"; "NoSymbol"; "XF86Mail"; EmptyString; EmptyString; EmptyString;
  "XF86Favorites"; "NoSymbol"; "XF86Favorites"; EmptyString; EmptyString; EmptyString;
  "XF86MyComputer"; "NoSymbol"; "XF86MyComputer"; EmptyString; EmptyString; EmptyString;
  "XF86Back"; "NoSymbol"; "XF86Back"; EmptyString; EmptyString; EmptyString;
  "XF86Forward"; "NoSymbol"; "XF86Forward"; EmptyString; EmptyString; EmptyString;
  EmptyString; EmptyString; EmptyString; EmptyString; EmptyString; EmptyString;
  "XF86Eject"; "NoSymbol"; "XF86Eject"; EmptyString; EmptyString; EmptyString;
  "XF86Eject"; "XF86Eject"; "XF86Eject"; "XF86Eject"; EmptyString; EmptyString;
  "XF86AudioNext"; "NoSymbol"; "XF86AudioNext"; EmptyString; EmptyString; EmptyString;
  "XF86AudioPlay"; "XF86AudioPause"; "XF86AudioPlay"; "XF86AudioPause"; EmptyString; EmptyString;
  "XF86AudioPrev"; "NoSymbol"; "XF86AudioPrev"; EmptyString; EmptyString; EmptyString;
  "XF86AudioStop"; "XF86Eject"; "XF86AudioStop"; "XF86Eject"; EmptyString; EmptyString;
  "XF86AudioRecord"; "NoSymbol"; "XF86AudioRecord"; EmptyString; EmptyString; EmptyString;
  "XF86AudioRewind"; "NoSymbol"; "XF86AudioRewind"; EmptyString; EmptyString; EmptyString;
  "XF86Phone"; "NoSymbol"; "XF86Phone"; EmptyString; EmptyString; EmptyString;
  EmptyString; EmptyString; EmptyString; EmptyString; EmptyString; EmptyString;
  "XF86Tools"; "NoSymbol"; "XF86Tools"; EmptyString; EmptyString; EmptyString;
  "XF86HomePage"; "NoSymbol"; "XF86HomePage"; EmptyString; EmptyString; EmptyString;
  "XF86Reload"; "NoSymbol"; "XF86Reload"; EmptyString; EmptyString; EmptyString;
  "XF86Close"; "NoSymbol"; "XF86Close"; EmptyString; EmptyString; EmptyString
]%string.

Definition xmap_7 : list string := [
  EmptyString; EmptyString; EmptyString; EmptyString; EmptyString; EmptyString;
  EmptyString; EmptyString; EmptyString; EmptyString; EmptyString; EmptyString;
  "XF86ScrollUp"; "NoSymbol"; "XF86ScrollUp"; EmptyString; EmptyString; EmptyString;
  "XF86ScrollDown"; "NoSymbol"; "XF86ScrollDown"; EmptyString; EmptyString; EmptyString;
  "parenleft"; "NoSymbol"; "parenleft"; EmptyString; EmptyString; EmptyString;
  "parenright"; "NoSymbol"; "parenright"; EmptyString; EmptyString; EmptyString;
  "XF86New"; "NoSymbol"; "XF86New"; EmptyString; EmptyString; EmptyString;
  "Redo"; "NoSymbol"; "Redo"; EmptyString; EmptyString; EmptyString;
  "XF86Tools"; "NoSymbol"; "XF86Tools"; EmptyString; EmptyString; EmptyString;
  "XF86Launch5"; "NoSymbol"; "XF86Launch5"; EmptyString; EmptyString; EmptyString;
  "XF86Launch6"; "NoSymbol"; "XF86Launch6"; EmptyString; EmptyString; EmptyString;
  "XF86Launch7"; "NoSymbol"; "XF86Launch7"; EmptyString; EmptyString; EmptyString;
  "XF86Launch8"; "NoSymbol"; "XF86Launch8"; EmptyString; EmptyString; EmptyString;
  "XF86Launch9"; "NoSymbol"; "XF86Launch9"; EmptyString; EmptyString; EmptyString;
  EmptyString; EmptyString; EmptyString; EmptyString; EmptyString; EmptyString;
  "XF86AudioMicMute"; "NoSymbol"; "XF86AudioMicMute"; EmptyString; EmptyString; EmptyString;
  "XF86TouchpadToggle"; "NoSymbol"; "XF86TouchpadToggle"; EmptyString; EmptyString; EmptyString;
  "XF86TouchpadOn"; "NoSymbol"; "XF86TouchpadOn"; EmptyString; EmptyString; EmptyString;
  "XF86TouchpadOff"; "NoSymbol"; "XF86TouchpadOff"; EmptyString; EmptyString; EmptyString;
  EmptyString; EmptyString; EmptyString; EmptyString; EmptyString; EmptyString;
  "Mode_switch"; "NoSymbol"; "Mode_switch"; EmptyString; EmptyString; EmptyString;
  "NoSymbol"; "Alt_L"; "NoSymbol"; "Alt_L"; EmptyString; EmptyString;
  "NoSymbol"; "Meta_L"; "NoSymbol"; "Meta_L"; EmptyString; EmptyString;
  "NoSymbol"; "Super_L"; "NoSymbol"; "Super_L"; EmptyString; EmptyString;
  "NoSymbol"; "Hyper_L"; "NoSymbol"; "Hyper_L"; EmptyString; EmptyString
]%string.

Definition xmap_8 : list string := [
  "XF86AudioPlay"; "NoSymbol"; "XF86AudioPlay"; EmptyString; EmptyString; EmptyString;
  "XF86AudioPause"; "NoSymbol"; "XF86AudioPause"; EmptyString; EmptyString; EmptyString;
  "XF86Launch3"; "NoSymbol"; "XF86Launch3"; EmptyString; EmptyString; EmptyString;
  "XF86Launch4"; "NoSymbol"; "XF86Launch4"; EmptyString; EmptyString; EmptyString;
  "XF86LaunchB"; "NoSymbol"; "XF86LaunchB"; EmptyString; EmptyString; EmptyString;
  "XF86Suspend"; "NoSymbol"; "XF86Suspend"; EmptyString; EmptyString; EmptyString;
  "XF86Close"; "NoSymbol"; "XF86Close"; EmptyString; EmptyString; EmptyString;
  "XF86AudioPlay"; "NoSymbol"; "XF86AudioPlay"; EmptyString; EmptyString; EmptyString;
  "XF86AudioForward"; "NoSymbol"; "XF86AudioForward"; EmptyString; EmptyString; EmptyString;
  EmptyString; EmptyString; EmptyString; EmptyString; EmptyString; EmptyString;
  "Print"; "NoSymbol"; "Print"; EmptyString; EmptyString; EmptyString;
  EmptyString; EmptyString; EmptyString; EmptyString; EmptyString; EmptyString;
  "XF86WebCam"; "NoSymbol"; "XF86WebCam"; EmptyString; EmptyString; EmptyString;
  "XF86AudioPreset"; "NoSymbol"; "XF86AudioPreset"; EmptyString; EmptyString; EmptyString;
  EmptyString; EmptyString; EmptyString; EmptyString; EmptyString; EmptyString;
  "XF86Mail"; "NoSymbol"; "XF86Mail"; EmptyString; EmptyString; EmptyString;
  "XF86Messenger"; "NoSymbol"; "XF86Messenger"; EmptyString; EmptyString; EmptyString;
  "XF86Search"; "NoSymbol"; "XF86Search"; EmptyString; EmptyString; EmptyString;
  "XF86Go"; "NoSymbol"; "XF86Go"; EmptyString; EmptyString; EmptyString;
  "XF86Finance"; "NoSymbol"; "XF86Finance"; EmptyString; EmptyString; EmptyString;
  "XF86Game"; "NoSymbol"; "XF86Game"; EmptyString; EmptyString; EmptyString;
  "XF86Shop"; "NoSymbol"; "XF86Shop"; EmptyString; EmptyString; EmptyString;
  EmptyString; EmptyString; EmptyString; EmptyString; EmptyString; EmptyString;
  "Cancel"; "NoSymbol"; "Cancel"; EmptyString; EmptyString; EmptyString;
  "XF86MonBrightnessDown"; "NoSymbol"; "XF86MonBrightnessDown"; EmptyString; EmptyString; EmptyString
]%string.

Definition xmap_9 : list string := [
  "XF86MonBrightnessUp"; "NoSymbol"; "XF86MonBrightnessUp"; EmptyString; EmptyString; EmptyString;
  "XF86AudioMedia"; "NoSymbol"; "XF86AudioMedia"; EmptyString; EmptyString; EmptyString;
  "XF86Display"; "NoSymbol"; "XF86Display"; EmptyString; EmptyString; EmptyString;
  "XF86KbdLightOnOff"; "NoSymbol"; "XF86KbdLightOnOff"; EmptyString; EmptyString; EmptyString;
  "XF86KbdBrightnessDown"; "NoSymbol"; "XF86KbdBrightnessDown"; EmptyString; EmptyString; EmptyString;
  "XF86KbdBrightnessUp"; "NoSymbol"; "XF86KbdBrightnessUp"; EmptyString; EmptyString; EmptyString;
  "XF86Send"; "NoSymbol"; "XF86Send"; EmptyString; EmptyString; EmptyString;
  "XF86Reply"; "NoSymbol"; "XF86Reply"; EmptyString; EmptyString; EmptyString;
  "XF86MailForward"; "NoSymbol"; "XF86MailForward"; EmptyString; EmptyString; EmptyString;
  "XF86Save"; "NoSymbol"; "XF86Save"; EmptyString; EmptyString; EmptyString;
  "XF86Documents"; "NoSymbol"; "XF86Documents"; EmptyString; EmptyString; EmptyString;
  "XF86Battery"; "NoSymbol"; "XF86Battery"; EmptyString; EmptyString; EmptyString;
  "XF86Bluetooth"; "NoSymbol"; "XF86Bluetooth"; EmptyString; EmptyString; EmptyString;
  "XF86WLAN"; "NoSymbol"; "XF86WLAN"; EmptyString; EmptyString; EmptyString;
  EmptyString; EmptyString; EmptyString; EmptyString; EmptyString; EmptyString;
  EmptyString; EmptyString; EmptyString; EmptyString; EmptyString; EmptyString;
  EmptyString; EmptyString; EmptyString; EmptyString; EmptyString; EmptyString;
  EmptyString; EmptyString; EmptyString; EmptyString; EmptyString; EmptyString;
  "XF86MonBrightnessCycle"; "NoSymbol"; "XF86MonBrightnessCycle"; EmptyString; EmptyString; EmptyString;
  EmptyString; EmptyString; EmptyString; EmptyString; EmptyString; EmptyString;
  EmptyString; EmptyString; EmptyString; EmptyString; EmptyString; EmptyString;
  "XF86WWAN"; "NoSymbol"; "XF86WWAN"; EmptyString; EmptyString; EmptyString;
  "XF86RFKill"; "NoSymbol"; "XF86RFKill"; EmptyString; EmptyString; EmptyString;
  EmptyString; EmptyString; EmptyString; EmptyString; EmptyString; EmptyString;
  EmptyString; EmptyString; EmptyString; EmptyString; EmptyString; EmptyString
]%string.

Definition xmap_10 : list string := [
  EmptyString; EmptyString; EmptyString; EmptyString; EmptyString; EmptyString;
  EmptyString; EmptyString; EmptyString; EmptyString; EmptyString; EmptyString;
  EmptyString; EmptyString; EmptyString; EmptyString; EmptyString; EmptyString;
  EmptyString; EmptyString; EmptyString; EmptyString; EmptyString; EmptyString;
  EmptyString; EmptyString; EmptyString; EmptyString; EmptyString; EmptyString
]%string.

Definition xmap : list string :=
  xmap_0 ++ xmap_1 ++ xmap_2 ++ xmap_3 ++ xmap_4 ++ xmap_5 ++ xmap_6 ++ xmap_7 ++ xmap_8 ++ xmap_9 ++ xmap_10.

Lemma len_xmap : len xmap = 255 * 6.
Proof. by vm_compute. Qed.
