(* ===== verification/Keymap.v ===== *)
(** The keyboard of the console ([app_console/src/st.rs]): the [Key] enumeration
    and the character a key press types in each layout. *)
From S2P Require Import Prelude XmapData.

Inductive Local := En | Fr.
#[export] Instance local_eq_dec : EqDecision Local.
Proof. solve_decision. Defined.

Definition getxmap (local : Local) (code : Z) (shift altg : bool) : res string :=
  index xmap (code * 6 +
    (if altg then 4 else (if shift then 1 else 0) + match local with En => 2 | Fr => 0 end)).

Module Key.
Inductive t :=
  | Reserved | Esc | Key1 | Key2 | Key3 | Key4 | Key5 | Key6 | Key7 | Key8 | Key9 | Key0 | KeyMinus
  | KeyEqual | KeyBackspace | KeyTab | KeyQ | KeyW | KeyE | KeyR | KeyT | KeyY | KeyU | KeyI | KeyO | KeyP
  | KeyLeftBrace | KeyRightBrace | KeyEnter | KeyLeftCtrl | KeyA | KeyS | KeyD | KeyF | KeyG | KeyH | KeyJ
  | KeyK | KeyL | KeySemicolon | KeyApostrophe | KeyGrave | KeyLeftShift | KeyBackslash | KeyZ | KeyX | KeyC
  | KeyV | KeyB | KeyN | KeyM | KeyComma | KeyDot | KeySlash | KeyRightShift | KeyKpAsterisk | KeyLeftAlt
  | KeySpace | KeyCapsLock | KeyF1 | KeyF2 | KeyF3 | KeyF4 | KeyF5 | KeyF6 | KeyF7 | KeyF8 | KeyF9 | KeyF10
  | KeyNumLock | KeyScrollLock | KeyKp7 | KeyKp8 | KeyKp9 | KeyKpMinus | KeyKp4 | KeyKp5 | KeyKp6 | KeyKpPlus
  | KeyKp1 | KeyKp2 | KeyKp3 | KeyKp0 | KeyKpDot | KeyZenkakuHankaku | Key102nd | KeyF11 | KeyF12 | KeyRo
  | KeyKatakana | KeyHiragana | KeyHenkan | KeyKatakanaHiragana | KeyMuhenkan | KeyKpJpComma | KeyKpEnter
  | KeyRightCtrl | KeyKpSlash | KeySysRq | KeyRightAlt | KeyLineFeed | KeyHome | KeyUp | KeyPageUp | KeyLeft
  | KeyRight | KeyEnd | KeyDown | KeyPageDown | KeyInsert | KeyDelete | KeyMacro | KeyMute | KeyVolumeDown
  | KeyVolumeUp | KeyPower | KeyKpEqual | KeyKpPlusMinus | KeyPause | KeyScale | KeyKpComma | KeyHangeul
  | KeyHanja | KeyYen | KeyLeftMeta | KeyRightMeta | KeyCompose | KeyStop | KeyAgain | KeyProps | KeyUndo
  | KeyFront | KeyCopy | KeyOpen | KeyPaste | KeyFind | KeyCut | KeyHelp | KeyMenu | KeyCalc | KeySetup
  | KeySleep | KeyWakeup | KeyFile | KeySend | KeyDeleteFile | KeyXfer | KeyProg1 | KeyProg2 | KeyWww
  | KeyMsDos | KeyScreenLock | KeyDirection | KeyCycleWindows | KeyMail | KeyBookmarks | KeyComputer
  | KeyBack | KeyForward | KeyCloseCd | KeyEjectCd | KeyEjectCloseCd | KeyNextSong | KeyPlayPause
  | KeyPreviousSong | KeyStopCd | KeyRecord | KeyRewind | KeyPhone | KeyIso | KeyConfig | KeyHomePage
  | KeyRefresh | KeyExit | KeyMove | KeyEdit | KeyScrollUp | KeyScrollDown | KeyKpLeftParenthesis
  | KeyKpRightParenthesis | KeyNew | KeyRedo | KeyF13 | KeyF14 | KeyF15 | KeyF16 | KeyF17 | KeyF18 | KeyF19
  | KeyF20 | KeyF21 | KeyF22 | KeyF23 | KeyF24 | KeyMax | BtnLeft | BtnRight | BtnMiddle | BtnSide.

Definition as_usize (k : t) : Z :=
  match k with
  | Reserved => 0 | Esc => 1 | Key1 => 2 | Key2 => 3 | Key3 => 4 | Key4 => 5 | Key5 => 6 | Key6 => 7
  | Key7 => 8 | Key8 => 9 | Key9 => 10 | Key0 => 11 | KeyMinus => 12 | KeyEqual => 13 | KeyBackspace => 14
  | KeyTab => 15 | KeyQ => 16 | KeyW => 17 | KeyE => 18 | KeyR => 19 | KeyT => 20 | KeyY => 21 | KeyU => 22
  | KeyI => 23 | KeyO => 24 | KeyP => 25 | KeyLeftBrace => 26 | KeyRightBrace => 27 | KeyEnter => 28
  | KeyLeftCtrl => 29 | KeyA => 30 | KeyS => 31 | KeyD => 32 | KeyF => 33 | KeyG => 34 | KeyH => 35
  | KeyJ => 36 | KeyK => 37 | KeyL => 38 | KeySemicolon => 39 | KeyApostrophe => 40 | KeyGrave => 41
  | KeyLeftShift => 42 | KeyBackslash => 43 | KeyZ => 44 | KeyX => 45 | KeyC => 46 | KeyV => 47 | KeyB => 48
  | KeyN => 49 | KeyM => 50 | KeyComma => 51 | KeyDot => 52 | KeySlash => 53 | KeyRightShift => 54
  | KeyKpAsterisk => 55 | KeyLeftAlt => 56 | KeySpace => 57 | KeyCapsLock => 58 | KeyF1 => 59 | KeyF2 => 60
  | KeyF3 => 61 | KeyF4 => 62 | KeyF5 => 63 | KeyF6 => 64 | KeyF7 => 65 | KeyF8 => 66 | KeyF9 => 67
  | KeyF10 => 68 | KeyNumLock => 69 | KeyScrollLock => 70 | KeyKp7 => 71 | KeyKp8 => 72 | KeyKp9 => 73
  | KeyKpMinus => 74 | KeyKp4 => 75 | KeyKp5 => 76 | KeyKp6 => 77 | KeyKpPlus => 78 | KeyKp1 => 79
  | KeyKp2 => 80 | KeyKp3 => 81 | KeyKp0 => 82 | KeyKpDot => 83 | KeyZenkakuHankaku => 85 | Key102nd => 86
  | KeyF11 => 87 | KeyF12 => 88 | KeyRo => 89 | KeyKatakana => 90 | KeyHiragana => 91 | KeyHenkan => 92
  | KeyKatakanaHiragana => 93 | KeyMuhenkan => 94 | KeyKpJpComma => 95 | KeyKpEnter => 96
  | KeyRightCtrl => 97 | KeyKpSlash => 98 | KeySysRq => 99 | KeyRightAlt => 100 | KeyLineFeed => 101
  | KeyHome => 102 | KeyUp => 103 | KeyPageUp => 104 | KeyLeft => 105 | KeyRight => 106 | KeyEnd => 107
  | KeyDown => 108 | KeyPageDown => 109 | KeyInsert => 110 | KeyDelete => 111 | KeyMacro => 112
  | KeyMute => 113 | KeyVolumeDown => 114 | KeyVolumeUp => 115 | KeyPower => 116 | KeyKpEqual => 117
  | KeyKpPlusMinus => 118 | KeyPause => 119 | KeyScale => 120 | KeyKpComma => 121 | KeyHangeul => 122
  | KeyHanja => 123 | KeyYen => 124 | KeyLeftMeta => 125 | KeyRightMeta => 126 | KeyCompose => 127
  | KeyStop => 128 | KeyAgain => 129 | KeyProps => 130 | KeyUndo => 131 | KeyFront => 132 | KeyCopy => 133
  | KeyOpen => 134 | KeyPaste => 135 | KeyFind => 136 | KeyCut => 137 | KeyHelp => 138 | KeyMenu => 139
  | KeyCalc => 140 | KeySetup => 141 | KeySleep => 142 | KeyWakeup => 143 | KeyFile => 144 | KeySend => 145
  | KeyDeleteFile => 146 | KeyXfer => 147 | KeyProg1 => 148 | KeyProg2 => 149 | KeyWww => 150
  | KeyMsDos => 151 | KeyScreenLock => 152 | KeyDirection => 153 | KeyCycleWindows => 154 | KeyMail => 155
  | KeyBookmarks => 156 | KeyComputer => 157 | KeyBack => 158 | KeyForward => 159 | KeyCloseCd => 160
  | KeyEjectCd => 161 | KeyEjectCloseCd => 162 | KeyNextSong => 163 | KeyPlayPause => 164
  | KeyPreviousSong => 165 | KeyStopCd => 166 | KeyRecord => 167 | KeyRewind => 168 | KeyPhone => 169
  | KeyIso => 170 | KeyConfig => 171 | KeyHomePage => 172 | KeyRefresh => 173 | KeyExit => 174
  | KeyMove => 175 | KeyEdit => 176 | KeyScrollUp => 177 | KeyScrollDown => 178 | KeyKpLeftParenthesis => 179
  | KeyKpRightParenthesis => 180 | KeyNew => 181 | KeyRedo => 182 | KeyF13 => 183 | KeyF14 => 184
  | KeyF15 => 185 | KeyF16 => 186 | KeyF17 => 187 | KeyF18 => 188 | KeyF19 => 189 | KeyF20 => 190
  | KeyF21 => 191 | KeyF22 => 192 | KeyF23 => 193 | KeyF24 => 194 | KeyMax => 195 | BtnLeft => 272
  | BtnRight => 273 | BtnMiddle => 274 | BtnSide => 275
  end.

(** [==] on keys *)
Definition eqb (k k' : t) : bool := as_usize k =? as_usize k'.

Definition all : list t := [
  Reserved; Esc; Key1; Key2; Key3; Key4; Key5; Key6; Key7; Key8; Key9; Key0; KeyMinus; KeyEqual;
  KeyBackspace; KeyTab; KeyQ; KeyW; KeyE; KeyR; KeyT; KeyY; KeyU; KeyI; KeyO; KeyP; KeyLeftBrace;
  KeyRightBrace; KeyEnter; KeyLeftCtrl; KeyA; KeyS; KeyD; KeyF; KeyG; KeyH; KeyJ; KeyK; KeyL; KeySemicolon;
  KeyApostrophe; KeyGrave; KeyLeftShift; KeyBackslash; KeyZ; KeyX; KeyC; KeyV; KeyB; KeyN; KeyM; KeyComma;
  KeyDot; KeySlash; KeyRightShift; KeyKpAsterisk; KeyLeftAlt; KeySpace; KeyCapsLock; KeyF1; KeyF2; KeyF3;
  KeyF4; KeyF5; KeyF6; KeyF7; KeyF8; KeyF9; KeyF10; KeyNumLock; KeyScrollLock; KeyKp7; KeyKp8; KeyKp9;
  KeyKpMinus; KeyKp4; KeyKp5; KeyKp6; KeyKpPlus; KeyKp1; KeyKp2; KeyKp3; KeyKp0; KeyKpDot; KeyZenkakuHankaku;
  Key102nd; KeyF11; KeyF12; KeyRo; KeyKatakana; KeyHiragana; KeyHenkan; KeyKatakanaHiragana; KeyMuhenkan;
  KeyKpJpComma; KeyKpEnter; KeyRightCtrl; KeyKpSlash; KeySysRq; KeyRightAlt; KeyLineFeed; KeyHome; KeyUp;
  KeyPageUp; KeyLeft; KeyRight; KeyEnd; KeyDown; KeyPageDown; KeyInsert; KeyDelete; KeyMacro; KeyMute;
  KeyVolumeDown; KeyVolumeUp; KeyPower; KeyKpEqual; KeyKpPlusMinus; KeyPause; KeyScale; KeyKpComma;
  KeyHangeul; KeyHanja; KeyYen; KeyLeftMeta; KeyRightMeta; KeyCompose; KeyStop; KeyAgain; KeyProps; KeyUndo;
  KeyFront; KeyCopy; KeyOpen; KeyPaste; KeyFind; KeyCut; KeyHelp; KeyMenu; KeyCalc; KeySetup; KeySleep;
  KeyWakeup; KeyFile; KeySend; KeyDeleteFile; KeyXfer; KeyProg1; KeyProg2; KeyWww; KeyMsDos; KeyScreenLock;
  KeyDirection; KeyCycleWindows; KeyMail; KeyBookmarks; KeyComputer; KeyBack; KeyForward; KeyCloseCd;
  KeyEjectCd; KeyEjectCloseCd; KeyNextSong; KeyPlayPause; KeyPreviousSong; KeyStopCd; KeyRecord; KeyRewind;
  KeyPhone; KeyIso; KeyConfig; KeyHomePage; KeyRefresh; KeyExit; KeyMove; KeyEdit; KeyScrollUp;
  KeyScrollDown; KeyKpLeftParenthesis; KeyKpRightParenthesis; KeyNew; KeyRedo; KeyF13; KeyF14; KeyF15;
  KeyF16; KeyF17; KeyF18; KeyF19; KeyF20; KeyF21; KeyF22; KeyF23; KeyF24; KeyMax; BtnLeft; BtnRight;
  BtnMiddle; BtnSide
].

(** The key of a code. A [usize] that is no discriminant of the enumeration is
    not a value of the type: reading one is undefined. *)
Definition of_usize (z : Z) : option t := snd <$> list_find (λ k, as_usize k = z) all.

(** The characters of the names that are longer than one byte, as UTF-8. *)
Definition named_char (s : string) : option string :=
  match s with
  | "minus" => Some "-"
  | "plus" => Some "+"
  | "equal" => Some "="
  | "space" => Some " "
  | "bracketleft" => Some "["
  | "bracketright" => Some "]"
  | "braceleft" => Some "{"
  | "braceright" => Some "}"
  | "parenleft" => Some "("
  | "parenright" => Some ")"
  | "less" => Some "<"
  | "greater" => Some ">"
  | "comma" => Some ","
  | "asterisk" => Some "*"
  | "slash" => Some "/"
  | "colon" => Some ":"
  | "percent" => Some "%"
  | "semicolon" => Some ";"
  | "question" => Some "?"
  | "quotedbl" => Some (String (Ascii.ascii_of_nat 34) EmptyString)
  | "apostrophe" => Some "'"
  | "twosuperior" => Some "²"
  | "exclam" => Some "!"
  | _ => None
  end%string.

(** [Key::char]; a one-byte name is its own character. *)
Definition char (self : t) (local : Local) (shift altg : bool) : res (option string) :=
  if 255 <=? as_usize self then mret None
  else
    s ← getxmap local (as_usize self) shift altg;
    if (String.length s =? 1)%nat then mret (Some s) else mret (named_char s).
End Key.
#[global] Arguments Key.char : simpl never.

Definition bools : list bool := [false; true].
Definition typed (l : Local) (k : Key.t) (shift altg : bool) : list string :=
  match Key.char k l shift altg with Ok (Some c) => [c] | _ => [] end.
Definition typable (l : Local) : list string :=
  Key.all ≫= λ k, bools ≫= λ shift, bools ≫= λ altg, typed l k shift altg.

(** ** Which characters can be typed *)
Lemma all_keys k : k ∈ Key.all.
Proof.
  assert (snd <$> list_find (λ k', Key.as_usize k' = Key.as_usize k) Key.all = Some k) as H.
  { destruct k; vm_compute; reflexivity. }
  apply fmap_Some in H as ([i k'] & Hf & ->). apply list_find_Some in Hf as (Hl & _). by eapply list_elem_of_lookup_2.
Qed.

Lemma of_as_usize k : Key.of_usize (Key.as_usize k) = Some k.
Proof. destruct k; vm_compute; reflexivity. Qed.

Lemma by_keys (f : Local → Key.t → bool → bool → bool) :
  forallb (λ l, forallb (λ k, forallb (λ s, forallb (f l k s) bools) bools) Key.all) [En; Fr] = true →
  ∀ l k s a, f l k s a = true.
Proof.
  intros H l k s a. rewrite forallb_forall in H. specialize (H l). rewrite <-list_elem_of_In in H.
  specialize (H ltac:(destruct l; [left|right; left])). rewrite forallb_forall in H.
  specialize (H k). rewrite <-list_elem_of_In in H. specialize (H (all_keys k)). rewrite forallb_forall in H.
  specialize (H s ltac:(destruct s; simpl; auto)). rewrite forallb_forall in H. by apply H; destruct a; simpl; auto.
Qed.

Fixpoint chars_of (s : string) : list string :=
  match s with
  | EmptyString => []
  | String c s => String c EmptyString :: chars_of s
  end.

Definition letters_digits : list string :=
  chars_of "abcdefghijklmnopqrstuvwxyzABCDEFGHIJKLMNOPQRSTUVWXYZ0123456789".
Definition quote_mark : string := String (Ascii.ascii_of_nat 34) EmptyString.

(** The characters of a layout. *)
Definition alphabet (l : Local) : list string :=
  letters_digits ++ [quote_mark] ++ chars_of "%*-=+[]{};:',/? <>()" ++
  (match l with En => ["!"] | Fr => ["!"; "²"] end)%string.

Lemma elem_of_bools b : b ∈ bools.
Proof. destruct b; [right; left|left]. Qed.

Lemma elem_of_typable l c : c ∈ typable l ↔ ∃ k shift altg, Key.char k l shift altg = Ok (Some c).
Proof.
  unfold typable. rewrite list_elem_of_bind. split.
  - intros (k & (s & (a & Hc & _)%list_elem_of_bind & _)%list_elem_of_bind & _). exists k, s, a.
    unfold typed in Hc. destruct (Key.char k l s a) as [[c'|]|]; [|by apply elem_of_nil in Hc..].
    by apply list_elem_of_singleton in Hc as ->.
  - intros (k & s & a & E). exists k. split; [|apply all_keys]. apply list_elem_of_bind. exists s.
    split; [|apply elem_of_bools]. apply list_elem_of_bind. exists a. split; [|apply elem_of_bools].
    unfold typed. rewrite E. by left.
Qed.

Lemma alphabet_typable l c : c ∈ alphabet l ↔ c ∈ typable l.
Proof.
  assert (forallb (λ c, bool_decide (c ∈ alphabet l)) (typable l) = true) as H1 by (destruct l; by vm_compute).
  assert (forallb (λ c, bool_decide (c ∈ typable l)) (alphabet l) = true) as H2 by (destruct l; by vm_compute).
  rewrite forallb_forall in H1, H2.
  split; intros Hc; [specialize (H2 c)|specialize (H1 c)]; rewrite list_elem_of_In in Hc;
    [apply H2 in Hc|apply H1 in Hc]; by apply bool_decide_eq_true in Hc.
Qed.

(** What can be typed. Looking a key up never panics, whatever the layout
    and the modifiers; the buttons of the mouse type nothing; and the characters
    that some key types, with some modifiers, are exactly the alphabet of the
    layout. The full stop and the underscore are in neither alphabet. *)
Theorem typable_characters l :
  (∀ k shift altg, ∃ o, Key.char k l shift altg = Ok o ∧ (255 ≤ Key.as_usize k → o = None)) ∧
  (∀ c, (∃ k shift altg, Key.char k l shift altg = Ok (Some c)) ↔ c ∈ alphabet l) ∧
  ("."%string ∉ alphabet l) ∧ ("_"%string ∉ alphabet l).
Proof.
  split_and!.
  - intros k shift altg. pose (f := λ l k s a, match Key.char k l s a with
      Ok o => (Key.as_usize k <? 255) || bool_decide (o = None) | _ => false end).
    assert (f l k shift altg = true) as Hf by (apply by_keys; by vm_compute). unfold f in Hf.
    destruct (Key.char k l shift altg) as [o|]; [|done]. exists o. split; [done|].
    intros Hk. apply orb_true_iff in Hf as [Hf|Hf]; [lia|]. by apply bool_decide_eq_true in Hf.
  - intros c. by rewrite <-elem_of_typable, alphabet_typable.
  - apply (bool_decide_unpack _). destruct l; by vm_compute.
  - apply (bool_decide_unpack _). destruct l; by vm_compute.
Qed.
