(* ===== verification/Console.v ===== *)
(** The console application ([app_console/src/main.rs]): the prompt, the shell
    commands and the script prompt, driven by the key events of the input ring. *)
From stdpp Require Import pretty.
From S2P Require Import Prelude Globals XmapData Keymap.

(** ** Text: Rust strings are UTF-8 bytes *)
(** A byte that continues a character. *)
Definition is_continuation (c : Ascii.ascii) : bool :=
  let b := Z.of_N (Ascii.N_of_ascii c) in (128 <=? b) && (b <? 192).

Fixpoint bytes (s : string) : list Ascii.ascii :=
  match s with EmptyString => [] | String c s => c :: bytes s end.
Fixpoint of_bytes (l : list Ascii.ascii) : string :=
  match l with [] => EmptyString | c :: l => String c (of_bytes l) end.

(** [String::pop] on the reversed bytes: the last character goes. *)
Fixpoint drop_char (rev : list Ascii.ascii) : list Ascii.ascii :=
  match rev with
  | [] => []
  | c :: rev => if is_continuation c then drop_char rev else rev
  end.
Definition pop_char (s : string) : string := of_bytes (reverse (drop_char (reverse (bytes s)))).

Definition len_bytes (s : string) : Z := Z.of_nat (String.length s).

(** [&text[i..]]: in range and on a character boundary, or a panic. *)
Definition slice_from (s : string) (i : nat) : res string :=
  match drop i (bytes s) with
  | [] => if (i <=? String.length s)%nat then Ok EmptyString else Panic PIndex
  | c :: r => if is_continuation c then Panic PIndex else Ok (of_bytes (c :: r))
  end.

(** [str::starts_with] *)
Definition starts_with (p s : string) : bool := String.prefix p s.

Definition newline : string := String (Ascii.ascii_of_nat 10) EmptyString.

(** ** The script interpreter, the [fomoscript] crate *)
Record RGBA := { r : Z; g : Z; b : Z; a : Z }.

Inductive Mode := Shell | FomoscriptREPL.
#[export] Instance mode_eq_dec : EqDecision Mode.
Proof. solve_decision. Defined.

(** Its values, as far as the natives use them: [as_f64() as usize], and
    [(as_f64() * 255.0) as u8]. *)
Class ScriptValues := {
  N : Type;
  N_Unit : N;
  as_f64_as_usize : N → Z;
  as_f64_times_255_as_u8 : N → Z
}.

(** The values the console binds in a script: numbers and its two natives. *)
Inductive binding := Num (v : Z) | Quit | Draw (w : Z).

(** What the natives reach through their captured pointers. *)
Record Host := { host_mode : Mode; host_pixels : list RGBA }.

Section natives.
Context `{ScriptValues}.
Definition quit (h : Host) : N * Host := (N_Unit, {| host_mode := Shell; host_pixels := host_pixels h |}).

Definition draw_pixel (w : Z) (x y c : N) (h : Host) : res (N * Host) :=
  let i := as_f64_as_usize x +u[64] (as_f64_as_usize y *u[64] w) in
  p ← index (host_pixels h) i;
  let v := as_f64_times_255_as_u8 c in
  arr ← update (host_pixels h) i {| r := v; g := v; b := b p; a := a p |};
  mret (N_Unit, {| host_mode := host_mode h; host_pixels := arr |}).

Definition call_native (f : binding) (x y c : N) (h : Host) : res (N * Host) :=
  match f with
  | Quit => mret (quit h)
  | Draw w => draw_pixel w x y c h
  | Num _ => mret (N_Unit, h)
  end.
End natives.

Class Fomoscript `{ScriptValues} := {
  Ctx : Type;
  Expr : Type;
  Ctx_new : Ctx;
  insert_code : string → Ctx → Ctx;
  set_var_absolute : string → binding → Ctx → Ctx;
  parse_next_expr : Ctx → option Expr * Ctx;
  (** evaluation, given how a native is called *)
  eval : (binding → N → N → N → Host → res (N * Host)) → Expr → Ctx → Host → res (N * Ctx * Host);
  debug : N → string
}.

(** ** The console's store *)
Record Atom := { is_user : bool; text : string }.

Section store.
Context `{Fomoscript}.

(** The fields that the input loop uses; [pixels] is the shared framebuffer. *)
Record Store := MkStore {
  atoms : list Atom;
  active : bool;
  local : Local;
  shift : bool;
  altg : bool;
  script_ctx : Ctx;
  mode : Mode;
  pixels : list RGBA
}.

Definition push_atom (user : bool) (t : string) (s : Store) : Store :=
  MkStore (atoms s ++ [{| is_user := user; text := t |}]) (active s) (local s) (shift s) (altg s) (script_ctx s)
    (mode s) (pixels s).
(** Assignment through the reference to the text of the last atom. *)
Definition set_text (t : string) (s : Store) : Store :=
  MkStore (match pop (atoms s) with
           | Some (l, pre) => pre ++ [{| is_user := is_user l; text := t |}]
           | None => []
           end) (active s) (local s) (shift s) (altg s) (script_ctx s) (mode s) (pixels s).
Definition with_local (l : Local) (s : Store) : Store :=
  MkStore (atoms s) (active s) l (shift s) (altg s) (script_ctx s) (mode s) (pixels s).
Definition with_shift (v : bool) (s : Store) : Store :=
  MkStore (atoms s) (active s) (local s) v (altg s) (script_ctx s) (mode s) (pixels s).
Definition with_altg (v : bool) (s : Store) : Store :=
  MkStore (atoms s) (active s) (local s) (shift s) v (script_ctx s) (mode s) (pixels s).
Definition with_script (c : Ctx) (s : Store) : Store :=
  MkStore (atoms s) (active s) (local s) (shift s) (altg s) c (mode s) (pixels s).
Definition with_mode (m : Mode) (s : Store) : Store :=
  MkStore (atoms s) (active s) (local s) (shift s) (altg s) (script_ctx s) m (pixels s).
Definition with_host (h : Host) (s : Store) : Store :=
  MkStore (atoms s) (active s) (local s) (shift s) (altg s) (script_ctx s) (host_mode h) (host_pixels h).
Definition host_of (s : Store) : Host := {| host_mode := mode s; host_pixels := pixels s |}.

(** The closure of [get_or_insert_with]: a fresh store. *)
Definition new_store (fb : list RGBA) : Store := MkStore [] false En false false Ctx_new Shell fb.

(** What the first call adds to it. *)
Definition welcome (s : Store) : Store := push_atom true ">" (push_atom false "Welcome to Fomos !" s).

(** [eval(&parent, &mut store.script_ctx)] *)
Definition run_eval (parent : Expr) (s : Store) : res (N * Store) :=
  '(v, c, h) ← eval call_native parent (script_ctx s) (host_of s);
  mret (v, with_host h (with_script c s)).

Definition parse (s : Store) : option Expr * Store :=
  let '(e, c) := parse_next_expr (script_ctx s) in (e, with_script c s).

(** [while let Ok(parent) = parse_next_expr() { res = eval(..) }]; [None] if
    [fuel] expressions were not enough. *)
Fixpoint eval_all (fuel : nat) (acc : N) (s : Store) : res (option N * Store) :=
  match fuel with
  | O => mret (None, s)
  | S fuel =>
      match parse s with
      | (Some parent, s) => '(v, s) ← run_eval parent s; eval_all fuel v s
      | (None, s) => mret (Some acc, s)
      end
  end.

(** How handling an event ends: go on with the next one, leave the loop, leave
    [_start] with the store dropped, or run out of fuel in a script. *)
Inductive flow := Next (s : Store) | Break (s : Store) | Reset | OutOfFuel.

Definition help_text : string := "commands:
    - pid       Display the app pid
    - time      Display the kernel time
    - reset     Clear the app memory
    - lang ..   Set key locale (en,fr)
    - eval ..   Eval fomoscript
    - repl      launch fomoscript REPL
    - help      You are here
    ".

(** [KeyEnter] in the script prompt. *)
Definition enter_repl (text : string) (s : Store) : res Store :=
  code ← slice_from text 4;
  let s := with_script (insert_code code (script_ctx s)) s in
  match parse s with
  | (Some parent, s) => '(v, s) ← run_eval parent s; mret (push_atom false ("eval: " +:+ debug v) s)
  | (None, s) => mret s
  end.

Definition enter_eval (fuel w pid start_time : Z) (text : string) (s : Store) : res flow :=
  code ← slice_from text 5;
  let c := insert_code code (script_ctx s) in
  let c := set_var_absolute "time" (Num start_time) c in
  let c := set_var_absolute "pid" (Num pid) c in
  let c := set_var_absolute "draw" (Draw w) c in
  '(v, s) ← eval_all (Z.to_nat fuel) N_Unit (with_script c s);
  match v with
  | Some v => mret (Next (push_atom false ("eval: " +:+ debug v) s))
  | None => mret OutOfFuel
  end.

(** [KeyEnter] in the shell. *)
Definition enter_shell (fuel w pid start_time : Z) (text : string) (s : Store) : res flow :=
  if (text =? ">repl")%string then
    let s := push_atom false "Call quit() to exit the REPL" (with_mode FomoscriptREPL s) in
    mret (Next (with_script (set_var_absolute "quit" Quit (script_ctx s)) s))
  else if (text =? ">pid")%string then mret (Next (push_atom false ("pid: " +:+ pretty pid) s))
  else if (text =? ">time")%string then mret (Next (push_atom false ("time: " +:+ pretty start_time +:+ " ms") s))
  else if (text =? ">lang en")%string then mret (Next (push_atom false "ok" (with_local En s)))
  else if (text =? ">lang fr")%string then mret (Next (push_atom false "ok" (with_local Fr s)))
  else if (text =? ">reset")%string then mret Reset
  else if (text =? ">help")%string then mret (Next (push_atom false help_text s))
  else if starts_with ">eval " text then enter_eval fuel w pid start_time text s
  else mret (Next (push_atom false "unknown command" s)).

(** [KeyEnter] without shift: the command, then a new prompt, and the rest of
    the batch is left. *)
Definition enter (fuel w pid start_time : Z) (text : string) (s : Store) : res flow :=
  f ← match mode s with
      | FomoscriptREPL => s ← enter_repl text s; mret (Next s)
      | Shell => enter_shell fuel w pid start_time text s
      end;
  match f with
  | Next s => mret (Break (push_atom true (match mode s with Shell => ">" | _ => "fos>" end) s))
  | f => mret f
  end.

(** The body of the loop over the events, for one event. *)
Definition process_key (fuel w pid start_time : Z) (key : Key.t) (trigger : bool) (s : Store) : res flow :=
  let s := if Key.eqb key Key.KeyLeftShift then with_shift trigger s
           else if Key.eqb key Key.KeyRightAlt then with_altg trigger s
           else s in
  if trigger then
    match pop (atoms s) with
    | Some ({| is_user := true; text := text |}, _) =>
        if Key.eqb key Key.KeyEnter && negb (shift s) then enter fuel w pid start_time text s
        else
          let text := if Key.eqb key Key.KeyBackspace
                      then if 1 <? len_bytes text then pop_char text else text
                      else text in
          o ← Key.char key (local s) (shift s) (altg s);
          let text := match o with
                      | Some c => text +:+ c
                      | None => if Key.eqb key Key.KeyEnter && shift s then text +:+ newline else text
                      end in
          mret (Next (set_text text s))
    | _ => mret (Next s)
    end
  else mret (Next s).

(** Events in order, until one leaves the loop. *)
Fixpoint process_events (fuel w pid start_time : Z) (evs : list (Key.t * bool)) (s : Store) : res flow :=
  match evs with
  | [] => mret (Next s)
  | (key, trigger) :: evs =>
      f ← process_key fuel w pid start_time key trigger s;
      match f with
      | Next s => process_events fuel w pid start_time evs s
      | f => mret f
      end
  end.

(** [for i in (last + 1)..=history_last_index] over the ring. *)
Fixpoint history_loop (fuel w pid start_time : Z) (ring : list InputEvent) (idx : list Z) (s : Store) : res flow :=
  match idx with
  | [] => mret (Next s)
  | i :: idx =>
      e ← index ring (i mod HISTORY_SIZE);
      k ← unwrap (Key.of_usize (key e));
      f ← process_key fuel w pid start_time k (trigger e) s;
      match f with
      | Next s => history_loop fuel w pid start_time ring idx s
      | f => mret f
      end
  end.

(** The input part of [_start]: the store and the index it remembers, or nothing
    when the store was dropped. *)
Definition handle_input (fuel w pid start_time : Z) (input : Input) (last : Z) (s : Store) : res (option (Store * Z)) :=
  f ← (if active s then
         history_loop fuel w pid start_time (history_ring input) (range (last +u[64] 1) (history_last_index input + 1)) s
       else mret (Next s));
  match f with
  | Next s => mret (Some (s, history_last_index input))
  | Break s => mret (Some (s, history_last_index input))
  | _ => mret None
  end.
End store.

(** The events as the kernel records them. *)
Definition as_event (e : Key.t * bool) : InputEvent := {| trigger := e.2; key := Key.as_usize e.1 |}.

Section reading.
Context `{Fomoscript}.

Lemma history_loop_events fuel w pid start_time input h evs s :
  Input.ring_of (h ++ (as_event <$> evs)) input → len evs ≤ HISTORY_SIZE →
  history_loop fuel w pid start_time (history_ring input) (range (len h + 1) (history_last_index input + 1)) s =
  process_events fuel w pid start_time evs s.
Proof.
  intros [Hi Hr] Hl. rewrite Hi, len_app. rewrite len_app in Hr.
  assert (len (as_event <$> evs) = len evs) as Hle by (unfold len; by rewrite length_fmap). rewrite Hle in *.
  assert (∀ k, (k ≤ length evs)%nat → history_loop fuel w pid start_time (history_ring input)
      (range (len h + Z.of_nat (length evs - k) + 1) (len h + len evs + 1)) s =
    process_events fuel w pid start_time (drop (length evs - k) evs) s) as Hk.
  { intros k. revert s; induction k as [|k IH]; intros s Hk.
    - rewrite Nat.sub_0_r, drop_all. unfold range, len. by rewrite Z.sub_diag.
    - destruct (lookup_lt_is_Some_2 evs (length evs - S k)) as [[kk tr] He]; [lia|].
      rewrite (drop_S _ _ _ He). unfold range. rewrite seqZ_cons by (unfold len; lia). cbn [history_loop process_events].
      rewrite Hr by (unfold len, HISTORY_SIZE in *; lia). rewrite index_app_r by lia.
      replace (index (as_event <$> evs) _) with (Ok (as_event (kk, tr))).
      2:{ symmetry. apply index_ok. split; [lia|]. rewrite list_lookup_fmap.
          replace (Z.to_nat _) with (length evs - S k)%nat by lia. by rewrite He. }
      cbn [mbind res_bind as_event fst snd trigger key]. rewrite of_as_usize. cbn [unwrap mbind res_bind].
      destruct (process_key fuel w pid start_time kk tr s) as [[s'| | |]|]; try done. cbn [mbind res_bind].
      specialize (IH s' ltac:(lia)). replace (length evs - k)%nat with (S (length evs - S k)) in IH by lia.
      rewrite <-IH. f_equal. unfold range. f_equal; lia. }
  specialize (Hk (length evs) ltac:(lia)). rewrite Nat.sub_diag, drop_0 in Hk. by rewrite Z.add_0_r in Hk.
Qed.
End reading.

(** The console reads the input ring correctly. If at most 64 events came
    in since the index the console remembers, it handles exactly those, each
    once and in order, until one of them leaves the loop; its remembered index
    is then that of the last event, whether it was the active window or not. *)
Theorem console_reads_new_events `{Fomoscript} fuel w pid start_time input h evs s :
  Input.ring_of (h ++ (as_event <$> evs)) input → len evs ≤ HISTORY_SIZE → len h + 1 < 2 ^ 64 →
  handle_input fuel w pid start_time input (len h) s =
    (f ← if active s then process_events fuel w pid start_time evs s else mret (Next s);
     match f with
     | Next s' | Break s' => mret (Some (s', len h + len evs))
     | _ => mret None
     end).
Proof.
  intros Hr Hl Hb. unfold handle_input. rewrite wrap_small by (unfold fits; pose proof (len_nonneg h); lia).
  rewrite (history_loop_events _ _ _ _ _ _ _ _ Hr Hl). destruct Hr as [-> _].
  by rewrite len_app, (len_fmap as_event).
Qed.

(** ** The prompt *)
Section prompt.
Context `{Fomoscript}.

Definition last_text (s : Store) (t : string) : Prop := ∃ pre, atoms s = pre ++ [{| is_user := true; text := t |}].

(** What a new line starts with, by the mode: the text pushed after a command. *)
Definition prompt (m : Mode) : string := match m with Shell => ">" | FomoscriptREPL => "fos>" end.
Definition starts_char (s : string) : bool :=
  match s with EmptyString => true | String c _ => negb (is_continuation c) end.

(** The last atom is the user's: the whole prompt of the mode, and then whole
    characters. *)
Definition prompt_ok (s : Store) : Prop := ∃ rest, last_text s (prompt (mode s) +:+ rest) ∧ starts_char rest.

Lemma pop_atoms (s : Store) t : last_text s t → ∃ pre, pop (atoms s) = Some ({| is_user := true; text := t |}, pre).
Proof. intros [pre E]. exists pre. by rewrite E, pop_snoc. Qed.

Lemma set_text_last (s : Store) t t' : last_text s t → last_text (set_text t' s) t'.
Proof. intros [pre E]. exists pre. unfold set_text. by rewrite E, pop_snoc. Qed.

Lemma push_last (s : Store) t : last_text (push_atom true t s) t.
Proof. by exists (atoms s). Qed.

Lemma drop_char_app l m x :
  last l = Some x → is_continuation x = false → ∃ k, drop_char (l ++ m) = k ++ m ∧ (k = [] ∨ last k = Some x).
Proof.
  induction l as [|y l IH]; [done|]. intros Hl Hx. cbn. destruct l as [|z l].
  - injection Hl as ->. rewrite Hx. exists []. auto.
  - destruct (is_continuation y); [by apply IH|]. exists (z :: l). auto.
Qed.

Lemma bytes_of_bytes l : bytes (of_bytes l) = l.
Proof. induction l; simpl; congruence. Qed.
Lemma of_bytes_bytes s : of_bytes (bytes s) = s.
Proof. induction s; simpl; congruence. Qed.

Lemma key_eqb_true k1 k2 : Key.eqb k1 k2 = true → k1 = k2.
Proof. intros E%Z.eqb_eq. apply (inj Some). by rewrite <-!of_as_usize, E. Qed.

Lemma string_app_cons c s t : String c s +:+ t = String c (s +:+ t).
Proof. done. Qed.
Lemma string_app_nil_r s : s +:+ "" = s.
Proof. induction s as [|c s IH]; [done|]. by rewrite string_app_cons, IH. Qed.
Lemma string_app_assoc s t u : (s +:+ t) +:+ u = s +:+ (t +:+ u).
Proof. induction s as [|c s IH]; [done|]. by rewrite !string_app_cons, IH. Qed.
Lemma bytes_app s t : bytes (s +:+ t) = bytes s ++ bytes t.
Proof. induction s as [|c s IH]; [done|]. rewrite string_app_cons. cbn [bytes]. by rewrite IH. Qed.
Lemma of_bytes_app l m : of_bytes (l ++ m) = of_bytes l +:+ of_bytes m.
Proof. induction l as [|c l IH]; [done|]. cbn [of_bytes app]. by rewrite IH, string_app_cons. Qed.

(** Popping a character of what follows the prompt leaves the prompt. *)
Lemma pop_char_prompt p rest :
  rest ≠ EmptyString → starts_char rest → ∃ rest', pop_char (p +:+ rest) = p +:+ rest' ∧ starts_char rest'.
Proof.
  intros Hne Hs. unfold pop_char. rewrite bytes_app, reverse_app.
  destruct rest as [|x rest]; [done|]. cbn in Hs. apply negb_True, Is_true_false_1 in Hs as Hx.
  destruct (drop_char_app (reverse (x :: bytes rest)) (reverse (bytes p)) x) as (k & E & Hk);
    [by rewrite last_reverse|done|]. cbn [bytes]. rewrite E.
  rewrite reverse_app, reverse_involutive, of_bytes_app, of_bytes_bytes. exists (of_bytes (reverse k)). split; [done|].
  destruct Hk as [->|Hk]; [done|]. rewrite <-(reverse_involutive k), last_reverse in Hk.
  destruct (reverse k); [done|]. injection Hk as ->. cbn. by rewrite Hx.
Qed.

Lemma append_prompt rest c : starts_char rest → starts_char c → starts_char (rest +:+ c).
Proof. by destruct rest. Qed.

(** The characters of the keyboard are whole. *)
Lemma char_starts k l sh al : ∃ o, Key.char k l sh al = Ok o ∧ ∀ c, o = Some c → starts_char c ∧ c ≠ EmptyString.
Proof.
  pose (f := λ l k s a, match Key.char k l s a with
    | Ok (Some c) => starts_char c && bool_decide (c ≠ EmptyString) | Ok None => true | _ => false end).
  assert (f l k sh al = true) as Hf by (apply by_keys; by vm_compute). unfold f in Hf.
  destruct (Key.char k l sh al) as [o|]; [|done]. exists o. split; [done|]. intros c ->.
  apply andb_true_iff in Hf as [H1 H2]. apply bool_decide_eq_true in H2. by rewrite H1.
Qed.

Lemma enter_shell_ok fuel w pid start_time t s :
  starts_with ">eval " t = false → ∃ f, enter_shell fuel w pid start_time t s = Ok f.
Proof. intros He. unfold enter_shell. rewrite He. repeat case_match; by eexists. Qed.

Lemma enter_shell_stays fuel w pid start_time t s s' :
  enter_shell fuel w pid start_time t s ≠ Ok (Break s').
Proof.
  unfold enter_shell. repeat case_match; try done. unfold enter_eval.
  intros (code & _ & (([v|] & s1) & _ & E)%bind_ok)%bind_ok; done.
Qed.

Lemma enter_prompts fuel w pid start_time t s f :
  enter fuel w pid start_time t s = Ok f → match f with Next _ => False | Break s' => prompt_ok s' | _ => True end.
Proof.
  unfold enter. intros (f1 & E1 & E)%bind_ok. destruct f1 as [s1|s1| |]; try (by injection E as <-).
  - injection E as <-. unfold prompt_ok. cbn [push_atom mode]. destruct (mode s1).
    all: exists EmptyString; split; [apply push_last|done].
  - exfalso. destruct (mode s); [by eapply enter_shell_stays|]. by apply bind_ok in E1 as (s2 & _ & [=]).
Qed.
(** Backspace on a bare script prompt. *)
Definition breaks_prompt (key : Key.t) (trigger : bool) (s : Store) : Prop :=
  key = Key.KeyBackspace ∧ trigger = true ∧ mode s = FomoscriptREPL ∧ last_text s "fos>".

(** The modifiers of a store after an event. *)
Definition modified (key : Key.t) (trigger : bool) (s : Store) : Store :=
  if Key.eqb key Key.KeyLeftShift then with_shift trigger s
  else if Key.eqb key Key.KeyRightAlt then with_altg trigger s else s.

Lemma modified_keeps key trigger s : atoms (modified key trigger s) = atoms s ∧ mode (modified key trigger s) = mode s.
Proof. unfold modified. by repeat case_match. Qed.

(** An event that is not a plain Enter edits the line, if it is a press. *)
Lemma process_key_edits fuel w pid start_time key trigger s t :
  last_text s t → trigger && Key.eqb key Key.KeyEnter && negb (shift (modified key trigger s)) = false →
  ∃ c, (c = EmptyString ∨ starts_char c) ∧
    let edited := (if Key.eqb key Key.KeyBackspace then if 1 <? len_bytes t then pop_char t else t else t) +:+ c in
    process_key fuel w pid start_time key trigger s =
      Ok (Next (if trigger then set_text edited (modified key trigger s) else modified key trigger s)) ∧
    (key = Key.KeyBackspace → c = EmptyString).
Proof.
  intros Hl He. unfold process_key. fold (modified key trigger s). destruct trigger.
  2:{ exists EmptyString. split; [by left|]. by split. }
  destruct (pop_atoms (modified key true s) t) as [pre ->].
  { unfold last_text. by rewrite (proj1 (modified_keeps key true s)). }
  cbn [andb] in He. rewrite He.
  destruct (char_starts key (local (modified key true s)) (shift (modified key true s)) (altg (modified key true s)))
    as (o & Ec & Ho). rewrite Ec. cbn [mbind res_bind].
  assert (key = Key.KeyBackspace → o = None) as Hb.
  { intros ->. revert Ec. destruct (local _), (shift _), (altg _); by intros [= <-]. }
  destruct o as [c|]; [exists c|destruct (Key.eqb key Key.KeyEnter && shift _) eqn:En; [exists newline|exists EmptyString]].
  - destruct (Ho c eq_refl). split; [by right|]. split; [done|]. by intros ?%Hb.
  - split; [by right|]. split; [done|]. by intros ->.
  - split; [by left|]. split; [|done]. by rewrite string_app_nil_r.
Qed.
(** A plain Enter runs the line. *)
Lemma process_key_enter fuel w pid start_time s t :
  last_text s t → shift s = false →
  process_key fuel w pid start_time Key.KeyEnter true s = enter fuel w pid start_time t s.
Proof. intros Hl Hs. unfold process_key. cbn. destruct (pop_atoms s t Hl) as [pre ->]. by rewrite Hs. Qed.

Lemma plain_enter key trigger s :
  trigger && Key.eqb key Key.KeyEnter && negb (shift (modified key trigger s)) = true →
  key = Key.KeyEnter ∧ trigger = true ∧ shift s = false.
Proof.
  intros [[-> Hk]%andb_true_iff Hs]%andb_true_iff. apply key_eqb_true in Hk as ->.
  cbn in Hs. by destruct (shift s).
Qed.
End prompt.

(** C24: the prompt. After the welcome the last entry of the console is the
    user's: the whole prompt of the mode, [>] in the shell and [fos>] in the script
    prompt, and then whole characters. Every event that does not leave [_start]
    keeps it so, whatever the script does, except Backspace on a bare script
    prompt, which leaves [fos]. The command of an Enter, on a broken line too, is
    followed by the whole prompt of the mode it left. In the shell no event can
    make the console panic as long as the line is not an [eval]. *)
Theorem console_prompt_invariant `{Fomoscript} fuel w pid start_time key trigger s fb :
  prompt_ok (welcome (new_store fb)) ∧
  (prompt_ok s → ∀ s',
     process_key fuel w pid start_time key trigger s = Ok (Next s') ∨
     process_key fuel w pid start_time key trigger s = Ok (Break s') →
     (breaks_prompt key trigger s → last_text s' "fos") ∧ (¬ breaks_prompt key trigger s → prompt_ok s')) ∧
  (∀ s', process_key fuel w pid start_time key trigger s = Ok (Break s') → prompt_ok s') ∧
  (∀ t, last_text s t → mode s = Shell → starts_with ">eval " t = false →
     ∃ f, process_key fuel w pid start_time key trigger s = Ok f).
Proof.
  split; [exists EmptyString; split; [apply push_last|done]|].
  assert (∀ s', process_key fuel w pid start_time key trigger s = Ok (Break s') → prompt_ok s') as Hbr.
  { intros s'. unfold process_key. fold (modified key trigger s). destruct trigger; [|done].
    destruct (pop _) as [[[[|] tx] l]|]; [|done..]. destruct (_ && _); [by intros E%enter_prompts|].
    by intros (o & _ & E)%bind_ok. }
  split; [|split; [exact Hbr|]].
  - intros (rest & Hl & Hs) s' HE.
    destruct (trigger && Key.eqb key Key.KeyEnter && negb (shift (modified key trigger s))) eqn:Hpe.
    { apply plain_enter in Hpe as (-> & -> & Hsh). split; [by intros [? _]|]. intros _.
      destruct HE as [E|E]; [|by apply Hbr]. rewrite (process_key_enter _ _ _ _ _ _ Hl Hsh) in E. by apply enter_prompts in E. }
    destruct (process_key_edits fuel w pid start_time key trigger s _ Hl Hpe) as (c & Hc & E & Hbs). rewrite E in HE.
    destruct HE as [[= <-]|[=]]. clear E. destruct (modified_keeps key trigger s) as [Ha Hm].
    destruct trigger; [|split; [by intros (_ & [=] & _)|]; intros _; exists rest; split; [unfold last_text|]; by rewrite ?Ha, ?Hm].
    assert (∀ t, last_text (set_text t (modified key true s)) t) as Hset.
    { intros t. eapply set_text_last. unfold last_text. rewrite Ha. exact Hl. }
    split.
    + intros (-> & _ & Hmode & Hf). rewrite (Hbs eq_refl). destruct Hl as [p1 Hl], Hf as [p2 Hf]. rewrite Hl in Hf.
      apply app_inj_2 in Hf as [_ Hf]; [|done]. injection Hf as ->. apply Hset.
    + intros Hn. assert (∃ rest', (if Key.eqb key Key.KeyBackspace then
          if 1 <? len_bytes (prompt (mode s) +:+ rest) then pop_char (prompt (mode s) +:+ rest) else prompt (mode s) +:+ rest
          else prompt (mode s) +:+ rest) = prompt (mode s) +:+ rest' ∧ starts_char rest') as (r2 & -> & Hr2).
      { destruct (Key.eqb key Key.KeyBackspace) eqn:Hk; [|by exists rest].
        apply key_eqb_true in Hk as ->.
        destruct (decide (rest = EmptyString)) as [->|Hne].
        - destruct (mode s) eqn:Hmode; [by exists EmptyString|]. exfalso. apply Hn. by repeat split.
        - destruct (1 <? _); [|by exists rest]. by apply pop_char_prompt. }
      exists (r2 +:+ c)%string. cbn [set_text mode]. rewrite Hm, <-string_app_assoc. split; [apply Hset|].
      destruct Hc as [->|Hc]; [by rewrite string_app_nil_r|by apply append_prompt].
  - intros t Hl Hsh He.
    destruct (trigger && Key.eqb key Key.KeyEnter && negb (shift (modified key trigger s))) eqn:Hpe.
    + apply plain_enter in Hpe as (-> & -> & Hs). rewrite (process_key_enter _ _ _ _ _ _ Hl Hs). unfold enter. rewrite Hsh.
      destruct (enter_shell_ok fuel w pid start_time t s He) as [f ->]. cbn. destruct f; by eexists.
    + destruct (process_key_edits fuel w pid start_time key trigger s _ Hl Hpe) as (c & _ & E & _). by eexists.
Qed.

(** An interpreter for examples: a script is one expression, whose value is its
    length, and [quit()] calls the native. *)
#[local] Instance echo_values : ScriptValues := {|
  N := Z; N_Unit := 0; as_f64_as_usize v := v; as_f64_times_255_as_u8 v := v mod 256 |}.
#[local] Instance echo_script : Fomoscript := {|
  Ctx := list string; Expr := string; Ctx_new := [];
  insert_code code c := c ++ [code];
  set_var_absolute _ _ c := c;
  parse_next_expr c := match c with [] => (None, []) | e :: c => (Some e, c) end;
  eval call e c h :=
    if String.eqb e "quit()" then '(v, h) ← call Quit 0 0 0 h; mret (v, c, h)
    else mret (len_bytes e, c, h);
  debug v := pretty v
|}.

Lemma console_prompt_invariant_witness :
  ∃ f, process_key 9 800 1 77 Key.KeyQ true (welcome (new_store [])) = Ok f.
Proof.
  destruct (console_prompt_invariant 9 800 1 77 Key.KeyQ true (welcome (new_store [])) []) as [Hp Hs].
  destruct Hs as (_ & _ & Ht). apply (Ht ">"%string); [|reflexivity|reflexivity].
  exists [{| is_user := false; text := "Welcome to Fomos !" |}]. reflexivity.
Defined.

Lemma console_reads_new_events_witness :
  ∃ i s', Input.handle_all Input.new [as_event (Key.KeyQ, true); as_event (Key.KeyQ, false)] = Ok i ∧
    handle_input 9 800 1 77 i 0 (MkStore (atoms (welcome (new_store []))) true En false false [] Shell []) = Ok (Some (s', 2)) ∧
    last_text s' ">q".
Proof.
  destruct (input_history_ring [as_event (Key.KeyQ, true); as_event (Key.KeyQ, false)]) as (i & E & R);
    [repeat constructor; by vm_compute|by vm_compute|].
  exists i. eexists. split; [exact E|].
  rewrite (console_reads_new_events 9 800 1 77 i [] [(Key.KeyQ, true); (Key.KeyQ, false)] _ R); [|by vm_compute..].
  split; [reflexivity|]. exists [{| is_user := false; text := "Welcome to Fomos !" |}]. reflexivity.
Defined.

(** ** Typing *)
Section typing.
Context `{Fomoscript}.

Definition with_line (t : string) (s : Store) : Store := set_text t (with_altg false (with_shift false s)).

(** The keys that type something are not the four with a meaning of their own. *)
Definition plain (k : Key.t) : bool :=
  negb (Key.eqb k Key.KeyLeftShift || Key.eqb k Key.KeyRightAlt || Key.eqb k Key.KeyEnter || Key.eqb k Key.KeyBackspace).

Lemma typing_keys_plain k l sh al c : Key.char k l sh al = Ok (Some c) → plain k = true.
Proof.
  intros E. pose (f := λ l k s a, match Key.char k l s a with Ok (Some _) => plain k | _ => true end).
  assert (f l k sh al = true) as Hf by (apply by_keys; by vm_compute). unfold f in Hf. by rewrite E in Hf.
Qed.

Lemma modifiers_type_nothing k l sh al :
  Key.eqb k Key.KeyLeftShift || Key.eqb k Key.KeyRightAlt = true → Key.char k l sh al = Ok None.
Proof.
  intros E. pose (f := λ l k s a, negb (Key.eqb k Key.KeyLeftShift || Key.eqb k Key.KeyRightAlt) ||
    bool_decide (Key.char k l s a = Ok None)).
  assert (f l k sh al = true) as Hf by (apply by_keys; by vm_compute). unfold f in Hf. rewrite E in Hf.
  by apply bool_decide_eq_true in Hf.
Qed.

Lemma set_text_same (s : Store) t : last_text s t → set_text t s = s.
Proof. intros [pre E]. unfold set_text. rewrite E, pop_snoc. destruct s. cbn in *. by subst. Qed.
Lemma set_text_twice (s : Store) t1 t2 t : last_text s t → set_text t2 (set_text t1 s) = set_text t2 s.
Proof. intros [pre E]. unfold set_text at 1 3. cbn. by rewrite E, !pop_snoc. Qed.

Lemma process_modifier fuel w pid start_time trigger (s : Store) t :
  last_text s t →
  process_key fuel w pid start_time Key.KeyLeftShift trigger s = Ok (Next (with_shift trigger s)) ∧
  process_key fuel w pid start_time Key.KeyRightAlt trigger s = Ok (Next (with_altg trigger s)).
Proof.
  intros Hl. unfold process_key. cbn [Key.eqb Z.eqb]. unfold Key.eqb; cbn. destruct trigger; [|done].
  split; (destruct (pop_atoms s t Hl) as [pre ->]); cbn;
    rewrite modifiers_type_nothing by done; cbn; by rewrite set_text_same.
Qed.

Lemma process_plain fuel w pid start_time k c (s : Store) t :
  last_text s t → Key.char k (local s) (shift s) (altg s) = Ok (Some c) →
  process_key fuel w pid start_time k true s = Ok (Next (set_text (t +:+ c) s)).
Proof.
  intros Hl Hc. pose proof (typing_keys_plain _ _ _ _ _ Hc) as Hk. unfold plain in Hk.
  rewrite !negb_orb, !andb_true_iff, !negb_true_iff in Hk. destruct Hk as [[[H1 H2] H3] H4].
  unfold process_key. rewrite H1, H2, H3, H4. destruct (pop_atoms s t Hl) as [pre ->]. cbn [andb].
  by rewrite Hc.
Qed.

Lemma process_events_app fuel w pid start_time e1 e2 s s1 :
  process_events fuel w pid start_time e1 s = Ok (Next s1) →
  process_events fuel w pid start_time (e1 ++ e2) s = process_events fuel w pid start_time e2 s1.
Proof.
  revert s; induction e1 as [|[k tr] e1 IH]; intros s; [by intros [= ->]|]. cbn. intros (f & E & E1)%bind_ok.
  rewrite E. cbn. destruct f; try done. by apply IH.
Qed.

Lemma type_one fuel w pid start_time c (s : Store) t :
  last_text s t → c ∈ alphabet (local s) →
  ∃ evs, process_events fuel w pid start_time evs s = Ok (Next (with_line (t +:+ c) s)).
Proof.
  intros Hl Hc. destruct (proj1 (elem_of_typable (local s) c)) as (k & sh & al & Hk).
  { by apply alphabet_typable. }
  exists [(Key.KeyLeftShift, sh); (Key.KeyRightAlt, al); (k, true); (Key.KeyLeftShift, false); (Key.KeyRightAlt, false)].
  set (s1 := with_shift sh s). set (s2 := with_altg al s1). set (s3 := set_text (t +:+ c) s2).
  set (s4 := with_shift false s3).
  assert (last_text s1 t) as L1 by exact Hl. assert (last_text s2 t) as L2 by exact Hl.
  assert (last_text s3 (t +:+ c)) as L3 by by eapply set_text_last.
  assert (last_text s4 (t +:+ c)) as L4 by exact L3.
  cbn [process_events]. rewrite (proj1 (process_modifier fuel w pid start_time sh s t Hl)). fold s1. cbn [mbind res_bind].
  rewrite (proj2 (process_modifier fuel w pid start_time al s1 t L1)). fold s2. cbn [mbind res_bind].
  rewrite (process_plain _ _ _ _ k c s2 t L2 Hk). fold s3. cbn [mbind res_bind].
  rewrite (proj1 (process_modifier fuel w pid start_time false s3 _ L3)). fold s4. cbn [mbind res_bind].
  by rewrite (proj2 (process_modifier fuel w pid start_time false s4 _ L4)).
Qed.
End typing.

(** C25: every line can be typed. At the event loop of an active console, from any
    line and with the modifiers released, and with any characters of the current
    layout, there are key events after which the line is the old one
    followed by those characters, the modifiers are released and nothing else of
    the console has changed. *)
Theorem console_types_any_line `{Fomoscript} fuel w pid start_time (cs : list string) (s : Store) t :
  last_text s t → Forall (λ c, c ∈ alphabet (local s)) cs →
  ∃ evs, process_events fuel w pid start_time evs (with_altg false (with_shift false s)) =
    Ok (Next (with_line (foldl String.append t cs) s)).
Proof.
  intros Hl Hcs. revert s t Hl Hcs; induction cs as [|c cs IH]; intros s t Hl Hcs.
  - exists []. cbn. unfold with_line. by rewrite set_text_same.
  - inversion_clear Hcs as [|? ? Hc Hr]. set (s0 := with_altg false (with_shift false s)).
    destruct (type_one fuel w pid start_time c s0 t) as [e1 E1]; [exact Hl|exact Hc|].
    destruct (IH (with_line (t +:+ c) s) (t +:+ c)%string) as [e2 E2]; [by eapply set_text_last|exact Hr|].
    exists (e1 ++ e2). rewrite (process_events_app _ _ _ _ _ _ _ _ E1). etrans; [exact E2|]. cbn [foldl].
    unfold with_line at 1 3. do 2 f_equal. by apply (set_text_twice s0 _ _ t).
Qed.

(** [lang fr], from the prompt. *)
Lemma console_types_any_line_witness :
  let s := MkStore (atoms (welcome (new_store []))) true En false false [] Shell [] in
  ∃ evs, process_events 9 800 1 77 evs s = Ok (Next (with_line ">lang fr" s)).
Proof.
  intros s. apply (console_types_any_line 9 800 1 77 (chars_of "lang fr") s ">").
  - exists [{| is_user := false; text := "Welcome to Fomos !" |}]. reflexivity.
  - apply (bool_decide_unpack _). vm_compute. exact I.
Defined.

(** Backspace breaks the script prompt. The shell's guard, one byte, also
    guards the four bytes of the script prompt: deleting one of them and then
    pressing Enter panics on the slice after the prompt. *)
Theorem repl_backspace_panics `{Fomoscript} fuel w pid start_time (s : Store) :
  last_text s "fos>" → mode s = FomoscriptREPL → shift s = false →
  process_events fuel w pid start_time [(Key.KeyBackspace, true); (Key.KeyBackspace, false); (Key.KeyEnter, true)] s =
    Panic PIndex.
Proof.
  intros Hl Hm Hsh. destruct (pop_atoms s _ Hl) as [pre Hp]. cbn [process_events].
  assert (process_key fuel w pid start_time Key.KeyBackspace true s = Ok (Next (set_text "fos" s))) as ->.
  { unfold process_key. cbn. rewrite Hp. destruct (altg s), (local s); by rewrite Hsh. }
  cbn [mbind res_bind]. assert (process_key fuel w pid start_time Key.KeyBackspace false (set_text "fos" s) =
    Ok (Next (set_text "fos" s))) as -> by done. cbn [mbind res_bind].
  assert (last_text (set_text "fos" s) "fos") as Hl' by by eapply set_text_last.
  destruct (pop_atoms _ _ Hl') as [pre' Hp'].
  assert (process_key fuel w pid start_time Key.KeyEnter true (set_text "fos" s) = Panic PIndex) as ->; [|done].
  unfold process_key. cbn [Key.eqb Key.as_usize Z.eqb Pos.eqb]. unfold Key.eqb. cbn [Key.as_usize Z.eqb Pos.eqb].
  rewrite Hp'. cbn [set_text shift]. rewrite Hsh. cbn [negb andb]. unfold enter. cbn [set_text mode]. by rewrite Hm.
Qed.

Lemma repl_backspace_panics_witness :
  process_events 9 800 1 77 [(Key.KeyBackspace, true); (Key.KeyBackspace, false); (Key.KeyEnter, true)]
    (MkStore [{| is_user := true; text := "fos>" |}] true En false false [] FomoscriptREPL []) = Panic PIndex.
Proof.
  apply (repl_backspace_panics 9 800 1 77); [|reflexivity|reflexivity]. exists []. reflexivity.
Defined.
