(* ===== verification/Window.v ===== *)
(** The console's window ([app_console/src/main.rs]): moving and resizing it with
    the mouse, and the pixels it then draws. *)
From S2P Require Import Prelude.

(** The window's fields of [Store]; [resizing] is an array of four. *)
Record Window := {
  x : Z; y : Z; x2 : Z; y2 : Z;
  resizing : list bool;
  moving : option (Z * Z);
  active : bool
}.

Definition as_isize (v : Z) : Z := swrap 64 v.
(** [(a as isize - b as isize).abs() < 10]; in a release build both wrap. *)
Definition near (a b : Z) : bool := swrap 64 (Z.abs (swrap 64 (as_isize a - as_isize b))) <? 10.
(** [(v as isize + d) as usize] *)
Definition shifted (v d : Z) : Z := wrap 64 (swrap 64 (as_isize v + d)).

Definition new_window (pid : Z) : Window := {|
  x := 100 +u[64] pid *u[64] 100; y := 100 +u[64] pid *u[64] 100;
  x2 := 1000 +u[64] pid *u[64] 100; y2 := 700 +u[64] pid *u[64] 100;
  resizing := replicate 4 false; moving := None; active := false |}.

Definition with_resizing (l : list bool) (s : Window) : Window := {|
  x := x s; y := y s; x2 := x2 s; y2 := y2 s; resizing := l; moving := moving s; active := active s |}.
Definition with_moving (m : option (Z * Z)) (s : Window) : Window := {|
  x := x s; y := y s; x2 := x2 s; y2 := y2 s; resizing := resizing s; moving := m; active := active s |}.
Definition with_active (v : bool) (s : Window) : Window := {|
  x := x s; y := y s; x2 := x2 s; y2 := y2 s; resizing := resizing s; moving := moving s; active := v |}.
Definition with_corners (nx ny nx2 ny2 : Z) (s : Window) : Window := {|
  x := nx; y := ny; x2 := nx2; y2 := ny2; resizing := resizing s; moving := moving s; active := active s |}.

Definition set_edge (i : nat) (c : bool) (l : list bool) : list bool := if c then <[i := true]> l else l.

(** [keys[272] < 128]: the button is up. *)
Definition release (key : Z) (s : Window) : Window :=
  if key <? 128 then with_moving None (with_resizing (replicate 4 false) s) else s.

(** [keys[272] == 128]: it has just gone down. *)
Definition press (key mx my : Z) (s : Window) : Window :=
  if key =? 128 then
    let across := (x s <=? mx) && (mx <=? x2 s) in
    let l := set_edge 3 (near (x s) mx) (resizing s) in
    let l := set_edge 1 (near (x2 s) mx) l in
    let l := set_edge 0 (near (y s) my && across) l in
    let l := set_edge 2 (near (y2 s) my && across) l in
    let s := with_resizing l s in
    if negb (existsb id l) then
      if (x s <=? mx) && (mx <=? x2 s) && (y s <=? my) && (my <=? y2 s)
      then with_active true (with_moving (Some (mx, my)) s)
      else with_active false s
    else s
  else s.

Definition move (mx my : Z) (s : Window) : Window :=
  match moving s with
  | Some (x0, y0) =>
      let dx := swrap 64 (as_isize mx - as_isize x0) in
      let dy := swrap 64 (as_isize my - as_isize y0) in
      with_moving (Some (mx, my))
        (with_corners (shifted (x s) dx) (shifted (y s) dy) (shifted (x2 s) dx) (shifted (y2 s) dy) s)
  | None => s
  end.

(** One entry of [resizing]: which side follows the mouse. *)
Definition resize_one (mx my : Z) (s : Window) (e : nat * bool) : Window :=
  if e.2 then
    match e.1 with
    | 0%nat => with_corners (x s) my (x2 s) (y2 s) s
    | 1%nat => with_corners (x s) (y s) mx (y2 s) s
    | 2%nat => with_corners (x s) (y s) (x2 s) my s
    | 3%nat => with_corners mx (y s) (x2 s) (y2 s) s
    | _ => s
    end
  else s.
Definition resize (mx my : Z) (s : Window) : Window :=
  fold_left (resize_one mx my) (imap pair (resizing s)) s.

(** The comparisons with zero are of unsigned integers. *)
Definition clamp (w h : Z) (s : Window) : Window :=
  with_corners (if (x s <? 0) || (10000 <? x s) then 0 else x s) (if (y s <? 0) || (10000 <? y s) then 0 else y s)
    (if w <=? x2 s then w -u[64] 1 else x2 s) (if h <=? y2 s then h -u[64] 1 else y2 s) s.

(** The window part of a frame: [key] is the state of the left button, [w] and
    [h] the size of the framebuffer. *)
Definition window_step (key mx my w h : Z) (s : Window) : Window :=
  clamp w h (resize mx my (move mx my (press key mx my (release key s)))).

(** ** The drawing loops *)
Definition DIV : Z := 4.
(** The pixels of [for y in y..=y2 { for x in x..=x2 { .. } }]. *)
Definition drawn (s : Window) : list (Z * Z) :=
  range (y s) (y2 s + 1) ≫= λ py, (λ px, (px, py)) <$> range (x s) (x2 s + 1).
(** [ctx.fb.pixels[x + y * ctx.fb.w]] *)
Definition pixel_index (w : Z) (p : Z * Z) : Z := p.1 +u[64] (p.2 *u[64] w).
(** [dst[x / div + (y / div) * (ctx.fb.w / div)]] *)
Definition dst_index (w : Z) (p : Z * Z) : Z := (p.1 / DIV) +u[64] ((p.2 / DIV) *u[64] (w / DIV)).
(** The length of the two blur buffers, [wi * hi]. *)
Definition dst_len (w h : Z) : Z := (w / DIV) * (h / DIV).

(** ** Properties *)
Definition in_range (s : Window) : Prop := fits 64 (x s) ∧ fits 64 (y s) ∧ fits 64 (x2 s) ∧ fits 64 (y2 s).

Lemma move_corners mx my s : in_range s → in_range (move mx my s).
Proof.
  intros Hr. unfold move. destruct (moving s) as [[x0 y0]|]; [|done].
  repeat split; unfold shifted; cbn; apply wrap_fits; lia.
Qed.

Lemma resize_range mx my s : fits 64 mx → fits 64 my → in_range s → in_range (resize mx my s).
Proof.
  intros Hx Hy. unfold resize. generalize (imap pair (resizing s)). intros l. revert s; induction l as [|[i b] l IH]; intros s Hr; [done|].
  cbn. apply IH. unfold resize_one. cbn. destruct b; [|done]. destruct Hr as (? & ? & ? & ?).
  destruct i as [|[|[|[|]]]]; repeat split; cbn; first [apply Hx|apply Hy|unfold fits in *; lia].
Qed.

Lemma press_range key mx my s : in_range s → in_range (press key mx my s).
Proof. intros Hr. unfold press. repeat case_match; exact Hr. Qed.

Lemma release_range key s : in_range s → in_range (release key s).
Proof. intros Hr. unfold release. case_match; exact Hr. Qed.

Lemma clamp_range w h s :
  in_range s → 0 < w ≤ 2 ^ 31 → 0 < h ≤ 2 ^ 31 →
  0 ≤ x (clamp w h s) ≤ 10000 ∧ 0 ≤ y (clamp w h s) ≤ 10000 ∧ 0 ≤ x2 (clamp w h s) < w ∧ 0 ≤ y2 (clamp w h s) < h.
Proof.
  intros (H1 & H2 & H3 & H4) Hw Hh. unfold clamp. cbn [x y x2 y2 with_corners].
  rewrite !wrap_small by (unfold fits; lia). unfold fits in *. repeat case_match; lia.
Qed.

(** The window of any frame, before the last clamping. *)
Lemma move_moved_range key mx my s :
  in_range s → fits 64 mx → fits 64 my → in_range (resize mx my (move mx my (press key mx my (release key s)))).
Proof. intros. apply resize_range, move_corners, press_range, release_range; done. Qed.

Lemma window_step_range key mx my w h s :
  in_range s → fits 64 mx → fits 64 my → 0 < w ≤ 2 ^ 31 → 0 < h ≤ 2 ^ 31 →
  let s' := window_step key mx my w h s in
  0 ≤ x s' ≤ 10000 ∧ 0 ≤ y s' ≤ 10000 ∧ 0 ≤ x2 s' < w ∧ 0 ≤ y2 s' < h.
Proof. intros Hr Hx Hy Hw Hh. apply clamp_range; [by apply move_moved_range|done|done]. Qed.

(** [resizing] stays an array of four. *)
Lemma window_step_sides key mx my w h s :
  length (resizing s) = 4%nat → length (resizing (window_step key mx my w h s)) = 4%nat.
Proof.
  intros Hl. unfold window_step. cbn [clamp with_corners resizing].
  assert (H1 : length (resizing (release key s)) = 4%nat) by (unfold release; case_match; done).
  assert (H2 : length (resizing (press key mx my (release key s))) = 4%nat).
  { unfold press, set_edge. repeat (case_match; cbn [resizing with_resizing with_active with_moving]; rewrite ?length_insert); done. }
  set (s2 := press _ _ _ _) in *. clearbody s2.
  assert (H3 : length (resizing (move mx my s2)) = 4%nat) by (unfold move; destruct (moving s2) as [[? ?]|]; done).
  set (s3 := move _ _ _) in *. clearbody s3. unfold resize. generalize (imap pair (resizing s3)). intros l.
  revert s3 H3; induction l as [|[i e] l IH]; intros s3 H3; [done|]. cbn [fold_left]. apply IH.
  unfold resize_one. cbn [fst snd]. destruct e; [|done]. by destruct i as [|[|[|[|]]]].
Qed.

Lemma elem_of_drawn s p : p ∈ drawn s ↔ x s ≤ p.1 ≤ x2 s ∧ y s ≤ p.2 ≤ y2 s.
Proof.
  unfold drawn. destruct p as [px py]. rewrite list_elem_of_bind. cbn [fst snd]. split.
  - intros (py' & (px' & [= -> ->] & Hx)%list_elem_of_fmap & Hy). rewrite elem_of_range in Hx, Hy. lia.
  - intros [Hx Hy]. exists py. rewrite elem_of_range. split; [|lia]. apply list_elem_of_fmap. exists px.
    rewrite elem_of_range. split; [done|lia].
Qed.

Lemma grid_index a b n k : 0 ≤ a < n → 0 ≤ b < k → 0 ≤ a + b * n < n * k.
Proof. intros Ha Hb. nia. Qed.

Lemma small_product a b : 0 ≤ a ≤ 2 ^ 31 → 0 ≤ b ≤ 2 ^ 31 → 0 ≤ a * b ≤ 2 ^ 62.
Proof.
  intros Ha Hb. change (2 ^ 62) with (2 ^ 31 * 2 ^ 31).
  split; [apply Z.mul_nonneg_nonneg; lia|apply Z.mul_le_mono_nonneg; lia].
Qed.

(** The window stays on the screen. Whatever the mouse does, on a screen of
    at most 2^31 by 2^31 pixels the window ends in it, and every pixel it draws is
    in the framebuffer. The blurred background it shows through is as large only
    when the screen's height is a multiple of 4: then every access to it is in
    range, and otherwise a pixel drawn on the last row panics. *)
Theorem window_stays_on_screen key mx my w h s :
  in_range s → fits 64 mx → fits 64 my → 0 < w ≤ 2 ^ 31 → 0 < h ≤ 2 ^ 31 → (4 | w) →
  let s' := window_step key mx my w h s in
  0 ≤ x s' ≤ 10000 ∧ 0 ≤ y s' ≤ 10000 ∧ 0 ≤ x2 s' < w ∧ 0 ≤ y2 s' < h ∧
  ∀ p, p ∈ drawn s' →
    0 ≤ pixel_index w p < w * h ∧
    ((4 | h) → 0 ≤ dst_index w p < dst_len w h) ∧
    (¬ (4 | h) → p.2 = h - 1 → dst_len w h ≤ dst_index w p).
Proof.
  intros Hr Hmx Hmy Hw Hh Hdw s'.
  destruct (window_step_range key mx my w h s Hr Hmx Hmy Hw Hh) as (C1 & C2 & C3 & C4). fold s' in C1, C2, C3, C4.
  do 4 (split; [done|]). intros p Hp%elem_of_drawn. destruct p as [px py]. cbn [fst snd] in Hp.
  destruct Hdw as [k ->]. unfold pixel_index, dst_index, dst_len, DIV. cbn [fst snd].
  pose proof (grid_index px py (k * 4) h ltac:(lia) ltac:(lia)) as G1.
  pose proof (Z.mul_le_mono_nonneg (k * 4) (2 ^ 31) h (2 ^ 31) ltac:(lia) ltac:(lia) ltac:(lia) ltac:(lia)).
  pose proof (small_product py (k * 4) ltac:(lia) ltac:(lia)).
  rewrite Z.div_mul by lia. assert (0 ≤ px / 4 < k) by lia.
  assert (0 ≤ py / 4 < 2 ^ 31) by lia. pose proof (small_product (py / 4) k ltac:(lia) ltac:(lia)).
  rewrite (wrap_small 64 (py * _)), (wrap_small 64 (py / 4 * _)) by (unfold fits; lia).
  rewrite !wrap_small by (unfold fits; lia).
  split_and!; [lia|lia|..].
  - intros [j ->]. rewrite Z.div_mul by lia. apply (grid_index (px / 4) (py / 4) k j); lia.
  - intros Hnd Hlast. assert (py / 4 = h / 4) as ->; [|nia].
    assert (h mod 4 ≠ 0) by (intros Hm; apply Hnd; exists (h / 4); lia). lia.
Qed.

Lemma window_stays_on_screen_witness :
  let s' := window_step 128 150 130 1600 900 (new_window 0) in
  moving s' = Some (150, 130) ∧ ∀ p, p ∈ drawn s' → 0 ≤ dst_index 1600 p < dst_len 1600 900.
Proof.
  intros s'. split; [reflexivity|]. intros p Hp.
  destruct (window_stays_on_screen 128 150 130 1600 900 (new_window 0)) as (_ & _ & _ & _ & Hd);
    [repeat split; by vm_compute|by split; vm_compute|by split; vm_compute|lia|lia|by exists 400|].
  destruct (Hd p Hp) as (_ & Hin & _). apply Hin. by exists 225.
Defined.
