(* ===== verification/Framebuffer.v ===== *)
(** The framebuffer ([bootloader/kernel/src/framebuffer.rs]): the character
    writer of the boot screen and the pixel buffer shared with the applications. *)
From S2P Require Import Prelude.

Inductive PixelFormat := Rgb | Bgr | U8 | OtherFormat.
Record FrameBufferInfo := {
  width : Z; height : Z; stride : Z; bytes_per_pixel : Z; pixel_format : PixelFormat
}.

Definition LINE_SPACING : Z := 2.
Definition LETTER_SPACING : Z := 0.
Definition BORDER_PADDING : Z := 1.
(** [RasterHeight::Size16.val()] *)
Definition CHAR_RASTER_HEIGHT : Z := 16.

(** A glyph of the [noto_sans_mono_bitmap] crate: rows of intensities. *)
Record RasterizedChar := { raster : list (list Z); raster_width : Z }.

Record FrameBufferWriter := Writer {
  framebuffer : list Z; info : FrameBufferInfo; x_pos : Z; y_pos : Z; level : Z
}.

Module FrameBufferWriterImpl.
Section writer.
(** The font: the width of every glyph, and the glyph of a character; and the
    replacement character. *)
Context (CHAR_RASTER_WIDTH : Z) (get_raster : Z → option RasterizedChar).
Definition BACKUP_CHAR : Z := 0xFFFD.

Definition get_char_raster (c : Z) : res RasterizedChar :=
  match get_raster c with
  | Some r => mret r
  | None => unwrap (get_raster BACKUP_CHAR)
  end.

Definition carriage_return : M FrameBufferWriter unit := modify (λ s,
  Writer (framebuffer s) (info s) BORDER_PADDING (y_pos s) (level s)).

Definition newline : M FrameBufferWriter unit :=
  modify (λ s, Writer (framebuffer s) (info s) (x_pos s)
    (y_pos s +u[64] (CHAR_RASTER_HEIGHT +u[64] LINE_SPACING)) (level s)) ;;
  carriage_return.

Definition clear : M FrameBufferWriter unit := modify (λ s,
  Writer (replicate (length (framebuffer s)) 0) (info s) BORDER_PADDING BORDER_PADDING (level s)).

Definition new (fb : list Z) (i : FrameBufferInfo) : res FrameBufferWriter :=
  '(_, s) ← clear (Writer fb i 0 0 0); mret s.

(** The bytes of a pixel; an unsupported format panics. *)
Definition color (i : FrameBufferInfo) (lvl intensity : Z) : res (list Z) :=
  let r := intensity in
  g ← index [intensity; 0] lvl;
  b ← index [intensity / 2; 0] lvl;
  match pixel_format i with
  | Rgb => mret [r; g; b; 0]
  | Bgr => mret [b; g; r; 0]
  | U8 => mret [(if 200 <? intensity then 0xf else 0); 0; 0; 0]
  | OtherFormat => Panic (PExplicit "pixel format not supported in logger")
  end.

(** [framebuffer[byte_offset..byte_offset + bpp].copy_from_slice(&color[..bpp])],
    and the volatile read of the first byte. *)
Definition write_pixel (x y intensity : Z) : M FrameBufferWriter unit := λ s,
  let i := info s in
  let pixel_offset := (y *u[64] stride i) +u[64] x in
  color ← color i (level s) intensity;
  let bpp := bytes_per_pixel i in
  let byte_offset := pixel_offset *u[64] bpp in
  let stop := byte_offset +u[64] bpp in
  if (byte_offset <=? stop) && (stop <=? len (framebuffer s)) then
    if bpp <=? len color then
      let fb := take (Z.to_nat byte_offset) (framebuffer s) ++ take (Z.to_nat bpp) color ++
                drop (Z.to_nat stop) (framebuffer s) in
      _ ← index fb byte_offset;
      mret (tt, Writer fb i (x_pos s) (y_pos s) (level s))
    else Panic PIndex
  else Panic PIndex.

Definition write_rendered_char (rc : RasterizedChar) : M FrameBufferWriter unit :=
  for_each (imap pair (raster rc)) (λ '(y, row),
    for_each (imap pair row) (λ '(x, byte),
      s ← get;
      write_pixel (x_pos s +u[64] Z.of_nat x) (y_pos s +u[64] Z.of_nat y) byte)) ;;
  modify (λ s, Writer (framebuffer s) (info s) (x_pos s +u[64] (raster_width rc +u[64] LETTER_SPACING)) (y_pos s) (level s)).

Definition write_char (c : Z) : M FrameBufferWriter unit :=
  if c =? 10 then newline
  else if c =? 13 then carriage_return
  else
    s ← get;
    let new_xpos := x_pos s +u[64] CHAR_RASTER_WIDTH in
    (if width (info s) <=? new_xpos then newline else mret tt) ;;
    s ← get;
    let new_ypos := y_pos s +u[64] (CHAR_RASTER_HEIGHT +u[64] BORDER_PADDING) in
    (if height (info s) <=? new_ypos then clear else mret tt) ;;
    rc ← lift (get_char_raster c);
    write_rendered_char rc.

(** The loop over the characters is commented out: nothing is drawn. *)
Definition write_str (s : list Z) : M FrameBufferWriter unit := mret tt.
(** What the commented-out loop did. *)
Definition write_chars (s : list Z) : M FrameBufferWriter unit := for_each s write_char.
End writer.
End FrameBufferWriterImpl.

(** ** The shared pixel buffer *)
Record RGBA := Pixel { r : Z; g : Z; b : Z; a : Z }.
Record FB := { pixels : list RGBA; backbuffer : list RGBA; w : Z; h : Z }.

Module FBImpl.
Definition push_pixel (x y : Z) (p : list RGBA * list RGBA) : res (list RGBA * list RGBA) :=
  let pixels := p.1 ++ [Pixel (wrap 8 x) (wrap 8 y) 0 0] in
  last ← index pixels (len pixels -u[64] 1);
  mret (pixels, p.2 ++ [last]).

Definition new (i : FrameBufferInfo) : res FB :=
  let w := width i in
  let h := height i in
  '(pixels, backbuffer) ← foldM (λ p y, foldM (λ p x, push_pixel x y p) p (range 0 w)) ([], []) (range 0 h);
  mret {| pixels := pixels; backbuffer := backbuffer; w := w; h := h |}.

(** The vector is rebuilt around memory mapped elsewhere, whose content is
    [memory]. *)
Definition update (memory : list RGBA) (w h : Z) (fb : FB) : FB :=
  {| pixels := take (Z.to_nat (h *u[64] w)) memory; backbuffer := backbuffer fb; w := w; h := h |}.

(** [FBShare] *)
Definition share (fb : FB) : list RGBA * Z * Z := (pixels fb, w fb, h fb).

(** The bytes of the pixels, as many as the destination has. *)
Definition flush (fb : FB) (framebuffer : list Z) : list Z :=
  take (length framebuffer) (pixels fb ≫= λ p, [r p; g p; b p; a p]).
End FBImpl.

(** ** The writer stays in the framebuffer *)
Definition info_ok (W : Z) (i : FrameBufferInfo) (n : Z) : Prop :=
  0 < bytes_per_pixel i ≤ 4 ∧ pixel_format i ≠ OtherFormat ∧ width i ≤ stride i ∧
  W + BORDER_PADDING ≤ width i ∧ CHAR_RASTER_HEIGHT + BORDER_PADDING ≤ height i ∧
  stride i * height i * bytes_per_pixel i ≤ n ∧ n < 2 ^ 63.
Definition glyph_ok (W : Z) (rc : RasterizedChar) : Prop :=
  len (raster rc) ≤ CHAR_RASTER_HEIGHT ∧ Forall (λ row, len row ≤ W) (raster rc) ∧ raster_width rc = W.

(** The state between two characters, [Y] bounding how far down the cursor is. *)
Record writer_ok (i : FrameBufferInfo) (n Y : Z) (s : FrameBufferWriter) : Prop := {
  wo_info : info s = i;
  wo_len : len (framebuffer s) = n;
  wo_level : 0 ≤ level s < 2;
  wo_x : 0 ≤ x_pos s ≤ width i;
  wo_y : 0 ≤ y_pos s ≤ Y
}.

Section bounds.
Context (W : Z) (get_raster : Z → option RasterizedChar) (i : FrameBufferInfo) (n : Z).
Context (HW : 0 < W) (Hi : info_ok W i n).
Context (Hglyph : ∀ c rc, get_raster c = Some rc → glyph_ok W rc)
        (Hbackup : is_Some (get_raster FrameBufferWriterImpl.BACKUP_CHAR)).

Lemma color_ok lvl v : 0 ≤ lvl < 2 → ∃ l, FrameBufferWriterImpl.color i lvl v = Ok l ∧ len l = 4.
Proof.
  intros Hl. destruct Hi as (_ & Hf & _). unfold FrameBufferWriterImpl.color.
  assert (lvl = 0 ∨ lvl = 1) as [-> | ->] by lia; cbn; destruct (pixel_format i); try done; by eexists.
Qed.

Lemma info_small : stride i < 2 ^ 63 ∧ height i < 2 ^ 63.
Proof.
  destruct Hi as (Hb & _ & Hs & HWd & Hh & Hn & Hn63). unfold CHAR_RASTER_HEIGHT, BORDER_PADDING in *.
  assert (stride i * height i * 1 ≤ stride i * height i * bytes_per_pixel i) by (apply Z.mul_le_mono_nonneg_l; nia).
  nia.
Qed.

(** The numbers of a pixel of the screen. *)
Lemma pixel_offset_bound px py bpp :
  0 ≤ px < stride i → 0 ≤ py < height i → bpp = bytes_per_pixel i →
  0 ≤ py * stride i ∧ py * stride i + px < 2 ^ 63 ∧ 0 ≤ (py * stride i + px) * bpp ∧ (py * stride i + px) * bpp + bpp ≤ n.
Proof.
  intros Hx Hy ->. destruct Hi as (Hb & _ & _ & _ & _ & Hn & Hn63).
  set (s := stride i) in *. set (h := height i) in *. set (k := bytes_per_pixel i) in *.
  assert (py * s + px + 1 ≤ s * h) as H1 by nia.
  assert ((py * s + px + 1) * k ≤ s * h * k) as H2 by (apply Z.mul_le_mono_nonneg_r; lia).
  assert (0 ≤ py * s) by (apply Z.mul_nonneg_nonneg; lia).
  assert (s * h * 1 ≤ s * h * k) as H3 by (apply Z.mul_le_mono_nonneg_l; lia). nia.
Qed.

Lemma write_pixel_ok Y s px py v :
  writer_ok i n Y s → 0 ≤ px < stride i → 0 ≤ py < height i →
  ∃ s', FrameBufferWriterImpl.write_pixel px py v s = Ok (tt, s') ∧ writer_ok i n Y s' ∧
    x_pos s' = x_pos s ∧ y_pos s' = y_pos s.
Proof.
  intros [H1 H2 H3 H4 H5] Hx Hy. pose proof (pixel_offset_bound px py _ Hx Hy eq_refl) as (P0 & P1 & P2 & P3).
  destruct Hi as (Hb & _ & _ & _ & _ & _ & Hn63).
  unfold FrameBufferWriterImpl.write_pixel. rewrite H1. destruct (color_ok (level s) v H3) as (l & -> & Hl).
  cbn [mbind res_bind]. rewrite (wrap_small 64 (py * stride i)) by (unfold fits; lia).
  rewrite (wrap_small 64 (_ + px)) by (unfold fits; lia). rewrite (wrap_small 64 (_ * _)) by (unfold fits; lia).
  rewrite (wrap_small 64) by (unfold fits; lia). set (o := (py * stride i + px) * bytes_per_pixel i) in *.
  assert ((o <=? o + bytes_per_pixel i) && (o + bytes_per_pixel i <=? len (framebuffer s)) = true) as -> by lia.
  assert ((bytes_per_pixel i <=? len l) = true) as -> by lia.
  set (fb := _ ++ _). assert (len fb = n) as Hfb.
  { unfold fb, len in *. rewrite !length_app, !length_take, length_drop. lia. }
  destruct (index_in fb o) as (v0 & -> & _); [lia|]. cbn. eexists. split; [reflexivity|]. by split_and!.
Qed.

Lemma imap_pair_lookup {A} (l : list A) k p : imap pair l !! k = Some p → p.1 = k ∧ l !! k = Some p.2.
Proof. rewrite list_lookup_imap. by intros (a0 & Ha & ->)%fmap_Some. Qed.

Lemma write_rendered_char_ok Y s rc :
  writer_ok i n Y s → glyph_ok W rc → x_pos s + W ≤ width i → y_pos s + CHAR_RASTER_HEIGHT ≤ height i →
  ∃ s', FrameBufferWriterImpl.write_rendered_char rc s = Ok (tt, s') ∧ writer_ok i n Y s'.
Proof.
  intros Hok (Hrows & Hrow & Hwd) Hx Hy. destruct Hi as (Hb & Hf & Hs & HWd & Hh & Hn & Hn63).
  unfold FrameBufferWriterImpl.write_rendered_char.
  set (P := λ (_ : nat) s', writer_ok i n Y s' ∧ x_pos s' = x_pos s ∧ y_pos s' = y_pos s).
  destruct (for_each_inv P (imap pair (raster rc)) (λ '(y, row),
    for_each (imap pair row) (λ '(x, byte),
      s ← get; FrameBufferWriterImpl.write_pixel (x_pos s +u[64] Z.of_nat x) (y_pos s +u[64] Z.of_nat y) byte)) s)
    as (s1 & E1 & Hok1 & Ex & Ey); [by split_and!|..].
  - intros y [y' row] s1 [Hy' Hr]%imap_pair_lookup HP. cbn in Hy', Hr. subst y'.
    rewrite Forall_lookup in Hrow. specialize (Hrow _ _ Hr). apply lookup_lt_Some in Hr.
    destruct (for_each_inv P (imap pair row) (λ '(x, byte),
      s ← get; FrameBufferWriterImpl.write_pixel (x_pos s +u[64] Z.of_nat x) (y_pos s +u[64] Z.of_nat y) byte) s1 HP)
      as (s2 & E2 & HP2); [|by exists s2].
    intros x [x' v] s2 [Hx' Hv]%imap_pair_lookup (Ho & Ex & Ey). cbn in Hx', Hv. subst x'. apply lookup_lt_Some in Hv.
    unfold mbind, M_bind, get. pose proof (wo_x _ _ _ _ Ho). pose proof (wo_y _ _ _ _ Ho).
    destruct info_small as [Hs63 Hh63]. unfold len, CHAR_RASTER_HEIGHT, BORDER_PADDING in *.
    rewrite !wrap_small by (unfold fits; lia).
    destruct (write_pixel_ok Y s2 (x_pos s2 + Z.of_nat x) (y_pos s2 + Z.of_nat y) v Ho) as (s3 & E3 & Ho3 & Ex3 & Ey3); [lia|lia|].
    exists s3. split; [exact E3|]. split; [done|]. by rewrite Ex3, Ey3.
  - rewrite (M_bind_run _ _ _ _ _ E1). eexists. split; [reflexivity|]. destruct Hok1 as [G1 G2 G3 G4 G5].
    split; cbn; [done..| |done]. rewrite Hwd. unfold LETTER_SPACING. rewrite Z.add_0_r, wrap_add_r.
    destruct info_small as [Hs63 _].
    rewrite wrap_small by (unfold fits; lia). lia.
Qed.

Lemma newline_run s : 0 ≤ y_pos s < 2 ^ 63 →
  FrameBufferWriterImpl.newline s = Ok (tt, Writer (framebuffer s) (info s) 1 (y_pos s + 18) (level s)).
Proof.
  intros Hy. unfold FrameBufferWriterImpl.newline. change (CHAR_RASTER_HEIGHT +u[64] LINE_SPACING) with 18.
  unfold mbind, M_bind, modify, FrameBufferWriterImpl.carriage_return. cbn [y_pos framebuffer info level].
  rewrite wrap_small by (unfold fits; lia). done.
Qed.

Lemma get_char_raster_ok c : ∃ rc, FrameBufferWriterImpl.get_char_raster get_raster c = Ok rc ∧ glyph_ok W rc.
Proof.
  unfold FrameBufferWriterImpl.get_char_raster. destruct (get_raster c) as [rc|] eqn:E; [by eauto|].
  destruct Hbackup as [rc Hrc]. rewrite Hrc. eauto.
Qed.

Lemma write_char_ok Y s c :
  writer_ok i n Y s → height i ≤ Y → Y + 64 < 2 ^ 63 →
  ∃ s', FrameBufferWriterImpl.write_char W get_raster c s = Ok (tt, s') ∧ writer_ok i n (Y + 18) s'.
Proof.
  intros [H1 H2 H3 H4 H5] HY HY63. destruct Hi as (Hb & Hf & Hs & HWd & Hh & Hn & Hn63). destruct info_small as [Hs63 Hh63].
  unfold CHAR_RASTER_HEIGHT, BORDER_PADDING in *. unfold FrameBufferWriterImpl.write_char.
  destruct (c =? 10); [rewrite newline_run by lia; eexists; split; [done|]; split; cbn; (done || lia)|].
  destruct (c =? 13); [eexists; split; [reflexivity|]; split; cbn; unfold BORDER_PADDING; (done || lia)|].
  set (s1 := if width i <=? x_pos s + W then Writer (framebuffer s) (info s) 1 (y_pos s + 18) (level s) else s).
  assert ((if width (info s) <=? x_pos s +u[64] W then FrameBufferWriterImpl.newline else mret tt) s = Ok (tt, s1)) as E1.
  { rewrite H1, wrap_small by (unfold fits; lia). unfold s1. destruct (width i <=? x_pos s + W); [|done]. apply newline_run. lia. }
  assert (writer_ok i n (Y + 18) s1 ∧ x_pos s1 + W ≤ width i) as [[G1 G2 G3 G4 G5] Hx1].
  { unfold s1. destruct (Z.leb_spec (width i) (x_pos s + W)); split; [split; cbn; (done || lia)|cbn [x_pos]; lia|split; (done || lia)|lia]. }
  set (s2 := if height i <=? y_pos s1 + 17 then Writer (replicate (length (framebuffer s1)) 0) (info s1) 1 1 (level s1) else s1).
  assert ((if height (info s1) <=? y_pos s1 +u[64] (CHAR_RASTER_HEIGHT +u[64] BORDER_PADDING)
      then FrameBufferWriterImpl.clear else mret tt) s1 = Ok (tt, s2)) as E2.
  { change (CHAR_RASTER_HEIGHT +u[64] BORDER_PADDING) with 17. rewrite G1, wrap_small by (unfold fits; lia). unfold s2. by destruct (height i <=? y_pos s1 + 17). }
  assert (writer_ok i n (Y + 18) s2 ∧ x_pos s2 + W ≤ width i ∧ y_pos s2 + 16 ≤ height i) as (Hok2 & Hx2 & Hy2).
  { unfold s2. destruct (Z.leb_spec (height i) (y_pos s1 + 17)); [|split_and!; [by split|lia|lia]]. split_and!; [|cbn [x_pos]; lia|cbn [y_pos]; lia].
    split; cbn; [done| |done|lia|lia]. unfold len. by rewrite length_replicate. }
  unfold mbind at 1, M_bind at 1, get at 1. rewrite (M_bind_run _ _ _ _ _ E1).
  unfold mbind at 1, M_bind at 1, get at 1. rewrite (M_bind_run _ _ _ _ _ E2).
  destruct (get_char_raster_ok c) as (rc & Erc & Hrc). unfold mbind at 1, M_bind at 1, lift. rewrite Erc.
  by apply write_rendered_char_ok.
Qed.

Lemma write_chars_ok text s Y :
  writer_ok i n Y s → height i ≤ Y → Y + 18 * len text + 64 < 2 ^ 63 →
  ∃ s', FrameBufferWriterImpl.write_chars W get_raster text s = Ok (tt, s') ∧ writer_ok i n (Y + 18 * len text) s'.
Proof.
  intros Hok HY Hb. unfold FrameBufferWriterImpl.write_chars.
  destruct (for_each_inv (λ k s, writer_ok i n (Y + 18 * Z.of_nat k) s) text (FrameBufferWriterImpl.write_char W get_raster) s)
    as (s' & E & Ho); [by rewrite Z.add_0_r| |by exists s'].
  intros k c s1 Hc Hs1. apply lookup_lt_Some in Hc. unfold len in Hb.
  destruct (write_char_ok _ s1 c Hs1) as (s2 & E2 & Ho2); [lia|lia|]. exists s2. split; [done|].
  by replace (Y + 18 * Z.of_nat (S k)) with (Y + 18 * Z.of_nat k + 18) by lia.
Qed.
End bounds.

(** The buffer starts with a pixel for each of the screen, in both halves. *)
Definition pixels_made (n : Z) (p : list RGBA * list RGBA) : Prop := len p.1 = n ∧ len p.2 = n.

Lemma push_pixel_run x y n p :
  pixels_made n p → n + 1 < 2 ^ 64 → ∃ p', FBImpl.push_pixel x y p = Ok p' ∧ pixels_made (n + 1) p'.
Proof.
  intros [H1 H2] Hn. unfold FBImpl.push_pixel. pose proof (len_nonneg p.1). set (px := Pixel _ _ _ _).
  assert (len (p.1 ++ [px]) = n + 1) as Hl by (rewrite len_app, len_cons, len_nil; lia).
  rewrite Hl, wrap_small by (unfold fits; lia). replace (n + 1 - 1) with (len p.1) by lia. rewrite index_snoc.
  eexists. split; [reflexivity|]. split; [done|]. cbn [snd]. rewrite len_app, len_cons, len_nil. lia.
Qed.

Lemma push_row_run y n w p :
  0 ≤ w → pixels_made n p → n + w < 2 ^ 64 →
  ∃ p', foldM (λ p x, FBImpl.push_pixel x y p) p (range 0 w) = Ok p' ∧ pixels_made (n + w) p'.
Proof.
  intros Hw Hp Hn. destruct (foldM_inv (λ i p, pixels_made (n + Z.of_nat i) p) (λ p x, FBImpl.push_pixel x y p) (range 0 w) p)
    as (p' & E & Hp'); [by rewrite Z.add_0_r| |].
  - intros i x q Hi%lookup_lt_Some Hq. pose proof (len_range 0 w Hw) as Hl. unfold len in Hl.
    destruct (push_pixel_run x y _ _ Hq) as (q' & E & Hq'); [lia|]. exists q'. split; [done|].
    by replace (n + Z.of_nat (S i)) with (n + Z.of_nat i + 1) by lia.
  - exists p'. split; [done|]. pose proof (len_range 0 w Hw) as Hl. unfold len in Hl. by replace w with (Z.of_nat (length (range 0 w))) by lia.
Qed.

Lemma fb_new_run i :
  0 ≤ width i → 0 ≤ height i → width i * height i < 2 ^ 64 →
  ∃ fb, FBImpl.new i = Ok fb ∧ w fb = width i ∧ h fb = height i ∧ len (pixels fb) = width i * height i ∧
    len (backbuffer fb) = width i * height i.
Proof.
  intros Hw Hh Hb. unfold FBImpl.new. pose proof (len_range 0 (height i) Hh) as Hl. unfold len in Hl.
  destruct (foldM_inv (λ n p, pixels_made (width i * Z.of_nat n) p)
    (λ p y, foldM (λ p x, FBImpl.push_pixel x y p) p (range 0 (width i))) (range 0 (height i)) ([], []))
    as ([px bb] & E & H1 & H2); [by rewrite Z.mul_0_r| |].
  - intros n y q Hn%lookup_lt_Some Hq.
    destruct (push_row_run y _ (width i) q Hw Hq) as (q' & E & Hq'); [nia|]. exists q'. split; [done|].
    by replace (width i * Z.of_nat (S n)) with (width i * Z.of_nat n + width i) by lia.
  - rewrite E. eexists. split; [reflexivity|]. cbn [w h pixels backbuffer fst snd] in *. 
    replace (Z.of_nat (length (range 0 (height i)))) with (height i) in H1, H2 by lia. done.
Qed.

(** Text never leaves the screen. On a framebuffer as large as its
    description says, in a supported format and big enough for one character, a
    new writer is well-formed, and writing any text through the character loop
    returns: every pixel written is in the framebuffer, whose length never
    changes. *)
Theorem writer_in_bounds W get_raster i fb text :
  0 < W → info_ok W i (len fb) →
  (∀ c rc, get_raster c = Some rc → glyph_ok W rc) → is_Some (get_raster FrameBufferWriterImpl.BACKUP_CHAR) →
  18 * len text + height i + 64 < 2 ^ 63 →
  ∃ s s', FrameBufferWriterImpl.new fb i = Ok s ∧ FrameBufferWriterImpl.write_chars W get_raster text s = Ok (tt, s') ∧
    info s' = i ∧ len (framebuffer s') = len fb ∧ x_pos s' ≤ width i.
Proof.
  intros HW Hi Hg Hb Hl. eexists. unfold FrameBufferWriterImpl.new. cbn.
  destruct (write_chars_ok W get_raster i (len fb) HW Hi Hg Hb text
    (Writer (replicate (length fb) 0) i BORDER_PADDING BORDER_PADDING 0) (height i)) as (s' & E & [G1 G2 _ [_ G4] _]).
  - destruct Hi as (_ & _ & _ & HWd & Hh & _). unfold CHAR_RASTER_HEIGHT, BORDER_PADDING in *.
    split; cbn; [done| |lia|lia|lia]. unfold len. by rewrite length_replicate.
  - lia.
  - lia.
  - exists s'. by split_and!.
Qed.

Lemma writer_in_bounds_witness :
  let font := λ _ : Z, Some {| raster := replicate 16 [0; 255; 128]; raster_width := 3 |} in
  let i := {| width := 6; height := 20; stride := 8; bytes_per_pixel := 4; pixel_format := Bgr |} in
  ∃ s s', FrameBufferWriterImpl.new (replicate 640 7) i = Ok s ∧
    FrameBufferWriterImpl.write_chars 3 font [72; 105; 10; 33] s = Ok (tt, s') ∧ len (framebuffer s') = 640.
Proof.
  intros font i. destruct (writer_in_bounds 3 font i (replicate 640 7) [72; 105; 10; 33]) as (s & s' & E & E' & _ & Hl & _).
  - lia.
  - unfold info_ok. cbn. split_and!; try lia; done.
  - intros c rc. unfold font. intros [= <-]. split_and!; [by vm_compute| |done].
    repeat constructor; by vm_compute.
  - by eexists.
  - by vm_compute.
  - exists s, s'. split; [exact E|]. split; [exact E'|]. exact Hl.
Defined.
