(* ===== verification/GpuQueue.v ===== *)
(** The control queue of the GPU driver under load ([drive] and [request] of
    [bootloader/kernel/src/drivers/virtio_gpu.rs]): the descriptors the driver
    offers at its start, and those the requests of its tasks hold while they wait,
    in any interleaving with the task that reaps completions and with the device. *)
From S2P Require Import Prelude Bytes Interfaces Pci Virtio GpuTypes Gpu.

Module DriveQueue.
Section start.
Context {D : Type} `{VirtioDevice D}.

(** [for _ in 0..10 { if let Some(desc_id) = get_free_desc_id() { .. } }] *)
Definition offer_one : M (sys D) unit :=
  desc_id ← VirtioImpl.get_free_desc_id;
  match desc_id with
  | Some desc_id => VirtioImpl.set_writable_available desc_id
  | None => mret tt
  end.
Definition offer : M (sys D) unit := for_each (range 0 10) (λ _, offer_one).

(** [virtio.queue_select(q)], then, with the lock taken, the offers. *)
Definition start : M (sys D) unit :=
  VirtioImpl.queue_select 0 ;; offer.
End start.
End DriveQueue.

(** ** The interleavings

    The system and the descriptor pairs of the requests that are waiting. *)
Record load (D : Type) := Load { world : sys D; pending : list (Z * Z) }.
Arguments Load {D} _ _.
Arguments world {D} _.
Arguments pending {D} _.

Section queue.
Context {D : Type} `{VirtioDevice D} `{X86Addr}.
Implicit Types (s : sys D) (p : list (Z * Z)).

Inductive load_step (phys_offset : Z) : load D → load D → Prop :=
| request_starts {T} `{ReprC T} (data : T) s s' p d e :
    request_start phys_offset data s = Ok ((d, e), s') →
    load_step phys_offset (Load s p) (Load s' (p ++ [(d, e)]))
| request_finishes s s' p1 p2 d e r :
    request_finish d e s = Ok (r, s') →
    load_step phys_offset (Load s (p1 ++ (d, e) :: p2)) (Load s' (p1 ++ p2))
| task_reaps s s' p used :
    VirtioImpl.next_used s = Ok (used, s') → load_step phys_offset (Load s p) (Load s' p)
| device_acts s d m p :
    load_step phys_offset (Load s p) (Load (Sys (drv s) d m (seen s)) p).

(** The descriptors of the waiting requests. *)
Definition held p : list Z := p ≫= λ x, [x.1; x.2].

(** ** What leaves the driver's structure alone *)
Lemma keeps_set_available d : keeps drv (VirtioImpl.set_available (D:=D) d).
Proof. unfold VirtioImpl.set_available, VirtioImpl.write_volatile. keeps. Qed.
Lemma keeps_set_writable d : keeps drv (VirtioImpl.set_writable (D:=D) d).
Proof. unfold VirtioImpl.set_writable, VirtioImpl.write_volatile. keeps. Qed.
Hint Resolve keeps_set_available keeps_set_writable : keeps.
Lemma keeps_set_writable_available d : keeps drv (VirtioImpl.set_writable_available (D:=D) d).
Proof. unfold VirtioImpl.set_writable_available. keeps. Qed.
Lemma keeps_add_request d e bs : keeps drv (VirtioImpl.add_request (D:=D) d e bs).
Proof. unfold VirtioImpl.add_request, VirtioImpl.write_volatile. keeps. Qed.
Lemma keeps_kick phys_offset q : keeps drv (VirtioImpl.kick (D:=D) phys_offset q).
Proof. unfold VirtioImpl.kick, VirtioImpl.set_dev. keeps. Qed.

(** ** The free list through each step *)
(** The driver's structure works on the control queue, whose free list is [l]. *)
Definition ready s (l : list Z) : Prop := Virtio.queue_select (drv s) = 0 ∧ free_of (drv s) = Some l.

Lemma ready_same s s' l : drv s' = drv s → ready s l → ready s' l.
Proof. unfold ready. by intros ->. Qed.

Lemma ready_with_free s s' l l' : drv s' = with_free (drv s) l' → ready s l → ready s' l'.
Proof. unfold ready. intros -> [Hs Hf]. split; [done|]. by eapply with_free_of. Qed.

Lemma offer_one_free s l d u s' :
  ready s (l ++ [d]) → DriveQueue.offer_one s = Ok (u, s') → ready s' l.
Proof.
  intros Hr E. assert (0 ≤ Virtio.queue_select (drv s)) as Hs0 by (destruct Hr; lia).
  destruct (free_index _ _ Hs0 (proj2 Hr)) as [Hi Hu].
  unfold DriveQueue.offer_one in E. apply M_bind_ok in E as (o & s1 & E1 & E2).
  unfold VirtioImpl.get_free_desc_id, mbind, M_bind, gets, lift in E1. rewrite Hi in E1.
  unfold QueueFreeDescsImpl.get_free in E1. cbn [free] in E1. rewrite pop_snoc in E1. rewrite Hu in E1.
  injection E1 as <- <-. apply keeps_set_writable_available in E2. by eapply (ready_with_free s).
Qed.

Lemma offer_free {B} (bs : list B) s l ds u s' :
  length ds = length bs → ready s (l ++ ds) → for_each bs (λ _, DriveQueue.offer_one) s = Ok (u, s') → ready s' l.
Proof.
  revert s ds; induction bs as [|b bs IH]; intros s ds Hl Hr E.
  - destruct ds; [|done]. injection E as _ <-. by rewrite app_nil_r in Hr.
  - destruct ds as [|d ds _] using rev_ind; [done|]. rewrite length_app in Hl. cbn in Hl.
    cbn [for_each] in E. apply M_bind_ok in E as ([] & s1 & E1 & E2).
    rewrite app_assoc in Hr. apply (IH s1 ds); [lia| |exact E2]. by eapply offer_one_free.
Qed.

(** A request that starts took the last two of the list. *)
Lemma request_start_free {T} `{ReprC T} phys_offset (data : T) s l d e s' :
  ready s l → request_start phys_offset data s = Ok ((d, e), s') → ∃ l', l = l' ++ [e; d] ∧ ready s' l'.
Proof.
  intros Hr E. assert (0 ≤ Virtio.queue_select (drv s)) as Hs0 by (destruct Hr; lia).
  unfold request_start in E. apply M_bind_ok in E as (o & s1 & E1 & E2).
  rewrite (get_twice_run s l Hs0 (proj2 Hr)) in E1.
  destruct (reverse l) as [|a [|b r]] eqn:El; injection E1 as <- <-; [done..|].
  apply M_bind_ok in E2 as ([] & s2 & E2 & E3). apply M_bind_ok in E3 as ([] & s3 & E3 & E4).
  injection E4 as <- <- <-. exists (reverse r). split.
  - rewrite <-(reverse_involutive l), El, !reverse_cons. by rewrite <-app_assoc.
  - apply keeps_add_request in E2. apply keeps_kick in E3. refine (ready_same _ s3 _ (eq_trans E3 E2) _).
    by eapply ready_with_free.
Qed.

Lemma request_finish_free s l d e r s' :
  ready s l → request_finish d e s = Ok (r, s') → ready s' (l ++ [d; e]).
Proof.
  intros Hr E. assert (0 ≤ Virtio.queue_select (drv s)) as Hs0 by (destruct Hr; lia).
  unfold request_finish in E. rewrite (M_bind_run _ _ _ _ _ (set_free_run s l d Hs0 (proj2 Hr))) in E.
  set (s1 := Sys (with_free (drv s) (l ++ [d])) (dev s) (ram s) (seen s)) in *.
  assert (ready s1 (l ++ [d])) as Hr1 by by eapply (ready_with_free s). rewrite (M_bind_run _ _ _ _ _ (set_free_run s1 _ e Hs0 (proj2 Hr1))) in E.
  injection E as _ <-. replace (l ++ [d; e]) with ((l ++ [d]) ++ [e]) by by rewrite <-app_assoc.
  by eapply (ready_with_free s1).
Qed.

Lemma next_used_free s l u s' : ready s l → VirtioImpl.next_used s = Ok (u, s') → ready s' l.
Proof.
  intros Hr E. unfold VirtioImpl.next_used, mbind, M_bind, gets, lift in E.
  destruct (index _ _) as [last|]; [|done]. destruct (negb _); [|by injection E as _ <-].
  destruct (update _ _ _) as [ls|]; [|done]. unfold VirtioImpl.set_drv, modify in E.
  destruct (urem _ _); [|done]. injection E as _ <-. by destruct Hr.
Qed.

(** ** The invariant: free, held and offered are the queue's descriptors *)
Definition load_inv (n : Z) (st : load D) : Prop :=
  ∃ l, ready (world st) l ∧ l ++ held (pending st) ≡ₚ range 0 (n - 10).

Lemma held_app p1 p2 : held (p1 ++ p2) = held p1 ++ held p2.
Proof. apply bind_app. Qed.

Lemma load_step_inv n phys_offset st st' : load_inv n st → load_step phys_offset st st' → load_inv n st'.
Proof.
  intros (l & Hr & Hp) Hs. destruct Hs as [T R data s s' p d e E|s s' p1 p2 d e r E|s s' p u E|s d m p]; cbn [world pending] in *.
  - destruct (request_start_free _ _ _ _ _ _ _ Hr E) as (l' & -> & Hr'). exists l'. split; [done|]. cbn [pending].
    rewrite held_app. cbn [held mbind list_bind fst snd app]. rewrite <-Hp. solve_Permutation.
  - exists (l ++ [d; e]). split; [by eapply request_finish_free|]. cbn [pending]. rewrite <-Hp, !held_app.
    cbn [held mbind list_bind fst snd app]. solve_Permutation.
  - exists l. split; [by eapply next_used_free|done].
  - exists l. by split.
Qed.

Lemma drive_start_inv n s0 u s1 :
  10 ≤ n → queues_free (drv s0) !! 0%nat = Some (QueueFreeDescsImpl.new n) →
  DriveQueue.start s0 = Ok (u, s1) → load_inv n (Load s1 []).
Proof.
  intros Hn Hf E. unfold DriveQueue.start in E. apply M_bind_ok in E as ([] & s & Es & E).
  injection Es as <-. exists (range 0 (n - 10)). cbn [world pending held mbind list_bind]. rewrite app_nil_r. split; [|done].
  eapply (offer_free _ _ _ (range (n - 10) n)); [| |exact E].
  - unfold range. rewrite !length_seqZ. lia.
  - split; [done|]. transitivity (free <$> queues_free (drv s0) !! 0%nat); [done|].
    rewrite Hf. cbn. f_equal. unfold range.
    replace (n - 0) with ((n - 10 - 0) + (n - (n - 10))) by lia. rewrite seqZ_app by lia. f_equal. f_equal. lia.
Qed.

Lemma length_held p : length (held p) = (2 * length p)%nat.
Proof.
  induction p as [|x p IH]; [done|]. change (held (x :: p)) with (x.1 :: x.2 :: held p). cbn [length]. rewrite IH. lia.
Qed.

Lemma load_inv_take n st :
  load_inv n st → let j := len (pending st) in
  (12 + 2 * j ≤ n →
   ∃ d e s', VirtioImpl.get_free_twice_desc_id (world st) = Ok (Some (d, e), s') ∧
     NoDup (d :: e :: held (pending st)) ∧ 0 ≤ d < n ∧ 0 ≤ e < n) ∧
  (n < 12 + 2 * j → ∃ s', VirtioImpl.get_free_twice_desc_id (world st) = Ok (None, s')).
Proof.
  intros (l & Hr & Hp) j. assert (0 ≤ Virtio.queue_select (drv (world st))) as Hs0 by (destruct Hr; lia).
  rewrite (get_twice_run _ l Hs0 (proj2 Hr)).
  pose proof (Permutation_length Hp) as Hlen. rewrite length_app, length_held in Hlen. unfold range in Hlen. rewrite length_seqZ in Hlen.
  pose proof (length_reverse l) as Hlr. unfold len in j.
  assert (NoDup (l ++ held (pending st))) as Hnd by (rewrite Hp; apply NoDup_seqZ).
  assert (∀ x, x ∈ l → 0 ≤ x < n - 10) as Hin by (intros x Hx; apply elem_of_range; rewrite <-Hp; set_solver).
  rewrite <-(reverse_involutive l) in Hnd, Hin. destruct (reverse l) as [|d [|e r]]; cbn in Hlr; split; intros Hj; try lia.
  - by eexists.
  - by eexists.
  - rewrite !reverse_cons in Hnd, Hin. eexists d, e, _. split; [done|].
    assert (NoDup ((d :: e :: held (pending st)) ++ reverse r)) as Hnd' by (eapply NoDup_Permutation_proper; [|exact Hnd]; solve_Permutation).
    apply NoDup_app in Hnd' as (Hnd' & _). split; [done|].
    pose proof (Hin d ltac:(set_solver)). pose proof (Hin e ltac:(set_solver)). lia.
Qed.

(** C9: the driver runs out of descriptors exactly when it must. Of a control queue
    of [n] descriptors, ten are offered to the device at the start and never come
    back; from then on, however starts and ends of requests, turns of the reaping
    task and actions of the device interleave, with [j] requests waiting the next
    request finds two descriptors, of the queue, of which no waiting request holds
    any (so that no two requests wait on one waker), if [n >= 12 + 2 * j], and
    panics otherwise. With at most one other request
    waiting, as when each of two loops keeps one, fourteen descriptors are
    enough. *)
Theorem gpu_descriptors_suffice n s0 u s1 phys_offset st :
  10 ≤ n → queues_free (drv s0) !! 0%nat = Some (QueueFreeDescsImpl.new n) →
  DriveQueue.start s0 = Ok (u, s1) → rtc (load_step phys_offset) (Load s1 []) st →
  let j := len (pending st) in
  NoDup (held (pending st)) ∧
  (12 + 2 * j ≤ n →
   ∃ d e s', NoDup (d :: e :: held (pending st)) ∧ 0 ≤ d < n ∧ 0 ≤ e < n ∧
     ∀ T (R : ReprC T) (data : T), request_start phys_offset data (world st) =
       (VirtioImpl.add_request d e (to_bytes data) ;; VirtioImpl.kick phys_offset 0 ;; mret (d, e)) s') ∧
  (n < 12 + 2 * j → ∀ T (R : ReprC T) (data : T),
     request_start phys_offset data (world st) = Panic (PExplicit "No more desc available")).
Proof.
  intros Hn Hf Hs Hr j. pose proof (drive_start_inv n s0 u s1 Hn Hf Hs) as Hi.
  assert (load_inv n st) as Hinv.
  { revert Hi. induction Hr as [|st1 st2 st3 Hst _ IH]; [done|]. intros Hi. by eapply IH, load_step_inv. }
  destruct (load_inv_take n st Hinv) as [Ht Hno]. fold j in Ht, Hno. split_and!.
  - destruct Hinv as (l & _ & Hp). assert (NoDup (l ++ held (pending st))) as Hnd by (rewrite Hp; apply NoDup_seqZ).
    by apply NoDup_app in Hnd as (_ & _ & ?).
  - intros Hj. destruct (Ht Hj) as (d & e & s' & E & Hnd & Hd & He). exists d, e, s'.
    do 3 (split; [done|]). intros T R data. unfold request_start. by rewrite (M_bind_run _ _ _ _ _ E).
  - intros Hj T R data. destruct (Hno Hj) as (s' & E). unfold request_start. by rewrite (M_bind_run _ _ _ _ _ E).
Qed.
End queue.

(** *** The claim at a concrete input: a queue of fourteen, one request waiting *)
#[local] Existing Instance virtio_instance.
#[local] Existing Instance x86_addr_instance.

Definition wide_sys : sys VirtioMem :=
  Sys (VirtioImpl.with_queues_free example_virtio [QueueFreeDescsImpl.new 14])
    {| vm_cfg := example_cfg; vm_queues := {[0 := (14, 0, 0x1000, 0x2000, 0x3000)]}; vm_notified := [] |} ∅ [].
Definition result {A} (r : res (A * sys VirtioMem)) : sys VirtioMem := match r with Ok (_, s) => s | Panic _ => wide_sys end.
Lemma result_ok {A} (r : res (A * sys VirtioMem)) a :
  match r with Ok (b, _) => b = a | Panic _ => False end → r = Ok (a, result r).
Proof. by destruct r as [[b s]|]; [intros ->|]. Qed.

Definition wide_started : sys VirtioMem := result (DriveQueue.start wide_sys).
Definition get_edid : VirtioGpuCtrlHdr := hdr VirtioGpuCtrlType.VirtioGpuCmdGetEdid 0.
Definition wide_waiting : sys VirtioMem := result (request_start 0x10000000000 get_edid wide_started).

Lemma gpu_descriptors_suffice_witness :
  DriveQueue.start wide_sys = Ok (tt, wide_started) ∧
  rtc (load_step 0x10000000000) (Load wide_started []) (Load wide_waiting [(3, 2)]) ∧
  ∃ d e s', NoDup [d; e; 3; 2] ∧ request_start 0x10000000000 get_edid wide_waiting =
       (VirtioImpl.add_request d e (to_bytes get_edid) ;; VirtioImpl.kick 0x10000000000 0 ;; mret (d, e)) s'.
Proof.
  assert (DriveQueue.start wide_sys = Ok (tt, wide_started)) as E1.
  { unfold wide_started. apply (result_ok (DriveQueue.start wide_sys) tt). vm_compute. reflexivity. }
  assert (rtc (load_step 0x10000000000) (Load wide_started []) (Load wide_waiting [(3, 2)])) as E2.
  { apply rtc_once. apply (request_starts _ get_edid _ _ []).
    unfold wide_waiting. apply (result_ok (request_start 0x10000000000 get_edid wide_started) (3, 2)).
    vm_compute. reflexivity. }
  split; [exact E1|]. split; [exact E2|].
  pose proof (gpu_descriptors_suffice 14 wide_sys tt wide_started 0x10000000000 (Load wide_waiting [(3, 2)])
    ltac:(lia) ltac:(reflexivity) E1 E2) as (_ & H & _).
  destruct (H ltac:(unfold len; cbn; lia)) as (d & e & s' & Hnd & _ & _ & Hreq).
  exists d, e, s'. split; [exact Hnd|]. apply Hreq.
Defined.
