(* ===== verification/GpuRequest.v ===== *)
(** The round trip of a request to the GPU ([request], [wait_for] and the reaping
    task of [bootloader/kernel/src/drivers/virtio_gpu.rs]): from the descriptors it
    takes to the answer it reads, with the device in between. *)
From S2P Require Import Prelude Bytes Interfaces Pci Virtio GpuTypes Gpu.

(** Where the three parts of the control queue and the two buffers of a request
    are: [b] holds the message, of [n] bytes, [b'] receives the answer. *)
Record request_layout (qs qd qa qu b n b' : Z) : Prop := {
  rl_table_avail : disjoint_ranges qd (16 * qs) qa (4 + 2 * qs);
  rl_table_used : disjoint_ranges qd (16 * qs) qu (4 + 8 * qs);
  rl_avail_used : disjoint_ranges qa (4 + 2 * qs) qu (4 + 8 * qs);
  rl_message_table : disjoint_ranges b n qd (16 * qs);
  rl_message_avail : disjoint_ranges b n qa (4 + 2 * qs);
  rl_message_used : disjoint_ranges b n qu (4 + 8 * qs);
  rl_answer_table : disjoint_ranges b' 4096 qd (16 * qs);
  rl_answer_used : disjoint_ranges b' 4096 qu (4 + 8 * qs)
}.

(** The device's answer: the bytes in the writable buffer, then the completion. *)
Definition device_answers (qs qu did b' : Z) (answer : list Z) (m : mem) : mem :=
  device_complete qs qu {| used_id := did; used_len := len answer |} (store_bytes m b' answer).

Section frame.
Context {D : Type} `{VirtioDevice D} `{X86Addr}.
Implicit Types (s : sys D).

(** What [add_request] does to memory. *)
Lemma add_request_frame s did nid data u s' x :
  let qs := queue_size (cfg (dev s)) in let qd := queue_desc (cfg (dev s)) in let qa := queue_driver (cfg (dev s)) in
  let b := addr (load_Desc (ram s) (qd + 16 * did)) in
  0 < qs → 0 ≤ did < qs → 0 ≤ nid < qs →
  VirtioImpl.add_request did nid data s = Ok (u, s') →
  (x < b ∨ b + len data ≤ x) → (x < qd ∨ qd + 16 * qs ≤ x) → (x < qa ∨ qa + 4 + 2 * qs ≤ x) →
  load8 (ram s') x = load8 (ram s) x.
Proof.
  intros qs qd qa b Hq Hd Hn E Hxb Hxd Hxa. rewrite add_request_run, set_available_run in E by (cbn; unfold qs in *; lia).
  cbn [dev ram drv seen] in E. injection E as _ <-. cbn [ram]. fold qs qd qa b.
  assert (Hr : ∀ i, 0 ≤ i mod qs < qs) by (intros i; by apply Z.mod_pos_bound).
  assert (Ht : ∀ i, 0 ≤ i < qs → x < qd + 16 * i ∨ qd + 16 * i + 16 ≤ x) by (intros i Hi; lia).
  assert (Hs : ∀ i, x < qa + 4 + 2 * (i mod qs) ∨ qa + 4 + 2 * (i mod qs) + 2 ≤ x) by (intros i; specialize (Hr i); lia).
  rewrite !store_bytes_outside; rewrite ?len_le_bytes, ?len_Desc_bytes;
    [done|exact Hxb|by apply Ht|by apply Ht|apply Hs|lia].
Qed.
Lemma kick_ram phys_offset q : keeps ram (VirtioImpl.kick (D:=D) phys_offset q).
Proof. unfold VirtioImpl.kick, VirtioImpl.set_dev. keeps. Qed.

Lemma request_start_frame {T} `{ReprC T} s (data : T) phys_offset l did nid r s' x :
  let qs := queue_size (cfg (dev s)) in let qd := queue_desc (cfg (dev s)) in let qa := queue_driver (cfg (dev s)) in
  let b := addr (load_Desc (ram s) (qd + 16 * did)) in
  0 < qs → 0 ≤ did < qs → 0 ≤ nid < qs → 0 ≤ Virtio.queue_select (drv s) → free_of (drv s) = Some (l ++ [nid; did]) →
  request_start phys_offset data s = Ok (r, s') →
  (x < b ∨ b + repr_size (T:=T) ≤ x) → (x < qd ∨ qd + 16 * qs ≤ x) → (x < qa ∨ qa + 4 + 2 * qs ≤ x) →
  load8 (ram s') x = load8 (ram s) x.
Proof.
  intros qs qd qa b Hq Hd Hn Hsel Hf E Hxb Hxd Hxa. unfold request_start in E.
  apply M_bind_ok in E as (tw & t1 & E1 & E). rewrite (get_twice_run s _ Hsel Hf), !reverse_app in E1. cbn in E1.
  injection E1 as <- <-. apply M_bind_ok in E as ([] & t2 & E2 & E). apply M_bind_ok in E as ([] & t3 & E3 & E).
  injection E as _ <-. apply kick_ram in E3. rewrite E3.
  apply (add_request_frame (Sys (with_free (drv s) (reverse (reverse l))) (dev s) (ram s) (seen s)) did nid (to_bytes data) tt t2 x);
    try done. assert (len (to_bytes data) = repr_size (T:=T)) as -> by apply fields_size. done.
Qed.
End frame.

(** The hypotheses on the doorbell: it is in the lower half. *)
Record doorbell_ok {D} `{VirtioDevice D} (phys_offset p : Z) (s : sys D) : Prop := {
  db_at : doorbell phys_offset s = Some p;
  db_range : 0 ≤ phys_offset ∧ p < 2 ^ 47;
  db_bar a : bar (notify (drv s)) = BarMm a → 0 ≤ a;
  db_offset : 0 ≤ offset (notify (drv s)) ∧ 0 ≤ cap (notify (drv s)) ∧ 0 ≤ queue_notify_off (cfg (dev s))
}.

(** A waiting task's slot, through its poll, the completion and its next poll. *)
Lemma poll_first arr did task :
  0 ≤ did → arr !! Z.to_nat did = Some INone → IdWait.poll_at did task arr = Ok (false, <[Z.to_nat did := IWaker task]> arr).
Proof.
  intros Hd Hl. unfold IdWait.poll_at. assert (index arr did = Ok INone) as -> by by apply index_ok. cbn [mbind res_bind IdWait.poll].
  rewrite update_in; [done|]. apply lookup_lt_Some in Hl. unfold len. lia.
Qed.

Lemma poll_done arr did task :
  0 ≤ did → arr !! Z.to_nat did = Some IDone → IdWait.poll_at did task arr = Ok (true, <[Z.to_nat did := INone]> arr).
Proof.
  intros Hd Hl. unfold IdWait.poll_at. assert (index arr did = Ok IDone) as -> by by apply index_ok. cbn [mbind res_bind IdWait.poll].
  rewrite update_in; [done|]. apply lookup_lt_Some in Hl. unfold len. lia.
Qed.

(** Reaping leaves the free lists and the device alone. *)
Definition reap_frame {D} (st : sys D * (list IdWaker * list Z)) : list QueueFreeDescs * Z * D :=
  (queues_free (drv st.1), Virtio.queue_select (drv st.1), dev st.1).

Lemma checkall_frame {D} `{VirtioDevice D} fuel : keeps (reap_frame (D:=D)) (checkall fuel).
Proof.
  unfold checkall. apply keeps_while_some.
  - intros [s x] a [s' x'] E. unfold VirtioImpl.on_sys in E. apply bind_ok in E as ([u t] & E & E'). injection E' as <- <- <-.
    unfold VirtioImpl.next_used, mbind, M_bind, gets, lift in E.
    destruct (index _ _) as [last|]; [|done]. destruct (negb _); [|by injection E as _ <-].
    destruct (update _ _ _) as [ls|]; [|done]. unfold VirtioImpl.set_drv, modify in E.
    destruct (urem _ _); [|done]. by injection E as _ <-.
  - intros e [s [arr woken]] u [s' [arr' woken']] E. unfold wake_used in E.
    apply bind_ok in E as (slot & _ & E). destruct (IdWakerImpl.wake slot) as [slot' t]. apply bind_ok in E as (arr2 & _ & E).
    by injection E as _ <- _ _.
Qed.

Section round_trip.
Context {D : Type} `{VirtioDevice D} `{X86Addr} {T : Type} `{ReprC T}.
Implicit Types (s : sys D) (data : T).

(** The answer in memory: the used ring has its element, the buffer its bytes,
    and the table is as the driver left it. *)
Lemma device_answers_seen qs qd qu did nid b' last answer m :
  0 < qs → (qs | 2 ^ 16) → fits 16 qs → 0 ≤ did < qs → 0 ≤ nid < qs → len answer ≤ 4096 → Forall (fits 8) answer →
  disjoint_ranges b' 4096 qd (16 * qs) → disjoint_ranges b' 4096 qu (4 + 8 * qs) → disjoint_ranges qd (16 * qs) qu (4 + 8 * qs) →
  used_queue qs qu m last [] →
  let m' := device_answers qs qu did b' answer m in
  used_queue qs qu m' last [{| used_id := did; used_len := len answer |}] ∧
  load_bytes (length answer) m' b' = answer ∧
  load_Desc m' (qd + 16 * nid) = load_Desc m (qd + 16 * nid).
Proof.
  intros Hq Hdiv Hqf Hd Hn Hla Ha Hbt Hbu Htu Hu m'. pose proof (len_nonneg answer) as Hla0. unfold fits in Hqf.
  pose proof (store_bytes_outside m b' answer) as O1. set (m1 := store_bytes m b' answer) in *.
  assert (used_queue qs qu m1 last []) as Hu1.
  { eapply used_queue_ext; [done| |exact Hu]. intros x Hx. apply O1. unfold disjoint_ranges in *. lia. }
  split; [unfold m', device_answers; apply (used_push qs qu m1 last [] _); try done; unfold fits; cbn; lia|].
  assert (same_outside qu (4 + 8 * qs) m1 m') as O2.
  { unfold m', device_answers, device_complete. fold m1. set (i := load 2 m1 (qu + 2)).
    pose proof (ring_slot_range qs i Hq). intros x Hx. rewrite !store_bytes_outside; [done|..];
      rewrite ?len_UsedElem_bytes, ?len_le_bytes; lia. }
  split.
  - rewrite <-(load_bytes_store m b' answer Ha) at 2. apply load_bytes_ext. intros x Hx. apply O2.
    unfold disjoint_ranges, len in *. lia.
  - rewrite (load_Desc_outside _ _ _ _ _ O2) by (unfold disjoint_ranges in *; lia).
    apply (load_Desc_outside _ _ _ _ _ O1). unfold disjoint_ranges in *. lia.
Qed.
End round_trip.

(** C8: a request comes back with its answer. With two descriptors free and room in
    the available ring, [request] puts the message where the device takes it, as a
    chain with a writable buffer for the answer, and rings the doorbell once; its
    task then waits. When the device has written an answer of at most a page and
    completed the head, one turn of the reaping task wakes that task and leaves the
    ring empty; the task's next poll is ready, the table of wakers is as before the
    request, both descriptors are free again, and the descriptor that [request]
    returns points at the device's answer, which is intact. *)
Theorem gpu_request_round_trip {D} `{VirtioDevice D} `{X86Addr} {T} `{ReprC T} (s : sys D) (data : T) phys_offset p l did nid
    pos ids last arr woken task answer :
  let c := cfg (dev s) in
  let qs := queue_size c in let qd := queue_desc c in let qa := queue_driver c in let qu := queue_device c in
  let b := addr (load_Desc (ram s) (qd + 16 * did)) in
  let b' := addr (load_Desc (ram s) (qd + 16 * nid)) in
  0 < qs ≤ 256 → (qs | 2 ^ 16) → 0 ≤ did < qs → 0 ≤ nid < qs → did ≠ nid → len ids < qs → repr_size (T:=T) ≤ 4096 →
  request_layout qs qd qa qu b (repr_size (T:=T)) b' →
  avail_queue qs qa (ram s) pos ids → used_queue qs qu (ram s) last [] → last_of s = Ok last → fits 16 last →
  doorbell_ok phys_offset p s → cfg (notify_store p 0 (dev s)) = c →
  0 ≤ Virtio.queue_select (drv s) → free_of (drv s) = Some (l ++ [nid; did]) →
  len arr = 256 → arr !! Z.to_nat did = Some INone →
  len answer ≤ 4096 → Forall (fits 8) answer →
  ∃ s1 arr1, request_start phys_offset data s = Ok ((did, nid), s1) ∧
    avail_queue qs qa (ram s1) pos (ids ++ [did]) ∧ chain qd did nid b b' (to_bytes data) (ram s1) ∧
    notified (dev s1) = notified (dev s) ++ [(p, 0)] ∧
    IdWait.poll_at did task arr = Ok (false, arr1) ∧
    let s2 := Sys (drv s1) (dev s1) (device_answers qs qu did b' answer (ram s1)) (seen s1) in
    ∃ s3 arr2 arr3 desc s4, checkall 2 (s2, (arr1, woken)) = Ok (true, (s3, (arr2, woken ++ [task]))) ∧
      last_of s3 = Ok (wrap 16 (last + 1)) ∧ used_queue qs qu (ram s3) (wrap 16 (last + 1)) [] ∧
      IdWait.poll_at did task arr2 = Ok (true, arr3) ∧ (∀ i, (i < 256)%nat → arr3 !! i = arr !! i) ∧
      request_finish did nid s3 = Ok (desc, s4) ∧ free_of (drv s4) = Some (l ++ [did; nid]) ∧
      load_bytes (length answer) (ram s4) (addr desc) = answer.
Proof.
  intros c qs qd qa qu b b' Hq Hdiv Hd Hn Hne Hroom Hsz [Lta Ltu Lau Lbt Lba Lbu Lb't Lb'u] Ha Hu Hl Hlast [Hp [Hp0 Hp47] Hbar (Ho & Hc & Hno)]
    Hcfg Hsel Hf Harr Hslot Hla Hans.
  assert (Hqf : fits 16 qs) by (unfold fits; lia).
  destruct (request_lifecycle s data phys_offset p l did nid pos ids) as (Hstart & _ & _); try done; [exact (proj1 Hq)|].
  destruct (Hstart Hf) as (m & ms & E & Hav & Hch). clear Hstart.
  set (s1 := Sys _ _ _ _) in E. exists s1, (<[Z.to_nat did := IWaker task]> arr).
  split; [exact E|]. split; [exact Hav|]. split; [exact Hch|]. split; [apply notify_ok|]. split; [by apply poll_first; [lia|]|].
  assert (Hfr : ∀ x, (x < b ∨ b + repr_size (T:=T) ≤ x) → (x < qd ∨ qd + 16 * qs ≤ x) → (x < qa ∨ qa + 4 + 2 * qs ≤ x) →
      load8 m x = load8 (ram s) x)
    by exact (λ x, request_start_frame s data phys_offset l did nid (did, nid) s1 x (proj1 Hq) Hd Hn Hsel Hf E).
  assert (Hu1 : used_queue qs qu m last []).
  { eapply used_queue_ext; [exact (proj1 Hq)| |exact Hu]. intros x Hx. clear - Hfr Hx Hsz Hq Lbu Ltu Lau.
    apply Hfr; unfold disjoint_ranges in *; lia. }
  destruct (device_answers_seen qs qd qu did nid b' last answer m) as (Hua & Hba & Hda); try done; [lia|].
  set (m2 := device_answers qs qu did b' answer m) in *. cbn [ram]. fold m2.
  set (s2 := Sys (drv s1) (dev s1) m2 (seen s1)).
  assert (Hcfg2 : cfg (dev s2) = c) by exact Hcfg.
  destruct (checkall_wakes_completed s2 (<[Z.to_nat did := IWaker task]> arr) woken last [{| used_id := did; used_len := len answer |}])
    as (s3 & arr2 & Ec & Hr3 & Hl3 & Hu3 & Harr2); rewrite ?Hcfg2; try done; [lia|..].
  { unfold len in *. by rewrite length_insert. }
  { constructor; [cbn; lia|constructor]. }
  { apply NoDup_singleton. }
  pose proof (checkall_frame _ _ _ _ Ec) as Hfr3. unfold reap_frame in Hfr3. cbn [fst] in Hfr3. injection Hfr3 as Hq3 Hs3 Hd3.
  assert (Hf3 : free_of (drv s3) = Some l) by (unfold free_of; rewrite Hq3, Hs3; by apply (with_free_of (drv s) (l ++ [nid; did]))).
  assert (Hsel3 : 0 ≤ Virtio.queue_select (drv s3)) by (by rewrite Hs3).
  assert (Hdid : arr2 !! Z.to_nat did = Some IDone).
  { rewrite Harr2 by lia. rewrite decide_True; [done|]. rewrite Z2Nat.id by lia. left. }
  exists s3, arr2, (<[Z.to_nat did := INone]> arr2).
  set (s4 := Sys (with_free (drv s3) (l ++ [did])) (dev s3) (ram s3) (seen s3)).
  assert (Hf4 : free_of (drv s4) = Some (l ++ [did])) by (by eapply with_free_of).
  exists (load_Desc (ram s3) (queue_desc (cfg (dev s3)) + 16 * nid)), (Sys (with_free (drv s4) ((l ++ [did]) ++ [nid])) (dev s3) (ram s3) (seen s3)).
  assert (Hc3 : cfg (dev s3) = c) by (rewrite Hd3; exact Hcfg).
  assert (Hwait : waiting (<[Z.to_nat did := IWaker task]> arr) [{| used_id := did; used_len := len answer |}] = [task]).
  { unfold waiting. cbn. rewrite list_lookup_insert_eq by (by eapply lookup_lt_Some). done. }
  rewrite Hwait in Ec. rewrite Hcfg2 in Hu3. split; [exact Ec|]. split; [exact Hl3|]. split; [exact Hu3|]. split; [by apply poll_done; [lia|]|]. split.
  { intros i Hi. destruct (decide (i = Z.to_nat did)) as [->|Hni].
    - rewrite list_lookup_insert_eq by (by eapply lookup_lt_Some). by rewrite Hslot.
    - rewrite list_lookup_insert_ne, Harr2 by done. rewrite decide_False; [by rewrite list_lookup_insert_ne|].
      cbn. rewrite list_elem_of_singleton. lia. }
  split.
  { unfold request_finish. rewrite (M_bind_run _ _ _ _ _ (set_free_run s3 l did Hsel3 Hf3)). fold s4.
    by rewrite (M_bind_run _ _ _ _ _ (set_free_run s4 _ nid Hsel3 Hf4)). }
  split; [cbn [drv]; rewrite (with_free_of _ _ _ Hf4); by rewrite <-app_assoc|].
  cbn [ram]. rewrite Hr3, Hc3. change (ram s2) with m2. fold qd. rewrite Hda.
  destruct Hch as [_ _ [z Hz]]. change (ram s1) with m in Hz. fold c in Hz. fold qd in Hz. rewrite Hz. exact Hba.
Qed.

(** *** The claim at a concrete input: a query on a queue of four descriptors *)
#[local] Existing Instance virtio_instance.
#[local] Existing Instance x86_addr_instance.

Definition idle_sys : sys VirtioMem := Sys example_virtio (dev example_sys) example_ram [].
Definition query : VirtioGpuCtrlHdr := hdr VirtioGpuCtrlType.VirtioGpuCmdGetEdid 0.

Lemma idle_layout : request_layout 4 0x1000 0x2000 0x3000 0x7000 (repr_size (T:=VirtioGpuCtrlHdr)) 0x6000.
Proof. change (repr_size (T:=VirtioGpuCtrlHdr)) with 24. constructor; unfold disjoint_ranges; lia. Qed.

Lemma idle_doorbell : doorbell_ok 0x10000000000 0x100FE003000 idle_sys.
Proof.
  constructor; [by vm_compute|lia| |by repeat split; vm_compute]. intros a E. injection E as <-. by vm_compute.
Qed.

Lemma gpu_request_round_trip_witness :
  ∃ s1 arr1, request_start 0x10000000000 query idle_sys = Ok ((3, 2), s1) ∧
    IdWait.poll_at 3 9 WAKERS = Ok (false, arr1) ∧
    ∃ s3 arr2 arr3 desc s4,
      checkall 2 (Sys (drv s1) (dev s1) (device_answers 4 0x3000 3 0x6000 [1; 2; 3; 4] (ram s1)) (seen s1), (arr1, [])) =
        Ok (true, (s3, (arr2, [9]))) ∧
      IdWait.poll_at 3 9 arr2 = Ok (true, arr3) ∧ request_finish 3 2 s3 = Ok (desc, s4) ∧
      free_of (drv s4) = Some [0; 1; 3; 2] ∧ load_bytes 4 (ram s4) (addr desc) = [1; 2; 3; 4].
Proof.
  destruct (gpu_request_round_trip idle_sys query 0x10000000000 0x100FE003000 [0; 1] 3 2 0 [] 65535 WAKERS [] 9 [1; 2; 3; 4])
    as (s1 & arr1 & E1 & _ & _ & _ & Ep & s3 & arr2 & arr3 & desc & s4 & Ec & _ & _ & Ep2 & _ & Ef & Hfree & Hans).
  - by vm_compute.
  - exact example_divide.
  - by split; vm_compute.
  - by split; vm_compute.
  - done.
  - by vm_compute.
  - by vm_compute.
  - exact idle_layout.
  - by split; [vm_compute|].
  - by split; [vm_compute|].
  - by vm_compute.
  - by split; vm_compute.
  - exact idle_doorbell.
  - reflexivity.
  - by vm_compute.
  - by vm_compute.
  - by vm_compute.
  - by vm_compute.
  - by vm_compute.
  - repeat constructor; by vm_compute.
  - exists s1, arr1. split; [exact E1|]. split; [exact Ep|]. exists s3, arr2, arr3, desc, s4.
    split; [exact Ec|]. split; [exact Ep2|]. split; [exact Ef|]. split; [exact Hfree|exact Hans].
Defined.
