(* ===== verification/Screen.v ===== *)
(** From an application's pixels to the screen: the pages that the GPU driver
    maps and hands both to the shared framebuffer ([FB::update],
    [framebuffer.rs]) and to the device as the backing of its resource, the
    messages that bring the display up and the two refresh loops ([drive],
    [drivers/virtio_gpu.rs]), and what the device does on those messages,
    read byte by byte.

    The device is the one of the virtio specification (5.7.6.8): it takes one
    message after the other; a transfer copies a rectangle of the backing into the
    resource, a flush shows the rectangle of the resource that is scanned out. A
    transfer goes row by row, and the applications may store pixels between two
    rows. *)
From S2P Require Import Prelude Bytes Framebuffer GpuTypes Gpu GpuStart.

(** ** Pixels in memory *)
Definition pixel_bytes (p : RGBA) : list Z := [r p; g p; b p; a p].

(** The vector of [n] pixels at an address. *)
Definition read_pixels (n : nat) (m : mem) (addr : Z) : list RGBA :=
  (λ i, let p := addr + 4 * Z.of_nat i in Pixel (load8 m p) (load8 m (p + 1)) (load8 m (p + 2)) (load8 m (p + 3))) <$> seq 0 n.

Definition RGBA_ok (p : RGBA) : Prop := Forall (fits 8) (pixel_bytes p).

(** ** The driver's side *)

(** [Vec::from_raw_parts(addr, capacity, capacity)] and [FB::update]: the driver's
    vector and the shared one are the same memory. *)
Definition shared_framebuffer (rect : VirtioGpuRect) (m : mem) (addr : Z) (fb : FB) : FB :=
  let framebuffer := read_pixels (Z.to_nat (Drive.capacity rect)) m addr in
  FBImpl.update framebuffer (GpuTypes.w (Drive.screen rect)) (GpuTypes.h (Drive.screen rect)) fb.

Definition GREY : RGBA := Pixel 100 120 140 125.

(** [for i in 0..capacity { framebuffer[i] = .. }] *)
Definition paint (rect : VirtioGpuRect) (addr : Z) (m : mem) : mem :=
  fold_left (λ m i, store_bytes m (addr + 4 * i) (pixel_bytes GREY)) (range 0 (Drive.capacity rect)) m.

(** ** The device *)
Inductive command :=
| Create (id width height : Z)
| Attach (id addr length : Z)
| SetScanout (r : VirtioGpuRect) (id : Z)
| Transfer (r : VirtioGpuRect) (offset id : Z)
| Flush (r : VirtioGpuRect) (id : Z).

(** A request, read at the offsets of the specification. *)
Definition parse (bs : list Z) : option command :=
  let sizes := [4; 4; 8; 4; 4]%nat in
  match decode [4%nat] bs with
  | [ty] =>
      if ty =? 0x101 then
        match decode (sizes ++ [4; 4; 4; 4]%nat) bs with [_; _; _; _; _; id; _; wd; ht] => Some (Create id wd ht) | _ => None end
      else if ty =? 0x106 then
        match decode (sizes ++ [4; 4; 8; 4; 4]%nat) bs with
        | [_; _; _; _; _; id; n; addr; length; _] => if n =? 1 then Some (Attach id addr length) else None
        | _ => None
        end
      else if ty =? 0x103 then
        match decode (sizes ++ [4; 4; 4; 4; 4; 4]%nat) bs with
        | [_; _; _; _; _; x; y; w; h; _; id] => Some (SetScanout {| x := x; y := y; GpuTypes.w := w; GpuTypes.h := h |} id)
        | _ => None
        end
      else if ty =? 0x105 then
        match decode (sizes ++ [4; 4; 4; 4; 8; 4; 4]%nat) bs with
        | [_; _; _; _; _; x; y; w; h; off; id; _] => Some (Transfer {| x := x; y := y; GpuTypes.w := w; GpuTypes.h := h |} off id)
        | _ => None
        end
      else if ty =? 0x104 then
        match decode (sizes ++ [4; 4; 4; 4; 4; 4]%nat) bs with
        | [_; _; _; _; _; x; y; w; h; id; _] => Some (Flush {| x := x; y := y; GpuTypes.w := w; GpuTypes.h := h |} id)
        | _ => None
        end
      else None
  | _ => None
  end.

(** A resource: its size, the pages behind it, and its image. *)
Record resource := { res_width : Z; res_height : Z; backing : option (Z * Z); image : Z → Z → list Z }.

(** The display: the resources, what is scanned out, and the pixels shown. *)
Record display := { resources : gmap Z resource; scanout : option (VirtioGpuRect * Z); shown : Z → Z → list Z }.

Definition dark (px py : Z) : list Z := [0; 0; 0; 0].
Definition off : display := {| resources := ∅; scanout := None; shown := dark |}.

Definition inside (rc : VirtioGpuRect) (px py : Z) : bool :=
  (x rc <=? px) && (px <? x rc + GpuTypes.w rc) && (y rc <=? py) && (py <? y rc + GpuTypes.h rc).

(** The bytes of a pixel of a transfer: rows of the resource's width. *)
Definition transferred (m : mem) (addr off width : Z) (rc : VirtioGpuRect) (px py : Z) : list Z :=
  load_bytes 4 m (addr + off + 4 * ((py - y rc) * width + (px - x rc))).

(** The messages done at once; a transfer is not. *)
Definition execute (c : command) (d : display) : display :=
  match c with
  | Create id wd ht =>
      {| resources := <[id := {| res_width := wd; res_height := ht; backing := None; image := dark |}]> (resources d);
         scanout := scanout d; shown := shown d |}
  | Attach id addr length =>
      {| resources := alter (λ rs, {| res_width := res_width rs; res_height := res_height rs; backing := Some (addr, length);
                                     image := image rs |}) id (resources d);
         scanout := scanout d; shown := shown d |}
  | SetScanout rc id => {| resources := resources d; scanout := Some (rc, id); shown := shown d |}
  | Transfer rc off id => d
  | Flush rc id =>
      match scanout d, resources d !! id with
      | Some (sc, sid), Some rs =>
          if sid =? id then
            {| resources := resources d; scanout := scanout d;
               shown := λ px py, let qx := x sc + px in let qy := y sc + py in
                 if inside rc qx qy && inside sc qx qy then image rs qx qy else shown d px py |}
          else d
      | _, _ => d
      end
  end.

(** One row of a transfer. *)
Definition copy_row (m : mem) (rc : VirtioGpuRect) (off id row : Z) (d : display) : display :=
  {| resources := alter (λ rs, match backing rs with
       | Some (addr, _) =>
           {| res_width := res_width rs; res_height := res_height rs; backing := backing rs;
              image := λ px py, if inside rc px py && (py =? y rc + row) then transferred m addr off (res_width rs) rc px py
                                else image rs px py |}
       | None => rs
       end) id (resources d);
     scanout := scanout d; shown := shown d |}.

(** ** The system: memory, the device, and the transfer it is at, with the next row *)
Record system := { pages : mem; device : display; copying : option (VirtioGpuRect * Z * Z * Z) }.

(** The device takes the next message, unless it is at a transfer. *)
Definition receive (msg : message) (s : system) : system :=
  match copying s with
  | Some _ => s
  | None =>
      match parse (message_bytes msg) with
      | Some (Transfer rc off id) => {| pages := pages s; device := device s; copying := Some (rc, off, id, 0) |}
      | Some c => {| pages := pages s; device := execute c (device s); copying := None |}
      | None => s
      end
  end.

Definition continue (s : system) : system :=
  match copying s with
  | None => s
  | Some (rc, off, id, row) =>
      {| pages := pages s; device := copy_row (pages s) rc off id row (device s);
         copying := if row + 1 <? GpuTypes.h rc then Some (rc, off, id, row + 1) else None |}
  end.

(** The start-up, to the fill after the scan-out. *)
Definition bring_up (rect : VirtioGpuRect) (addr : Z) (s : system) : system :=
  let s := fold_left (λ s msg, receive msg s) (take 3 (Drive.setup_2d rect addr)) s in
  {| pages := paint rect addr (pages s); device := device s; copying := copying s |}.

(** Then, in any order: an application stores pixel [i]; the device takes a
    transfer or a flush, those that end the start-up or those of the two loops; and
    it copies a row. *)
Inductive event := Store (i : Z) (q : RGBA) | TakeTransfer | CopyRow | TakeFlush.

Definition happen (rect : VirtioGpuRect) (addr : Z) (s : system) (e : event) : system :=
  match e with
  | Store i q => {| pages := store_bytes (pages s) (addr + 4 * i) (pixel_bytes q); device := device s; copying := copying s |}
  | TakeTransfer => receive (Drive.transfer rect) s
  | CopyRow => continue s
  | TakeFlush => receive (Drive.flush rect) s
  end.

(** ** The specification

    The picture in memory; for each row that the transfer at work has copied, the
    picture there was then; and the same for each row of the last transfer that
    ended, and of the last one before the last flush. *)
Record pictures := { drawn : list RGBA; copied : option (list (list RGBA)); sent : list (list RGBA); visible : list (list RGBA) }.

Definition WIDTH : Z := 1600.
Definition HEIGHT : Z := 900.

Definition spec_step (p : pictures) (e : event) : pictures :=
  match e with
  | Store i q => {| drawn := <[Z.to_nat i := q]> (drawn p); copied := copied p; sent := sent p; visible := visible p |}
  | TakeTransfer =>
      match copied p with
      | Some _ => p
      | None => {| drawn := drawn p; copied := Some []; sent := sent p; visible := visible p |}
      end
  | CopyRow =>
      match copied p with
      | None => p
      | Some rows =>
          let rows := rows ++ [drawn p] in
          if len rows <? HEIGHT then {| drawn := drawn p; copied := Some rows; sent := sent p; visible := visible p |}
          else {| drawn := drawn p; copied := None; sent := rows; visible := visible p |}
      end
  | TakeFlush =>
      match copied p with
      | Some _ => p
      | None => {| drawn := drawn p; copied := None; sent := sent p; visible := sent p |}
      end
  end.

Definition picture (q : RGBA) : list RGBA := replicate (Z.to_nat (WIDTH * HEIGHT)) q.
Definition black : list (list RGBA) := replicate (Z.to_nat HEIGHT) (picture (Pixel 0 0 0 0)).
Definition spec_start : pictures := {| drawn := picture GREY; copied := None; sent := black; visible := black |}.

Definition event_ok (e : event) : Prop := match e with Store i q => 0 ≤ i < WIDTH * HEIGHT ∧ RGBA_ok q | _ => True end.

(** ** Memory holds a picture *)
Definition holds (m : mem) (addr : Z) (l : list RGBA) : Prop :=
  ∀ i p, l !! i = Some p → load_bytes 4 m (addr + 4 * Z.of_nat i) = pixel_bytes p.

Lemma load_pixel m a : load_bytes 4 m a = [load8 m a; load8 m (a + 1); load8 m (a + 2); load8 m (a + 3)].
Proof. unfold load_bytes. cbn. by rewrite Z.add_0_r. Qed.

Lemma store_holds m addr l i q :
  0 ≤ i → RGBA_ok q → holds m addr l → holds (store_bytes m (addr + 4 * i) (pixel_bytes q)) addr (<[Z.to_nat i := q]> l).
Proof.
  intros Hi Hq Hl j p [(<- & <- & _)|[Hne Hj]]%list_lookup_insert_Some.
  - rewrite Z2Nat.id by done. by apply (load_bytes_store m (addr + 4 * i) (pixel_bytes q)).
  - rewrite <-(Hl j p Hj). apply load_bytes_ext. intros x Hx. apply store_bytes_outside.
    change (len (pixel_bytes q)) with 4. lia.
Qed.

Lemma read_pixels_holds m addr l : holds m addr l → read_pixels (length l) m addr = l.
Proof.
  intros Hl. apply list_eq. intros i. unfold read_pixels. rewrite list_lookup_fmap.
  destruct (decide (i < length l)%nat) as [Hi|Hi].
  - rewrite (lookup_seq_lt 0) by done. cbn [fmap option_fmap option_map Nat.add].
    destruct (lookup_lt_is_Some_2 l i Hi) as [p Hp]. rewrite Hp. specialize (Hl i p Hp). rewrite load_pixel in Hl.
    destruct p as [pr pg pb pa]. injection Hl as -> -> -> ->. done.
  - rewrite (lookup_seq_ge 0) by lia. rewrite lookup_ge_None_2 by lia. done.
Qed.

Lemma fill_holds n m addr :
  holds (fold_left (λ m i, store_bytes m (addr + 4 * i) (pixel_bytes GREY)) (range 0 (Z.of_nat n)) m) addr (replicate n GREY).
Proof.
  induction n as [|n IH]; [done|]. unfold range in *. rewrite Z.sub_0_r in *.
  rewrite seqZ_S, fold_left_app, Z.add_0_l. cbn [fold_left]. set (m' := fold_left _ _ _) in *. intros i p [-> Hi]%lookup_replicate.
  destruct (decide (i = n)) as [->|Hne].
  - apply (load_bytes_store _ _ (pixel_bytes GREY)). by repeat constructor.
  - rewrite <-(IH i GREY) by (apply lookup_replicate; split; [done|lia]). apply load_bytes_ext. intros q Hq.
    apply store_bytes_outside. change (len (pixel_bytes GREY)) with 4. lia.
Qed.

(** ** The messages are understood *)
Lemma parse_attach addr : fits 64 addr →
  parse (message_bytes (MAttach {| attach_header := hdr VirtioGpuCtrlType.VirtioGpuCmdResourceAttachBacking 0; attach_resource_id := 1;
    attach_nr_entries := 1; attach_addr := addr; attach_length := 5760000; attach_padding := 0 |})) = Some (Attach 1 addr 5760000).
Proof.
  intros Ha. cbn [message_bytes]. set (bs := to_bytes _).
  set (fs := [(4%nat, 1); (4%nat, 1); (8%nat, addr); (4%nat, 5760000); (4%nat, 0)]).
  assert (decode [4%nat] bs = [0x106]) as E1.
  { apply (decode_encode [(4%nat, 0x106)] (encode (tail (hdr_fields (hdr VirtioGpuCtrlType.VirtioGpuCmdResourceAttachBacking 0)) ++ fs))).
    constructor; [by split; vm_compute|constructor]. }
  assert (decode ([4; 4; 8; 4; 4] ++ [4; 4; 8; 4; 4])%nat bs = [0x106; 0; 0; 0; 0; 1; 1; addr; 5760000; 0]) as E2.
  { pose proof (decode_message VirtioGpuCtrlType.VirtioGpuCmdResourceAttachBacking 0 fs []) as Hd. rewrite app_nil_r in Hd.
    apply Hd; [by split; vm_compute|]. unfold fs, fits in *. repeat constructor; cbn; lia. }
  unfold parse. rewrite E1, E2. done.
Qed.

Section screen.
(** The display at the origin, and the address of its pages. *)
Context (rect : VirtioGpuRect) (addr : Z) (Hx : x rect = 0) (Hy : y rect = 0) (Ha : fits 64 addr).

Lemma screen_rect : Drive.screen rect = {| x := 0; y := 0; GpuTypes.w := 1600; GpuTypes.h := 900 |}.
Proof. unfold Drive.screen. by rewrite Hx, Hy. Qed.

Lemma parse_transfer : parse (message_bytes (Drive.transfer rect)) = Some (Transfer (Drive.screen rect) 0 1).
Proof. unfold Drive.transfer. rewrite screen_rect. by vm_compute. Qed.
Lemma parse_flush : parse (message_bytes (Drive.flush rect)) = Some (Flush (Drive.screen rect) 1).
Proof. unfold Drive.flush. rewrite screen_rect. by vm_compute. Qed.

(** The first three messages make the resource, back it and scan it out. *)
Lemma setup_resource s :
  copying s = None →
  fold_left (λ s msg, receive msg s) (take 3 (Drive.setup_2d rect addr)) s =
  {| pages := pages s;
     device := {| resources := <[1 := {| res_width := 1600; res_height := 900; backing := Some (addr, 5760000); image := dark |}]> (resources (device s));
                  scanout := Some (Drive.screen rect, 1); shown := shown (device s) |};
     copying := None |}.
Proof.
  intros Hc. unfold Drive.setup_2d. cbn [take fold_left]. unfold Drive.capacity. rewrite !screen_rect. cbn [GpuTypes.w GpuTypes.h].
  unfold receive at 3. rewrite Hc.
  replace (parse _) with (Some (Create 1 1600 900)) by by vm_compute.
  unfold receive at 2. cbn [copying]. change (wrap 32 (4 * wrap 32 (1600 * 900))) with 5760000. rewrite parse_attach by done.
  unfold receive. cbn [copying].
  replace (parse _) with (Some (SetScanout {| x := 0; y := 0; GpuTypes.w := 1600; GpuTypes.h := 900 |} 1)) by by vm_compute.
  cbn [pages device execute resources scanout shown]. by rewrite alter_insert_eq.
Qed.

(** What is shown, as far as the screen goes: in each row, that row of a picture. *)
Definition shows (rows : list (list RGBA)) (f : Z → Z → list Z) : Prop :=
  ∀ px py, 0 ≤ px < WIDTH → 0 ≤ py < HEIGHT →
    ∃ l q, rows !! Z.to_nat py = Some l ∧ l !! Z.to_nat (px + py * WIDTH) = Some q ∧ f px py = pixel_bytes q.

(** The rows of the device's image: those copied so far, and the others as the last
    transfer left them. *)
Definition in_image (p : pictures) : list (list RGBA) :=
  let rows := default [] (copied p) in rows ++ drop (length rows) (sent p).

Record system_inv (p : pictures) (s : system) : Prop := {
  si_drawn : len (drawn p) = WIDTH * HEIGHT ∧ holds (pages s) addr (drawn p);
  si_scanout : scanout (device s) = Some (Drive.screen rect, 1);
  si_copying : copying s = (λ rows, (Drive.screen rect, 0, 1, len rows)) <$> copied p;
  si_image : ∃ rs, resources (device s) !! 1 = Some rs ∧ res_width rs = WIDTH ∧ (∃ n, backing rs = Some (addr, n)) ∧
    shows (in_image p) (image rs);
  si_visible : shows (visible p) (shown (device s))
}.

Lemma inside_screen px py : 0 ≤ px < WIDTH → 0 ≤ py < HEIGHT → inside (Drive.screen rect) px py = true.
Proof. intros. rewrite screen_rect. unfold inside, WIDTH, HEIGHT in *. cbn [x y GpuTypes.w GpuTypes.h]. lia. Qed.

Lemma take_transfer p s : system_inv p s → system_inv (spec_step p TakeTransfer) (happen rect addr s TakeTransfer).
Proof.
  intros [Hd Hs Hc Hi Hv]. cbn [spec_step happen]. unfold receive. rewrite Hc.
  destruct (copied p) as [rows|] eqn:Ep; cbn [fmap option_fmap option_map]; [by constructor; rewrite ?Ep|].
  rewrite parse_transfer. constructor; [done..| |done]. unfold in_image in Hi. rewrite Ep in Hi. exact Hi.
Qed.

Lemma take_flush p s : system_inv p s → system_inv (spec_step p TakeFlush) (happen rect addr s TakeFlush).
Proof.
  intros [Hd Hs Hc Hi Hv]. cbn [spec_step happen]. unfold receive. rewrite Hc.
  destruct (copied p) as [rows|] eqn:Ep; cbn [fmap option_fmap option_map]; [by constructor; rewrite ?Ep|].
  rewrite parse_flush. unfold in_image in Hi. rewrite Ep in Hi. pose proof Hi as (rs & Hr & Hwd & Hb & Hsh).
  cbn [execute]. rewrite Hs, Hr. cbn [Z.eqb Pos.eqb]. constructor; cbn [pages device drawn scanout]; [done|done|done|exact Hi|].
  cbn [visible device shown]. intros px py Hpx Hpy. rewrite !screen_rect. cbn [x y].
  rewrite !Z.add_0_l, <-screen_rect, inside_screen by done. by apply Hsh.
Qed.

Lemma lookup_next_row {A} (rows sent : list A) d k :
  k ≠ length rows → ((rows ++ [d]) ++ drop (length (rows ++ [d])) sent) !! k = (rows ++ drop (length rows) sent) !! k.
Proof.
  intros Hk. rewrite <-app_assoc, length_app. destruct (decide (k < length rows)%nat) as [Hlt|Hge].
  - by rewrite !lookup_app_l.
  - rewrite !lookup_app_r by (cbn [length]; lia). rewrite !lookup_drop. f_equal. cbn [length]. lia.
Qed.

(** The row of the picture in memory gets to the image. *)
Lemma copied_shows m rows p img :
  len (drawn p) = WIDTH * HEIGHT → holds m addr (drawn p) → shows (rows ++ drop (length rows) (sent p)) img →
  shows ((rows ++ [drawn p]) ++ drop (length (rows ++ [drawn p])) (sent p))
    (λ px py, if inside (Drive.screen rect) px py && (py =? y (Drive.screen rect) + len rows)
              then transferred m addr 0 WIDTH (Drive.screen rect) px py else img px py).
Proof.
  intros Hl Hh Hi px py Hpx Hpy. rewrite inside_screen by done. rewrite screen_rect. cbn [x y andb].
  destruct (Z.eqb_spec py (0 + len rows)) as [->|Hne]; cbn [Z.add].
  - rewrite Z.add_0_l in *. exists (drawn p).
    destruct (lookup_lt_is_Some_2 (drawn p) (Z.to_nat (px + len rows * WIDTH))) as [q Hq]; [unfold len, WIDTH, HEIGHT in *; lia|].
    exists q. split; [|split; [done|]].
    + unfold len. rewrite Nat2Z.id, <-app_assoc, lookup_app_r, Nat.sub_diag by lia. done.
    + rewrite <-(Hh _ _ Hq). unfold transferred. cbn [x y]. f_equal. unfold WIDTH, HEIGHT in *. lia.
  - destruct (Hi px py Hpx Hpy) as (l & q & Hr & Hq & E). exists l, q. split; [|done].
    rewrite lookup_next_row; [done|]. unfold len in Hne. lia.
Qed.

Lemma shows_app rows rest f : HEIGHT ≤ len rows → shows (rows ++ rest) f → shows rows f.
Proof.
  intros Hh Hs px py Hpx Hpy. destruct (Hs px py Hpx Hpy) as (l & q & Hr & Hq). exists l, q. split; [|done].
  rewrite lookup_app_l in Hr; [done|]. unfold len in Hh. lia.
Qed.

Lemma take_row p s : system_inv p s → system_inv (spec_step p CopyRow) (happen rect addr s CopyRow).
Proof.
  intros [[Hl Hh] Hs Hc (rs & Hr & Hwd & [n Hb] & Hi) Hv]. cbn [spec_step happen]. unfold continue. rewrite Hc.
  destruct (copied p) as [rows|] eqn:Ep; cbn [fmap option_fmap option_map];
    [|constructor; rewrite ?Ep; [done..| |done]; exists rs; by eauto].
  unfold in_image in Hi. rewrite Ep in Hi. cbn [default] in Hi. pose proof (copied_shows (pages s) rows p (image rs) Hl Hh Hi) as Hi'.
  replace (GpuTypes.h (Drive.screen rect)) with HEIGHT by by rewrite screen_rect.
  rewrite len_app, len_cons, len_nil. replace (len rows + (1 + 0)) with (len rows + 1) by lia.
  destruct (Z.ltb_spec (len rows + 1) HEIGHT) as [Hlt|Hge].
  - constructor; cbn [pages device copying drawn copied visible copy_row scanout shown]; [done|done| | |done].
    + cbn [fmap option_fmap option_map]. do 2 f_equal. unfold len. rewrite length_app. cbn [length]. lia.
    + cbn [copy_row resources]. rewrite lookup_alter_eq, Hr. cbn [fmap option_fmap option_map]. eexists. split; [done|]. rewrite Hb.
      cbn [res_width backing image]. split; [done|]. split; [by exists n|]. rewrite Hwd. exact Hi'.
  - constructor; cbn [pages device copying drawn copied visible copy_row scanout shown]; [done|done|done| |done].
    cbn [copy_row resources]. rewrite lookup_alter_eq, Hr. cbn [fmap option_fmap option_map]. eexists. split; [done|]. rewrite Hb.
    cbn [res_width backing image]. split; [done|]. split; [by exists n|]. rewrite Hwd. unfold in_image. cbn [copied sent default app length drop].
    rewrite drop_0. apply (shows_app _ (drop (length (rows ++ [drawn p])) (sent p))); [rewrite len_app, len_cons, len_nil; lia|exact Hi'].
Qed.

Lemma happen_inv p s e : event_ok e → system_inv p s → system_inv (spec_step p e) (happen rect addr s e).
Proof.
  destruct e as [i q| | |]; cbn [event_ok]; intros He Hi; [|by apply take_transfer|by apply take_row|by apply take_flush].
  destruct He as [Hi0 Hq], Hi as [[Hl Hh] Hs Hc Him Hv]. constructor; [|done..]. cbn [spec_step happen drawn pages].
  split; [by rewrite len_insert|]. apply store_holds; [lia|done|done].
Qed.

(** Painting the pixels makes the grey picture. *)
Lemma paint_holds m : holds (paint rect addr m) addr (picture GREY).
Proof.
  unfold paint, Drive.capacity. rewrite screen_rect. cbn [GpuTypes.w GpuTypes.h].
  change (wrap 32 (1600 * 900)) with (WIDTH * HEIGHT). unfold picture.
  rewrite <-(Z2Nat.id (WIDTH * HEIGHT)) at 1 by (unfold WIDTH, HEIGHT; lia). apply fill_holds.
Qed.

Lemma len_picture q : len (picture q) = WIDTH * HEIGHT.
Proof. unfold picture, len. rewrite length_replicate. apply Z2Nat.id. unfold WIDTH, HEIGHT. lia. Qed.

Lemma dark_black : shows black dark.
Proof.
  intros px py Hpx Hpy. exists (picture (Pixel 0 0 0 0)), (Pixel 0 0 0 0). unfold black, picture, WIDTH, HEIGHT in *.
  split; [|split; [|done]]; apply lookup_replicate; (split; [done|lia]).
Qed.

(** The start-up ends with the grey picture in memory and a dark screen. *)
Lemma bring_up_inv m : system_inv spec_start (bring_up rect addr {| pages := m; device := off; copying := None |}).
Proof.
  unfold bring_up. rewrite setup_resource by done. cbn [resources off shown pages device copying].
  constructor; cbn [pages device copying drawn copied visible spec_start scanout shown]; [|done|done| |exact dark_black].
  - split; [apply len_picture|apply paint_holds].
  - cbn [resources]. rewrite lookup_insert_eq. eexists. split; [done|]. cbn [res_width backing image].
    split; [done|]. split; [by eexists|]. exact dark_black.
Qed.

Lemma happens_inv es s p :
  Forall event_ok es → system_inv p s → system_inv (fold_left spec_step es p) (fold_left (happen rect addr) es s).
Proof.
  intros He. revert s p; induction He as [|e es He Hes IH]; intros s p Hp; [done|]. cbn [fold_left]. by apply IH, happen_inv.
Qed.
End screen.

(** A transfer that nothing interferes with takes one picture. *)
Lemma copies_finish n p rows :
  copied p = Some rows → len rows + Z.of_nat n = HEIGHT → (0 < n)%nat →
  fold_left spec_step (replicate n CopyRow) p =
    {| drawn := drawn p; copied := None; sent := rows ++ replicate n (drawn p); visible := visible p |}.
Proof.
  revert p rows; induction n as [|n IH]; intros p rows Hp Hl Hn; [lia|]. cbn [replicate fold_left spec_step]. rewrite Hp.
  assert (len (rows ++ [drawn p]) = len rows + 1) as El by (rewrite len_app, len_cons, len_nil; lia). rewrite El.
  destruct n as [|n].
  - cbn [replicate fold_left]. rewrite (proj2 (Z.ltb_ge _ _)) by lia. done.
  - rewrite (proj2 (Z.ltb_lt _ _)) by lia. rewrite (IH _ (rows ++ [drawn p])); [|done|lia|lia].
    cbn [drawn visible]. by rewrite <-app_assoc.
Qed.

Lemma undisturbed n p :
  copied p = None → Z.of_nat n = HEIGHT →
  sent (fold_left spec_step (TakeTransfer :: replicate n CopyRow) p) = replicate n (drawn p).
Proof.
  intros Hp Hn. cbn [fold_left spec_step]. rewrite Hp.
  rewrite (copies_finish n _ []); [done|done|rewrite len_nil; lia|unfold HEIGHT in Hn; lia].
Qed.

(** ** The screen shows the frames *)

(** C3: what the applications draw gets to the screen, row by row. From the
    start-up on, however the stores of the applications, the messages of the two
    refresh loops and the rows of the device's transfers interleave: the vector of
    [FB], which the applications draw in, is the memory behind the device's resource
    and holds every pixel last stored; and each row of the screen shows, pixel for
    pixel at the index [x + y * 1600] the applications draw at and byte for byte, the
    picture that was in memory when the last transfer before the last flush copied
    that row (black at first). A transfer during which nothing is stored takes one
    picture whole; nothing in the driver keeps it from being torn otherwise. *)
Theorem screen_shows_frames rect addr m fb es :
  x rect = 0 → y rect = 0 → fits 64 addr → Forall event_ok es →
  let s := fold_left (happen rect addr) es (bring_up rect addr {| pages := m; device := off; copying := None |}) in
  let p := fold_left spec_step es spec_start in
  FBImpl.share (shared_framebuffer rect (pages s) addr fb) = (drawn p, 1600, 900) ∧
  (∀ px py, 0 ≤ px < 1600 → 0 ≤ py < 900 →
    ∃ l q, visible p !! Z.to_nat py = Some l ∧ l !! Z.to_nat (px + py * 1600) = Some q ∧ shown (device s) px py = pixel_bytes q) ∧
  (∀ n, copied p = None → Z.of_nat n = 900 → sent (fold_left spec_step (TakeTransfer :: replicate n CopyRow) p) = replicate n (drawn p)).
Proof.
  intros Hx Hy Ha He s p. split; [|split; [|exact (λ n, undisturbed n p)]].
  - destruct (happens_inv rect addr Hx Hy es _ _ He (bring_up_inv rect addr Hx Hy Ha m)) as [[Hl Hh] _ _ _ _].
    fold s p in Hl, Hh. unfold FBImpl.share, shared_framebuffer, FBImpl.update, Drive.capacity. rewrite screen_rect by done.
    cbn [pixels Framebuffer.w Framebuffer.h GpuTypes.w GpuTypes.h].
    change (wrap 32 (1600 * 900)) with (WIDTH * HEIGHT). change (900 *u[64] 1600) with (WIDTH * HEIGHT).
    rewrite <-Hl. unfold len. rewrite Nat2Z.id, read_pixels_holds by exact Hh. by rewrite firstn_all.
  - exact (si_visible _ _ _ _ (happens_inv rect addr Hx Hy es _ _ He (bring_up_inv rect addr Hx Hy Ha m))).
Qed.

(** *** At a concrete input: two red pixels, the upper first, stored after the first
    row of a transfer was copied *)
Definition RED : RGBA := Pixel 255 0 0 255.
Definition LAST_ROW : Z := 899 * 1600.
Definition torn : list event :=
  [TakeTransfer; CopyRow; Store 0 RED; Store LAST_ROW RED] ++ replicate 899 CopyRow ++ [TakeFlush].
Definition at_origin : VirtioGpuRect := {| x := 0; y := 0; GpuTypes.w := 1280; GpuTypes.h := 800 |}.

Lemma RED_ok : RGBA_ok RED.
Proof. unfold RGBA_ok, RED, pixel_bytes, fits. cbn. repeat constructor; lia. Qed.

Lemma torn_ok : Forall event_ok torn.
Proof.
  unfold torn. apply Forall_app. split; [|apply Forall_app; split; [by apply Forall_replicate|by constructor]].
  pose proof RED_ok. repeat constructor; cbn [event_ok]; unfold LAST_ROW, WIDTH, HEIGHT; (done || lia).
Qed.

(** The screen shows a picture that was never in memory. *)
Lemma torn_steps i q j q' n p :
  copied p = None → Z.of_nat n + 1 = HEIGHT → (0 < n)%nat →
  let d := <[Z.to_nat j := q']> (<[Z.to_nat i := q]> (drawn p)) in
  visible (fold_left spec_step ([TakeTransfer; CopyRow; Store i q; Store j q'] ++ replicate n CopyRow ++ [TakeFlush]) p) =
    drawn p :: replicate n d.
Proof.
  intros Hp Hn Hpos d. rewrite !fold_left_app. cbn [fold_left spec_step]. rewrite Hp. cbn [copied app].
  rewrite len_cons, len_nil. rewrite (proj2 (Z.ltb_lt _ _)) by (unfold HEIGHT; lia). cbn [drawn copied sent visible].
  rewrite (copies_finish n _ [drawn p]); [done|done|rewrite len_cons, len_nil; lia|done].
Qed.

Definition no_pixels : FB := {| pixels := []; backbuffer := []; Framebuffer.w := 0; Framebuffer.h := 0 |}.

(** The upper red pixel is missing, the lower is there. *)
Lemma screen_shows_frames_witness :
  let s := fold_left (happen at_origin 0x200000) torn (bring_up at_origin 0x200000 {| pages := ∅; device := off; copying := None |}) in
  FBImpl.share (shared_framebuffer at_origin (pages s) 0x200000 no_pixels) = (drawn (fold_left spec_step torn spec_start), 1600, 900) ∧
  shown (device s) 0 0 = pixel_bytes GREY ∧ shown (device s) 0 899 = pixel_bytes RED.
Proof.
  intros s. destruct (screen_shows_frames at_origin 0x200000 ∅ no_pixels torn) as (Hs & Hv & _);
    [reflexivity|reflexivity|unfold fits; lia|exact torn_ok|].
  split; [exact Hs|]. unfold torn in Hv. rewrite (torn_steps 0 RED LAST_ROW RED 899 spec_start) in Hv by (unfold HEIGHT; (reflexivity || lia)).
  change (drawn spec_start) with (picture GREY) in Hv. split.
  - destruct (Hv 0 0 ltac:(lia) ltac:(lia)) as (l & q & Hl & Hq & E). refine (eq_trans E (f_equal pixel_bytes _)).
    injection Hl as <-. apply lookup_replicate in Hq as [Hq _]. exact Hq.
  - destruct (Hv 0 899 ltac:(lia) ltac:(lia)) as (l & q & Hl & Hq & E). refine (eq_trans E (f_equal pixel_bytes _)).
    change (Z.to_nat 899) with (S 898) in Hl. cbn [lookup list_lookup] in Hl. apply lookup_replicate in Hl as [-> _].
    change (0 + 899 * 1600) with LAST_ROW in Hq. rewrite list_lookup_insert_eq in Hq; [by injection Hq as <-|].
    rewrite length_insert. pose proof (len_picture GREY) as Hlen. unfold len, WIDTH, HEIGHT, LAST_ROW in *. lia.
Defined.
