(* ===== verification/Processor.v ===== *)
(** One processor with spin locks and maskable interrupts: the programs of the
    kernel as sequences of the steps that matter to a lock, and when such
    programs can be interrupted without ever spinning on a lock that nobody will
    release. Used for the log ([logger.rs]) and the timer wakers
    ([interrupts.rs]).

    An interrupt enters its handler through an interrupt gate, which disables
    interrupts; returning from it enables them again. Exceptions, which cannot be
    masked and whose handlers panic, are left out. *)
From S2P Require Import Prelude.

Section machine.
(** Locks, the state that the steps work on, and what they output. *)
Context {L S E : Type} `{EqDecision L}.

(** [Save] and [Restore] are the two ends of [without_interrupts]. *)
Inductive op :=
| Save | Restore
| Acquire (l : L) | Release (l : L)
| Put (e : E)
| Do (f : M S unit).

(** The interrupt flag, the flags that the current program has saved, and the
    locks held. *)
Record ctl := Ctl { enabled : bool; saved : list bool; held : list L }.

(** What a step does to them; nothing for a lock that is held. *)
Definition ctl_op (o : op) (c : ctl) : option ctl :=
  match o with
  | Save => Some (Ctl false (enabled c :: saved c) (held c))
  | Restore =>
      match saved c with
      | [] => None
      | b :: s => Some (Ctl (b || enabled c) s (held c))
      end
  | Acquire l => if decide (l ∈ held c) then None else Some (Ctl (enabled c) (saved c) (l :: held c))
  | Release l => Some (Ctl (enabled c) (saved c) (filter (.≠ l) (held c)))
  | Put _ | Do _ => Some c
  end.

Definition output (o : op) : list E := match o with Put e => [e] | _ => [] end.
Definition effect (o : op) (d : S) : res S := match o with Do f => '(_, d) ← f d; mret d | _ => mret d end.

(** The program running, and below it the interrupted ones with the flags they
    had saved. *)
Record machine := Machine {
  cur : list op; ctl_of : ctl; below : list (list op * list bool); data : S; out : list E
}.

Inductive step (handler : list op → Prop) : machine → machine → Prop :=
| step_op o p c c' b d d' ou :
    ctl_op o c = Some c' → effect o d = Ok d' →
    step handler (Machine (o :: p) c b d ou) (Machine p c' b d' (ou ++ output o))
| step_interrupt h p c b d ou :
    enabled c = true → handler h →
    step handler (Machine p c b d ou) (Machine h (Ctl false [] (held c)) ((p, saved c) :: b) d ou)
| step_return c p sv b d ou :
    step handler (Machine [] c ((p, sv) :: b) d ou) (Machine p (Ctl true sv (held c)) b d ou).

(** A task at its start. *)
Definition boot (p : list op) (d : S) : machine := Machine p (Ctl true [] []) [] d [].

(** The next step waits for a lock that is held; on one processor its holder is
    the waiting program itself or one that it interrupted. *)
Definition spins (m : machine) : Prop := ∃ l p, cur m = Acquire l :: p ∧ l ∈ held (ctl_of m).

(** ** Programs that can be interrupted *)

(** The units of output that must not be split. *)
Context (unit_ : list E → Prop).
Definition whole (l : list E) : Prop := ∃ ls, Forall unit_ ls ∧ l = concat ls.

Lemma whole_nil : whole [].
Proof. by exists []. Qed.
Lemma whole_one l : unit_ l → whole l.
Proof. intros Hl. exists [l]. split; [by constructor|]. cbn. by rewrite app_nil_r. Qed.
Lemma whole_app l k : whole l → whole k → whole (l ++ k).
Proof. intros (ls & H1 & ->) (ks & H2 & ->). exists (ls ++ ks). split; [by apply Forall_app|]. by rewrite concat_app. Qed.

(** The output up to the next point where interrupts are enabled. *)
Fixpoint pending (c : ctl) (p : list op) : list E :=
  match p with
  | [] => []
  | o :: p =>
      if enabled c then []
      else output o ++ match ctl_op o c with Some c' => pending c' p | None => [] end
  end.

(** The program takes [c] to [e], never waits for a lock, and where interrupts are
    enabled it holds no lock and has no unit of output half done. *)
Fixpoint safe (c e : ctl) (p : list op) : Prop :=
  match p with
  | [] => c = e
  | o :: p =>
      (enabled c = true → held c = [] ∧ output o = []) ∧
      match ctl_op o c with
      | None => False
      | Some c' => (enabled c = true → enabled c' = false → whole (pending c' p)) ∧ safe c' e p
      end
  end.

Lemma pending_enabled c p : enabled c = true → pending c p = [].
Proof. destruct p; [done|]. cbn. by intros ->. Qed.

Lemma pending_app c e p q :
  safe c e p →
  pending c (p ++ q) = pending c p ∨ enabled e = false ∧ pending c (p ++ q) = pending c p ++ pending e q.
Proof.
  revert c; induction p as [|o p IH]; intros c; cbn.
  - intros ->. destruct (enabled e) eqn:Ee; [left; by apply pending_enabled|by right].
  - intros [_ Hs]. destruct (enabled c); [by left|]. destruct (ctl_op o c) as [c'|]; [|done].
    destruct Hs as [_ Hs]. destruct (IH c' Hs) as [->|[He ->]]; [by left|right; by rewrite app_assoc].
Qed.

Lemma safe_app c e e' p q :
  safe c e p → safe e e' q → (enabled e = false → whole (pending e q)) → safe c e' (p ++ q).
Proof.
  intros Hp Hq Hw. revert c Hp; induction p as [|o p IH]; intros c; cbn; [by intros ->|].
  intros [H1 Hs]. split; [done|]. destruct (ctl_op o c) as [c'|]; [|done]. destruct Hs as [H2 Hs].
  split; [|by apply IH]. intros Hc Hc'. destruct (pending_app c' e p q Hs) as [->|[He ->]]; [by apply H2|].
  apply whole_app; [by apply H2|by apply Hw].
Qed.

Lemma safe_cons o c c' e p : enabled c = false → ctl_op o c = Some c' → safe c' e p → safe c e (o :: p).
Proof. intros Hc Ho Hs. cbn. by rewrite Hc, Ho. Qed.
Lemma pending_cons o c c' p : enabled c = false → ctl_op o c = Some c' → pending c (o :: p) = output o ++ pending c' p.
Proof. intros Hc Ho. cbn. by rewrite Hc, Ho. Qed.

(** A loop of steps that leave the locks alone. *)
Lemma safe_fmap {A} (f : A → op) xs c e p :
  enabled c = false → (∀ x, ctl_op (f x) c = Some c) → safe c e p → safe c e ((f <$> xs) ++ p).
Proof. intros Hc Hf Hs. induction xs as [|x xs IH]; [done|]. by eapply safe_cons. Qed.
Lemma pending_fmap {A} (f : A → op) xs c p :
  enabled c = false → (∀ x, ctl_op (f x) c = Some c) →
  pending c ((f <$> xs) ++ p) = (xs ≫= λ x, output (f x)) ++ pending c p.
Proof.
  intros Hc Hf. induction xs as [|x xs IH]; [done|]. cbn [fmap list_fmap app mbind list_bind].
  rewrite (pending_cons _ _ c) by done. by rewrite IH, app_assoc.
Qed.

(** ** The invariant *)

(** How a program ends: a task as it started, a handler with interrupts disabled. *)
Definition entry : ctl := Ctl false [] [].
Definition end_of (b : list (list op * list bool)) : ctl := match b with [] => Ctl true [] [] | _ => entry end.

Fixpoint frames_ok (b : list (list op * list bool)) : Prop :=
  match b with
  | [] => True
  | (p, sv) :: b => safe (Ctl true sv []) (end_of b) p ∧ frames_ok b
  end.

Definition handler_ok (h : list op) : Prop := safe entry entry h ∧ whole (pending entry h).

Record inv (m : machine) : Prop := {
  inv_safe : safe (ctl_of m) (end_of (below m)) (cur m);
  inv_below : frames_ok (below m);
  inv_whole : whole (out m ++ pending (ctl_of m) (cur m))
}.

Lemma safe_held c b p : safe c (end_of b) p → enabled c = true → held c = [].
Proof. destruct p as [|o p]; cbn; [|by intros [Hs _] He; apply Hs]. intros ->. by destruct b. Qed.

Lemma step_inv handler m m' : (∀ h, handler h → handler_ok h) → step handler m m' → inv m → inv m'.
Proof.
  intros Hh Hst [Is Ib Iw]. destruct Hst as [o p c c' b d d' ou Ec Ed|h p c b d ou Ee Hha|c p sv b d ou]; cbn in *.
  - rewrite Ec in Is. destruct Is as (H1 & H2 & Hs). constructor; cbn; [done..|].
    destruct (enabled c) eqn:Ee.
    + destruct H1 as [_ ->]; [done|]. rewrite app_nil_r. rewrite app_nil_r in Iw. apply whole_app; [done|].
      destruct (enabled c') eqn:Ee'; [rewrite pending_enabled by done; apply whole_nil|by apply H2].
    + rewrite Ec in Iw. by rewrite <-app_assoc.
  - pose proof (safe_held c b p Is Ee) as Hheld. destruct c as [en sv he]. cbn in *. subst en he.
    destruct (Hh h Hha) as [Hhs Hhw]. constructor; cbn; [exact Hhs|done|].
    rewrite pending_enabled, app_nil_r in Iw by done. by apply whole_app.
  - subst c. destruct Ib as [Hs Hb]. constructor; cbn; [done..|]. by rewrite pending_enabled.
Qed.

Lemma reach_inv handler p d m :
  (∀ h, handler h → handler_ok h) → safe (Ctl true [] []) (Ctl true [] []) p → rtc (step handler) (boot p d) m → inv m.
Proof.
  intros Hh Hp Hr. assert (inv (boot p d)) as Hi.
  { constructor; cbn; [done..|]. rewrite pending_enabled by done. apply whole_nil. }
  induction Hr as [|m1 m2 m3 H1 _ IH]; [done|]. apply IH. by eapply step_inv.
Qed.

Lemma inv_no_spin m : inv m → ¬ spins m.
Proof.
  intros [Is _ _] (l & p & Ep & Hl). rewrite Ep in Is. cbn in Is. destruct Is as [_ Is].
  by rewrite decide_True in Is by done.
Qed.

Lemma inv_enabled_whole m : inv m → enabled (ctl_of m) = true → whole (out m).
Proof. intros [_ _ Iw] He. by rewrite pending_enabled, app_nil_r in Iw by done. Qed.

(** The machine goes on until the task is done or a step panics. *)
Lemma inv_progress handler m :
  inv m →
  (∃ m', step handler m m') ∨ (cur m = [] ∧ below m = []) ∨ (∃ o p e, cur m = o :: p ∧ effect o (data m) = Panic e).
Proof.
  intros [Is _ _]. destruct m as [[|o p] c b d ou]; cbn in *.
  - destruct b as [|[p sv] b]; [by right; left|]. left. eexists. apply step_return.
  - destruct Is as [_ Is]. destruct (ctl_op o c) as [c'|] eqn:Ec; [|done].
    destruct (effect o d) as [d'|e] eqn:Ed; [left; eexists; by apply step_op|right; right; by exists o, p, e].
Qed.

(** ** Runs without interrupts *)
Definition run (handler : list op → Prop) : machine → machine → Prop := rtc (step handler).

Lemma run_op handler o p c c' b d d' ou m :
  ctl_op o c = Some c' → effect o d = Ok d' → run handler (Machine p c' b d' (ou ++ output o)) m →
  run handler (Machine (o :: p) c b d ou) m.
Proof. intros Ec Ed Hr. eapply rtc_l; [by apply step_op|done]. Qed.

Lemma run_puts handler xs p c b d ou m :
  run handler (Machine p c b d (ou ++ xs)) m → run handler (Machine ((Put <$> xs) ++ p) c b d ou) m.
Proof.
  revert ou; induction xs as [|x xs IH]; intros ou; [by rewrite app_nil_r|].
  intros Hr. apply (run_op _ _ _ c c _ d d); [done..|]. apply IH. by rewrite <-app_assoc.
Qed.

Lemma run_dos {A} handler (f : A → M S unit) xs p c b d ou m :
  (∀ x, f x d = Ok (tt, d)) →
  run handler (Machine p c b d ou) m → run handler (Machine (((λ x, Do (f x)) <$> xs) ++ p) c b d ou) m.
Proof.
  intros Hf Hr. induction xs as [|x xs IH]; [done|]. apply (run_op _ _ _ c c _ d d); [done| |by rewrite app_nil_r].
  cbn. by rewrite Hf.
Qed.
End machine.
Arguments op : clear implicits.
Arguments machine : clear implicits.
Arguments ctl : clear implicits.
