(* ===== verification/Logger.v ===== *)
(** The log ([bootloader/kernel/src/logger.rs], [serial.rs]) and what it shares
    with interrupt handlers ([interrupts.rs]): a line of the log takes its locks
    with interrupts disabled, so a handler can log at any time; the table of timer
    wakers is locked with interrupts enabled, by tasks and by the timer's handler.

    The programs are sequences of the steps of [Processor]. The [log] crate gives
    the levels and the pieces in which they are printed. *)
From stdpp Require Import pretty.
From S2P Require Import Prelude Interfaces IoApic LocalApic Interrupts Framebuffer Processor.

(** ** The levels *)
Module boot_config.
Inductive LevelFilter := Off | Error | Warn | Info | Debug | Trace.
End boot_config.
Module log_crate.
Inductive LevelFilter := Off | Error | Warn | Info | Debug | Trace.
End log_crate.

Definition convert_level (level : boot_config.LevelFilter) : log_crate.LevelFilter :=
  match level with
  | boot_config.Off => log_crate.Off
  | boot_config.Error => log_crate.Error
  | boot_config.Warn => log_crate.Warn
  | boot_config.Info => log_crate.Info
  | boot_config.Debug => log_crate.Debug
  | boot_config.Trace => log_crate.Trace
  end.

Class LogCrate := {
  Level : Type;
  Level_eq : EqDecision Level;
  Level_Error : Level;
  Level_Info : Level;
  (** the pieces that [{:5}] writes for a level *)
  level_pieces : Level → list (list Z)
}.
#[export] Existing Instance Level_eq.

(** ** The logger *)

(** Which of the two sinks it has; the locked writers are in the state. *)
Record LockedLogger := { framebuffer : bool; serial : bool }.

Definition new (frame_buffer_logger_status serial_logger_status : bool) : LockedLogger :=
  {| framebuffer := frame_buffer_logger_status; serial := serial_logger_status |}.

(** [LOGGER], the logger given to the [log] crate, and its maximal level. *)
Record LogState := { LOGGER : option LockedLogger; logger : option LockedLogger; max_level : log_crate.LevelFilter }.

(** [init_logger], without its own first line of log; [set_logger] fails the second time. *)
Definition init_logger (log_level : boot_config.LevelFilter) (frame_buffer_logger_status serial_logger_status : bool) : M LogState unit :=
  s ← get;
  let l := match LOGGER s with Some l => l | None => new frame_buffer_logger_status serial_logger_status end in
  match logger s with
  | Some _ => lift (Panic PUnwrap)
  | None => modify (λ _, {| LOGGER := Some l; logger := Some l; max_level := convert_level log_level |})
  end.

Inductive Lock := FramebufferLock | SerialLock | WakersLock.
#[export] Instance lock_eq_dec : EqDecision Lock.
Proof. solve_decision. Defined.

(** What interrupt handlers work on, and the writer behind the framebuffer's lock. *)
Record World (D : Type) := MkWorld { irq : istate D; screen : FrameBufferWriter }.
Arguments MkWorld {D} _ _. Arguments irq {D} _. Arguments screen {D} _.

Definition chars_of (s : string) : list Z := (λ c, Z.of_N (Ascii.N_of_ascii c)) <$> String.list_ascii_of_string s.

Section logger.
Context `{LogCrate} {D : Type} `{Mmio D} `{X86Addr}.

Abbreviation prog := (list (op Lock (World D) (list Z))).

Record LogRecord := { rlevel : Level; args : list (list Z) }.

(** The pieces of [writeln!(.., "{:5}: {}", record.level(), record.args())]. *)
Definition pieces (r : LogRecord) : list (list Z) := level_pieces (rlevel r) ++ [chars_of ": "] ++ args r ++ [[10]].

Definition on_irq {A} (m : M (istate D) A) : M (World D) unit := λ w, '(_, i) ← m (irq w); Ok (tt, MkWorld i (screen w)).
Definition on_screen (m : M FrameBufferWriter unit) : M (World D) unit := λ w, '(_, s) ← m (screen w); Ok (tt, MkWorld (irq w) s).

(** [framebuffer.level = v] *)
Definition set_level (v : Z) : M FrameBufferWriter unit :=
  modify (λ s, Writer (Framebuffer.framebuffer s) (info s) (x_pos s) (y_pos s) v).

Definition framebuffer_ops (r : LogRecord) : prog :=
  [Acquire FramebufferLock] ++
  (if decide (rlevel r = Level_Error) then [Do (on_screen (set_level 1))] else []) ++
  ((λ p, Do (on_screen (FrameBufferWriterImpl.write_str p))) <$> pieces r) ++
  [Do (on_screen (set_level 0))] ++
  [Release FramebufferLock].

(** The serial port's [write_str] hands a piece to the UART. *)
Definition serial_ops (r : LogRecord) : prog := [Acquire SerialLock] ++ (Put <$> pieces r) ++ [Release SerialLock].

(** [log], inside [without_interrupts]. *)
Definition log (l : LockedLogger) (r : LogRecord) : prog :=
  [Save] ++
  (if framebuffer l then framebuffer_ops r else []) ++
  (if serial l then serial_ops r else []) ++
  [Restore].

(** [force_unlock] *)
Definition force_unlock (l : LockedLogger) : prog :=
  (if framebuffer l then [Release FramebufferLock] else []) ++ (if serial l then [Release SerialLock] else []).

(** ** The handlers of maskable interrupts *)
Definition info (text : list (list Z)) : LogRecord := {| rlevel := Level_Info; args := text |}.
Definition line_text (n : Z) : list Z := chars_of ("______ioapic_handler_" +:+ pretty n +:+ "_____").

Definition timer_ops : prog :=
  [Do (on_irq InterruptsImpl.eoi); Do (on_irq InterruptsImpl.tick);
   Acquire WakersLock; Do (on_irq InterruptsImpl.wake_all); Release WakersLock].

(** The steps of a handler; [red] is the text of the redirection entry that the
    handler of line 1 logs. Exceptions are not interrupts. *)
Definition handler_ops (l : LockedLogger) (red : list (list Z)) (h : Handler) : prog :=
  match h with
  | lapic_timer => timer_ops
  | lapic_timer2 => log l (info [chars_of "timer2"])
  | generic_handler => log l (info [chars_of "______generic_handler_____"])
  | ioapic_handler n =>
      if n =? 1 then
        log l (info [line_text 1]) ++
        [Do (on_irq (a ← InterruptsImpl.ioa; InterruptsImpl.on_mmio (IoApicImpl.read_redtlb a 1)))] ++
        log l (info red) ++
        [Do (on_irq InterruptsImpl.eoi)]
      else if n =? 2 then [Do (on_irq (InterruptsImpl.handle_line 2))]
      else log l (info [line_text n]) ++ [Do (on_irq (InterruptsImpl.handle_line n))]
  | _ => []
  end.

(** The programs that may interrupt, for the texts [shows] of an entry. *)
Definition maskable (shows : list (list Z) → Prop) (l : LockedLogger) (p : prog) : Prop :=
  ∃ v h red, 32 ≤ v < 256 ∧ IDT !! v = Some h ∧ shows red ∧ p = handler_ops l red h.

(** ** Tasks *)

(** What a task does: log, work without a lock, or register the waker of a timer. *)
Inductive item := Log (r : LogRecord) | Work (f : M (World D) unit) | AddWaker (task : Z).

(** [add_waker], under the lock of the table. *)
Definition add_waker_ops (task : Z) : prog :=
  [Acquire WakersLock; Do (on_irq (InterruptsImpl.add_waker task)); Release WakersLock].

Definition item_ops (l : LockedLogger) (i : item) : prog :=
  match i with Log r => log l r | Work f => [Do f] | AddWaker task => add_waker_ops task end.
End logger.

(** ** Properties *)
Section proofs.
Context `{LogCrate} {D : Type} `{Mmio D} `{X86Addr}.
Context (l : LockedLogger) (shows : list (list Z) → Prop).

Abbreviation prog := (list (op Lock (World D) (list Z))).
Abbreviation state := (machine Lock (World D) (list Z)).

(** What the serial port gets for a record. *)
Definition line (r : LogRecord) : list (list Z) := if serial l then pieces r else [].

Lemma puts_output {L S E} (xs : list E) : (xs ≫= λ x, output (L:=L) (S:=S) (Put x)) = xs.
Proof. induction xs as [|x xs IH]; [done|]. cbn. by f_equal. Qed.
Lemma does_output {L S E A} (f : A → M S unit) (xs : list A) : (xs ≫= λ x, output (L:=L) (E:=E) (Do (f x))) = [].
Proof. by induction xs. Qed.

Section whole.
Context (unit_ : list (list Z) → Prop).

Lemma framebuffer_safe (s : list bool) (r : LogRecord) e (p : prog) :
  let c := Ctl false s [] in
  (safe unit_ c e p → safe unit_ c e (framebuffer_ops r ++ p)) ∧ pending c (framebuffer_ops r ++ p) = pending c p.
Proof.
  intros c. set (c1 := Ctl false s [FramebufferLock]). unfold framebuffer_ops. rewrite <-!app_assoc. cbn [app]. split.
  - intros Hp. apply (safe_cons unit_ _ _ c1); [done..|]. destruct (decide _); cbn [app]; rewrite <-?app_assoc; cbn [app];
      try (apply (safe_cons unit_ _ _ c1); [done..|]); (apply safe_fmap; [done..|]);
      (apply (safe_cons unit_ _ _ c1); [done..|]); by apply (safe_cons unit_ _ _ c).
  - rewrite (pending_cons _ _ c1) by done. destruct (decide _); cbn [app]; rewrite ?(pending_cons _ c1 c1) by done;
      rewrite pending_fmap, does_output by done; rewrite (pending_cons _ c1 c1) by done; by rewrite (pending_cons _ c1 c).
Qed.

Lemma serial_safe (s : list bool) (r : LogRecord) e (p : prog) :
  let c := Ctl false s [] in
  (safe unit_ c e p → safe unit_ c e (serial_ops r ++ p)) ∧ pending c (serial_ops r ++ p) = pieces r ++ pending c p.
Proof.
  intros c. set (c1 := Ctl false s [SerialLock]). unfold serial_ops. rewrite <-!app_assoc. cbn [app]. split.
  - intros Hp. apply (safe_cons unit_ _ _ c1); [done..|]. apply safe_fmap; [done..|]. by apply (safe_cons unit_ _ _ c).
  - rewrite (pending_cons _ _ c1) by done. rewrite pending_fmap, puts_output by done. by rewrite (pending_cons _ c1 c).
Qed.

(** A line of the log can be interrupted before and after it only, and its
    output is one line. *)
Lemma log_body (s : list bool) (r : LogRecord) e (p : prog) :
  let c := Ctl false s [] in
  (safe unit_ c e p → safe unit_ c e ((if framebuffer l then framebuffer_ops r else []) ++ (if serial l then serial_ops r else []) ++ p)) ∧
  pending c ((if framebuffer l then framebuffer_ops r else []) ++ (if serial l then serial_ops r else []) ++ p) = line r ++ pending c p.
Proof.
  intros c. unfold line. set (q := (if serial l then _ else _) ++ p : prog).
  assert (Hq : (safe unit_ c e p → safe unit_ c e q) ∧ pending c q = (if serial l then pieces r else []) ++ pending c p).
  { unfold q. destruct (serial l); [apply serial_safe|done]. }
  destruct (framebuffer l); [|done]. destruct (framebuffer_safe s r e q) as [P1 P2]. fold c in P1, P2.
  split; [intros Hp; by apply P1, Hq|]. by rewrite P2; apply Hq.
Qed.

Lemma log_safe b (s : list bool) (r : LogRecord) : whole unit_ (line r) → safe unit_ (Ctl b s []) (Ctl b s []) (log l r : prog).
Proof.
  intros Hw. unfold log. cbn [app]. set (c := Ctl false (b :: s) [] : ctl Lock).
  assert (safe unit_ c (Ctl b s []) ([Restore] : prog) ∧ pending c ([Restore] : prog) = []) as [Hr Hp].
  { split; [|done]. apply (safe_cons unit_ _ _ (Ctl b s [])); [done|by destruct b|done]. }
  destruct (log_body (b :: s) r (Ctl b s []) [Restore]) as [P1 P2]. fold c in P1, P2.
  cbn [safe ctl_op enabled saved held]. fold c. split; [done|]. split; [|by apply P1]. intros _ _. rewrite P2, Hp. by rewrite app_nil_r.
Qed.

Lemma log_pending (s : list bool) (r : LogRecord) p :
  pending (Ctl false s []) ((log l r : prog) ++ p) = line r ++ pending (Ctl false s []) p.
Proof.
  unfold log. rewrite <-!app_assoc. cbn [app]. rewrite (pending_cons _ _ (Ctl false (false :: s) [])) by done.
  destruct (log_body (false :: s) r (Ctl false s []) (Restore :: p)) as [_ ->]. cbn [output app]. f_equal.
Qed.

(** ** Tasks and handlers *)
Lemma items_safe (items : list item) :
  (∀ t, AddWaker t ∉ items) → (∀ r, Log r ∈ items → whole unit_ (line r)) →
  safe unit_ (Ctl true [] []) (Ctl true [] []) (items ≫= item_ops l : prog).
Proof.
  intros Ht Hr. induction items as [|i items IH]; [done|]. cbn [mbind list_bind].
  apply (safe_app unit_ _ (Ctl true [] [])); [|apply IH; set_solver|done].
  destruct i as [r|f|t]; [apply log_safe, Hr; by left|done|by destruct (Ht t); left].
Qed.

Definition interrupt_record (r : LogRecord) : Prop :=
  r ∈ (info [chars_of "timer2"] :: info [chars_of "______generic_handler_____"] :: ((λ n, info [line_text n]) <$> range 0 24)) ∨
  ∃ red, shows red ∧ r = info red.

Context (Hints : ∀ r, interrupt_record r → whole unit_ (line r)).

Lemma handler_safe (h : prog) : maskable shows l h → handler_ok unit_ h.
Proof.
  intros (v & hd & red & Hv & Hh & Hred & ->). rewrite idt_lookup in Hh by done. injection Hh as <-.
  unfold handler_ok, entry. set (c := Ctl false [] [] : ctl Lock).
  assert (Hdo : ∀ (f : M (World D) unit) (p : prog), safe unit_ c c p → safe unit_ c c (Do f :: p)) by (intros; by apply (safe_cons unit_ _ _ c)).
  assert (Hlog : ∀ r (p : prog), interrupt_record r → safe unit_ c c p → whole unit_ (pending c p) →
    safe unit_ c c (log l r ++ p) ∧ whole unit_ (pending c (log l r ++ p))).
  { intros r p Hr Hp Hw. split; [apply (safe_app unit_ c c); [by apply log_safe, Hints|done|done]|].
    unfold c. rewrite log_pending. apply whole_app; [by apply Hints|done]. }
  assert (Hone : ∀ r, interrupt_record r → safe unit_ c c (log l r : prog) ∧ whole unit_ (pending c (log l r : prog))).
  { intros r Hr. destruct (Hlog r [] Hr) as [P1 P2]; [done|apply whole_nil|]. by rewrite app_nil_r in P1, P2. }
  unfold vector_handler.
  destruct (Z.eqb_spec v 48); [split; [|apply whole_nil]; apply Hdo, Hdo, (safe_cons unit_ _ _ (Ctl false [] [WakersLock])); [done..|];
    apply (safe_cons unit_ _ _ (Ctl false [] [WakersLock])); [done..|]; by apply (safe_cons unit_ _ _ c)|].
  destruct (Z.eqb_spec v 49); [apply Hone; left; by left|].
  destruct ((50 <=? v) && (v <? 74)) eqn:Hr; [|apply Hone; left; right; by left].
  assert (Hline : interrupt_record (info [line_text (v - 50)])).
  { left. do 2 right. apply list_elem_of_fmap. exists (v - 50). split; [done|]. apply elem_of_range. lia. }
  cbn [handler_ops]. destruct (Z.eqb_spec (v - 50) 1) as [E1|]; [|destruct (Z.eqb_spec (v - 50) 2)].
  - rewrite E1 in Hline. apply Hlog; [done|..].
    + cbn [app]. apply Hdo. apply Hlog; [right; by exists red|by apply Hdo|apply whole_nil].
    + cbn [app]. rewrite (pending_cons _ c c) by done. apply Hlog; [right; by exists red|by apply Hdo|apply whole_nil].
  - split; [by apply Hdo|apply whole_nil].
  - apply Hlog; [done|by apply Hdo|apply whole_nil].
Qed.
End whole.

(** ** A line without interrupts *)
Definition after_line (w : World D) : World D :=
  if framebuffer l then
    MkWorld (irq w) (Writer (Framebuffer.framebuffer (screen w)) (Framebuffer.info (screen w)) (x_pos (screen w)) (y_pos (screen w)) 0)
  else w.

(** A line goes out once and whole, the level of the screen is back to 0, and the
    interrupt flag and the locks are as before. *)
Lemma log_line_once handler b s (r : LogRecord) (p : prog) be w ou :
  run handler (Machine (log l r ++ p) (Ctl b s []) be w ou) (Machine p (Ctl b s []) be (after_line w) (ou ++ line r)).
Proof.
  unfold log, line, after_line. rewrite <-!app_assoc. cbn [app].
  apply (run_op _ _ _ _ (Ctl false (b :: s) []) _ w w); [done..|]. cbn [output]. rewrite app_nil_r.
  assert (Hend : ∀ w' ou', run handler (Machine (Restore :: p) (Ctl false (b :: s) []) be w' ou') (Machine p (Ctl b s []) be w' ou')).
  { intros w' ou'. apply (run_op _ _ _ _ (Ctl b s []) _ w' w'); [by destruct b|done|]. cbn [output]. rewrite app_nil_r. constructor. }
  assert (Hserial : ∀ w', run handler (Machine ((if serial l then serial_ops r else []) ++ Restore :: p) (Ctl false (b :: s) []) be w' ou)
      (Machine p (Ctl b s []) be w' (ou ++ (if serial l then pieces r else [])))).
  { intros w'. destruct (serial l); [|rewrite app_nil_r; apply Hend]. unfold serial_ops. rewrite <-!app_assoc. cbn [app].
    apply (run_op _ _ _ _ (Ctl false (b :: s) [SerialLock]) _ w' w'); [done..|]. apply run_puts. cbn [output]. rewrite app_nil_r.
    apply (run_op _ _ _ _ (Ctl false (b :: s) []) _ w' w'); [done..|]. cbn [output]. rewrite app_nil_r. apply Hend. }
  destruct (framebuffer l); [|apply Hserial]. unfold framebuffer_ops. rewrite <-!app_assoc. cbn [app].
  set (c := Ctl false (b :: s) [FramebufferLock]).
  assert (Htail : ∀ v, run handler (Machine (((λ p, Do (on_screen (FrameBufferWriterImpl.write_str p))) <$> pieces r) ++
      Do (on_screen (set_level 0)) :: Release FramebufferLock :: (if serial l then serial_ops r else []) ++ Restore :: p)
      c be (MkWorld (irq w) (Writer (Framebuffer.framebuffer (screen w)) (Framebuffer.info (screen w)) (x_pos (screen w)) (y_pos (screen w)) v)) ou)
      (Machine p (Ctl b s []) be (MkWorld (irq w) (Writer (Framebuffer.framebuffer (screen w)) (Framebuffer.info (screen w)) (x_pos (screen w)) (y_pos (screen w)) 0))
        (ou ++ (if serial l then pieces r else [])))).
  { intros v. apply run_dos; [done|]. eapply (run_op _ _ _ c c); [done|reflexivity|]. cbn [output]. rewrite app_nil_r.
    eapply (run_op _ _ _ c (Ctl false (b :: s) [])); [done|reflexivity|]. cbn [output]. rewrite app_nil_r. apply Hserial. }
  apply (run_op _ _ _ _ c _ w w); [done..|]. cbn [output]. rewrite app_nil_r. destruct w as [iw [fbw inf xp yp lv]].
  destruct (decide _); cbn [app]; [|apply (Htail lv)].
  eapply (run_op _ _ _ c c); [done|reflexivity|]. cbn [output]. rewrite app_nil_r. apply (Htail 1).
Qed.

(** The steps of the timer's handler are those of [Interrupts]. *)
Lemma timer_ops_handle handler be (w : World D) ou i :
  InterruptsImpl.handle lapic_timer (irq w) = Ok (tt, i) →
  run handler (Machine timer_ops (Ctl false [] []) be w ou) (Machine [] (Ctl false [] []) be (MkWorld i (screen w)) ou).
Proof.
  intros ([] & i1 & E1 & E)%M_bind_ok. apply M_bind_ok in E as ([] & i2 & E2 & E3). unfold timer_ops.
  eapply (run_op _ _ _ _ _ _ _ (MkWorld i1 (screen w))); [done|cbn; unfold on_irq; by rewrite E1|]. cbn [output]. rewrite app_nil_r.
  eapply (run_op _ _ _ _ _ _ _ (MkWorld i2 (screen w))); [done|cbn -[InterruptsImpl.tick]; unfold on_irq; cbn [irq]; by rewrite E2|].
  cbn [output]. rewrite app_nil_r.
  eapply (run_op _ _ _ _ (Ctl false [] [WakersLock])); [done|done|]. cbn [output]. rewrite app_nil_r.
  eapply (run_op _ _ _ _ _ _ _ (MkWorld i (screen w))); [done|cbn -[InterruptsImpl.wake_all]; unfold on_irq; cbn [irq]; by rewrite E3|].
  cbn [output]. rewrite app_nil_r. eapply (run_op _ _ _ _ (Ctl false [] [])); [done|done|]. cbn [output]. rewrite app_nil_r. constructor.
Qed.
End proofs.

(** C15: logging never deadlocks and its lines are never mixed. A task logs and
    works, and at any point where interrupts are enabled the handler of any
    maskable vector may run, and log. Whatever has happened: the program running
    does not wait for a lock; it can go on, unless the task is done or a step
    panics; and whenever interrupts are enabled the serial port has received whole
    lines, each of a record logged by the task or by a handler. *)
Theorem log_never_deadlocks `{LogCrate} {D : Type} `{Mmio D} `{X86Addr} l shows (items : list item) (w : World D) m :
  (∀ t, AddWaker t ∉ items) → rtc (step (maskable shows l)) (boot (items ≫= item_ops l) w) m →
  ¬ spins m ∧
  ((∃ m', step (maskable shows l) m m') ∨ (cur m = [] ∧ below m = []) ∨
   (∃ o p e, cur m = o :: p ∧ effect o (data m) = Panic e)) ∧
  (enabled (ctl_of m) = true →
   whole (λ e, ∃ r, e = line l r ∧ (Log (D:=D) r ∈ items ∨ interrupt_record shows r)) (out m)).
Proof.
  intros Ht Hr. set (unit_ := λ e, ∃ r, e = line l r ∧ (Log (D:=D) r ∈ items ∨ interrupt_record shows r)).
  assert (inv unit_ m) as Hi.
  { eapply (reach_inv unit_ (maskable shows l) (items ≫= item_ops l) w); [|apply items_safe; [done|]|done].
    - intros h. apply (handler_safe l shows). intros r Hri. apply whole_one. exists r. split; [done|by right].
    - intros r Hri. apply whole_one. exists r. split; [done|by left]. }
  split; [by eapply inv_no_spin|]. split; [by eapply inv_progress|]. by apply inv_enabled_whole.
Qed.

(** C16: a sleeping task can stop the machine. [add_waker] holds the lock of the
    waker table with interrupts enabled, and the timer's handler takes the same
    lock: if the timer comes in between, the handler waits for a lock whose holder
    it has interrupted, with interrupts disabled, and nothing can happen any
    more. *)
Theorem add_waker_deadlocks `{LogCrate} {D : Type} `{Mmio D} `{X86Addr} l shows task items (w : World D) a red :
  local_apic (irq w) = Some a → shows red →
  ∃ m, rtc (step (maskable shows l)) (boot ((AddWaker task :: items) ≫= item_ops l) w) m ∧
    spins m ∧ (∀ m', ¬ step (maskable shows l) m m').
Proof.
  intros Ha Hs. cbn [mbind list_bind item_ops add_waker_ops app]. destruct (eoi_run (irq w) a Ha) as (d & E & _).
  set (i1 := IState d _ _ _ _ _) in E.
  eexists. split.
  - eapply rtc_l; [by apply (step_op _ _ _ _ (Ctl true [] [WakersLock]) _ w w)|].
    eapply rtc_l; [apply (step_interrupt _ timer_ops); [done|]|].
    { exists 48, lapic_timer, red. split; [lia|]. split; [by rewrite idt_lookup by lia|done]. }
    eapply rtc_l; [eapply step_op; [done|cbn; unfold on_irq; rewrite E; reflexivity]|].
    eapply rtc_l; [eapply step_op; [done|reflexivity]|]. constructor.
  - split; [by do 2 eexists; split; [done|left]|].
    intros m' Hm. inversion Hm as [? ? ? ? ? ? ? ? Hc| |]; subst; [|done]. done.
Qed.

(** ** Examples *)
#[local] Existing Instances mmio_instance x86_addr_instance.

#[local] Instance two_levels : LogCrate := {|
  Level := bool; Level_eq := _; Level_Error := true; Level_Info := false;
  level_pieces b := [chars_of (if b then "ERROR" else "INFO "%string)] |}.

Definition example_world : World IoApicMem :=
  MkWorld example_istate (Writer (replicate 64 0) {| width := 4; height := 4; stride := 4; bytes_per_pixel := 4; pixel_format := Rgb |} 1 1 0).

Definition hello : LogRecord := {| rlevel := Level_Error; args := [chars_of "hello"] |}.

Lemma log_never_deadlocks_witness :
  ∃ m, rtc (step (maskable (λ _, True) (new true true))) (boot ([Log hello] ≫= item_ops (new true true)) example_world) m ∧
    out m = [chars_of "ERROR"; chars_of ": "; chars_of "hello"; [10]] ∧ ¬ spins m.
Proof.
  pose (m := Machine [] (Ctl true [] []) [] (after_line (new true true) example_world)
    [chars_of "ERROR"; chars_of ": "; chars_of "hello"; [10]] : machine Lock (World IoApicMem) (list Z)).
  assert (rtc (step (maskable (λ _, True) (new true true))) (boot ([Log hello] ≫= item_ops (new true true)) example_world) m) as Hm
    by exact (log_line_once (new true true) _ true [] hello [] [] example_world []).
  destruct (log_never_deadlocks (new true true) (λ _, True) [Log hello] example_world m) as (Hs & _ & _); [set_solver|exact Hm|].
  exists m. split; [exact Hm|]. split; [reflexivity|exact Hs].
Defined.

Lemma add_waker_deadlocks_witness :
  ∃ m, rtc (step (maskable (λ _, True) (new true true))) (boot ([AddWaker 5] ≫= item_ops (new true true)) example_world) m ∧ spins m.
Proof.
  destruct (add_waker_deadlocks (new true true) (λ _, True) 5 [] example_world {| lapic_address := 0xFEE00000 |} [])
    as (m & Hr & Hs & _); [reflexivity|exact I|].
  exists m. split; [exact Hr|exact Hs].
Defined.
