(* ===== verification/Float32.v ===== *)
(** Single precision floating point, as the drawing code of the applications
    uses it: Rust's [f32] is the IEEE 754 binary32 format, here the Standard
    Library's executable [spec_float] at precision 24 and maximal exponent
    128.  Integer to float conversions round to nearest, float to integer
    conversions truncate and saturate, a decimal literal is the correctly
    rounded quotient of two exact integers.

    Every finite value is a whole number of units of the last place of the
    smallest subnormal, so [val] reads a value as an integer: the lemmas below
    bound the rounding of one addition, product or quotient of non-negative
    values in those units, without real numbers. *)
From Stdlib Require Import SpecFloat.
From S2P Require Import Prelude.

Module F32.

Definition prec : Z := 24.
Definition emax : Z := 128.

Definition t : Type := spec_float.

Definition zero : t := S754_zero false.
Definition add : t → t → t := SFadd prec emax.
Definition sub : t → t → t := SFsub prec emax.
Definition mul : t → t → t := SFmul prec emax.
Definition div : t → t → t := SFdiv prec emax.
Definition opp : t → t := SFopp.
Definition ltb : t → t → bool := SFltb.

(** [z as f32] for an integer of any type. *)
Definition of_Z (z : Z) : t := binary_normalize prec emax z 0 false.

(** The literal [n / d], for a numerator and a denominator below [2^24]. *)
Definition dec (n d : Z) : t := div (of_Z n) (of_Z d).

(** The finite part of [x as iN]: the value rounded towards zero. *)
Definition trunc_pos (m e : Z) : Z := if 0 <=? e then m * 2 ^ e else m / 2 ^ (- e).

(** [x as T] for an integer type with the range [lo, hi]: saturating, zero on
    a value that is not a number. *)
Definition to_int (lo hi : Z) (x : t) : Z :=
  match x with
  | S754_zero _ => 0
  | S754_nan => 0
  | S754_infinity s => if s : bool then lo else hi
  | S754_finite s m e =>
      let a := trunc_pos (Zpos m) e in
      Z.max lo (Z.min hi (if s : bool then - a else a))
  end.

Definition to_u8 : t → Z := to_int 0 255.
Definition to_usize : t → Z := to_int 0 (2 ^ 64 - 1).
Definition to_isize : t → Z := to_int (- 2 ^ 63) (2 ^ 63 - 1).

(** Units of [2^-149] in a finite value. *)
Definition val (x : t) : Z :=
  match x with
  | S754_finite s m e => (if s : bool then -1 else 1) * (Zpos m * 2 ^ (e + 149))
  | _ => 0
  end.

(** A finite non-negative value of the format's exponent range. *)
Definition nonneg (x : t) : Prop :=
  match x with
  | S754_zero s => s = false
  | S754_finite s _ e => s = false ∧ -149 ≤ e
  | _ => False
  end.

(** The exponent of the result's last place. *)
Definition last_place (m e : Z) : Z := Z.max e (fexp prec emax (Zdigits2 m + e)).

(** * Conversions to integers *)

Lemma to_int_range lo hi x : lo ≤ 0 ≤ hi → lo ≤ to_int lo hi x ≤ hi.
Proof. intros H. destruct x as [?|[]| |[] ? ?]; cbn [to_int]; lia. Qed.

Lemma to_u8_fits x : fits 8 (to_u8 x).
Proof. pose proof (to_int_range 0 255 x ltac:(lia)). unfold fits, to_u8. lia. Qed.

Lemma val_nonneg x : nonneg x → 0 ≤ val x.
Proof. destruct x as [?|?| |s m e]; cbn; [lia..|]. intros [-> ?]. assert (0 < 2 ^ (e + 149)) by lia. nia. Qed.

(** Truncation reads the units. *)
Lemma to_int_val hi x : 0 ≤ hi → nonneg x → to_int 0 hi x = Z.min hi (val x / 2 ^ 149).
Proof.
  intros Hh. destruct x as [?|?| |s m e]; cbn [nonneg to_int val]; [| tauto | tauto |].
  { intros _. change (0 / 2 ^ 149) with 0. lia. }
  intros [-> He]. unfold trunc_pos. rewrite Z.mul_1_l.
  assert (Hd : (if 0 <=? e then Zpos m * 2 ^ e else Zpos m / 2 ^ (- e)) = Zpos m * 2 ^ (e + 149) / 2 ^ 149).
  { destruct (Z.leb_spec 0 e) as [H0|H0].
    - rewrite Z.pow_add_r, Z.mul_assoc, Z.div_mul by lia. done.
    - replace (2 ^ 149) with (2 ^ (- e) * 2 ^ (e + 149)) by (rewrite <- Z.pow_add_r by lia; f_equal; lia).
      rewrite Z.div_mul_cancel_r; lia. }
  rewrite Hd. assert (0 ≤ Zpos m * 2 ^ (e + 149) / 2 ^ 149); [|lia].
  apply Z.div_pos; [|lia]. assert (0 < 2 ^ (e + 149)) by lia. nia.
Qed.

(** * Rounding *)

Lemma shr_1_m r : 0 ≤ shr_m r → shr_m (shr_1 r) = shr_m r / 2.
Proof. destruct r as [[|[?|?|]|?] ? ?]; cbn; intros; lia. Qed.

Lemma shr_iter_m p r : 0 ≤ shr_m r → shr_m (SpecFloat.iter_pos shr_1 p r) = shr_m r / 2 ^ Zpos p.
Proof.
  revert r. induction p as [p IH|p IH|]; intros r Hr; cbn [SpecFloat.iter_pos].
  - pose proof (shr_1_m r Hr) as H1.
    assert (0 ≤ shr_m (SpecFloat.iter_pos shr_1 p (shr_1 r))) by (rewrite IH by lia; apply Z.div_pos; lia).
    rewrite IH, IH, H1 by lia. rewrite !Z.div_div by lia. f_equal.
    rewrite (Pos2Z.inj_xI p), Z.pow_add_r, Z.pow_mul_r, <- (Z.pow_mul_r 2) by lia.
    replace (2 * Zpos p) with (Zpos p + Zpos p) by lia. rewrite Z.pow_add_r by lia. change (2 ^ 1) with 2. ring.
  - assert (0 ≤ shr_m (SpecFloat.iter_pos shr_1 p r)) by (rewrite IH by lia; apply Z.div_pos; lia).
    rewrite IH, IH, Z.div_div by lia. f_equal.
    rewrite (Pos2Z.inj_xO p). replace (2 * Zpos p) with (Zpos p + Zpos p) by lia. rewrite Z.pow_add_r; lia.
  - rewrite shr_1_m by done. done.
Qed.

Lemma shr_record_m m l : shr_m (shr_record_of_loc m l) = m.
Proof. by destruct l as [|[]]. Qed.

Lemma digits_spec p : 2 ^ (Zpos (digits2_pos p) - 1) ≤ Zpos p < 2 ^ Zpos (digits2_pos p).
Proof.
  assert (H2 : ∀ q, 2 ^ (Zpos (Pos.succ q) - 1) = 2 * 2 ^ (Zpos q - 1) ∧ 2 ^ Zpos (Pos.succ q) = 2 * 2 ^ Zpos q).
  { intros q. rewrite Pos2Z.inj_succ. rewrite <- !Z.pow_succ_r by lia. split; f_equal; lia. }
  induction p as [p IH|p IH|]; cbn [digits2_pos]; [| |done].
  - destruct (H2 (digits2_pos p)) as [-> ->]. lia.
  - destruct (H2 (digits2_pos p)) as [-> ->]. lia.
Qed.

Lemma digits_le p n : 0 ≤ n → Zpos p < 2 ^ n → Zpos (digits2_pos p) ≤ n.
Proof.
  intros Hn Hp. destruct (digits_spec p) as [Hl _].
  assert (Hlt : 2 ^ (Zpos (digits2_pos p) - 1) < 2 ^ n) by lia.
  apply Z.pow_lt_mono_r_iff in Hlt; lia.
Qed.

Lemma last_place_ge m e : e ≤ last_place m e ∧ -149 ≤ last_place m e ∧ Zdigits2 m + e - 24 ≤ last_place m e.
Proof. unfold last_place, fexp, emin, prec, emax. lia. Qed.

Lemma last_place_small m e : -149 ≤ e → 0 ≤ m < 2 ^ 24 → last_place m e = e.
Proof.
  intros He [H0 H1]. unfold last_place, fexp, emin, prec, emax.
  assert (Zdigits2 m ≤ 24); [|lia].
  destruct m as [|p|]; cbn [Zdigits2]; [lia| |lia]. apply digits_le; lia.
Qed.

(** One shift of the rounding: the quotient by a power of two, at the last place. *)
Lemma shr_fexp_spec m e l :
  0 ≤ m →
  shr_m (fst (shr_fexp prec emax m e l)) = m / 2 ^ (last_place m e - e)
  ∧ snd (shr_fexp prec emax m e l) = last_place m e.
Proof.
  intros Hm. unfold shr_fexp, last_place. set (f := fexp _ _ _). unfold shr.
  destruct (f - e) as [|p|p] eqn:Hf; cbn [fst snd].
  - rewrite shr_record_m, Z.max_l, Z.sub_diag, Z.div_1_r by lia. lia.
  - rewrite shr_iter_m, shr_record_m, Z.max_r, Hf by (rewrite ?shr_record_m; lia). lia.
  - rewrite shr_record_m, Z.max_l, Z.sub_diag, Z.div_1_r by lia. lia.
Qed.

(** Without a shift an exact location stays exact. *)
Lemma shr_fexp_exact m e :
  last_place m e = e → shr_fexp prec emax m e loc_Exact = (Build_shr_record m false false, e).
Proof.
  unfold shr_fexp, last_place. set (f := fexp _ _ _). intros H. unfold shr.
  destruct (f - e) as [|p|p] eqn:Hf; [done|lia|done].
Qed.

Lemma nearest_cases m l : round_nearest_even m l = m ∨ round_nearest_even m l = m + 1.
Proof. destruct l as [|[]]; cbn [round_nearest_even]; [tauto| |tauto|tauto]. destruct (Z.even m); tauto. Qed.

(** The significand of the result fits 24 bits. *)
Lemma quotient_small m e : 0 ≤ m → 0 ≤ m / 2 ^ (last_place m e - e) < 2 ^ 24.
Proof.
  intros Hm. destruct (last_place_ge m e) as (H1 & _ & H3).
  assert (0 < 2 ^ (last_place m e - e)) by lia.
  split; [apply Z.div_pos; lia|]. apply Z.div_lt_upper_bound; [lia|].
  rewrite <- Z.pow_add_r by lia. destruct m as [|p|p]; cbn [Zdigits2] in *; [lia| |lia].
  destruct (digits_spec p) as [_ Hp]. eapply Z.lt_le_trans; [exact Hp|]. apply Z.pow_le_mono_r; lia.
Qed.

(** The second shift of the rounding loses nothing. *)
Lemma renormalise q e :
  -149 ≤ e → 0 ≤ q ≤ 2 ^ 24 →
  ∃ m' e', shr_fexp prec emax q e loc_Exact = (m', e') ∧ 0 ≤ shr_m m' ∧ e ≤ e' ≤ e + 1
           ∧ shr_m m' * 2 ^ (e' - e) = q.
Proof.
  intros He Hq. destruct (decide (q < 2 ^ 24)) as [Hlt|Hge].
  - rewrite shr_fexp_exact by (apply last_place_small; lia). eexists _, _.
    split; [done|]. cbn [shr_m]. rewrite Z.sub_diag. lia.
  - assert (q = 2 ^ 24) as -> by lia.
    destruct (shr_fexp_spec (2 ^ 24) e loc_Exact ltac:(lia)) as [H1 H2].
    destruct (shr_fexp prec emax (2 ^ 24) e loc_Exact) as [m' e']. cbn [fst snd] in H1, H2.
    assert (Hlp : last_place (2 ^ 24) e = e + 1).
    { unfold last_place, fexp, emin, prec, emax. change (Zdigits2 (2 ^ 24)) with 25. lia. }
    rewrite Hlp in *. subst e'. replace (e + 1 - e) with 1 in * by lia. change (2 ^ 24 / 2 ^ 1) with (2 ^ 23) in H1.
    eexists _, _. split; [done|]. rewrite H1. replace (e + 1 - e) with 1 by lia. change (2 ^ 1) with 2. lia.
Qed.

(** One rounding of a non-negative value [(m + d) * 2^e], [0 <= d < 1]: the
    result is the quotient at the last place or its successor, and it is
    exact when nothing is cut. *)
Lemma round_bounds m e l :
  0 ≤ m → last_place m e ≤ 103 →
  let x := binary_round_aux prec emax false m e l in
  let u := 2 ^ (last_place m e + 149) in
  let q := m / 2 ^ (last_place m e - e) in
  nonneg x ∧ q * u ≤ val x ≤ (q + 1) * u
  ∧ (last_place m e = e → l = loc_Exact → val x = m * u).
Proof.
  intros Hm Hov x u q. unfold x, binary_round_aux.
  destruct (shr_fexp_spec m e l Hm) as [H1 H2]. fold q in H1.
  pose proof (quotient_small m e Hm) as Hq. fold q in Hq.
  destruct (last_place_ge m e) as (Hge & Hmin & _).
  assert (Hex : last_place m e = e → l = loc_Exact →
            round_nearest_even (shr_m (fst (shr_fexp prec emax m e l)))
              (loc_of_shr_record (fst (shr_fexp prec emax m e l))) = m).
  { intros HE ->. rewrite shr_fexp_exact by done. done. }
  destruct (shr_fexp prec emax m e l) as [r1 e1]. cbn [fst snd] in *. subst e1.
  set (q' := round_nearest_even _ _) in *.
  assert (Hq' : q' = q ∨ q' = q + 1) by (unfold q'; rewrite <- H1; apply nearest_cases).
  destruct (renormalise q' (last_place m e)) as (m2 & e2 & -> & Hm2 & He2 & Hv); [lia..|].
  assert (Hval : shr_m m2 * 2 ^ (e2 + 149) = q' * u).
  { unfold u. rewrite <- Hv, <- Z.mul_assoc, <- Z.pow_add_r by lia. do 2 f_equal. lia. }
  assert (0 < u) by (unfold u; lia).
  assert (Hfin : ∃ x, match shr_m m2 with
             | 0 => S754_zero false
             | Zpos m0 => if e2 <=? emax - prec then S754_finite false m0 e2 else S754_infinity false
             | Zneg _ => S754_nan end = x ∧ nonneg x ∧ val x = q' * u).
  { destruct (shr_m m2) as [|p|p]; [|  |lia].
    - eexists. split; [done|]. split; [done|]. cbn [val]. lia.
    - destruct (Z.leb_spec e2 (emax - prec)) as [Hle|Hle]; [|unfold emax, prec in Hle; lia].
      eexists. split; [done|]. split; [split; [done|lia]|]. cbn [val]. lia. }
  destruct Hfin as (y & -> & Hy & ->). split; [done|]. split; [destruct Hq' as [-> | ->]; nia|].
  intros HE Hl. rewrite Hex by done. done.
Qed.
(** [y] is [x] to within one part in [2^23]. *)
Definition close (x y : Z) : Prop := Z.abs (y - x) * 2 ^ 23 ≤ x.

Lemma close_scale k x y : 0 < k → close (k * x) (k * y) ↔ close x y.
Proof. intros Hk. unfold close. rewrite <- Z.mul_sub_distr_l, Z.abs_mul, (Z.abs_eq k) by lia. nia. Qed.

Lemma close_within x y d : 0 ≤ d → Z.abs (y - x) ≤ d → d * 2 ^ 23 ≤ x → close x y.
Proof. unfold close. nia. Qed.

Lemma close_le x y : close x y → y * 2 ^ 23 ≤ x * (2 ^ 23 + 1).
Proof. unfold close. lia. Qed.

(** Relative error of one rounding away from the subnormal range: the rounded
    value is close to [A / c], the value whose significand starts with [m]. *)
Lemma round_close m e l c A k :
  0 < m → 0 < c → 0 ≤ k → 0 ≤ e + 149 + k → last_place m e ≤ 103 →
  last_place m e = Z.max e (Zdigits2 m + e - 24) →
  c * m ≤ A < c * (m + 1) → (l = loc_Exact ∧ A = c * m ∨ 24 ≤ Zdigits2 m) →
  let x := binary_round_aux prec emax false m e l in
  nonneg x ∧ close (A * 2 ^ (e + 149 + k)) (val x * c * 2 ^ k).
Proof.
  intros Hm Hc Hk Hek Hov Hlp HA Hl x.
  destruct (round_bounds m e l ltac:(lia) Hov) as (Hx & Hb & Hex). fold x in Hx, Hb, Hex. split; [done|].
  destruct (last_place_ge m e) as (Hge & Hmin & _).
  set (lp := last_place m e) in *.
  set (s := 2 ^ (lp - e)) in *. set (q := m / s) in *. set (w := 2 ^ (e + 149 + k)).
  assert (Hs : 0 < s) by (unfold s; lia). assert (Hw : 0 < w) by (unfold w; lia).
  assert (Hqm : q * s ≤ m < (q + 1) * s).
  { pose proof (Z.div_mod m s ltac:(lia)). pose proof (Z.mod_pos_bound m s Hs). unfold q. lia. }
  assert (Hu : 2 ^ (lp + 149) * 2 ^ k = s * w).
  { unfold s, w. rewrite <- !Z.pow_add_r by lia. f_equal. lia. }
  assert (Hv : q * s * w ≤ val x * 2 ^ k ≤ (q + 1) * s * w).
  { rewrite <- !Z.mul_assoc, <- Hu. assert (0 < 2 ^ k) by lia. nia. }
  assert (Habs : Z.abs (val x * c * 2 ^ k - A * w) ≤ c * s * w).
  { assert (c * (q * s) ≤ A < c * ((q + 1) * s)) by nia. nia. }
  destruct (digits_spec (Z.to_pos m)) as [Hd _]. rewrite Z2Pos.id in Hd by done.
  assert (Hdig : Zdigits2 m = Zpos (digits2_pos (Z.to_pos m))) by (destruct m; [lia|done|lia]).
  rewrite <- Hdig in Hd.
  destruct (Z.eq_dec lp e) as [HE|HE].
  - destruct Hl as [[-> ->]|H24].
    + assert (val x * 2 ^ k = m * w) as Hv2.
      { rewrite (Hex HE eq_refl), <- Z.mul_assoc, Hu. unfold s. rewrite HE, Z.sub_diag. lia. }
      unfold close. replace (val x * c * 2 ^ k - c * m * w) with (c * (val x * 2 ^ k - m * w)) by ring.
      rewrite Hv2, Z.sub_diag, Z.mul_0_r. nia.
    + apply (close_within _ _ (c * s * w)); [nia|done|].
      assert (s = 1) as -> by (unfold s; rewrite HE, Z.sub_diag; done).
      assert (2 ^ 23 ≤ m) by (etrans; [|exact Hd]; apply Z.pow_le_mono_r; lia). nia.
  - apply (close_within _ _ (c * s * w)); [nia|done|].
    assert (s * 2 ^ 23 ≤ m).
    { etrans; [|exact Hd]. unfold s. rewrite <- Z.pow_add_r by lia. apply Z.pow_le_mono_r; lia. }
    nia.
Qed.
(** * Conversion, addition, product and quotient of non-negative values *)

Lemma iter_xO m k : Zpos (Pos.iter xO m k) = Zpos m * 2 ^ Zpos k.
Proof.
  induction k as [|k IH] using Pos.peano_ind; [cbn; lia|].
  rewrite Pos.iter_succ, Pos2Z.inj_xO, IH, Pos2Z.inj_succ, Z.pow_succ_r; lia.
Qed.

Lemma shl_align_spec m e e' : ∃ m', shl_align m e e' = (m', Z.min e e') ∧ Zpos m' = Zpos m * 2 ^ (e - Z.min e e').
Proof.
  unfold shl_align. destruct (e' - e) as [|d|d] eqn:Hd; eexists.
  - split; [f_equal; lia|]. rewrite Z.min_l, Z.sub_diag by lia. lia.
  - split; [f_equal; lia|]. rewrite Z.min_l, Z.sub_diag by lia. lia.
  - split; [f_equal; lia|]. rewrite iter_xO. do 2 f_equal. lia.
Qed.

Lemma digits_shift m m' k : 0 ≤ k → Zpos m' = Zpos m * 2 ^ k → Zpos (digits2_pos m') = Zpos (digits2_pos m) + k.
Proof.
  intros Hk Hm. destruct (digits_spec m) as [H1 H2]. destruct (digits_spec m') as [H3 H4].
  assert (H0 : 0 < 2 ^ k) by lia.
  assert (Hlt1 : 2 ^ (Zpos (digits2_pos m') - 1) < 2 ^ (Zpos (digits2_pos m) + k)).
  { rewrite (Z.pow_add_r 2 (Zpos (digits2_pos m))) by lia. nia. }
  assert (Hlt2 : 2 ^ (Zpos (digits2_pos m) - 1 + k) < 2 ^ Zpos (digits2_pos m')).
  { rewrite (Z.pow_add_r 2 (Zpos (digits2_pos m) - 1)) by lia. nia. }
  apply Z.pow_lt_mono_r_iff in Hlt1, Hlt2; lia.
Qed.

Lemma last_place_normal m e : -149 ≤ e → last_place m e = Z.max e (Zdigits2 m + e - 24).
Proof. unfold last_place, fexp, emin, prec, emax. lia. Qed.

Lemma last_place_bound m e n : 0 ≤ n → -149 ≤ e ≤ 103 → Zpos m < 2 ^ n → n + e ≤ 127 → last_place (Zpos m) e ≤ 103.
Proof. intros Hn He Hm Hle. rewrite last_place_normal by lia. cbn [Zdigits2]. pose proof (digits_le m n Hn Hm). lia. Qed.

Lemma binary_round_close m e :
  -149 ≤ e → last_place (Zpos m) e ≤ 103 →
  let x := binary_round prec emax false m e in
  nonneg x ∧ close (Zpos m * 2 ^ (e + 149)) (val x) ∧ (Zpos m < 2 ^ 24 → val x = Zpos m * 2 ^ (e + 149)).
Proof.
  intros He Hov x. unfold x, binary_round.
  destruct (shl_align_spec m e (fexp prec emax (Zpos (digits2_pos m) + e))) as (m' & -> & Hm').
  set (e' := Z.min _ _) in *.
  assert (He' : -149 ≤ e' ≤ e) by (unfold e', fexp, emin, prec, emax; lia).
  assert (Hd : Zpos (digits2_pos m') + e' = Zpos (digits2_pos m) + e).
  { rewrite (digits_shift m m' (e - e')) by (done || lia). lia. }
  assert (Hval : Zpos m' * 2 ^ (e' + 149) = Zpos m * 2 ^ (e + 149)).
  { rewrite Hm', <- Z.mul_assoc, <- Z.pow_add_r by lia. do 2 f_equal. lia. }
  assert (Hlp : last_place (Zpos m') e' = Z.max e' (Zdigits2 (Zpos m') + e' - 24)) by (apply last_place_normal; lia).
  assert (Hlp2 : last_place (Zpos m') e' ≤ 103).
  { rewrite Hlp. rewrite last_place_normal in Hov by lia. cbn [Zdigits2] in *. lia. }
  destruct (round_close (Zpos m') e' loc_Exact 1 (Zpos m') 0) as [Hx Hc]; [lia..|left; split; [done|lia]|].
  rewrite Z.add_0_r, Hval, Z.mul_1_r, Z.mul_1_r in Hc. split; [done|]. split; [done|].
  intros H24. destruct (round_bounds (Zpos m') e' loc_Exact ltac:(lia) Hlp2) as (_ & _ & Hex).
  assert (HE : last_place (Zpos m') e' = e').
  { rewrite Hlp. cbn [Zdigits2]. pose proof (digits_le m 24 ltac:(lia) H24).
    unfold e', fexp, emin, prec, emax in *. lia. }
  rewrite Hex by done. by rewrite HE.
Qed.

(** Integers below [2^24] are exact. *)
Lemma of_Z_exact z : 0 ≤ z < 2 ^ 24 → nonneg (of_Z z) ∧ val (of_Z z) = z * 2 ^ 149.
Proof.
  intros Hz. unfold of_Z, binary_normalize. destruct z as [|m|m]; [done| |lia].
  destruct (binary_round_close m 0) as (Hx & _ & Hex).
  - lia.
  - apply (last_place_bound _ _ 24); lia.
  - split; [done|]. rewrite Hex by lia. done.
Qed.

Lemma val_fin m e : val (S754_finite false m e) = Zpos m * 2 ^ (e + 149).
Proof. cbn [val]. lia. Qed.

Lemma close_refl x : 0 ≤ x → close x x.
Proof. unfold close. lia. Qed.

(** A sum rounds close to itself. *)
Lemma add_close x y :
  nonneg x → nonneg y → val x + val y < 2 ^ 250 →
  nonneg (add x y) ∧ close (val x + val y) (val (add x y)).
Proof.
  destruct x as [sx|?| |sx mx ex]; cbn [nonneg]; try tauto;
    destruct y as [sy|?| |sy my ey]; cbn [nonneg]; try tauto.
  - intros -> -> _. split; [done|]. by apply close_refl.
  - intros -> [-> Hy] _. change (add _ _) with (S754_finite false my ey).
    split; [done|]. rewrite val_fin. cbn [val]. apply close_refl. assert (0 < 2 ^ (ey + 149)) by lia. nia.
  - intros [-> Hx] -> _. change (add _ _) with (S754_finite false mx ex).
    split; [done|]. rewrite val_fin. cbn [val]. rewrite Z.add_0_r. apply close_refl. assert (0 < 2 ^ (ex + 149)) by lia. nia.
  - intros [-> Hx] [-> Hy]. rewrite !val_fin. cbn [add SFadd cond_Zopp].
    set (ez := Z.min ex ey). intros Hsum.
    destruct (shl_align_spec mx ex ez) as (m1 & -> & Hm1). destruct (shl_align_spec my ey ez) as (m2 & -> & Hm2).
    cbn [fst binary_normalize Z.add].
    assert (Hez : -149 ≤ ez) by lia. assert (Hp : 0 < 2 ^ (ez + 149)) by lia.
    assert (Hv : Zpos (m1 + m2) * 2 ^ (ez + 149) = Zpos mx * 2 ^ (ex + 149) + Zpos my * 2 ^ (ey + 149)).
    { rewrite Pos2Z.inj_add, Z.mul_add_distr_r, Hm1, Hm2, <- !Z.mul_assoc, <- !Z.pow_add_r by lia.
      do 3 f_equal; lia. }
    destruct (binary_round_close (m1 + m2) ez) as (Hr & Hc & _); [done| |].
    + assert (Hsm : Zpos (m1 + m2) * 2 ^ (ez + 149) < 2 ^ 250) by lia.
      rewrite last_place_normal by done. cbn [Zdigits2]. destruct (digits_spec (m1 + m2)) as [Hd _].
      set (d := Zpos (digits2_pos (m1 + m2))) in *.
      assert (Hlt : 2 ^ (d - 1 + (ez + 149)) < 2 ^ 250) by (rewrite Z.pow_add_r by lia; nia).
      apply Z.pow_lt_mono_r_iff in Hlt; lia.
    + split; [done|]. by rewrite <- Hv.
Qed.
(** Comparing two values by their exponents. *)
Lemma digits_lt m e m' e' :
  0 ≤ e → 0 ≤ e' → Zpos m * 2 ^ e < Zpos m' * 2 ^ e' → Zpos (digits2_pos m) - 1 + e < Zpos (digits2_pos m') + e'.
Proof.
  intros He He' H. destruct (digits_spec m) as [H1 _]. destruct (digits_spec m') as [_ H2].
  assert (H3 : 2 ^ (Zpos (digits2_pos m) - 1 + e) < 2 ^ (Zpos (digits2_pos m') + e')).
  { rewrite !Z.pow_add_r by lia. assert (0 < 2 ^ e) by lia. assert (0 < 2 ^ e') by lia. nia. }
  apply Z.pow_lt_mono_r_iff in H3; lia.
Qed.

(** A product away from the ends of the range rounds close to itself. *)
Lemma mul_close x y :
  nonneg x → nonneg y → val x = 0 ∨ val y = 0 ∨ 2 ^ 173 ≤ val x * val y < 2 ^ 398 →
  nonneg (mul x y) ∧ close (val x * val y) (val (mul x y) * 2 ^ 149).
Proof.
  destruct x as [sx|?| |sx mx ex]; cbn [nonneg]; try tauto;
    destruct y as [sy|?| |sy my ey]; cbn [nonneg]; try tauto.
  - intros -> -> _. split; [done|]. by apply close_refl.
  - intros -> [-> ?] _. split; [done|]. by apply close_refl.
  - intros [-> ?] -> _. split; [done|]. cbn [mul SFmul val]. rewrite Z.mul_0_r. by apply close_refl.
  - intros [-> Hx] [-> Hy]. rewrite !val_fin. cbn [mul SFmul xorb].
    assert (Hv : Zpos mx * 2 ^ (ex + 149) * (Zpos my * 2 ^ (ey + 149)) = Zpos (mx * my) * 2 ^ (ex + ey + 149 + 149)).
    { replace (ex + ey + 149 + 149) with ((ex + 149) + (ey + 149)) by lia. rewrite (Z.pow_add_r 2 (ex + 149) (ey + 149)), Pos2Z.inj_mul by lia. ring. }
    rewrite Hv. intros H.
    assert (0 < 2 ^ (ex + 149)) by lia. assert (0 < 2 ^ (ey + 149)) by lia.
    destruct H as [H | [H | [Hlo Hhi]]]; [nia..|].
    pose proof (digits_lt (mx * my) (ex + ey + 149 + 149) 1 398 ltac:(lia) ltac:(lia)) as Hd1.
    pose proof (digits_lt 1 172 (mx * my) (ex + ey + 149 + 149) ltac:(lia) ltac:(lia)) as Hd2.
    rewrite Z.mul_1_l in Hd1, Hd2. specialize (Hd1 Hhi). specialize (Hd2 ltac:(lia)).
    cbn [digits2_pos] in Hd1, Hd2.
    assert (Hlp : last_place (Zpos (mx * my)) (ex + ey)
      = Z.max (ex + ey) (Zdigits2 (Zpos (mx * my)) + (ex + ey) - 24)).
    { unfold last_place, fexp, emin, prec, emax. cbn [Zdigits2]. lia. }
    destruct (round_close (Zpos (mx * my)) (ex + ey) loc_Exact 1 (Zpos (mx * my)) 149) as [Hr Hc].
    1-4: lia. { rewrite Hlp. cbn [Zdigits2]. lia. } { exact Hlp. } { lia. } { left. split; [done|lia]. }
    split; [exact Hr|]. rewrite Z.mul_1_r in Hc. exact Hc.
Qed.

(** A quotient away from the ends of the range rounds close to itself. *)
Lemma div_close x y :
  nonneg x → nonneg y → 0 < val y → val x = 0 ∨ (val y ≤ 2 ^ 100 * val x ∧ val x < 2 ^ 100 * val y) →
  nonneg (div x y) ∧ close (val x * 2 ^ 149) (val (div x y) * val y).
Proof.
  destruct y as [sy|?| |sy my ey]; cbn [nonneg]; [cbn; lia | tauto | tauto |].
  destruct x as [sx|?| |sx mx ex]; cbn [nonneg]; [|tauto|tauto|].
  { intros -> [-> ?] _ _. split; [done|]. by apply close_refl. }
  intros [-> Hx] [-> Hy] _. rewrite !val_fin. cbn [div SFdiv xorb]. intros [H|[H1 H2]].
  { assert (0 < 2 ^ (ex + 149)) by lia. nia. }
  assert (0 < 2 ^ (ex + 149)) by lia. assert (0 < 2 ^ (ey + 149)) by lia.
  pose proof (digits_lt my (ey + 149) mx (ex + 149 + 101) ltac:(lia) ltac:(lia)) as Hd1.
  pose proof (digits_lt mx (ex + 149) my (ey + 149 + 100) ltac:(lia) ltac:(lia)) as Hd2.
  rewrite (Z.pow_add_r 2 (ex + 149)) in Hd1 by lia. rewrite (Z.pow_add_r 2 (ey + 149)) in Hd2 by lia.
  specialize (Hd1 ltac:(lia)). specialize (Hd2 ltac:(lia)).
  unfold SFdiv_core_binary. cbn [Zdigits2].
  set (d1 := Zpos (digits2_pos mx)) in *. set (d2 := Zpos (digits2_pos my)) in *.
  set (e' := Z.min _ _). assert (He' : e' = Z.min (d1 + ex - (d2 + ey) - 24) (ex - ey)).
  { unfold e', fexp, emin, prec, emax. lia. }
  clearbody e'. set (s := ex - ey - e').
  assert (Hm' : (match s with Zpos _ => Z.shiftl (Zpos mx) s | 0 => Zpos mx | Zneg _ => 0 end) = Zpos mx * 2 ^ s).
  { assert (0 ≤ s) by lia. destruct s as [|p|p] eqn:Hs; [cbn; lia| |lia]. rewrite Z.shiftl_mul_pow2 by lia. done. }
  rewrite Hm'. set (A := Zpos mx * 2 ^ s).
  pose proof (Z_div_mod A (Zpos my) ltac:(lia)) as Hqr. destruct (Z.div_eucl A (Zpos my)) as [q r].
  destruct Hqr as [HA Hr].
  destruct (digits_spec mx) as [Hm1 Hm1']. destruct (digits_spec my) as [Hm2' Hm2]. fold d1 in Hm1, Hm1'. fold d2 in Hm2, Hm2'.
  assert (HqA : 2 ^ (d1 - 1 + s - d2) ≤ q).
  { assert (HA2 : 2 ^ (d1 - 1 + s) ≤ A) by (unfold A; rewrite Z.pow_add_r by lia; nia).
    replace (2 ^ (d1 - 1 + s)) with (2 ^ (d1 - 1 + s - d2) * 2 ^ d2) in HA2
      by (rewrite <- Z.pow_add_r by lia; f_equal; lia).
    nia. }
  assert (Hq24 : 2 ^ 23 ≤ q) by (etrans; [|exact HqA]; apply Z.pow_le_mono_r; lia).
  destruct (digits_spec (Z.to_pos q)) as [Hq1 Hq2]. rewrite Z2Pos.id in Hq1, Hq2 by lia.
  assert (Hdq : Zdigits2 q = Zpos (digits2_pos (Z.to_pos q))) by (destruct q; [lia|done|lia]).
  rewrite <- Hdq in Hq1, Hq2.
  assert (H24 : 23 < Zdigits2 q).
  { apply (Z.pow_lt_mono_r_iff 2); lia. }
  assert (Hup : Zdigits2 q - 1 + (d2 - 1) < d1 + s).
  { apply (Z.pow_lt_mono_r_iff 2); [lia..|]. rewrite (Z.pow_add_r 2 (Zdigits2 q - 1)), (Z.pow_add_r 2 d1) by lia. nia. }
  assert (Hlow : d1 - 1 + s - d2 < Zdigits2 q).
  { apply (Z.pow_lt_mono_r_iff 2); lia. }
  destruct (round_close q e' (new_location (Zpos my) r) (Zpos my) A (ey + 149)) as [Hx' Hc].
  1-4: lia.
  { unfold last_place, fexp, emin, prec, emax. lia. }
  { unfold last_place, fexp, emin, prec, emax. lia. }
  { lia. } { right. lia. }
  split; [exact Hx'|]. rewrite Z.mul_assoc.
  replace (Zpos mx * 2 ^ (ex + 149) * 2 ^ 149) with (A * 2 ^ (e' + 149 + (ey + 149))); [exact Hc|].
  unfold A. rewrite <- !Z.mul_assoc, <- !Z.pow_add_r by lia. do 2 f_equal. lia.
Qed.
End F32.
