(* ===== verification/Blur.v ===== *)
(** The blurred background of the console's window
    ([app_console/src/main.rs], lines 58 to 283): a quarter-size copy of the
    framebuffer, blended into a buffer each frame and blurred along one axis
    into the other.

    Floats are those of [Float32]. The vectors of the [vek] crate are the
    class [Vek3], with the component-wise laws its documentation states; the
    [exp] and [powi] of its [Float] trait are the class [FloatFns]. *)
From S2P Require Import Prelude Float32 Window Console.

(** ** Third-party interfaces *)
Class Vek3 := {
  Vec3 : Type;
  Vec3_new : F32.t → F32.t → F32.t → Vec3;
  vx : Vec3 → F32.t; vy : Vec3 → F32.t; vz : Vec3 → F32.t;
  Vec3_zero : Vec3;
  Vec3_add : Vec3 → Vec3 → Vec3;
  (** [v * c] and [c * v] *)
  Vec3_mul : Vec3 → F32.t → Vec3;
  scalar_mul : F32.t → Vec3 → Vec3
}.

Class Vek3Laws `{Vek3} := {
  vx_new x y z : vx (Vec3_new x y z) = x;
  vy_new x y z : vy (Vec3_new x y z) = y;
  vz_new x y z : vz (Vec3_new x y z) = z;
  Vec3_zero_new : Vec3_zero = Vec3_new F32.zero F32.zero F32.zero;
  Vec3_add_new v u : Vec3_add v u = Vec3_new (F32.add (vx v) (vx u)) (F32.add (vy v) (vy u)) (F32.add (vz v) (vz u));
  Vec3_mul_new v c : Vec3_mul v c = Vec3_new (F32.mul (vx v) c) (F32.mul (vy v) c) (F32.mul (vz v) c)
}.

Class FloatFns := { powi : F32.t → Z → F32.t; exp : F32.t → F32.t }.

(** ** Loops over a grid *)

(** [for y in 0..hi { for x in 0..wi { body } }] *)
Definition for_xy {A} (wi hi : Z) (body : A → Z → Z → res A) (acc : A) : res A :=
  foldM (λ acc y, foldM (λ acc x, body acc x y) acc (range 0 wi)) acc (range 0 hi).

(** A grid loop is a loop over the row-major index. *)
Lemma for_xy_linear {A} wi hi (body : A → Z → Z → res A) acc :
  0 < wi → 0 ≤ hi → for_xy wi hi body acc = foldM (λ acc i, body acc (i mod wi) (i / wi)) acc (range 0 (wi * hi)).
Proof.
  intros Hw Hh. unfold for_xy. revert acc. pattern hi. apply natlike_ind; [..|done].
  - intros acc. by rewrite Z.mul_0_r.
  - clear hi Hh. intros hi Hh IH acc. unfold range in *. rewrite !Z.sub_0_r in *.
    replace (Z.succ hi) with (hi + 1) by lia. rewrite Z.mul_add_distr_l, Z.mul_1_r.
    rewrite !seqZ_app, !foldM_app, IH by nia. destruct (foldM _ _ _) as [acc'|]; [|done]. cbn [mbind res_bind].
    rewrite !Z.add_0_l. rewrite (seqZ_cons hi 1) by lia. cbn [foldM Z.pred Z.add Z.pos_sub seqZ seq fmap list_fmap Z.to_nat].
    replace (seqZ (wi * hi) wi) with (Z.add (wi * hi) <$> seqZ 0 wi) by (rewrite fmap_add_seqZ; f_equal; lia).
    rewrite foldM_fmap.
    rewrite (foldM_ext_in (λ (a : A) x, body a x hi) (λ a c, body a ((wi * hi + c) mod wi) ((wi * hi + c) / wi))).
    { by destruct (foldM _ _ _). }
    intros a x [Hx0 Hx1]%elem_of_seqZ. rewrite (Z.mul_comm wi hi), Z.add_comm.
    by rewrite Z.mod_add, Z.div_add, Z.mod_small, Z.div_small by lia.
Qed.

(** A loop whose body [i] rewrites cell [i], reading no other cell. *)
Lemma foldM_cells {A} (body : list A → Z → res (list A)) (f : Z → A → A) l n :
  len l = n →
  (∀ l' i a, len l' = n → 0 ≤ i < n → l' !! Z.to_nat i = Some a → body l' i = Ok (<[Z.to_nat i := f i a]> l')) →
  foldM body l (range 0 n) = Ok (imap (λ i, f (Z.of_nat i)) l).
Proof.
  intros Hl Hb.
  destruct (foldM_inv (λ k l', length l' = length l ∧ (∀ i, (i < k)%nat → l' !! i = f (Z.of_nat i) <$> l !! i)
                          ∧ (∀ i, (k ≤ i)%nat → l' !! i = l !! i)) body (range 0 n) l) as (l' & Hf & Hlen & Hdone & _).
  - split; [done|]. split; [intros; lia|done].
  - intros k b l' Hk (Hlen & Hdone & Hrest).
    assert (Hkn : b = Z.of_nat k ∧ Z.of_nat k < n).
    { unfold range in Hk. apply lookup_seqZ in Hk. lia. }
    destruct Hkn as [-> Hkn]. unfold len in Hl.
    destruct (lookup_lt_is_Some_2 l' k) as [a Ha]; [lia|].
    eexists. split; [apply (Hb l' (Z.of_nat k) a); unfold len; rewrite ?Nat2Z.id; done || lia|].
    rewrite Nat2Z.id. split; [by rewrite length_insert|]. split.
    + intros i Hi. destruct (decide (i = k)) as [->|Hne].
      * rewrite list_lookup_insert_eq by lia. rewrite <- Hrest, Ha by lia. done.
      * rewrite list_lookup_insert_ne by done. apply Hdone. lia.
    + intros i Hi. rewrite list_lookup_insert_ne by lia. apply Hrest. lia.
  - rewrite Hf. f_equal. apply list_eq. intros i. rewrite list_lookup_imap.
    destruct (decide (i < length l)%nat) as [Hi|Hi].
    + rewrite Hdone; [done|]. unfold len in Hl. pose proof (len_range 0 n ltac:(lia)). unfold len in *. lia.
    + rewrite !lookup_ge_None_2 by lia. done.
Qed.

(** ** Pixels and samples *)
Definition KSIZE : Z := 5.
Definition KH : Z := KSIZE / 2.
Definition ORANGE : RGBA := {| r := 255; g := 128; b := 0; a := 0 |}.
Definition GREY3 : RGBA := {| r := 150; g := 150; b := 150; a := 0 |}.
Definition GREY2 : RGBA := {| r := 80; g := 80; b := 80; a := 0 |}.
Definition GREY : RGBA := {| r := 50; g := 50; b := 50; a := 0 |}.

(** The coordinate clamping at the head of [get]. *)
Definition clamp_to (x n : Z) : Z :=
  if x <? 0 then 0 else if swrap 64 (n - 1) <=? x then swrap 64 (n - 1) else x.

Section model.
Context `{Vek3, FloatFns}.

(** The alpha of the pixel stays. *)
Definition put (pixel : RGBA) (v : Vec3) : RGBA :=
  {| r := F32.to_u8 (vx v); g := F32.to_u8 (vy v); b := F32.to_u8 (vz v); a := a pixel |}.

Definition colour (p : RGBA) : Vec3 := Vec3_new (F32.of_Z (r p)) (F32.of_Z (g p)) (F32.of_Z (b p)).

Definition get (x y : Z) (src : list RGBA) (wi hi : Z) : res Vec3 :=
  let x := wrap 64 (clamp_to x wi) in
  let y := wrap 64 (clamp_to y hi) in
  let index := x +u[64] (y *u[64] wrap 64 wi) in
  r ← Prelude.index src index;
  mret (colour r).

(** Bilinear sampling; the crate keeps it, unused. *)
Definition getf (x y : F32.t) (src : list RGBA) (wi hi : Z) : res RGBA :=
  let x0 := F32.to_isize x in
  let x1 := swrap 64 (x0 + 1) in
  let y0 := F32.to_isize y in
  let y1 := swrap 64 (y0 + 1) in
  let fx := F32.sub x (F32.of_Z x0) in
  let fy := F32.sub y (F32.of_Z y0) in
  a ← get x0 y0 src wi hi;
  b ← get x1 y0 src wi hi;
  c ← get x1 y1 src wi hi;
  d ← get x0 y1 src wi hi;
  let one := F32.of_Z 1 in
  let ax := Vec3_add (scalar_mul (F32.sub one fx) a) (scalar_mul fx b) in
  let ay := Vec3_add (scalar_mul (F32.sub one fx) d) (scalar_mul fx c) in
  let avg := Vec3_add (Vec3_mul ax (F32.sub one fy)) (Vec3_mul ay fy) in
  mret {| r := F32.to_u8 (vx avg); g := F32.to_u8 (vy avg); b := F32.to_u8 (vz avg); a := 0 |}.

(** ** The Gaussian weights *)

(** [value] of the first loop of [kernel], for the cell [i]. *)
Definition kernel_value (S : Z) (sigma : F32.t) (i : Z) : F32.t :=
  let mid := S / 2 in
  let variance := powi sigma 2 in
  let factor := F32.div (F32.of_Z 1) (F32.mul (F32.mul (F32.of_Z 2) (F32.dec 3141592 1000000)) variance) in
  let x := F32.of_Z (swrap 32 (swrap 32 i - swrap 32 mid)) in
  F32.mul factor (exp (F32.div (F32.opp (powi x 2)) (F32.mul (F32.of_Z 2) variance))).

(** The body of the first loop: [kernel[i] = value; sum += value]. *)
Definition kernel_body (S : Z) (sigma : F32.t) (acc : list F32.t * F32.t) (i : Z) : res (list F32.t * F32.t) :=
  let value := kernel_value S sigma i in
  kernel ← update acc.1 i value;
  mret (kernel, F32.add acc.2 value).

Definition kernel (S : Z) (sigma : F32.t) : res (list F32.t) :=
  '(kernel, sum) ← foldM (kernel_body S sigma) (replicate (Z.to_nat S) F32.zero, F32.zero) (range 0 S);
  let sum := F32.mul sum (F32.dec 997 1000) in
  foldM (λ kernel i, v ← index kernel i; update kernel i (F32.div v sum)) kernel (range 0 S).

(** ** The blur *)

(** The weighted sum of the cells around [(x, y)] along the axis [(fx, fy)]. *)
Definition weighted (fx fy : Z) (src : list RGBA) (wi hi : Z) (boxes : list F32.t) (x y : Z) : res Vec3 :=
  foldM (λ avg '(k, coef),
      let dk := swrap 64 (k - KH) in
      v ← get (swrap 64 (x + swrap 64 (fx * dk))) (swrap 64 (y + swrap 64 (fy * dk))) src wi hi;
      mret (Vec3_add avg (Vec3_mul (Vec3_mul v coef) (F32.dec 99 100))))
    Vec3_zero (imap (λ k c, (Z.of_nat k, c)) boxes).

Definition blur (fx fy : Z) (src dst : list RGBA) (wi hi : Z) (boxes : list F32.t) : res (list RGBA) :=
  for_xy wi hi (λ dst x y,
    avg ← weighted fx fy src wi hi boxes x y;
    let i := wrap 64 (x + y * wi) in
    p ← index dst i;
    update dst i (put p avg)) dst.

(** ** The blend with the screen *)
Definition blend_channel (v s : Z) : Z :=
  let a := F32.dec 3 100 in
  let b := F32.sub (F32.of_Z 1) a in
  F32.to_u8 (F32.add (F32.mul (F32.of_Z v) a) (F32.mul (F32.of_Z s) b)).

Definition blend (v s : RGBA) : RGBA :=
  {| r := blend_channel (r v) (r s); g := blend_channel (g v) (g s); b := blend_channel (b v) (b s); a := 0 |}.

(** [((x * DIV) + (y * DIV) * (wi * DIV)) as usize] *)
Definition sample_index (wi x y : Z) : Z := wrap 64 (x * DIV + y * DIV * (wi * DIV)).

(** Either the first copy of the screen into both buffers, or the blend into [src]. *)
Definition refill (fb : list RGBA) (wi hi : Z) (src dst : list RGBA) : res (list RGBA * list RGBA) :=
  if len src =? 0 then
    for_xy wi hi (λ '(src, dst) x y,
      v ← index fb (sample_index wi x y);
      mret (src ++ [v], dst ++ [v])) (src, dst)
  else
    src ← for_xy wi hi (λ src x y,
      v ← index fb (sample_index wi x y);
      s ← index src (wrap 64 (x + y * wi));
      update src (wrap 64 (x + y * wi)) (blend v s)) src;
    mret (src, dst).

(** The buffers of the store, and the counter of frames. *)
Record Buffers := { step : Z; b1 : list RGBA; b2 : list RGBA }.

Definition no_buffers : Buffers := {| step := 0; b1 := []; b2 := [] |}.

(** [ctx.fb.w as isize / DIV] *)
Definition quarter (w : Z) : Z := Z.quot (swrap 64 w) DIV.

(** The background part of a frame: the buffers after it, and the one to draw. *)
Definition background_step (fb : list RGBA) (w h : Z) (s : Buffers) : res (Buffers * list RGBA) :=
  let hi := quarter h in
  let wi := quarter w in
  let step := step s +u[64] 1 in
  let even := step mod 2 =? 0 in
  let '(src, dst) := if even then (b1 s, b2 s) else (b2 s, b1 s) in
  '(src, dst) ← refill fb wi hi src dst;
  boxes ← kernel KSIZE (F32.of_Z 1);
  let fx := if even then 1 else 0 in
  dst ← blur fx (1 - fx) src dst wi hi boxes;
  mret ((if even then {| step := step; b1 := src; b2 := dst |} else {| step := step; b1 := dst; b2 := src |}), dst).
End model.

(** ** The integer hashes *)

(** [n << 13] on a 64-bit word, and wrapping arithmetic. *)
Definition hash (n : Z) : Z :=
  let n := Z.lxor (n <<u[64] 13) n in
  n *u[64] ((n *u[64] n) *u[64] 15731 +u[64] 789221) +u[64] 1376312589.

Definition hash2 (x : Z) : Z :=
  let x := Z.lxor (Z.shiftr x 16) x *u[64] 73244475 in
  let x := Z.lxor (Z.shiftr x 16) x *u[64] 73244475 in
  Z.lxor (Z.shiftr x 16) x.

(** ** Reference definitions *)

(** The cell nearest to [(x, y)] in a buffer of [wi] columns and [hi] rows. *)
Definition nearest (x n : Z) : Z := Z.max 0 (Z.min x (n - 1)).
Definition pixel_at (src : list RGBA) (wi hi x y : Z) : RGBA :=
  default GREY (src !! Z.to_nat (nearest x wi + nearest y hi * wi)).

(** One channel of the blurred cell: the taps along the axis, summed in order. *)
Definition stencil (channel : RGBA → Z) (fx fy : Z) (src : list RGBA) (wi hi : Z) (boxes : list F32.t) (x y : Z) : F32.t :=
  foldl (λ acc '(k, coef),
      let dk := k - KH in
      F32.add acc (F32.mul (F32.mul (F32.of_Z (channel (pixel_at src wi hi (x + fx * dk) (y + fy * dk)))) coef) (F32.dec 99 100)))
    F32.zero (imap (λ k c, (Z.of_nat k, c)) boxes).

Definition blurred (fx fy : Z) (src : list RGBA) (wi hi : Z) (boxes : list F32.t) (i : Z) (p : RGBA) : RGBA :=
  let channel c := F32.to_u8 (stencil c fx fy src wi hi boxes (i mod wi) (i / wi)) in
  {| r := channel r; g := channel g; b := channel b; a := a p |}.

(** A buffer size the screens of the kernel have. *)
Definition grid (wi hi : Z) : Prop := 0 < wi ≤ 2 ^ 29 ∧ 0 < hi ≤ 2 ^ 29.

(** The channels of a pixel are bytes. *)
Definition RGBA_ok (p : RGBA) : Prop := fits 8 (r p) ∧ fits 8 (g p) ∧ fits 8 (b p) ∧ fits 8 (a p).

(** ** In-range access *)

Lemma swrap_small x : - 2 ^ 63 ≤ x < 2 ^ 63 → swrap 64 x = x.
Proof. intros. unfold swrap. rewrite Z.mod_small; lia. Qed.

Lemma clamp_to_nearest x n : 0 < n ≤ 2 ^ 29 → clamp_to x n = nearest x n.
Proof.
  intros Hn. unfold clamp_to, nearest. rewrite swrap_small by lia.
  destruct (Z.ltb_spec x 0), (Z.leb_spec (n - 1) x); lia.
Qed.

Lemma nearest_range x n : 0 < n → 0 ≤ nearest x n < n.
Proof. unfold nearest. lia. Qed.

Lemma grid_product wi hi : grid wi hi → 0 < wi * hi ≤ 2 ^ 58.
Proof. intros [? ?]. change (2 ^ 58) with (2 ^ 29 * 2 ^ 29). nia. Qed.

Lemma grid_cell wi hi x y : grid wi hi → 0 ≤ x < wi → 0 ≤ y < hi → wrap 64 (x + y * wi) = x + y * wi ∧ 0 ≤ x + y * wi < wi * hi.
Proof.
  intros Hg Hx Hy. pose proof (grid_product wi hi Hg). pose proof (grid_index x y wi hi Hx Hy).
  rewrite wrap_small by (unfold fits; lia). done.
Qed.

Section proofs.
Context `{Vek3Laws, FloatFns}.

Lemma get_nearest src wi hi x y :
  grid wi hi → len src = wi * hi → get x y src wi hi = Ok (colour (pixel_at src wi hi x y)).
Proof.
  intros Hg Hl. pose proof Hg as [Hw Hh]. unfold get, pixel_at. rewrite !clamp_to_nearest by lia.
  pose proof (nearest_range x wi ltac:(lia)). pose proof (nearest_range y hi ltac:(lia)).
  destruct (grid_cell wi hi (nearest x wi) (nearest y hi) Hg) as [_ Hr]; [lia..|].
  pose proof (grid_product wi hi Hg).
  rewrite (wrap_small 64 wi), (wrap_small 64 (nearest x wi)), (wrap_small 64 (nearest y hi)) by (unfold fits; lia).
  rewrite (wrap_small 64 (_ * wi)), wrap_small by (unfold fits; nia).
  destruct (index_in src (nearest x wi + nearest y hi * wi)) as (p & -> & ->); [lia|done].
Qed.

Lemma weighted_stencil fx fy src wi hi boxes x y :
  grid wi hi → len src = wi * hi → -1 ≤ fx ≤ 1 → -1 ≤ fy ≤ 1 → len boxes ≤ 2 ^ 31 → 0 ≤ x < wi → 0 ≤ y < hi →
  weighted fx fy src wi hi boxes x y =
    Ok (Vec3_new (stencil r fx fy src wi hi boxes x y) (stencil g fx fy src wi hi boxes x y)
          (stencil b fx fy src wi hi boxes x y)).
Proof.
  intros Hg Hl Hfx Hfy Hk Hx Hy. unfold weighted, stencil. rewrite Vec3_zero_new.
  generalize F32.zero at 1 4 as ar. generalize F32.zero at 1 3 as ag. generalize F32.zero as ab.
  assert (Hks : ∀ e, e ∈ imap (λ k c, (Z.of_nat k, c)) boxes → 0 ≤ e.1 < 2 ^ 31).
  { intros e He. apply elem_of_lookup_imap_1 in He as (k & c & -> & Hc). cbn [fst]. apply lookup_lt_Some in Hc. unfold len in Hk. lia. }
  induction (imap _ boxes) as [|[k c] l IH]; intros ab ag ar; [done|]. cbn [foldM foldl].
  pose proof (Hks (k, c) ltac:(set_solver)) as Hkr. cbn [fst] in Hkr.
  destruct Hg as [Hw Hh].
  assert (Hd : swrap 64 (k - KH) = k - KH) by (rewrite swrap_small; unfold KH, KSIZE; lia).
  rewrite Hd. assert (- 2 ^ 32 ≤ fx * (k - KH) ≤ 2 ^ 32) by (unfold KH, KSIZE; nia).
  assert (- 2 ^ 32 ≤ fy * (k - KH) ≤ 2 ^ 32) by (unfold KH, KSIZE; nia).
  rewrite (swrap_small (fx * _)), (swrap_small (fy * _)) by lia. rewrite !swrap_small by lia.
  rewrite get_nearest by done. cbn [mbind res_bind mret res_ret].
  rewrite Vec3_add_new, !Vec3_mul_new, !vx_new, !vy_new, !vz_new.
  unfold colour. rewrite !vx_new, !vy_new, !vz_new. apply IH. intros e He. apply Hks. set_solver.
Qed.

(** A pass over the grid that rewrites each cell from itself. *)
Lemma grid_pass wi hi (body : list RGBA → Z → Z → res (list RGBA)) f l :
  grid wi hi → len l = wi * hi →
  (∀ l' x y p, len l' = wi * hi → 0 ≤ x < wi → 0 ≤ y < hi → l' !! Z.to_nat (x + y * wi) = Some p →
     body l' x y = Ok (<[Z.to_nat (x + y * wi) := f (x + y * wi) p]> l')) →
  for_xy wi hi body l = Ok (imap (λ i, f (Z.of_nat i)) l).
Proof.
  intros Hg Hl Hb. pose proof Hg as [Hw Hh]. rewrite for_xy_linear by lia. apply foldM_cells; [done|].
  intros l' i p Hl' Hi Hp.
  assert (Hi' : i mod wi + i / wi * wi = i) by (rewrite Z.mul_comm, Z.add_comm; symmetry; apply Z.div_mod; lia).
  rewrite (Hb l' (i mod wi) (i / wi) p); rewrite ?Hi'; try done.
  - apply Z.mod_pos_bound. lia.
  - split; [apply Z.div_pos; lia|]. apply Z.div_lt_upper_bound; lia.
Qed.

Lemma index_some {A} (l : list A) i a : 0 ≤ i → l !! Z.to_nat i = Some a → index l i = Ok a.
Proof. intros. by apply index_ok. Qed.

Lemma lookup_len {A} (l : list A) i a : l !! Z.to_nat i = Some a → 0 ≤ i → i < len l.
Proof. intros Hl Hi. apply lookup_lt_Some in Hl. unfold len. lia. Qed.

Lemma grid_mod wi hi x y : grid wi hi → 0 ≤ x < wi → 0 ≤ y → (x + y * wi) mod wi = x ∧ (x + y * wi) / wi = y.
Proof.
  intros [Hw _] Hx Hy. rewrite Z.mod_add, Z.div_add, Z.mod_small, Z.div_small by lia. done.
Qed.

(** The blur never indexes outside a buffer, and the destination it leaves
    is the reference one: each cell has, channel by channel, the weighted sum of
    the source cells along the axis, the edges repeated, truncated to a byte;
    its alpha stays. *)
Lemma blur_stencil fx fy src dst wi hi boxes :
  grid wi hi → len src = wi * hi → len dst = wi * hi → -1 ≤ fx ≤ 1 → -1 ≤ fy ≤ 1 → len boxes ≤ 2 ^ 31 →
  blur fx fy src dst wi hi boxes = Ok (imap (λ i, blurred fx fy src wi hi boxes (Z.of_nat i)) dst).
Proof.
  intros Hg Hs Hd Hfx Hfy Hk. unfold blur. apply (grid_pass wi hi _ (blurred fx fy src wi hi boxes)); [done..|].
  intros l x y p Hl Hx Hy Hp. rewrite weighted_stencil by done. cbn [mbind res_bind].
  destruct (grid_cell wi hi x y Hg Hx Hy) as [-> Hr].
  rewrite (index_some l _ p) by (done || lia). cbn [mbind res_bind]. rewrite update_in by lia. do 2 f_equal.
  unfold put, blurred. rewrite vx_new, vy_new, vz_new.
  destruct (grid_mod wi hi x y Hg Hx) as [-> ->]; [lia|done].
Qed.

(** *** The weights *)
Definition kernel_sum (S : Z) (sigma : F32.t) : F32.t :=
  F32.mul (foldl (λ s i, F32.add s (kernel_value S sigma i)) F32.zero (range 0 S)) (F32.dec 997 1000).

Lemma kernel_first_loop S sigma k sum l :
  (∀ i, i ∈ l → 0 ≤ i < len k) →
  ∃ k', foldM (kernel_body S sigma) (k, sum) l = Ok (k', foldl (λ s i, F32.add s (kernel_value S sigma i)) sum l)
    ∧ foldM (λ kernel i, update kernel i (kernel_value S sigma i)) k l = Ok k' ∧ len k' = len k.
Proof.
  revert k sum; induction l as [|i l IH]; intros k sum Hl; [by exists k|]. cbn [foldl].
  assert (Hu : update k i (kernel_value S sigma i) = Ok (<[Z.to_nat i := kernel_value S sigma i]> k))
    by (apply update_in, Hl; set_solver).
  rewrite (foldM_step _ k _ _ _ Hu).
  rewrite (foldM_step _ _ _ _ (<[Z.to_nat i := kernel_value S sigma i]> k, F32.add sum (kernel_value S sigma i)))
    by (unfold kernel_body; cbn [fst snd]; by rewrite Hu).
  destruct (IH (<[Z.to_nat i := kernel_value S sigma i]> k) (F32.add sum (kernel_value S sigma i))) as (k' & H1' & H2' & H3').
  { intros j Hj. rewrite len_insert. apply Hl. set_solver. }
  exists k'. rewrite len_insert in H3'. split; [exact H1'|by split].
Qed.

Lemma imap_length {A B} (f : nat → A → B) l : len (imap f l) = len l.
Proof. unfold len. by rewrite length_imap. Qed.

(** The weights returned: the values of the bell, normalised by 0.997 of their sum. *)
Lemma kernel_weights S sigma :
  0 ≤ S → kernel S sigma = Ok ((λ i, F32.div (kernel_value S sigma i) (kernel_sum S sigma)) <$> range 0 S).
Proof.
  intros HS. unfold kernel.
  assert (Hrep : len (replicate (Z.to_nat S) F32.zero) = S) by (unfold len; rewrite length_replicate; lia).
  destruct (kernel_first_loop S sigma (replicate (Z.to_nat S) F32.zero) F32.zero (range 0 S)) as (k' & -> & Hk & Hl).
  { intros i Hi%elem_of_range. lia. }
  cbn [mbind res_bind]. rewrite (foldM_cells _ (λ i _, kernel_value S sigma i)) in Hk; [|done|].
  2:{ intros l' i v Hl' Hi Hv. by rewrite update_in by lia. }
  injection Hk as <-. rewrite (foldM_cells _ (λ i v, F32.div v (kernel_sum S sigma))).
  - f_equal. apply list_eq. intros i. rewrite !list_lookup_imap, list_lookup_fmap.
    destruct (decide (i < Z.to_nat S)%nat) as [Hi|Hi].
    + rewrite lookup_replicate_2, lookup_range by lia. cbn. by rewrite Z.add_0_l.
    + rewrite !lookup_ge_None_2; [done|..]; rewrite ?length_replicate; [|lia].
      unfold range. rewrite length_seqZ. lia.
  - rewrite imap_length. done.
  - intros l' i v Hl' Hi Hv. rewrite (index_some l' i v) by (done || lia). cbn [mbind res_bind].
    by rewrite update_in by lia.
Qed.

(** *** The copy of the screen *)

(** The column and the row of the screen that the cell [(x, y)] should stand for,
    and those whose index [sample_index] is: its rows are the [w / 4 * 4] pixels
    that have cells, so when 4 does not divide [w] the row [y] starts
    [4 * y * (w mod 4)] pixels before the screen's. *)
Definition every_fourth (x y : Z) : Z * Z := (4 * x, 4 * y).
Definition skewed (w x y : Z) : Z * Z :=
  let k := 4 * x + 4 * y * (w - w mod 4) in (k mod w, k / w).

(** The pixel of the screen that a cell has, for a choice of the two. *)
Definition sampled (at_ : Z → Z → Z * Z) (fb : list RGBA) (w i : Z) : RGBA :=
  let '(column, row) := at_ (i mod (w / 4)) (i / (w / 4)) in default GREY (fb !! Z.to_nat (column + row * w)).

Lemma sampled_skewed fb w i :
  0 < w → sampled (skewed w) fb w i = default GREY (fb !! Z.to_nat (i mod (w / 4) * DIV + i / (w / 4) * DIV * (w / 4 * DIV))).
Proof.
  intros Hw. unfold sampled, skewed, DIV. do 3 f_equal. rewrite Z.add_comm, Z.mul_comm, <-Z.div_mod by lia.
  replace (w - w mod 4) with (w / 4 * 4) by lia. lia.
Qed.

Lemma sampled_every_fourth fb w i :
  (4 | w) → 4 ≤ w → sampled every_fourth fb w i = sampled (skewed w) fb w i.
Proof.
  intros [q ->] Hw. rewrite sampled_skewed by lia. unfold sampled, every_fourth, DIV. do 3 f_equal.
  rewrite Z.div_mul by lia. lia.
Qed.

Lemma quarter_div w : 0 ≤ w < 2 ^ 63 → quarter w = w / 4.
Proof. intros Hw. unfold quarter, DIV. rewrite swrap_small by lia. apply Z.quot_div_nonneg; lia. Qed.

Lemma sample_in_screen fb w h x y :
  len fb = w * h → grid (w / 4) (h / 4) → 0 ≤ x < w / 4 → 0 ≤ y < h / 4 →
  index fb (sample_index (w / 4) x y) = Ok (sampled (skewed w) fb w (x + y * (w / 4))).
Proof.
  intros Hl Hg Hx Hy. pose proof Hg as [Hw Hh]. rewrite sampled_skewed by lia. unfold sample_index.
  destruct (grid_mod (w / 4) (h / 4) x y Hg Hx) as [-> ->]; [lia|].
  assert (4 * (w / 4) ≤ w) by lia. assert (4 * (h / 4) ≤ h) by lia.
  set (wi := w / 4) in *. set (hi := h / 4) in *. clearbody wi hi.
  assert (Hr : 0 ≤ x * DIV + y * DIV * (wi * DIV) < w * h).
  { unfold DIV. pose proof (grid_index (4 * x) (4 * y) (4 * wi) (4 * hi) ltac:(lia) ltac:(lia)). nia. }
  assert (x * DIV + y * DIV * (wi * DIV) < 2 ^ 64).
  { unfold DIV. pose proof (grid_index (4 * x) (4 * y) (4 * wi) (4 * hi) ltac:(lia) ltac:(lia)).
    pose proof (grid_product wi hi Hg). nia. }
  rewrite wrap_small by (unfold fits; lia).
  destruct (index_in fb (x * DIV + y * DIV * (wi * DIV))) as (p & -> & ->); [lia|done].
Qed.

Lemma refill_blend fb w h src dst :
  len fb = w * h → grid (w / 4) (h / 4) → len src = w / 4 * (h / 4) →
  refill fb (w / 4) (h / 4) src dst = Ok (imap (λ i, blend (sampled (skewed w) fb w (Z.of_nat i))) src, dst).
Proof.
  intros Hf Hg Hl. pose proof (grid_product _ _ Hg). unfold refill.
  replace (len src =? 0) with false by lia.
  rewrite (grid_pass (w / 4) (h / 4) _ (λ i, blend (sampled (skewed w) fb w i))); [done..|].
  intros l x y p Hl' Hx Hy Hp. rewrite (sample_in_screen fb w h) by done. cbn [mbind res_bind].
  destruct (grid_cell (w / 4) (h / 4) x y Hg Hx Hy) as [-> Hr].
  rewrite (index_some l _ p) by (done || lia). cbn [mbind res_bind]. by rewrite update_in by lia.
Qed.

Lemma push_both fb w h (l : list Z) src dst :
  len fb = w * h → grid (w / 4) (h / 4) → (∀ i, i ∈ l → 0 ≤ i < w / 4 * (h / 4)) →
  foldM (λ (acc : list RGBA * list RGBA) i,
      (λ '(src, dst) x y, v ← index fb (sample_index (w / 4) x y); mret (src ++ [v], dst ++ [v])) acc (i mod (w / 4)) (i / (w / 4)))
    (src, dst) l = Ok (src ++ (sampled (skewed w) fb w <$> l), dst ++ (sampled (skewed w) fb w <$> l)).
Proof.
  intros Hf Hg. revert src dst; induction l as [|i l IH]; intros src dst Hl; [by rewrite !app_nil_r|].
  pose proof (Hl i ltac:(set_solver)) as Hi. pose proof Hg as [Hw Hh].
  assert (Hi' : i mod (w / 4) + i / (w / 4) * (w / 4) = i) by (rewrite Z.mul_comm, Z.add_comm; symmetry; apply Z.div_mod; lia).
  rewrite (foldM_step _ _ _ _ (src ++ [sampled (skewed w) fb w i], dst ++ [sampled (skewed w) fb w i])).
  - rewrite IH by set_solver. cbn [fmap list_fmap]. by rewrite <- !app_assoc.
  - cbn beta iota. rewrite (sample_in_screen fb w h), Hi'; [done|done|done|apply Z.mod_pos_bound; lia|].
    split; [apply Z.div_pos; lia|apply Z.div_lt_upper_bound; lia].
Qed.

Lemma refill_copy fb w h dst :
  len fb = w * h → grid (w / 4) (h / 4) →
  let copy := sampled (skewed w) fb w <$> range 0 (w / 4 * (h / 4)) in
  refill fb (w / 4) (h / 4) [] dst = Ok (copy, dst ++ copy).
Proof.
  intros Hf Hg. pose proof Hg as [Hw Hh]. unfold refill. cbn [len length Z.of_nat Z.eqb].
  rewrite for_xy_linear by lia. rewrite (push_both fb w h) by (done || (intros i Hi%elem_of_range; lia)). done.
Qed.
End proofs.

(** ** One frame of the background *)
Section frame.
Context `{Vek3Laws, FloatFns}.

(** Both buffers are still to be made, or both have one cell per 4 by 4 block. *)
Definition sized (n : Z) (s : Buffers) : Prop := (b1 s = [] ∧ b2 s = []) ∨ (len (b1 s) = n ∧ len (b2 s) = n).
Definition buffers_ok (n : Z) (s : Buffers) : Prop := sized n s ∧ Forall RGBA_ok (b1 s) ∧ Forall RGBA_ok (b2 s).

(** What the frame leaves in the source and the destination. *)
Definition refilled (at_ : Z → Z → Z * Z) (fb : list RGBA) (w h : Z) (src : list RGBA) : list RGBA :=
  match src with
  | [] => sampled at_ fb w <$> range 0 (w / 4 * (h / 4))
  | _ => imap (λ i, blend (sampled at_ fb w (Z.of_nat i))) src
  end.
Definition blurred_from (fx : Z) (at_ : Z → Z → Z * Z) (fb : list RGBA) (w h : Z) (boxes : list F32.t) (src dst : list RGBA) : list RGBA :=
  imap (λ i, blurred fx (1 - fx) (refilled at_ fb w h src) (w / 4) (h / 4) boxes (Z.of_nat i))
    (match src with [] => refilled at_ fb w h [] | _ => dst end).

Definition background_ref (at_ : Z → Z → Z * Z) (fb : list RGBA) (w h : Z) (s : Buffers) : Buffers * list RGBA :=
  let boxes := (λ i, F32.div (kernel_value KSIZE (F32.of_Z 1) i) (kernel_sum KSIZE (F32.of_Z 1))) <$> range 0 KSIZE in
  let n := step s +u[64] 1 in
  if n mod 2 =? 0 then
    let dst := blurred_from 1 at_ fb w h boxes (b1 s) (b2 s) in
    ({| step := n; b1 := refilled at_ fb w h (b1 s); b2 := dst |}, dst)
  else
    let dst := blurred_from 0 at_ fb w h boxes (b2 s) (b1 s) in
    ({| step := n; b1 := dst; b2 := refilled at_ fb w h (b2 s) |}, dst).

Lemma len_refilled at_ fb w h src :
  0 ≤ w / 4 * (h / 4) → src = [] ∨ len src = w / 4 * (h / 4) → len (refilled at_ fb w h src) = w / 4 * (h / 4).
Proof.
  intros Hn [->|Hl].
  - unfold refilled, len. rewrite length_fmap. fold (len (range 0 (w / 4 * (h / 4)))). rewrite len_range; lia.
  - unfold refilled. destruct src as [|p l]; [|by rewrite imap_length].
    unfold len. rewrite length_fmap. fold (len (range 0 (w / 4 * (h / 4)))). rewrite len_range; lia.
Qed.

Lemma half_step fx fb w h src dst :
  len fb = w * h → grid (w / 4) (h / 4) → fx = 0 ∨ fx = 1 →
  (src = [] ∧ dst = []) ∨ (len src = w / 4 * (h / 4) ∧ len dst = w / 4 * (h / 4)) →
  ∃ dst0, refill fb (w / 4) (h / 4) src dst = Ok (refilled (skewed w) fb w h src, dst0) ∧
    ∀ boxes, len boxes = KSIZE → blur fx (1 - fx) (refilled (skewed w) fb w h src) dst0 (w / 4) (h / 4) boxes
      = Ok (blurred_from fx (skewed w) fb w h boxes src dst).
Proof.
  intros Hf Hg Hfx Hs. pose proof (grid_product _ _ Hg) as Hp.
  assert (Hl : len (refilled (skewed w) fb w h src) = w / 4 * (h / 4)) by (apply len_refilled; [lia|]; tauto).
  destruct Hs as [[-> ->]|[Hls Hld]].
  - rewrite (refill_copy fb w h) by done. eexists. split; [done|]. intros boxes Hb.
    apply blur_stencil; [done|exact Hl|exact Hl|lia|lia|unfold KSIZE in Hb; lia].
  - destruct src as [|p src]; [rewrite len_nil in Hls; lia|].
    rewrite (refill_blend fb w h) by done. eexists. split; [done|].
    intros boxes Hb. apply blur_stencil; [done|exact Hl|exact Hld|lia|lia|unfold KSIZE in Hb; lia].
Qed.

(** One frame of the background never panics on a screen of 4 by 4 pixels or
    more, and leaves the reference buffers: the samples of the screen
    are copied, or blended, into the source, which is then blurred into the other
    buffer, along x and along y in turn. *)
Lemma background_frame fb w h s :
  len fb = w * h → 4 ≤ w < 2 ^ 31 → 4 ≤ h < 2 ^ 31 → sized (w / 4 * (h / 4)) s →
  background_step fb w h s = Ok (background_ref (skewed w) fb w h s).
Proof.
  intros Hf Hw Hh Hs. assert (Hg : grid (w / 4) (h / 4)) by (unfold grid; lia).
  unfold background_step, background_ref. rewrite !quarter_div by lia. rewrite kernel_weights by (unfold KSIZE; lia).
  set (boxes := _ <$> range 0 KSIZE). assert (Hb : len boxes = KSIZE).
  { unfold boxes, len. rewrite length_fmap. done. }
  destruct (Z.eqb_spec ((step s +u[64] 1) mod 2) 0) as [_|_].
  - destruct (half_step 1 fb w h (b1 s) (b2 s) Hf Hg (or_intror eq_refl) Hs) as (d & -> & Hbl).
    cbn [mbind res_bind]. rewrite Hbl by done. done.
  - destruct (half_step 0 fb w h (b2 s) (b1 s) Hf Hg (or_introl eq_refl)) as (d & -> & Hbl).
    { destruct Hs as [[? ?]|[? ?]]; tauto. }
    cbn [mbind res_bind]. rewrite Hbl by done. done.
Qed.

Lemma sampled_ok at_ fb w i : Forall RGBA_ok fb → RGBA_ok (sampled at_ fb w i).
Proof.
  intros Hf. unfold sampled. destruct (at_ _ _). destruct (fb !! _) as [p|] eqn:Hp; [|by repeat split].
  by apply (Forall_lookup_1 _ _ _ _ Hf Hp).
Qed.

Lemma blend_ok v s : RGBA_ok (blend v s).
Proof. repeat split; cbn; apply F32.to_u8_fits || lia. Qed.

Lemma blurred_ok fx fy src wi hi boxes i p : RGBA_ok p → RGBA_ok (blurred fx fy src wi hi boxes i p).
Proof. intros (_ & _ & _ & Ha). split; [|split; [|split; [|exact Ha]]]; apply F32.to_u8_fits. Qed.

Lemma Forall_imap {A B} (P : A → Prop) (Q : B → Prop) (f : nat → A → B) l :
  Forall P l → (∀ i a, P a → Q (f i a)) → Forall Q (imap f l).
Proof.
  intros Hl Hf. apply Forall_lookup. intros i b0. rewrite list_lookup_imap.
  destruct (l !! i) as [a0|] eqn:Ha; [|done]. intros [= <-]. apply Hf. by apply (Forall_lookup_1 _ _ _ _ Hl Ha).
Qed.

Lemma refilled_ok at_ fb w h src : Forall RGBA_ok fb → Forall RGBA_ok src → Forall RGBA_ok (refilled at_ fb w h src).
Proof.
  intros Hf Hs. unfold refilled. destruct src as [|p src].
  - apply Forall_fmap, Forall_forall. intros i _. by apply sampled_ok.
  - apply (Forall_imap RGBA_ok); [done|]. intros. apply blend_ok.
Qed.

Lemma blurred_from_ok fx at_ fb w h boxes src dst :
  Forall RGBA_ok fb → Forall RGBA_ok dst → Forall RGBA_ok (blurred_from fx at_ fb w h boxes src dst).
Proof.
  intros Hf Hd. unfold blurred_from. apply (Forall_imap RGBA_ok).
  - destruct src; [by apply refilled_ok|done].
  - intros. by apply blurred_ok.
Qed.

Lemma len_blurred_from fx at_ fb w h boxes src dst :
  0 ≤ w / 4 * (h / 4) → (src = [] ∧ dst = []) ∨ (len src = w / 4 * (h / 4) ∧ len dst = w / 4 * (h / 4)) →
  len (blurred_from fx at_ fb w h boxes src dst) = w / 4 * (h / 4).
Proof.
  intros Hn Hs. unfold blurred_from. rewrite imap_length.
  destruct src; [|destruct Hs as [[? _]|[_ ?]]; done]. apply len_refilled; [done|by left].
Qed.

Lemma background_ref_typed fb w h s :
  len fb = w * h → 4 ≤ w < 2 ^ 31 → 4 ≤ h < 2 ^ 31 → Forall RGBA_ok fb → buffers_ok (w / 4 * (h / 4)) s →
  let '(s', dst) := background_ref (skewed w) fb w h s in
  buffers_ok (w / 4 * (h / 4)) s' ∧
  len dst = w / 4 * (h / 4) ∧ Forall RGBA_ok dst ∧ len (b1 s') = len dst ∧ len (b2 s') = len dst.
Proof.
  intros Hf Hw Hh Hb (Hs & H1' & H2').   pose proof (grid_product (w / 4) (h / 4) ltac:(unfold grid; lia)) as Hn.
  assert (0 ≤ w / 4 * (h / 4)) by lia. unfold background_ref.
  assert (Hs' : (b2 s = [] ∧ b1 s = []) ∨ (len (b2 s) = w / 4 * (h / 4) ∧ len (b1 s) = w / 4 * (h / 4))).
  { destruct Hs as [[? ?]|[? ?]]; tauto. }
  assert (Hr1 : b1 s = [] ∨ len (b1 s) = w / 4 * (h / 4)) by (destruct Hs; tauto).
  assert (Hr2 : b2 s = [] ∨ len (b2 s) = w / 4 * (h / 4)) by (destruct Hs; tauto).
  destruct (_ =? 0); (unfold buffers_ok, sized; cbn [b1 b2];
    rewrite !len_refilled, !len_blurred_from by done);
    (split; [split; [by right|]|]; repeat split; try done; auto using refilled_ok, blurred_from_ok).
Qed.

(** Two samplings that agree on the cells leave the same frame. *)
Lemma background_ref_ext at1 at2 fb w h s :
  (∀ i, sampled at1 fb w i = sampled at2 fb w i) → background_ref at1 fb w h s = background_ref at2 fb w h s.
Proof.
  intros E. assert (∀ src, refilled at1 fb w h src = refilled at2 fb w h src) as Er.
  { intros [|p src]; unfold refilled; [apply list_fmap_ext; intros; apply E|]. apply imap_ext. intros i q _. by rewrite E. }
  assert (∀ fx boxes src dst, blurred_from fx at1 fb w h boxes src dst = blurred_from fx at2 fb w h boxes src dst) as Eb.
  { intros. unfold blurred_from. by rewrite !Er. }
  unfold background_ref. by rewrite !Er, !Eb.
Qed.

(** C28: one frame of the background never panics on a screen of 4 by 4 pixels or
    more and keeps the type of its buffers. On a screen whose width is a multiple of
    4, what it computes is the reference frame: the pixel [(4 x, 4 y)] of the
    screen is copied, or blended, into the cell [(x, y)] of one buffer, which is
    blurred into the other, along x and along y in turn, each cell the weighted sum
    of its neighbours with the edges repeated. On any other width it is the same
    frame of a skewed screen: the row [y] of the cells is sampled
    [4 * y * (w mod 4)] pixels too early. Both buffers then hold one pixel for each
    whole 4 by 4 block of the screen, every channel a byte. *)
Theorem background_buffers_typed fb w h s :
  len fb = w * h → 4 ≤ w < 2 ^ 31 → 4 ≤ h < 2 ^ 31 → Forall RGBA_ok fb → buffers_ok (w / 4 * (h / 4)) s →
  ∃ s' dst, background_step fb w h s = Ok (s', dst) ∧
    ((4 | w) → background_ref every_fourth fb w h s = (s', dst)) ∧ background_ref (skewed w) fb w h s = (s', dst) ∧
    buffers_ok (w / 4 * (h / 4)) s' ∧
    len dst = w / 4 * (h / 4) ∧ Forall RGBA_ok dst ∧ len (b1 s') = len dst ∧ len (b2 s') = len dst.
Proof.
  intros Hf Hw Hh Hb Hs. pose proof (background_ref_typed fb w h s Hf Hw Hh Hb Hs) as Ht.
  rewrite background_frame by (done || apply Hs).
  assert ((4 | w) → background_ref every_fourth fb w h s = background_ref (skewed w) fb w h s) as E4.
  { intros H4. apply background_ref_ext. intros i. apply sampled_every_fourth; [done|lia]. }
  destruct (background_ref (skewed w) fb w h s) as [s' dst]. by exists s', dst.
Qed.
End frame.

(** ** The blend in exact arithmetic *)

(** The two products of the blend, for a byte. *)
Definition scaled_new (v : Z) : F32.t := F32.mul (F32.of_Z v) (F32.dec 3 100).
Definition scaled_old (s : Z) : F32.t := F32.mul (F32.of_Z s) (F32.sub (F32.of_Z 1) (F32.dec 3 100)).

#[local] Instance nonneg_dec x : Decision (F32.nonneg x).
Proof. destruct x; cbn; apply _. Defined.

(** Each product is exact to within [1/3200] of a level. *)
Definition product_ok (k : Z) (f : Z → F32.t) (v : Z) : bool :=
  bool_decide (F32.nonneg (f v)) && (Z.abs (100 * F32.val (f v) - k * v * 2 ^ 149) <=? 2 ^ 144).

Lemma products_ok v : 0 ≤ v < 256 → product_ok 3 scaled_new v = true ∧ product_ok 97 scaled_old v = true.
Proof.
  intros Hv. split.
  - apply (by_range (product_ok 3 scaled_new) 0 256); [vm_compute; reflexivity|lia].
  - apply (by_range (product_ok 97 scaled_old) 0 256); [vm_compute; reflexivity|lia].
Qed.

(** When the mean is a whole level the sum has to round to it. *)
Definition whole_ok (v : Z) : bool :=
  forallb (λ d, let s := v + 100 * d in
    negb ((0 <=? s) && (s <? 256)) || (blend_channel v s =? (3 * v + 97 * s) / 100)) (range (-2) 3).

Lemma whole_means v s : 0 ≤ v < 256 → 0 ≤ s < 256 → (3 * v + 97 * s) mod 100 = 0 → blend_channel v s = (3 * v + 97 * s) / 100.
Proof.
  intros Hv Hs Hm. assert (whole_ok v = true) as Hw.
  { apply (by_range whole_ok 0 256); [vm_compute; reflexivity|lia]. }
  assert (Hd : ∃ d, s = v + 100 * d ∧ -2 ≤ d < 3) by (exists ((s - v) / 100); lia).
  destruct Hd as (d & -> & Hd). unfold whole_ok in Hw. rewrite forallb_forall in Hw.
  specialize (Hw d ltac:(apply list_elem_of_In, elem_of_range; lia)). cbn beta zeta in Hw.
  apply orb_prop in Hw as [Hw|Hw]; [|by apply Z.eqb_eq in Hw].
  apply negb_true_iff, andb_false_iff in Hw as [Hw|Hw]; lia.
Qed.

(** C29: the blend is the exact weighted mean of the two bytes, rounded down, in
    spite of the single precision arithmetic and of 0.03 not being a float. So it
    stays between the two, an unchanged pixel stays, a darker pixel is followed
    down to its value, and a brighter one only to within 33 levels. *)
Theorem blend_exact v s :
  fits 8 v → fits 8 s →
  blend_channel v s = (3 * v + 97 * s) / 100 ∧
  Z.min v s ≤ blend_channel v s ≤ Z.max v s ∧
  (blend_channel v s < s ↔ v < s) ∧ (s < blend_channel v s ↔ s + 34 ≤ v).
Proof.
  intros Hv Hs. unfold fits in *. change (2 ^ 8) with 256 in *.
  assert (He : blend_channel v s = (3 * v + 97 * s) / 100); [|rewrite He; lia].
  destruct (decide ((3 * v + 97 * s) mod 100 = 0)) as [Hm|Hm]; [by apply whole_means|].
  destruct (products_ok v Hv) as [Hn _]. destruct (products_ok s Hs) as [_ Ho].
  apply andb_prop in Hn as [Hn1%bool_decide_eq_true_1 Hn2], Ho as [Ho1%bool_decide_eq_true_1 Ho2].
  change (blend_channel v s) with (F32.to_u8 (F32.add (scaled_new v) (scaled_old s))).
  set (x := scaled_new v) in *. set (y := scaled_old s) in *. clearbody x y.
  destruct (F32.add_close x y) as [Hnn Hc]; [done|done|lia|].
  unfold F32.to_u8. rewrite F32.to_int_val by (done || lia).
  set (z := F32.val (F32.add x y)) in *. clearbody z. unfold F32.close in Hc.
  assert (Hz : z / 2 ^ 149 = (3 * v + 97 * s) / 100); [|rewrite Hz; lia].
  set (u := 2 ^ 149) in *. assert (Hu : u = 2 ^ 144 * 32) by done. clearbody u.
  symmetry. apply Z.div_unique_pos with (z - u * ((3 * v + 97 * s) / 100)); lia.
Qed.

(** ** Examples, with triples for vectors and three terms of the exponential *)
#[export] Instance triples : Vek3 := {|
  Vec3 := F32.t * F32.t * F32.t; Vec3_new x y z := (x, y, z);
  vx v := v.1.1; vy v := v.1.2; vz v := v.2; Vec3_zero := (F32.zero, F32.zero, F32.zero);
  Vec3_add v u := (F32.add v.1.1 u.1.1, F32.add v.1.2 u.1.2, F32.add v.2 u.2);
  Vec3_mul v c := (F32.mul v.1.1 c, F32.mul v.1.2 c, F32.mul v.2 c);
  scalar_mul c v := (F32.mul c v.1.1, F32.mul c v.1.2, F32.mul c v.2) |}.
#[export] Instance triples_laws : Vek3Laws.
Proof. by split. Qed.
#[export] Instance series : FloatFns := {|
  powi x n := Nat.iter (Z.to_nat n) (F32.mul x) (F32.of_Z 1);
  exp x := F32.add (F32.add (F32.of_Z 1) x) (F32.div (F32.mul x x) (F32.of_Z 2)) |}.

Definition white : RGBA := {| r := 255; g := 255; b := 255; a := 0 |}.

Lemma background_buffers_typed_witness :
  ∃ s' dst, background_step (replicate 64 white) 8 8 no_buffers = Ok (s', dst) ∧ len dst = 4.
Proof.
  destruct (background_buffers_typed (replicate 64 white) 8 8 no_buffers) as (s' & dst & E & _ & _ & _ & Hl & _);
    [reflexivity|lia|lia|apply Forall_replicate; repeat split; done|split; [by left|by split; constructor]|].
  exists s', dst. split; [exact E|exact Hl].
Defined.

(** A pixel 33 levels brighter is not followed, one a level darker is. *)
Lemma blend_exact_witness : blend_channel 133 100 = 100 ∧ blend_channel 99 100 = 99.
Proof.
  split; [destruct (blend_exact 133 100) as [-> _]|destruct (blend_exact 99 100) as [-> _]]; by split || reflexivity.
Defined.
