(* ===== verification/ConsoleDraw.v ===== *)
(** What the console draws ([app_console/src/main.rs], lines 374 to 601): the
    window with its title bar, borders and blurred background, then the title and
    the lines of the history, into the shared framebuffer.

    The layout engine ([taffy]) and the font ([noto_sans_mono_bitmap]) are
    parameters: a layout is a position and a size in floats, a glyph is a list
    of rows of intensities. *)
From stdpp Require Import pretty.
From S2P Require Import Prelude Float32 XmapData Keymap Console Blur Window.

Definition pt_in_rect (px py x y x2 y2 : Z) : bool := (x <=? px) && (px <=? x2) && (y <=? py) && (py <=? y2).

(** ** Text as characters *)

(** [str::chars]: a character is a byte and the continuation bytes after it. *)
Fixpoint group_chars (l : list Ascii.ascii) : list (list Ascii.ascii) :=
  match l with
  | [] => []
  | c :: l =>
      match group_chars l with
      | (d :: ds) :: rest => if is_continuation d then (c :: d :: ds) :: rest else [c] :: (d :: ds) :: rest
      | rest => [c] :: rest
      end
  end.
Definition chars (s : string) : list string := of_bytes <$> group_chars (bytes s).

(** ** The interfaces of the layout engine and of the font *)

(** [taffy]'s layout of a node. *)
Record Layout := { location_x : F32.t; location_y : F32.t; size_width : F32.t; size_height : F32.t }.
Record Rect := { rx : Z; ry : Z; rx2 : Z; ry2 : Z }.

Class Taffy := {
  (** The layouts of the header and of the children of the body, for a root of
      that width and height with a header 20 points high and that many children;
      an error is unwrapped. *)
  compute_layout : F32.t → F32.t → nat → res (Layout * list Layout)
}.

Class Font := {
  get_raster : string → option (list (list Z));
  get_raster_width : Z
}.

(** The closure [get_rect]. *)
Definition get_rect (s : Window) (l : Layout) : Rect :=
  let px := F32.to_usize (location_x l) in
  let py := F32.to_usize (location_y l) in
  let px2 := px +u[64] F32.to_usize (size_width l) in
  let py2 := py +u[64] F32.to_usize (size_height l) in
  {| rx := px +u[64] x s; ry := py +u[64] y s; rx2 := px2 +u[64] x s; ry2 := py2 +u[64] y s |}.

Definition in_rect (px py : Z) (rc : Rect) : bool := pt_in_rect px py (rx rc) (ry rc) (rx2 rc) (ry2 rc).

(** ** The window *)

Definition side (s : Window) (i : nat) : res bool := index (resizing s) (Z.of_nat i).

(** The body of the pixel loop: what [*p] becomes. The pixel and [drawn] go
    through the four cases in turn. *)
Definition box_pixel (s : Window) (dst : list RGBA) (w : Z) (header : Rect) (children : list Rect) (px py : Z) (p : RGBA) : res RGBA :=
  let grey := if active s then GREY2 else GREY in
  let '(p, drawn) := if in_rect px py header then (grey, true) else (p, false) in
  let '(p, drawn) := foldl (λ '(p, drawn) '(i, rc),
      if in_rect px py rc then (if Nat.even i then GREY3 else ORANGE, true) else (p, drawn))
    (p, drawn) (imap pair children) in
  let '(p, drawn) :=
    if (px =? x s) || (px =? x2 s) || (py =? y s) || (py =? y2 s)
    then (match moving s with Some _ => ORANGE | None => grey end, true)
    else (p, drawn) in
  left ← side s 3; right ← side s 1; top ← side s 0; bottom ← side s 2;
  let '(p, drawn) :=
    if ((px =? x s) && left) || ((px =? x2 s) && right) || ((py =? y s) && top) || ((py =? y2 s) && bottom)
    then (ORANGE, true) else (p, drawn) in
  if drawn : bool then mret p else index dst (dst_index w (px, py)).

(** [for y in store.y..=store.y2 { for x in store.x..=store.x2 { .. } }] *)
Definition draw_box (s : Window) (dst : list RGBA) (w : Z) (header : Rect) (children : list Rect) (pixels : list RGBA) : res (list RGBA) :=
  foldM (λ pixels py, foldM (λ pixels px,
      p ← index pixels (pixel_index w (px, py));
      p ← box_pixel s dst w header children px py p;
      update pixels (pixel_index w (px, py)) p)
    pixels (range (x s) (x2 s + 1))) pixels (range (y s) (y2 s + 1)).

(** ** Text *)
Section text.
Context `{Font}.

(** [*pixel.max(&p.r)] on the channels; the blue one of the user's text only. *)
Definition lighten (blue : bool) (v : Z) (p : RGBA) : RGBA :=
  {| r := Z.max v (r p); g := Z.max v (g p); b := if blue then Z.max v (b p) else b p; a := a p |}.

Definition padding : Z := 2.

(** One intensity of a glyph, at a column and a row of the window. *)
Definition draw_dot (s : Window) (w h : Z) (blue : bool) (cursor_x cursor_y : Z) (row_i col_i : nat) (v : Z)
    (pixels : list RGBA) : res (list RGBA) :=
  let px := x s +u[64] Z.of_nat col_i +u[64] padding +u[64] cursor_x in
  let py := y s +u[64] Z.of_nat row_i +u[64] padding +u[64] cursor_y in
  if (px <=? 0) || (w <=? px) || (py <=? 0) || (h <=? py) || (x2 s <=? px) || (y2 s <=? py) then mret pixels
  else
    p ← index pixels (pixel_index w (px, py));
    update pixels (pixel_index w (px, py)) (lighten blue v p).

Definition draw_glyph (s : Window) (w h : Z) (blue : bool) (cursor_x cursor_y : Z) (glyph : list (list Z))
    (pixels : list RGBA) : res (list RGBA) :=
  foldM (λ pixels '(row_i, row), foldM (λ pixels '(col_i, v),
      draw_dot s w h blue cursor_x cursor_y row_i col_i v pixels) pixels (imap pair row)) pixels (imap pair glyph).

(** One character of the title, and the cursor after it. *)
Definition draw_title_char (s : Window) (w h : Z) (st : list RGBA * Z) (c : string) : res (list RGBA * Z) :=
  let width := get_raster_width in
  glyph ← unwrap (get_raster c);
  pixels ← draw_glyph s w h true st.2 0 glyph st.1;
  mret (pixels, st.2 +u[64] width).

Definition draw_title (s : Window) (w h pid : Z) (pixels : list RGBA) : res (list RGBA) :=
  '(pixels, _) ← foldM (draw_title_char s w h) (pixels, 0) (chars ("app_console [" +:+ pretty pid +:+ "]"));
  mret pixels.

Record Cursor := { cx : Z; cy : Z }.

(** One character of the history; a new line moves the cursor. *)
Definition draw_char (s : Window) (w h : Z) (blue : bool) (st : list RGBA * Cursor) (c : string) : res (list RGBA * Cursor) :=
  let '(pixels, cur) := st in
  if (c =? newline)%string then mret (pixels, {| cx := 0; cy := cy cur +u[64] 16 |})
  else
    let width := get_raster_width in
    glyph ← unwrap (get_raster c);
    pixels ← draw_glyph s w h blue (cx cur) (cy cur) glyph pixels;
    mret (pixels, {| cx := cx cur +u[64] width; cy := cy cur |}).

Definition draw_atom (s : Window) (w h : Z) (st : list RGBA * Cursor) (t : Atom) : res (list RGBA * Cursor) :=
  '(pixels, cur) ← foldM (draw_char s w h (is_user t)) st (chars (text t));
  mret (pixels, {| cx := 0; cy := cy cur +u[64] 16 |}).

Definition draw_history (s : Window) (w h : Z) (atoms : list Atom) (pixels : list RGBA) : res (list RGBA) :=
  '(pixels, _) ← foldM (draw_atom s w h) (pixels, {| cx := 0; cy := 20 |}) atoms;
  mret pixels.
End text.

(** ** The whole drawing *)
Section drawing.
Context `{Taffy, Font}.

Definition draw_window (s : Window) (w h pid : Z) (dst : list RGBA) (atoms : list Atom) (pixels : list RGBA) : res (list RGBA) :=
  let root_width := F32.sub (F32.of_Z (x2 s)) (F32.of_Z (x s)) in
  let root_height := F32.sub (F32.of_Z (y2 s)) (F32.of_Z (y s)) in
  '(header, children) ← compute_layout root_width root_height 0%nat;
  pixels ← draw_box s dst w (get_rect s header) (get_rect s <$> children) pixels;
  pixels ← draw_title s w h pid pixels;
  draw_history s w h atoms pixels.
End drawing.

(** ** Properties *)

(** A window as [window_step] leaves it, on a screen whose sides are multiples of 4:
    its lower right corner is before the edges of the screen, its upper left one is
    at most 10000 pixels away from the screen's, and may be beyond the screen. What
    it draws, [drawn], is then on the screen, and is nothing when the corners are
    crossed. *)
Definition clamped (w h : Z) (s : Window) : Prop :=
  0 ≤ x s ≤ 10000 ∧ 0 ≤ y s ≤ 10000 ∧ x2 s < w ∧ y2 s < h ∧ length (resizing s) = 4%nat ∧
  0 < w ≤ 2 ^ 31 ∧ 0 < h ≤ 2 ^ 31 ∧ (4 | w) ∧ (4 | h).

(** The colour of a cell by priority; [None] shows the background. *)
Definition box_colour (s : Window) (header : Rect) (px py : Z) : option RGBA :=
  let grey := if active s then GREY2 else GREY in
  let edge i := default false (resizing s !! i) in
  if ((px =? x s) && edge 3%nat) || ((px =? x2 s) && edge 1%nat) || ((py =? y s) && edge 0%nat) || ((py =? y2 s) && edge 2%nat)
  then Some ORANGE
  else if (px =? x s) || (px =? x2 s) || (py =? y s) || (py =? y2 s)
  then Some (match moving s with Some _ => ORANGE | None => grey end)
  else if in_rect px py header then Some grey else None.

Definition painted (s : Window) (header : Rect) (dst : list RGBA) (w : Z) (q : Z * Z) : RGBA :=
  match box_colour s header q.1 q.2 with
  | Some c => c
  | None => default GREY (dst !! Z.to_nat (q.1 / 4 + q.2 / 4 * (w / 4)))
  end.

Lemma drawn_on_screen w h s q : clamped w h s → q ∈ drawn s → 0 ≤ q.1 < w ∧ 0 ≤ q.2 < h.
Proof. intros (Hx & Hy & Hx2 & Hy2 & _) Hq%elem_of_drawn. lia. Qed.

Lemma cell_indices w h s q :
  clamped w h s → q ∈ drawn s →
  pixel_index w q = q.1 + q.2 * w ∧ 0 ≤ q.1 + q.2 * w < w * h ∧
  dst_index w q = q.1 / 4 + q.2 / 4 * (w / 4) ∧ 0 ≤ q.1 / 4 + q.2 / 4 * (w / 4) < dst_len w h.
Proof.
  intros (Hx & Hy & Hx2 & Hy2 & _ & Hw & Hh & [k ->] & [j ->]) Hq%elem_of_drawn. destruct q as [px py]. cbn [fst snd] in *.
  unfold pixel_index, dst_index, dst_len, DIV. cbn [fst snd]. rewrite !Z.div_mul by lia.
  pose proof (grid_index px py (k * 4) (j * 4) ltac:(lia) ltac:(lia)).
  pose proof (grid_index (px / 4) (py / 4) k j ltac:(lia) ltac:(lia)).
  pose proof (small_product (k * 4) (j * 4) ltac:(lia) ltac:(lia)).
  pose proof (small_product py (k * 4) ltac:(lia) ltac:(lia)).
  assert (0 ≤ py / 4 ≤ 2 ^ 31 ∧ 0 ≤ k ≤ 2 ^ 31) as [? ?] by lia.
  pose proof (small_product (py / 4) k ltac:(lia) ltac:(lia)).
  rewrite (wrap_small 64 (py * _)), (wrap_small 64 (py / 4 * _)) by (unfold fits; lia).
  rewrite !wrap_small by (unfold fits; nia). done.
Qed.

Lemma side_ok s i : length (resizing s) = 4%nat → (i < 4)%nat → side s i = Ok (default false (resizing s !! i)).
Proof.
  intros Hl Hi. unfold side. destruct (lookup_lt_is_Some_2 (resizing s) i) as [b0 Hb]; [lia|].
  rewrite (proj2 (index_ok _ _ b0)); [by rewrite Hb|]. rewrite Nat2Z.id. split; [lia|done].
Qed.

Lemma box_pixel_painted s dst w h header q p :
  clamped w h s → len dst = dst_len w h → q ∈ drawn s →
  box_pixel s dst w header [] q.1 q.2 p = Ok (painted s header dst w q).
Proof.
  intros Hs Hd Hq. pose proof Hs as (_ & _ & _ & _ & Hr & _).
  destruct (cell_indices w h s q Hs Hq) as (_ & _ & Hi & Hb).
  unfold box_pixel, painted, box_colour. rewrite !side_ok by (done || lia). cbn [imap foldl mbind res_bind].
  assert (Hback : index dst (dst_index w (q.1, q.2)) = Ok (default GREY (dst !! Z.to_nat (q.1 / 4 + q.2 / 4 * (w / 4))))).
  { rewrite <- surjective_pairing, Hi. destruct (index_in dst (q.1 / 4 + q.2 / 4 * (w / 4))) as (c & -> & ->); [lia|done]. }
  destruct (in_rect q.1 q.2 header), (_ || _ || _ || (q.2 =? y2 s)), (_ || _ || _ || _ && default false (resizing s !! 2%nat)); done.
Qed.

Lemma foldM_bind {A B C} (g : C → list B) (f : A → B → res A) a l :
  foldM f a (l ≫= g) = foldM (λ a c, foldM f a (g c)) a l.
Proof.
  revert a; induction l as [|c l IH]; intros a; [done|]. cbn [mbind list_bind foldM]. rewrite foldM_app.
  destruct (foldM f a (g c)); [apply IH|done].
Qed.

(** A loop that paints one cell per point. *)
Lemma foldM_paint {A Q} (idx : Q → Z) (body : list A → Q → res (list A)) (f : Q → A) n (qs : list Q) l :
  len l = n →
  (∀ q, q ∈ qs → 0 ≤ idx q < n) →
  (∀ q q', q ∈ qs → q' ∈ qs → idx q = idx q' → q = q') →
  (∀ l' q, len l' = n → q ∈ qs → body l' q = Ok (<[Z.to_nat (idx q) := f q]> l')) →
  ∃ l', foldM body l qs = Ok l' ∧ len l' = n ∧
    (∀ q, q ∈ qs → l' !! Z.to_nat (idx q) = Some (f q)) ∧
    (∀ i, 0 ≤ i → (∀ q, q ∈ qs → idx q ≠ i) → l' !! Z.to_nat i = l !! Z.to_nat i).
Proof.
  revert l; induction qs as [|q qs IH]; intros l Hl Hr Hi Hb; [exists l; split_and!; try done; set_solver|].
  rewrite (foldM_step _ _ _ _ _ (Hb l q Hl ltac:(set_solver))).
  assert (Hq : 0 ≤ idx q < n) by (apply Hr; set_solver).
  destruct (IH (<[Z.to_nat (idx q) := f q]> l)) as (l' & Hf & Hl' & Hin & Hout).
  - by rewrite len_insert.
  - intros. apply Hr. set_solver.
  - intros. apply Hi; set_solver.
  - intros. apply Hb; set_solver.
  - exists l'. split; [done|]. split; [done|]. split.
    + intros q' Hq'. destruct (decide (Exists (λ q0, idx q0 = idx q') qs)) as [He|He].
      * apply Exists_exists in He as (q0 & Hq0 & He). rewrite <- He, Hin by done. f_equal. f_equal. apply Hi; set_solver.
      * assert (q' = q) as ->.
        { apply elem_of_cons in Hq' as [->|Hq']; [done|]. exfalso. apply He, Exists_exists. by exists q'. }
        rewrite Hout, list_lookup_insert_eq; [done|unfold len in Hl; lia|lia|].
        intros q0 Hq0 Heq. apply He, Exists_exists. by exists q0.
    + intros i Hi0 Hne. rewrite Hout; [|done|set_solver].
      rewrite list_lookup_insert_ne; [done|]. specialize (Hne q ltac:(set_solver)). lia.
Qed.

Lemma draw_box_points s dst w header children pixels :
  draw_box s dst w header children pixels =
  foldM (λ pixels q,
      p ← index pixels (pixel_index w q);
      p ← box_pixel s dst w header children q.1 q.2 p;
      update pixels (pixel_index w q) p) pixels (drawn s).
Proof.
  unfold draw_box, drawn. rewrite foldM_bind. apply foldM_ext_in. intros a py _.
  by rewrite foldM_fmap.
Qed.

(** The window is painted cell by cell, and nothing else is. *)
Lemma draw_box_paints s dst w h header pixels :
  clamped w h s → len dst = dst_len w h → len pixels = w * h →
  ∃ pixels', draw_box s dst w header [] pixels = Ok pixels' ∧ len pixels' = w * h ∧
    ∀ q, 0 ≤ q.1 < w → 0 ≤ q.2 < h →
      pixels' !! Z.to_nat (q.1 + q.2 * w) =
        if bool_decide (q ∈ drawn s) then Some (painted s header dst w q) else pixels !! Z.to_nat (q.1 + q.2 * w).
Proof.
  intros Hs Hd Hp. rewrite draw_box_points.
  assert (Hinj : ∀ q q', 0 ≤ q.1 < w → 0 ≤ q.2 → 0 ≤ q'.1 < w → 0 ≤ q'.2 → q.1 + q.2 * w = q'.1 + q'.2 * w → q = q').
  { intros [a b0] [a' b']. cbn. intros. assert (b0 = b') by nia. f_equal; nia. }
  assert (Hin : ∀ q, q ∈ drawn s → 0 ≤ q.1 < w ∧ 0 ≤ q.2 < h).
  { intros q Hq%elem_of_drawn. unfold clamped in Hs. lia. }
  destruct (foldM_paint (λ q, q.1 + q.2 * w) (λ pixels q,
      p ← index pixels (pixel_index w q);
      p ← box_pixel s dst w header [] q.1 q.2 p;
      update pixels (pixel_index w q) p) (painted s header dst w) (w * h) (drawn s) pixels) as (l' & Hf & Hl & Hi & Ho).
  - done.
  - intros q Hq. by destruct (cell_indices w h s q Hs Hq) as (_ & ? & _).
  - intros q q' Hq Hq' He. destruct (Hin q Hq), (Hin q' Hq'). apply Hinj; lia.
  - intros l q Hl Hq. destruct (cell_indices w h s q Hs Hq) as (-> & Hr & _).
    destruct (index_in l (q.1 + q.2 * w)) as (p & -> & _); [lia|]. cbn [mbind res_bind].
    rewrite (box_pixel_painted s dst w h) by done. cbn [mbind res_bind]. by rewrite update_in by lia.
  - exists l'. split; [done|]. split; [done|]. intros q H1 H2. case_bool_decide as Hq; [by apply Hi|].
    apply Ho; [nia|]. intros q' Hq' He. apply Hq. destruct (Hin q' Hq'). rewrite (Hinj q q'); [done|lia..].
Qed.

(** *** Text only lightens the inside of the window *)

Definition brighter (p p' : RGBA) : Prop := r p ≤ r p' ∧ g p ≤ g p' ∧ b p ≤ b p' ∧ a p' = a p.

#[local] Instance brighter_preorder : PreOrder brighter.
Proof. split; [intros p|intros p q t]; unfold brighter; repeat split; lia. Qed.

Definition text_area (s : Window) (q : Z * Z) : Prop := x s + 2 ≤ q.1 < x2 s ∧ y s + 2 ≤ q.2 < y2 s.

(** From one framebuffer to the next when only text is written. *)
Definition overlaid (s : Window) (w : Z) (l l' : list RGBA) : Prop :=
  len l' = len l ∧ ∀ i, 0 ≤ i →
    l' !! Z.to_nat i = l !! Z.to_nat i ∨
    (text_area s (i mod w, i / w) ∧
     ∃ p p', l !! Z.to_nat i = Some p ∧ l' !! Z.to_nat i = Some p' ∧ brighter p p').

#[local] Instance overlaid_preorder s w : PreOrder (overlaid s w).
Proof.
  split; [intros l; split; [done|by left]|]. intros l1 l2 l3 [H12 H12'] [H23 H23']. split; [lia|]. intros i Hi.
  destruct (H12' i Hi) as [E1|(Ha & p & p' & E1 & E1' & B1)], (H23' i Hi) as [E2|(Ha2 & q & q' & E2 & E2' & B2)].
  - left. congruence.
  - right. split; [done|]. exists q, q'. split_and!; congruence || done.
  - right. split; [done|]. exists p, p'. split_and!; congruence || done.
  - right. split; [done|]. exists p, q'. split_and!; [done..|]. assert (p' = q) as -> by congruence. by etrans.
Qed.

(** A total loop whose steps are all in a preorder. *)
Lemma foldM_rel {A B} (I : A → Prop) (R : A → A → Prop) `{!PreOrder R} (f : A → B → res A) l a :
  I a → (∀ a b, b ∈ l → I a → ∃ a', f a b = Ok a' ∧ I a' ∧ R a a') → ∃ a', foldM f a l = Ok a' ∧ I a' ∧ R a a'.
Proof.
  revert a; induction l as [|b0 l IH]; intros a0 Ha Hf; [by exists a0|].
  destruct (Hf a0 b0) as (a1 & E1 & I1 & R1); [set_solver|done|]. rewrite (foldM_step _ _ _ _ _ E1).
  destruct (IH a1 I1) as (a2 & E2 & I2 & R2); [intros; apply Hf; set_solver|]. exists a2. split_and!; [done..|]. by etrans.
Qed.

Lemma lighten_brighter blue v p : brighter p (lighten blue v p).
Proof. unfold brighter, lighten. destruct blue; cbn; lia. Qed.

Section text.
Context `{Font}.

(** A glyph of a sensible size. *)
Definition small_glyph (glyph : list (list Z)) : Prop :=
  len glyph ≤ 2 ^ 31 ∧ Forall (λ row, len row ≤ 2 ^ 31) glyph.

Lemma small_sum p q u v :
  0 ≤ p ≤ 2 ^ 61 → 0 ≤ q ≤ 2 ^ 61 → 0 ≤ u ≤ 2 ^ 61 → 0 ≤ v ≤ 2 ^ 61 → p +u[64] q +u[64] u +u[64] v = p + q + u + v.
Proof.
  intros. rewrite (wrap_small 64 (p + q)), (wrap_small 64 (p + q + u)), wrap_small by (unfold fits; lia). done.
Qed.

Lemma draw_dot_overlaid s w h blue cursor_x cursor_y row_i col_i v l :
  clamped w h s → len l = w * h → 0 ≤ cursor_x ≤ 2 ^ 60 → 0 ≤ cursor_y ≤ 2 ^ 60 →
  Z.of_nat row_i ≤ 2 ^ 31 → Z.of_nat col_i ≤ 2 ^ 31 →
  ∃ l', draw_dot s w h blue cursor_x cursor_y row_i col_i v l = Ok l' ∧ overlaid s w l l'.
Proof.
  intros (Hx & Hy & Hx2 & Hy2 & _ & Hw & Hh & _) Hl Hcx Hcy Hrow Hcol. unfold draw_dot.
  assert (0 ≤ padding ≤ 2) by done.
  rewrite !small_sum by lia.
  set (px := x s + Z.of_nat col_i + padding + cursor_x). set (py := y s + Z.of_nat row_i + padding + cursor_y).
  destruct (Z.leb_spec (x2 s) px) as [Hpx|Hpx].
  { rewrite orb_true_r. eexists. split; [done|]. reflexivity. }
  destruct (Z.leb_spec (y2 s) py) as [Hpy|Hpy].
  { rewrite orb_true_r. eexists. split; [done|]. reflexivity. }
  destruct (_ || _); [eexists; split; [done|]; reflexivity|].
  assert (0 ≤ px < w ∧ 0 ≤ py < h) as [Hpx' Hpy'] by lia.
  pose proof (grid_index px py w h Hpx' Hpy') as Hi. pose proof (small_product w h ltac:(lia) ltac:(lia)).
  assert (Hidx : pixel_index w (px, py) = px + py * w).
  { unfold pixel_index. cbn [fst snd]. pose proof (small_product py w ltac:(lia) ltac:(lia)).
    rewrite (wrap_small 64 (py * w)), wrap_small by (unfold fits; lia). done. }
  rewrite Hidx. destruct (index_in l (px + py * w)) as (p & -> & Hp); [lia|]. cbn [mbind res_bind].
  rewrite update_in by lia. eexists. split; [done|]. split; [by rewrite len_insert|]. intros i Hi0.
  destruct (decide (i = px + py * w)) as [->|Hne].
  - right. rewrite Z.mod_add, Z.div_add, Z.mod_small, Z.div_small by lia. split.
    + unfold text_area. cbn [fst snd]. unfold px, py, padding in *. lia.
    + exists p, (lighten blue v p). split_and!; [done| |apply lighten_brighter].
      apply list_lookup_insert_eq. unfold len in Hl. lia.
  - left. apply list_lookup_insert_ne. lia.
Qed.

Lemma elem_of_imap_pair {A} (l : list A) e : e ∈ imap pair l → (e.1 < length l)%nat ∧ e.2 ∈ l.
Proof.
  intros He. apply elem_of_lookup_imap_1 in He as (i & a0 & -> & Ha). split; [by apply lookup_lt_Some in Ha|].
  by eapply list_elem_of_lookup_2.
Qed.

Lemma draw_glyph_overlaid s w h blue cursor_x cursor_y glyph l :
  clamped w h s → len l = w * h → 0 ≤ cursor_x ≤ 2 ^ 60 → 0 ≤ cursor_y ≤ 2 ^ 60 → small_glyph glyph →
  ∃ l', draw_glyph s w h blue cursor_x cursor_y glyph l = Ok l' ∧ overlaid s w l l'.
Proof.
  intros Hs Hl Hcx Hcy [Hg Hrows]. unfold draw_glyph.
  destruct (foldM_rel (λ l', len l' = w * h) (overlaid s w) (λ pixels '(row_i, row), foldM (λ pixels '(col_i, v),
      draw_dot s w h blue cursor_x cursor_y row_i col_i v pixels) pixels (imap pair row)) (imap pair glyph) l Hl)
    as (l' & E & _ & Ho); [|by exists l'].
  intros l1 [i row] Hrow%elem_of_imap_pair Hl1. cbn [fst snd] in Hrow. destruct Hrow as [Hi Hrow].
  rewrite Forall_forall in Hrows. specialize (Hrows row Hrow). unfold len in Hg, Hrows.
  apply (foldM_rel (λ l', len l' = w * h) (overlaid s w)); [done|].
  intros l2 [j v] [Hj _]%elem_of_imap_pair Hl2. cbn [fst snd] in Hj.
  destruct (draw_dot_overlaid s w h blue cursor_x cursor_y i j v l2) as (l3 & E3 & Ho3); [done..|lia|lia|].
  exists l3. split; [done|]. split; [|done]. destruct Ho3 as [-> _]. done.
Qed.

(** The font has the character, or it is a new line. *)
Definition drawable (c : string) : Prop := c = newline ∨ ∃ glyph, get_raster c = Some glyph ∧ small_glyph glyph.
Definition in_font (c : string) : Prop := ∃ glyph, get_raster c = Some glyph ∧ small_glyph glyph.

(** Characters and lines drawn for a history. *)
Definition atom_size (t : Atom) : Z := len (chars (text t)) + 1.
Definition history_size (l : list Atom) : Z := foldr (λ t n, atom_size t + n) 0 l.

Lemma history_size_nonneg l : 0 ≤ history_size l.
Proof.
  induction l as [|t l IH]; [done|]. change (history_size (t :: l)) with (atom_size t + history_size l).
  unfold atom_size. pose proof (len_nonneg (chars (text t))). lia.
Qed.

(** The cursor after [n] characters and line ends. *)
Definition cursor_ok (n : Z) (c : Cursor) : Prop := 0 ≤ cx c ≤ n * 2 ^ 20 ∧ 0 ≤ cy c ≤ 20 + n * 16.

Context (Hwidth : 0 ≤ get_raster_width ≤ 2 ^ 20).

Lemma draw_char_overlaid s w h blue l cur c n :
  clamped w h s → len l = w * h → drawable c → 0 ≤ n < 2 ^ 32 → cursor_ok n cur →
  ∃ l' cur', draw_char s w h blue (l, cur) c = Ok (l', cur') ∧ cursor_ok (n + 1) cur' ∧ overlaid s w l l'.
Proof.
  intros Hs Hl Hc Hn [Hcx Hcy]. unfold draw_char. destruct (String.eqb_spec c newline) as [->|Hne].
  - eexists _, _. split; [done|]. split; [|reflexivity]. split; cbn [cx cy]; [lia|].
    rewrite wrap_small by (unfold fits; lia). lia.
  - destruct Hc as [->|(glyph & -> & Hg)]; [done|]. cbn [unwrap mbind res_bind].
    destruct (draw_glyph_overlaid s w h blue (cx cur) (cy cur) glyph l) as (l' & -> & Ho); [done|done|lia|lia|done|].
    eexists _, _. split; [done|]. split; [|done]. split; cbn [cx cy]; [|lia].
    rewrite wrap_small by (unfold fits; lia). lia.
Qed.

Lemma draw_chars_overlaid s w h blue cs l cur n :
  clamped w h s → len l = w * h → Forall drawable cs → 0 ≤ n → n + len cs < 2 ^ 32 → cursor_ok n cur →
  ∃ l' cur', foldM (draw_char s w h blue) (l, cur) cs = Ok (l', cur') ∧ cursor_ok (n + len cs) cur' ∧ overlaid s w l l'.
Proof.
  intros Hs. revert l cur n; induction cs as [|c cs IH]; intros l cur n Hl Hcs Hn Hlen Hcur.
  - exists l, cur. rewrite len_nil, Z.add_0_r. split_and!; done.
  - inversion_clear Hcs as [|? ? Hc Hcs']. rewrite len_cons in *. pose proof (len_nonneg cs).
    destruct (draw_char_overlaid s w h blue l cur c n) as (l1 & cur1 & E1 & H1 & O1); [done..|lia|done|].
    rewrite (foldM_step _ _ _ _ _ E1).
    destruct (IH l1 cur1 (n + 1)) as (l2 & cur2 & E2 & H2 & O2); [destruct O1; lia|done|lia|lia|done|].
    exists l2, cur2. split; [done|]. rewrite Z.add_assoc. split; [done|by etrans].
Qed.

Lemma draw_atoms_overlaid s w h atoms l cur n :
  clamped w h s → len l = w * h → Forall (λ t, Forall drawable (chars (text t))) atoms →
  0 ≤ n → n + history_size atoms < 2 ^ 32 → cursor_ok n cur →
  ∃ l' cur', foldM (draw_atom s w h) (l, cur) atoms = Ok (l', cur') ∧ cursor_ok (n + history_size atoms) cur' ∧ overlaid s w l l'.
Proof.
  intros Hs. revert l cur n; induction atoms as [|t atoms IH]; intros l cur n Hl Ha Hn Hsz Hcur.
  { exists l, cur. rewrite Z.add_0_r. split_and!; done. }
  inversion_clear Ha as [|? ? Ht Hts].
  change (history_size (t :: atoms)) with (atom_size t + history_size atoms) in *. unfold atom_size in *.
  pose proof (len_nonneg (chars (text t))). pose proof (history_size_nonneg atoms).
  destruct (draw_chars_overlaid s w h (is_user t) (chars (text t)) l cur n) as (l1 & cur1 & E1 & [Hx1 Hy1] & O1); [done..|lia|done|].
  rewrite (foldM_step _ _ _ _ (l1, {| cx := 0; cy := cy cur1 +u[64] 16 |})) by (unfold draw_atom; by rewrite E1).
  destruct (IH l1 {| cx := 0; cy := cy cur1 +u[64] 16 |} (n + (len (chars (text t)) + 1))) as (l2 & cur2 & E2 & C2 & O2).
  - destruct O1; lia.
  - done.
  - lia.
  - lia.
  - split; cbn [cx cy]; [lia|]. rewrite wrap_small by (unfold fits; lia). lia.
  - exists l2, cur2. split; [done|]. rewrite Z.add_assoc. split; [done|by etrans].
Qed.

Lemma first_cursor : cursor_ok 0 {| cx := 0; cy := 20 |}.
Proof. split; cbn [cx cy]; lia. Qed.

Lemma draw_history_overlaid s w h atoms l :
  clamped w h s → len l = w * h → Forall (λ t, Forall drawable (chars (text t))) atoms → history_size atoms < 2 ^ 32 →
  ∃ l', draw_history s w h atoms l = Ok l' ∧ overlaid s w l l'.
Proof.
  intros Hs Hl Ha Hsz. unfold draw_history.
  destruct (draw_atoms_overlaid s w h atoms l {| cx := 0; cy := 20 |} 0) as (l' & cur' & -> & _ & Ho);
    [done..|lia|apply first_cursor|]. by exists l'.
Qed.

Lemma draw_title_overlaid s w h pid l :
  clamped w h s → len l = w * h → Forall in_font (chars ("app_console [" +:+ pretty pid +:+ "]")) →
  len (chars ("app_console [" +:+ pretty pid +:+ "]")) < 2 ^ 32 →
  ∃ l', draw_title s w h pid l = Ok l' ∧ overlaid s w l l'.
Proof.
  intros Hs Hl Hc Hn. unfold draw_title. set (cs := chars _) in *. clearbody cs.
  assert (Hgen : ∀ n cur l, 0 ≤ n → n + len cs < 2 ^ 32 → 0 ≤ cur ≤ n * 2 ^ 20 → len l = w * h →
    ∃ l' cur', foldM (draw_title_char s w h) (l, cur) cs = Ok (l', cur') ∧ overlaid s w l l').
  { clear Hl Hn l. induction cs as [|c cs IH]; intros n cur l Hn Hlen Hcur Hl; [by exists l, cur|].
    inversion_clear Hc as [|? ? (glyph & Hg & Hsm) Hcs]. rewrite len_cons in Hlen. pose proof (len_nonneg cs).
    destruct (draw_glyph_overlaid s w h true cur 0 glyph l) as (l1 & E1 & O1); [done|done|lia|lia|done|].
    destruct (IH Hcs (n + 1) (cur +u[64] get_raster_width) l1) as (l2 & cur2 & E2 & O2).
    - lia.
    - lia.
    - rewrite wrap_small by (unfold fits; lia). lia.
    - destruct O1; lia.
    - exists l2, cur2. split; [|by etrans]. erewrite foldM_step; [exact E2|]. unfold draw_title_char. cbn [fst snd].
      rewrite Hg. cbn [unwrap mbind res_bind]. by rewrite E1. }
  destruct (Hgen 0 0 l) as (l' & cur' & -> & Ho); [lia|lia|lia|done|]. by exists l'.
Qed.
End text.

(** *** The drawing as a whole *)

(** What can be drawn: the font covers the title and the history. *)
Definition legible `{Font} (pid : Z) (atoms : list Atom) : Prop :=
  0 ≤ get_raster_width ≤ 2 ^ 20 ∧
  Forall in_font (chars ("app_console [" +:+ pretty pid +:+ "]")) ∧ len (chars ("app_console [" +:+ pretty pid +:+ "]")) < 2 ^ 32 ∧
  Forall (λ t, Forall drawable (chars (text t))) atoms ∧ history_size atoms < 2 ^ 32.

(** The box is painted, then text is written over it. *)
Lemma draw_window_spec `{Taffy, Font} s w h pid dst atoms pixels header :
  clamped w h s → len dst = dst_len w h → len pixels = w * h → legible pid atoms →
  compute_layout (F32.sub (F32.of_Z (x2 s)) (F32.of_Z (x s))) (F32.sub (F32.of_Z (y2 s)) (F32.of_Z (y s))) 0%nat = Ok (header, []) →
  ∃ boxed pixels', draw_box s dst w (get_rect s header) [] pixels = Ok boxed ∧
    draw_window s w h pid dst atoms pixels = Ok pixels' ∧ len pixels' = w * h ∧ overlaid s w boxed pixels'.
Proof.
  intros Hs Hd Hp (Hw & Ht1 & Ht2 & Hh1 & Hh2) Hl. unfold draw_window. rewrite Hl. cbn [mbind res_bind fmap list_fmap].
  destruct (draw_box_paints s dst w h (get_rect s header) pixels Hs Hd Hp) as (l1 & -> & Hl1 & _). cbn [mbind res_bind].
  destruct (draw_title_overlaid Hw s w h pid l1) as (l2 & -> & O2); [done..|]. cbn [mbind res_bind].
  assert (Hl2 : len l2 = w * h) by (destruct O2; lia).
  destruct (draw_history_overlaid Hw s w h atoms l2) as (l3 & -> & O3); [done..|].
  exists l1, l3. split; [done|]. split; [done|]. split; [destruct O3; lia|by etrans].
Qed.

(** C26: the console draws its window and nothing else. With a font that covers
    the text, on a screen whose sides are multiples of 4, drawing never panics;
    no pixel outside the window changes; each pixel of the window gets the colour
    of its border, its header or the blurred background, by that priority, and
    the text only makes pixels brighter, at least two pixels inside the top left
    corner and before the right and bottom borders. *)
Theorem console_draws_in_window `{Taffy, Font} s w h pid dst atoms pixels header :
  clamped w h s → len dst = dst_len w h → len pixels = w * h → legible pid atoms →
  compute_layout (F32.sub (F32.of_Z (x2 s)) (F32.of_Z (x s))) (F32.sub (F32.of_Z (y2 s)) (F32.of_Z (y s))) 0%nat = Ok (header, []) →
  ∃ pixels', draw_window s w h pid dst atoms pixels = Ok pixels' ∧ len pixels' = w * h ∧
    ∀ q, 0 ≤ q.1 < w → 0 ≤ q.2 < h →
      let cell l := l !! Z.to_nat (q.1 + q.2 * w) in
      if bool_decide (q ∈ drawn s)
      then ∃ p, cell pixels' = Some p ∧ brighter (painted s (get_rect s header) dst w q) p
           ∧ (¬ text_area s q → p = painted s (get_rect s header) dst w q)
      else cell pixels' = cell pixels.
Proof.
  intros Hs Hd Hp Hleg Hl.
  destruct (draw_window_spec s w h pid dst atoms pixels header Hs Hd Hp Hleg Hl) as (l1 & l3 & E1 & E3 & Hl3 & _ & Ho).
  destruct (draw_box_paints s dst w h (get_rect s header) pixels Hs Hd Hp) as (l1' & E1' & _ & Hbox).
  assert (l1' = l1) as -> by congruence. exists l3. split; [done|]. split; [done|].
  intros q Hq1 Hq2. cbn beta zeta. specialize (Hbox q Hq1 Hq2).
  assert (Hmod : (q.1 + q.2 * w) mod w = q.1 ∧ (q.1 + q.2 * w) / w = q.2).
  { rewrite Z.mod_add, Z.div_add, Z.mod_small, Z.div_small by lia. lia. }
  assert (0 ≤ q.1 + q.2 * w) by nia. destruct Hmod as [Hm1 Hm2].
  destruct (Ho (q.1 + q.2 * w)) as [E|(Ha & p & p' & E & E' & B)]; [done| |rewrite Hm1, Hm2, <- surjective_pairing in Ha].
  - rewrite E, Hbox. case_bool_decide; [|done]. eexists. split; [done|]. split; [reflexivity|done].
  - case_bool_decide as Hin.
    + exists p'. split; [done|]. rewrite Hbox in E. injection E as ->. split; [done|]. by intros.
    + exfalso. apply Hin, elem_of_drawn. unfold text_area in Ha. destruct Hs as (? & ? & ? & ? & _). lia.
Qed.

(** *** A character the font does not have *)

Lemma group_chars_snoc l c k :
  is_continuation c = false → group_chars (l ++ c :: k) = group_chars l ++ group_chars (c :: k).
Proof.
  intros Hc. assert (Hk : ∃ ds rest, group_chars (c :: k) = (c :: ds) :: rest).
  { cbn [group_chars]. destruct (group_chars k) as [|[|d ds] rest]; [by eexists _, _..|]. destruct (is_continuation d); by eexists _, _. }
  destruct Hk as (ds & rest & Hk). rewrite Hk.
  induction l as [|e l IH]; [exact Hk|]. rewrite <- app_comm_cons. cbn [group_chars]. rewrite IH.
  destruct (group_chars l) as [|[|d ds'] rest']; cbn [app]; [by rewrite Hc|done|by destruct (is_continuation d)].
Qed.

Lemma bytes_append s t : bytes (s +:+ t) = bytes s ++ bytes t.
Proof. induction s as [|c s IH]; [done|]. change (c :: bytes (s +:+ t) = c :: (bytes s ++ bytes t)). by rewrite IH. Qed.

Lemma chars_append_squared t : chars (t +:+ "²") = chars t ++ ["²"%string].
Proof.
  unfold chars. rewrite bytes_append. cbn [bytes]. rewrite group_chars_snoc by reflexivity. by rewrite fmap_app.
Qed.

Lemma foldM_panic {A B} (f : A → B → res A) a l1 b l2 a1 e :
  foldM f a l1 = Ok a1 → f a1 b = Panic e → foldM f a (l1 ++ b :: l2) = Panic e.
Proof. intros H1 H2. rewrite foldM_app, H1. cbn. by rewrite H2. Qed.

Lemma history_size_app l k : history_size (l ++ k) = history_size l + history_size k.
Proof.
  induction l as [|t l IH]; [done|]. change (history_size ((t :: l) ++ k)) with (atom_size t + history_size (l ++ k)).
  change (history_size (t :: l)) with (atom_size t + history_size l). lia.
Qed.

Lemma draw_atom_panics `{Font} s w h l cur n user t u :
  0 ≤ get_raster_width ≤ 2 ^ 20 → clamped w h s → len l = w * h → Forall drawable (chars t) →
  0 ≤ n → n + len (chars t) < 2 ^ 32 → cursor_ok n cur → chars u = chars t ++ ["²"%string] → get_raster "²" = None →
  draw_atom s w h (l, cur) {| is_user := user; text := u |} = Panic PUnwrap.
Proof.
  intros Hw Hs Hl Ht Hn Hlen Hcur Hu Hno. unfold draw_atom. cbn [text is_user]. rewrite Hu.
  destruct (draw_chars_overlaid Hw s w h user (chars t) l cur n) as (l1 & cur1 & E1 & _ & _); [done..|].
  rewrite (foldM_panic _ _ _ _ [] (l1, cur1) PUnwrap); [done|done|]. unfold draw_char.
  change ((_ =? newline)%string) with false. cbn iota. by rewrite Hno.
Qed.

(** C30: the console can be made to stop by typing. In the French layout the
    superscript two is on the keyboard, but not in the font, whose only features
    are Basic Latin and the specials: at the event loop of an active console, from any
    prompt whose text can be drawn and with the modifiers released, there are key events after which drawing the next frame panics, wherever the
    window is. *)
Theorem typing_superscript_panics `{Taffy, Font, Fomoscript} fuel w h pid start_time (c : Store) t s dst header :
  get_raster "²" = None →
  last_text c t → local c = Fr →
  clamped w h s → len dst = dst_len w h → len (pixels c) = w * h → legible pid (atoms c) →
  compute_layout (F32.sub (F32.of_Z (x2 s)) (F32.of_Z (x s))) (F32.sub (F32.of_Z (y2 s)) (F32.of_Z (y s))) 0%nat = Ok (header, []) →
  ∃ evs c', process_events fuel w pid start_time evs (with_altg false (with_shift false c)) = Ok (Next c') ∧
    last_text c' (t +:+ "²") ∧
    draw_window s w h pid dst (atoms c') (pixels c') = Panic PUnwrap.
Proof.
  intros Hno Hlast Hfr Hs Hd Hp (Hw & Ht1 & Ht2 & Hh1 & Hh2) Hl.
  destruct (type_one fuel w pid start_time "²" (with_altg false (with_shift false c)) t) as [evs E]; [done| |].
  { cbn [with_altg with_shift local]. rewrite Hfr. apply (bool_decide_unpack _). by vm_compute. }
  exists evs. eexists. split; [exact E|]. set (c' := with_line _ _).
  assert (Hlast' : last_text c' (t +:+ "²")) by (by eapply set_text_last).
  split; [exact Hlast'|]. unfold draw_window. rewrite Hl. cbn [mbind res_bind fmap list_fmap].
  change (pixels c') with (pixels c).
  destruct (draw_box_paints s dst w h (get_rect s header) (pixels c) Hs Hd Hp) as (l1 & -> & Hl1 & _). cbn [mbind res_bind].
  destruct (draw_title_overlaid Hw s w h pid l1) as (l2 & -> & O2); [done..|]. cbn [mbind res_bind].
  assert (Hl2 : len l2 = w * h) by (destruct O2; lia).
  destruct Hlast as [pre Ha]. assert (Hc' : atoms c' = pre ++ [{| is_user := true; text := t +:+ "²" |}]).
  { unfold c', with_line, set_text. cbn [atoms with_altg with_shift]. by rewrite Ha, pop_snoc. }
  rewrite Ha in Hh1, Hh2. apply Forall_app in Hh1 as [Hpre Hline]. inversion_clear Hline as [|? ? Hchars _]. cbn [text] in Hchars.
  rewrite history_size_app in Hh2. unfold history_size in Hh2 at 2. cbn [foldr] in Hh2. unfold atom_size in Hh2. cbn [text] in Hh2.
  pose proof (history_size_nonneg pre). pose proof (len_nonneg (chars t)).
  destruct (draw_atoms_overlaid Hw s w h pre l2 {| cx := 0; cy := 20 |} 0) as (l3 & cur3 & E3 & C3 & O3);
    [done|done|done|lia|lia|apply first_cursor|].
  unfold draw_history. rewrite Hc', (foldM_panic _ _ _ _ [] (l3, cur3) PUnwrap); [done|exact E3|].
  assert (len l3 = w * h) by (destruct O3; lia).
  apply (draw_atom_panics s w h l3 cur3 (0 + history_size pre) true t); try done; [lia|apply chars_append_squared].
Qed.

(** ** Examples: a header of 20 rows, and a font of one dot per character below 128 *)
#[local] Instance header_only : Taffy := {|
  compute_layout width height n := Ok ({| location_x := F32.zero; location_y := F32.zero; size_width := width;
    size_height := F32.of_Z 20 |}, []) |}.
#[local] Instance dots : Font := {|
  get_raster c := match c with
    | String a EmptyString => if is_continuation a || (192 <=? Z.of_N (Ascii.N_of_ascii a)) then None else Some [[255]]
    | _ => None end;
  get_raster_width := 8 |}.

Lemma dots_drawable c : bool_decide (get_raster c = Some [[255]]) = true → in_font c.
Proof. intros Hc%bool_decide_eq_true. exists [[255]]. split; [done|]. split; [done|by repeat constructor]. Qed.

Lemma dots_legible cs : forallb (λ c, bool_decide (get_raster c = Some [[255]])) cs = true → Forall in_font cs.
Proof. intros Hc. apply Forall_forall. intros c Hin. rewrite forallb_forall in Hc. apply dots_drawable, Hc, list_elem_of_In, Hin. Qed.

Lemma in_font_drawable cs : Forall in_font cs → Forall drawable cs.
Proof. intros Hc. apply (Forall_impl _ _ _ Hc). intros c Hin. by right. Qed.

Definition small_window : Window := {|
  x := 1; y := 1; x2 := 6; y2 := 6; resizing := replicate 4 false; moving := None; active := true |}.

Lemma small_clamped : clamped 8 8 small_window.
Proof. unfold clamped. cbn. split_and!; try lia; by exists 2. Qed.

Lemma user_line_legible t :
  forallb (λ c, bool_decide (get_raster c = Some [[255]])) (chars t) = true → len (chars t) < 2 ^ 31 →
  legible 7 [{| is_user := true; text := t |}].
Proof.
  intros Hc Hl. split; [by split|]. split; [apply dots_legible; vm_compute; reflexivity|]. split; [vm_compute; reflexivity|].
  split; [constructor; [by apply in_font_drawable, dots_legible|constructor]|]. cbn [history_size foldr]. unfold atom_size. cbn [text]. lia.
Qed.

(** A pixel outside the window keeps its colour. *)
Lemma console_draws_in_window_witness :
  ∃ pixels', draw_window small_window 8 8 7 (replicate 4 GREY) [{| is_user := true; text := ">" |}] (replicate 64 ORANGE) = Ok pixels' ∧
    pixels' !! 7%nat = Some ORANGE.
Proof.
  destruct (console_draws_in_window small_window 8 8 7 (replicate 4 GREY) [{| is_user := true; text := ">" |}]
    (replicate 64 ORANGE) {| location_x := F32.zero; location_y := F32.zero; size_width := F32.sub (F32.of_Z 6) (F32.of_Z 1);
    size_height := F32.of_Z 20 |}) as (l & E & _ & Hq);
    [apply small_clamped|reflexivity|reflexivity|apply user_line_legible; vm_compute; reflexivity|reflexivity|].
  exists l. split; [exact E|]. specialize (Hq (7, 0) ltac:(cbn; lia) ltac:(cbn; lia)). exact Hq.
Defined.

#[local] Existing Instance echo_values.
#[local] Existing Instance echo_script.

Lemma typing_superscript_panics_witness :
  let c := MkStore [{| is_user := true; text := ">" |}] true Fr false false [] Shell (replicate 64 ORANGE) in
  ∃ evs c', process_events 9 8 7 77 evs c = Ok (Next c') ∧
    draw_window small_window 8 8 7 (replicate 4 GREY) (atoms c') (pixels c') = Panic PUnwrap.
Proof.
  intros c. destruct (typing_superscript_panics 9 8 8 7 77 c ">" small_window (replicate 4 GREY)
    {| location_x := F32.zero; location_y := F32.zero; size_width := F32.sub (F32.of_Z 6) (F32.of_Z 1); size_height := F32.of_Z 20 |})
    as (evs & c' & E & _ & P);
    [reflexivity|by exists []|reflexivity|apply small_clamped|reflexivity|reflexivity
    |apply user_line_legible; vm_compute; reflexivity|reflexivity|].
  exists evs, c'. split; [exact E|exact P].
Defined.
