(* ===== verification/ConsoleFrame.v ===== *)
(** One call of the console's [_start] ([app_console/src/main.rs], lines 198 to
    815): the first call makes the store and the welcome, then every frame blends
    and blurs the background, moves the window, draws it and handles the new key
    events. *)
From stdpp Require Import pretty.
From S2P Require Import Prelude Float32 Globals XmapData Keymap Console Blur Window ConsoleDraw.

Section console.
Context `{Vek3, FloatFns, Taffy, Font, Fomoscript}.

(** The whole [Store]: the window, the two buffers and the frame counter, the
    history with the input state, and the last event index seen. [active] is one
    field of the program, which both the window and the input part hold. *)
Record ConsoleStore := {
  window : Window; buffers : Buffers; console : Store; input_history_last_index : Z
}.

Definition with_screen (active : bool) (fb : list RGBA) (c : Store) : Store :=
  MkStore (atoms c) active (local c) (shift c) (altg c) (script_ctx c) (mode c) fb.

(** The closure of [get_or_insert_with]. *)
Definition new_console (pid : Z) (input : Input) (fb : list RGBA) : ConsoleStore := {|
  window := new_window pid; buffers := no_buffers; console := new_store fb;
  input_history_last_index := history_last_index input |}.

(** [if store.step == 0] *)
Definition greet (s : ConsoleStore) : ConsoleStore :=
  if step (buffers s) =? 0
  then {| window := window s; buffers := buffers s; console := welcome (console s);
          input_history_last_index := input_history_last_index s |}
  else s.

(** The framebuffer after a frame, and the store: none after a reset, or when the
    fuel was not enough for a script. *)
Definition start (fuel w h pid start_time : Z) (input : Input) (fb : list RGBA) (store : option ConsoleStore)
    : res (option ConsoleStore * list RGBA) :=
  let s := greet (default (new_console pid input fb) store) in
  '(bufs, dst) ← background_step fb w h (buffers s);
  left_button ← index (keys input) 272;
  let win := window_step (KeyState.as_u8 left_button) (mouse_x input) (mouse_y input) w h (window s) in
  drawn ← draw_window win w h pid dst (atoms (console s)) fb;
  let c := with_screen (Window.active win) drawn (console s) in
  o ← handle_input fuel w pid start_time input (input_history_last_index s) c;
  mret (match o with
        | Some (c, last) =>
            (Some {| window := win; buffers := bufs; console := c; input_history_last_index := last |}, pixels c)
        | None => (None, drawn)
        end).

(** Frames in sequence: each with the input and the screen the kernel gives. *)
Definition frames (fuel w h pid start_time : Z) (store : option ConsoleStore) (l : list (Input * list RGBA)) : res (option ConsoleStore) :=
  foldM (λ store '(input, fb), '(store, _) ← start fuel w h pid start_time input fb store; mret store) store l.
End console.

(** ** Properties *)
Section properties.
Context `{Vek3Laws, FloatFns, Taffy, Font, Fomoscript}.
Context (w h pid : Z) (Hw : 4 ≤ w < 2 ^ 31) (Hh : 4 ≤ h < 2 ^ 31) (Hw4 : (4 | w)) (Hh4 : (4 | h)).
(** The layout of a column with a header and an empty body succeeds. *)
Context (Hlayout : ∀ width height, ∃ header, compute_layout width height 0%nat = Ok (header, [])).

Definition console_ok (s : ConsoleStore) : Prop :=
  in_range (window s) ∧ length (resizing (window s)) = 4%nat ∧ buffers_ok (w / 4 * (h / 4)) (buffers s) ∧
  legible pid (atoms (console s)).

Definition screen_ok (fb : list RGBA) : Prop := len fb = w * h ∧ Forall RGBA_ok fb.
Definition input_ok (input : Input) : Prop := 272 < len (keys input) ∧ fits 64 (mouse_x input) ∧ fits 64 (mouse_y input).

Lemma step_clamped key mx my s :
  in_range s → length (resizing s) = 4%nat → fits 64 mx → fits 64 my →
  let s' := window_step key mx my w h s in clamped w h s' ∧ in_range s' ∧ length (resizing s') = 4%nat.
Proof.
  intros Hr Hl Hx Hy s'. pose proof (window_step_range key mx my w h s Hr Hx Hy ltac:(lia) ltac:(lia)) as (C1 & C2 & C3 & C4).
  pose proof (window_step_sides key mx my w h s Hl). fold s' in C1, C2, C3, C4. unfold clamped, in_range, fits. split_and!; done || lia.
Qed.

(** A frame up to its key events. *)
Lemma start_draws fuel start_time input fb store :
  let s := greet (default (new_console pid input fb) store) in
  console_ok s → screen_ok fb → input_ok input →
  ∃ win bufs drawn,
    start fuel w h pid start_time input fb store =
      (o ← handle_input fuel w pid start_time input (input_history_last_index s) (with_screen (Window.active win) drawn (console s));
       mret (match o with
             | Some (c, last) =>
                 (Some {| window := win; buffers := bufs; console := c; input_history_last_index := last |}, pixels c)
             | None => (None, drawn)
             end)) ∧
    clamped w h win ∧ in_range win ∧ length (resizing win) = 4%nat ∧ buffers_ok (w / 4 * (h / 4)) bufs ∧ len drawn = w * h ∧
    step bufs = step (buffers s) +u[64] 1.
Proof.
  intros s (Hr & Hl & Hb & Hleg) [Hf Hfb] (Hk & Hx & Hy). unfold start. fold s.
  rewrite background_frame by (done || apply Hb).
  pose proof (background_ref_typed fb w h (buffers s) Hf Hw Hh Hfb Hb) as Ht.
  assert (Hst : step (background_ref (skewed w) fb w h (buffers s)).1 = step (buffers s) +u[64] 1).
  { unfold background_ref. by destruct (_ =? 0). }
  destruct (background_ref (skewed w) fb w h (buffers s)) as [bufs dst]. destruct Ht as (Hb' & Hd & _). cbn [mbind res_bind fst] in *.
  destruct (index_in (keys input) 272) as (key & -> & _); [lia|]. cbn [mbind res_bind].
  destruct (step_clamped (KeyState.as_u8 key) (mouse_x input) (mouse_y input) (window s) Hr Hl Hx Hy) as (Hon & Hr' & Hl').
  set (win := window_step _ _ _ _ _ _) in *.
  destruct (Hlayout (F32.sub (F32.of_Z (x2 win)) (F32.of_Z (x win))) (F32.sub (F32.of_Z (y2 win)) (F32.of_Z (y win)))) as [header Hh'].
  destruct (draw_window_spec win w h pid dst (atoms (console s)) fb header) as (_ & drawn & _ & -> & Hdr & _); try done.
  exists win, bufs, drawn. split_and!; done || apply Hon || apply Hr'.
Qed.

(** Without new events the input part of a frame only remembers the index. *)
Lemma no_events fuel start_time input (c : Store) :
  0 ≤ history_last_index input < 2 ^ 64 - 1 →
  handle_input fuel w pid start_time input (history_last_index input) c = Ok (Some (c, history_last_index input)).
Proof.
  intros Hi. unfold handle_input. rewrite wrap_small by (unfold fits; lia). unfold range. rewrite Z.sub_diag. by destruct (Console.active c).
Qed.

Definition welcome_lines : list Atom := atoms (welcome (new_store [])).

(** After [n] idle frames. *)
Definition idle (n : nat) (k : Z) (store : option ConsoleStore) : Prop :=
  match store with
  | None => n = 0%nat
  | Some s => (0 < n)%nat ∧ console_ok s ∧ input_history_last_index s = k ∧ atoms (console s) = welcome_lines ∧
      step (buffers s) = Z.of_nat n ∧ clamped w h (window s)
  end.

Definition quiet (k : Z) (frame : Input * list RGBA) : Prop :=
  input_ok frame.1 ∧ history_last_index frame.1 = k ∧ screen_ok frame.2.

Lemma new_console_ok input fb : legible pid welcome_lines → console_ok (greet (new_console pid input fb)).
Proof.
  intros Hleg. unfold greet, new_console. cbn [buffers no_buffers step Z.eqb window console].
  split_and!; [|done| |exact Hleg].
  - repeat split; unfold new_window; cbn [x y x2 y2]; apply wrap_fits; lia.
  - split; [by left|by split; constructor].
Qed.

Lemma idle_step fuel start_time n k store frame :
  legible pid welcome_lines → 0 ≤ k < 2 ^ 64 - 1 → Z.of_nat n < 2 ^ 63 → idle n k store → quiet k frame →
  ∃ s fb, start fuel w h pid start_time frame.1 frame.2 store = Ok (Some s, fb) ∧ idle (S n) k (Some s) ∧ len fb = w * h.
Proof.
  intros Hleg Hk Hn Hidle (Hi & Hlast & Hfb). destruct frame as [input fb]. cbn [fst snd] in *.
  set (s0 := greet (default (new_console pid input fb) store)).
  assert (Hs0 : console_ok s0 ∧ input_history_last_index s0 = k ∧ atoms (console s0) = welcome_lines ∧ step (buffers s0) = Z.of_nat n).
  { unfold s0. destruct store as [s|]; cbn [default from_option id idle] in *.
    - destruct Hidle as (Hpos & Hok & Hkk & Ha & Hst & _). unfold greet. rewrite Hst.
      replace (Z.of_nat n =? 0) with false by lia. done.
    - subst n. split; [by apply new_console_ok|]. done. }
  destruct Hs0 as (Hok & Hkk & Ha & Hst).
  destruct (start_draws fuel start_time input fb store Hok Hfb Hi) as (win & bufs & drawn & E & Hon & Hr & Hl & Hb & Hlen & Hstep).
  fold s0 in E, Hstep. rewrite Hkk, <- Hlast, no_events in E by lia. cbn [mbind res_bind mret res_ret] in E.
  eexists _, _. split; [exact E|]. split; [|exact Hlen]. unfold idle, console_ok.
  cbn [window buffers console input_history_last_index with_screen atoms]. rewrite Ha, Hstep, Hst, wrap_small by (unfold fits; lia).
  split_and!; done || lia || apply Hr || apply Hb || apply Hleg || apply Hon.
Qed.

Lemma frames_idle fuel start_time l n k store :
  legible pid welcome_lines → 0 ≤ k < 2 ^ 64 - 1 → Z.of_nat n + len l < 2 ^ 63 → idle n k store → Forall (quiet k) l →
  ∃ store', frames fuel w h pid start_time store l = Ok store' ∧ idle (n + length l) k store'.
Proof.
  intros Hleg Hk. revert n store; induction l as [|[input fb] l IH]; intros n store Hn Hidle Hl; [exists store; by rewrite Nat.add_0_r|].
  inversion_clear Hl as [|? ? Hq Hqs]. rewrite len_cons in Hn. pose proof (len_nonneg l).
  destruct (idle_step fuel start_time n k store (input, fb)) as (s & fb' & E & Hs & _); [done|done|lia|done|done|].
  unfold frames. rewrite (foldM_step _ _ _ _ (Some s)) by (cbn [fst snd] in E; by rewrite E).
  destruct (IH (S n) (Some s)) as (store' & E' & H'); [lia|done|done|]. exists store'. split; [exact E'|].
  by replace (n + length ((input, fb) :: l))%nat with (S n + length l)%nat by (cbn; lia).
Qed.
End properties.

Lemma handle_input_last `{Fomoscript} fuel w pid start_time input last c c' last' :
  handle_input fuel w pid start_time input last c = Ok (Some (c', last')) → last' = history_last_index input.
Proof. unfold handle_input. intros (f & _ & E)%bind_ok. destruct f; try discriminate E; injection E as _ ->; done. Qed.

(** A frame of the console keeps its store well formed and can only be
    stopped by its key events. From a store whose window, buffers and text are
    sound, and the first time from none, on a screen with sides that are multiples
    of 4: if the frame panics it is the handling of the events that panics; and if
    it leaves a store, its window is clamped, its buffers have their size
    and byte channels, the frame counter went up by one, and the remembered index
    is that of the last event. *)
Theorem console_frame_invariant `{Vek3Laws, FloatFns, Taffy, Font, Fomoscript} w h pid fuel start_time input fb store :
  4 ≤ w < 2 ^ 31 → 4 ≤ h < 2 ^ 31 → (4 | w) → (4 | h) →
  (∀ width height, ∃ header, compute_layout width height 0%nat = Ok (header, [])) →
  let s := greet (default (new_console pid input fb) store) in
  console_ok w h pid s → screen_ok w h fb → input_ok input →
  (∀ e, start fuel w h pid start_time input fb store = Panic e →
     ∃ c, atoms c = atoms (console s) ∧ handle_input fuel w pid start_time input (input_history_last_index s) c = Panic e) ∧
  (∀ s' fb', start fuel w h pid start_time input fb store = Ok (Some s', fb') →
     clamped w h (window s') ∧ in_range (window s') ∧ buffers_ok (w / 4 * (h / 4)) (buffers s') ∧
     step (buffers s') = step (buffers s) +u[64] 1 ∧ input_history_last_index s' = history_last_index input ∧
     fb' = pixels (console s')).
Proof.
  intros Hw Hh Hw4 Hh4 Hlay s Hok Hfb Hi.
  destruct (start_draws w h pid Hw Hh Hw4 Hh4 Hlay fuel start_time input fb store Hok Hfb Hi)
    as (win & bufs & drawn & E & Hon & Hr & Hl & Hb & Hlen & Hstep). fold s in E, Hstep. rewrite E.
  destruct (handle_input _ _ _ _ _ _ _) as [o|e] eqn:Ho; cbn [mbind res_bind mret res_ret].
  - split; [done|]. intros s' fb'. destruct o as [[c last]|]; [|done]. intros [= <- <-].
    cbn [window buffers console input_history_last_index].
    apply handle_input_last in Ho as ->. split_and!; done || apply Hon || apply Hr || apply Hb.
  - split; [|done]. intros e' [= ->]. eexists. split; [|exact Ho]. done.
Qed.

(** C27: left alone, the console runs. From its first call, any number of frames
    with the mouse doing anything but no new key event, over whatever the other
    applications drew, never panics; the history is still the welcome and the
    prompt; the window's upper left corner is at most 10000 pixels from the
    screen's, its lower right one is on the screen, and so is every pixel that the
    window draws. Of a window whose upper left corner is off the screen, below or on
    the right, nothing is drawn. *)
Theorem console_idles `{Vek3Laws, FloatFns, Taffy, Font, Fomoscript} w h pid fuel start_time k l :
  4 ≤ w < 2 ^ 31 → 4 ≤ h < 2 ^ 31 → (4 | w) → (4 | h) →
  (∀ width height, ∃ header, compute_layout width height 0%nat = Ok (header, [])) →
  legible pid welcome_lines → 0 ≤ k < 2 ^ 64 - 1 → 0 < len l < 2 ^ 63 → Forall (quiet w h k) l →
  ∃ s, frames fuel w h pid start_time None l = Ok (Some s) ∧
    atoms (console s) = [{| is_user := false; text := "Welcome to Fomos !" |}; {| is_user := true; text := ">" |}] ∧
    step (buffers s) = len l ∧ console_ok w h pid s ∧
    0 ≤ x (window s) ≤ 10000 ∧ 0 ≤ y (window s) ≤ 10000 ∧ 0 ≤ x2 (window s) < w ∧ 0 ≤ y2 (window s) < h ∧
    (∀ q, q ∈ drawn (window s) → 0 ≤ q.1 < w ∧ 0 ≤ q.2 < h) ∧
    (w ≤ x (window s) ∨ h ≤ y (window s) → drawn (window s) = []).
Proof.
  intros Hw Hh Hw4 Hh4 Hlay Hleg Hk Hl Hq.
  destruct (frames_idle w h pid Hw Hh Hw4 Hh4 Hlay fuel start_time l 0 k None Hleg Hk) as (store & E & Hs); [lia|done|done|].
  destruct store as [s|]; cbn [idle] in Hs; [|unfold len in Hl; lia].
  destruct Hs as (_ & Hok & _ & Ha & Hst & Hon). exists s. split; [exact E|]. split; [exact Ha|]. split; [exact Hst|].
  split; [exact Hok|]. destruct Hok as ((_ & _ & [Hx _] & [Hy _]) & _). pose proof Hon as (Hx1 & Hy1 & Hx2 & Hy2 & _).
  do 4 (split; [done|]). split; [intros q; by apply drawn_on_screen|]. intros Hoff.
  destruct (drawn (window s)) as [|q d] eqn:Ed; [done|]. assert (q ∈ drawn (window s)) as Hqd by (rewrite Ed; apply list_elem_of_here).
  apply elem_of_drawn in Hqd. lia.
Qed.

(** ** Examples *)
#[local] Existing Instance echo_values.
#[local] Existing Instance echo_script.
#[local] Existing Instance header_only.
#[local] Existing Instance dots.

Lemma welcome_legible pid :
  forallb (λ c, bool_decide (get_raster c = Some [[255]])) (chars ("app_console [" +:+ pretty pid +:+ "]")) = true →
  len (chars ("app_console [" +:+ pretty pid +:+ "]")) < 2 ^ 32 → legible pid welcome_lines.
Proof.
  intros Hc Hl. split; [by split|]. split; [by apply dots_legible|]. split; [exact Hl|].
  split; [|vm_compute; reflexivity]. unfold welcome_lines. cbn [welcome push_atom atoms new_store app].
  constructor; [|constructor; [|constructor]]; apply in_font_drawable, dots_legible; vm_compute; reflexivity.
Qed.

Definition mouse_at (mx my : Z) (button : KeyState.t) : Input := {|
  mouse_x := mx; mouse_y := my; keys := replicate 272 KeyState.Off ++ [button];
  history_last_index := 5; history_ring := [] |}.

Lemma white_screen : screen_ok 8 8 (replicate 64 white).
Proof. split; [reflexivity|]. apply Forall_replicate. repeat split; done. Qed.

(** Two frames on a screen of 104 by 104: the window, whose sides were first at 100
    and beyond the screen, is clamped to the last 4 by 4 pixels. *)
Lemma console_idles_witness :
  let screen := replicate (Z.to_nat (104 * 104)) white in
  ∃ s, frames 9 104 104 0 77 None [(mouse_at 3 4 KeyState.Off, screen); (mouse_at 3 4 KeyState.OnFromOff, screen)] = Ok (Some s) ∧
    step (buffers s) = 2 ∧ ∀ q, q ∈ drawn (window s) → 0 ≤ q.1 < 104 ∧ 0 ≤ q.2 < 104.
Proof.
  intros screen. destruct (console_idles 104 104 0 9 77 5
    [(mouse_at 3 4 KeyState.Off, screen); (mouse_at 3 4 KeyState.OnFromOff, screen)]) as (s & E & _ & Hs & _ & _ & _ & _ & _ & Hd & _);
    [lia|lia|by exists 26|by exists 26|intros; eexists; reflexivity|apply welcome_legible; vm_compute; reflexivity|lia|by split; vm_compute| |].
  - assert (screen_ok 104 104 screen) as Hsc.
    { split; [unfold len, screen; rewrite length_replicate; apply Z2Nat.id; lia|]. apply Forall_replicate. repeat split; done. }
    constructor; [|constructor; [|constructor]];
      (split; [split; [vm_compute; reflexivity|split; by split; vm_compute]|split; [reflexivity|exact Hsc]]).
  - exists s. split; [exact E|]. split; [exact Hs|exact Hd].
Defined.

Lemma quiet_frame : quiet 8 8 5 (mouse_at 3 4 KeyState.Off, replicate 64 white).
Proof. split; [split; [vm_compute; reflexivity|split; by split; vm_compute]|]. split; [reflexivity|apply white_screen]. Qed.

Lemma console_frame_invariant_witness :
  ∃ s' fb', start 9 8 8 7 77 (mouse_at 3 4 KeyState.Off) (replicate 64 white) None = Ok (Some s', fb') ∧
    input_history_last_index s' = 5 ∧ step (buffers s') = 1.
Proof.
  destruct (console_frame_invariant 8 8 7 9 77 (mouse_at 3 4 KeyState.Off) (replicate 64 white) None) as [_ Hs];
    [lia|lia|by exists 2|by exists 2|intros; eexists; reflexivity| |apply white_screen|apply quiet_frame|].
  - apply new_console_ok; [by exists 2|by exists 2|apply welcome_legible; vm_compute; reflexivity].
  - destruct (idle_step 8 8 7 ltac:(lia) ltac:(lia) ltac:(by exists 2) ltac:(by exists 2) ltac:(intros; eexists; reflexivity)
      9 77 0 5 None (mouse_at 3 4 KeyState.Off, replicate 64 white) (welcome_legible 7 eq_refl eq_refl) ltac:(lia) ltac:(lia) eq_refl quiet_frame)
      as (s' & fb' & E & _). exists s', fb'. split; [exact E|].
    destruct (Hs s' fb' E) as (_ & _ & _ & Hst & Hl & _). split; [exact Hl|exact Hst].
Defined.
