(* ===== verification/Drawers.v ===== *)
(** The other applications: the mouse cursor ([app_cursor/src/main.rs]), the
    background image ([app_background/src/main.rs]) and the test application
    ([app_test/src/main.rs]). Each is one function from the context it is given;
    what it writes to the log is the list of messages.

    The vectors of [vek], the [cosf] of [libm] and the PNG decoder of [imagine]
    are parameters. *)
From Stdlib Require Import SpecFloat.
From S2P Require Import Prelude Float32 Globals Window Console Blur.

(** ** Third-party interfaces *)
Class Vek2 := {
  Vec2 : Type;
  Vec2_new : F32.t → F32.t → Vec2;
  v2x : Vec2 → F32.t; v2y : Vec2 → F32.t;
  v2_add : Vec2 → Vec2 → Vec2; v2_sub : Vec2 → Vec2 → Vec2;
  (** [v * c] and [c * v] *)
  v2_mul : Vec2 → F32.t → Vec2; v2_scale : F32.t → Vec2 → Vec2;
  v2_dot : Vec2 → Vec2 → F32.t;
  v2_magnitude : Vec2 → F32.t
}.

(** What an application's call leaves: its exit code, its store, the screen and
    the messages it logged. *)
Record outcome (S : Type) := Outcome { code : Z; cell : option S; screen : list RGBA; logged : list string }.
Arguments Outcome {S} _ _ _ _.
Arguments code {S} _. Arguments cell {S} _. Arguments screen {S} _. Arguments logged {S} _.

(** ** The cursor *)
Declare Scope f32_scope.
Delimit Scope f32_scope with f32.

Module Cursor.
Record Store := MkStore { x : Z; y : Z; xm : Z; ym : Z }.

Section cursor.
Context `{Vek2}.

Notation "a + b" := (F32.add a b) : f32_scope.
Notation "a - b" := (F32.sub a b) : f32_scope.
Notation "a * b" := (F32.mul a b) : f32_scope.
Notation "a / b" := (F32.div a b) : f32_scope.

Definition cro (a b : Vec2) : F32.t := (v2x a * v2y b - v2y a * v2x b)%f32.

(** [f32::clamp] *)
Definition clamp (v lo hi : F32.t) : F32.t :=
  let v := if F32.ltb v lo then lo else v in if F32.ltb hi v then hi else v.

Definition half : F32.t := F32.dec 1 2.

(** The distance of [p] to a quadratic curve. *)
Definition sd_bezier (p v0 v1 v2 : Vec2) : F32.t :=
  let mid := v2_mul (v2_add v0 v2) half in
  let to_v1 := v2_sub v1 mid in
  let v1 := v2_add v1 (v2_mul to_v1 (F32.of_Z 1)) in
  let i := v2_sub v0 v2 in
  let j := v2_sub v2 v1 in
  let k := v2_sub v1 v0 in
  let w := v2_sub j k in
  let v0 := v2_sub v0 p in
  let v1 := v2_sub v1 p in
  let v2 := v2_sub v2 p in
  let x := cro v0 v2 in
  let y := cro v1 v0 in
  let z := cro v2 v1 in
  let s := v2_sub (v2_scale (F32.of_Z 2) (v2_add (v2_scale y j) (v2_scale z k))) (v2_scale x i) in
  let r := ((y * z - x * x * F32.dec 1 4) / v2_dot s s)%f32 in
  let t := clamp ((half * x + y + r * v2_dot s w) / (x + y + z))%f32 (F32.of_Z 0) (F32.of_Z 1) in
  v2_magnitude (v2_add v0 (v2_scale t (v2_add (v2_add k k) (v2_scale t w)))).

(** [(x as i32 - mx as i32).abs() + (y as i32 - my as i32).abs() < 80], in a
    release build. *)
Definition as_i32 (v : Z) : Z := swrap 32 v.
Definition near_mouse (px py mx my : Z) : bool :=
  swrap 32 (swrap 32 (Z.abs (swrap 32 (as_i32 px - as_i32 mx))) + swrap 32 (Z.abs (swrap 32 (as_i32 py - as_i32 my)))) <? 80.

(** The colour inside the stroke, by the state of the left button. *)
Definition stroke (left_click : Z) (p : RGBA) : RGBA :=
  if left_click <? 128 then {| r := 255; g := 255; b := 255; a := a p |}
  else if left_click =? 128 then {| r := 255; g := 255; b := 0; a := a p |}
  else {| r := 255; g := 0; b := 0; a := a p |}.

(** The body of the pixel loop. *)
Definition cursor_pixel (input : Input) (am a b : Vec2) (px py : Z) (p : RGBA) : res RGBA :=
  if near_mouse px py (mouse_x input) (mouse_y input) then
    let pos := Vec2_new (F32.of_Z px) (F32.of_Z py) in
    let d := sd_bezier pos am a b in
    if F32.ltb d (F32.of_Z 3) then
      k ← index (keys input) 272;
      mret (stroke (KeyState.as_u8 k) p)
    else if F32.ltb d (F32.of_Z 4) then mret {| r := 0; g := 0; b := 0; a := Console.a p |}
    else mret p
  else mret p.

Definition hundredth : F32.t := F32.dec 1 100.

(** [_start] *)
Definition start (w h : Z) (input : Input) (fb : list RGBA) (cell : option Store) : res (outcome Store) :=
  let '(store, log) := match cell with
    | Some ptr => (ptr, [])
    | None => (MkStore (mouse_x input) (mouse_y input) (mouse_x input) (mouse_y input), ["store not found"%string])
    end in
  let am := Vec2_new (F32.of_Z (xm store) + hundredth)%f32 (F32.of_Z (ym store)) in
  let a := Vec2_new (F32.of_Z (x store)) (F32.of_Z (y store)) in
  let b := Vec2_new (F32.of_Z (mouse_x input) + hundredth)%f32 (F32.of_Z (mouse_y input) + hundredth)%f32 in
  fb ← foldM (λ fb py, foldM (λ fb px,
      p ← index fb (px +u[64] (py *u[64] w));
      p ← cursor_pixel input am a b px py p;
      update fb (px +u[64] (py *u[64] w)) p) fb (range 0 w)) fb (range 0 h);
  let store := MkStore (mouse_x input) (mouse_y input) (x store) (y store) in
  mret (Outcome 0 (Some store) fb log).

(** *** What a frame draws *)

(** The colours a cursor pixel can have, over [p]. *)
Definition cursor_colours (left_click : Z) (p : RGBA) : list RGBA :=
  [p; stroke left_click p; {| r := 0; g := 0; b := 0; a := Console.a p |}].

Lemma cursor_pixel_colours input am a b px py p key :
  keys input !! 272%nat = Some key →
  ∃ p', cursor_pixel input am a b px py p = Ok p' ∧ p' ∈ cursor_colours (KeyState.as_u8 key) p ∧
    (near_mouse px py (mouse_x input) (mouse_y input) = false → p' = p).
Proof.
  intros Hk. unfold cursor_pixel, cursor_colours.
  assert (Hi : index (keys input) 272 = Ok key) by (apply index_ok; split; [lia|exact Hk]). rewrite Hi.
  destruct (near_mouse _ _ _ _); [|exists p; split_and!; [done|by left|done]].
  destruct (F32.ltb _ (F32.of_Z 3)); [eexists; split_and!; [done|right; by left|done]|].
  destruct (F32.ltb _ (F32.of_Z 4)); eexists; (split_and!; [done| |done]); [right; right; by left|by left].
Qed.

(** On a screen below 2^29 pixels a side the distance does not wrap. *)
Lemma near_mouse_distance px py mx my :
  0 ≤ px < 2 ^ 29 → 0 ≤ py < 2 ^ 29 → 0 ≤ mx < 2 ^ 29 → 0 ≤ my < 2 ^ 29 →
  near_mouse px py mx my = (Z.abs (px - mx) + Z.abs (py - my) <? 80).
Proof.
  intros. assert (Hs : ∀ v, - 2 ^ 31 ≤ v < 2 ^ 31 → swrap 32 v = v) by (intros v Hv; unfold swrap; rewrite Z.mod_small; lia).
  unfold near_mouse, as_i32. rewrite (Hs px), (Hs mx), (Hs py), (Hs my) by lia.
  rewrite (Hs (px - mx)), (Hs (py - my)) by lia. rewrite (Hs (Z.abs (px - mx))), (Hs (Z.abs (py - my))) by lia.
  by rewrite Hs by lia.
Qed.

Lemma frame_pass w h fb (body : Z → Z → RGBA → res RGBA) (R : Z → Z → RGBA → RGBA → Prop) :
  grid w h → len fb = w * h →
  (∀ px py p, 0 ≤ px < w → 0 ≤ py < h → ∃ p', body px py p = Ok p' ∧ R px py p p') →
  ∃ fb', foldM (λ fb py, foldM (λ fb px,
      p ← index fb (px +u[64] (py *u[64] w));
      p ← body px py p;
      update fb (px +u[64] (py *u[64] w)) p) fb (range 0 w)) fb (range 0 h) = Ok fb' ∧ len fb' = w * h ∧
    ∀ px py, 0 ≤ px < w → 0 ≤ py < h → ∃ p p', fb !! Z.to_nat (px + py * w) = Some p ∧
      fb' !! Z.to_nat (px + py * w) = Some p' ∧ R px py p p'.
Proof.
  intros Hg Hl Hb. pose proof Hg as [Hw Hh].
  set (f := λ i p, match body (i mod w) (i / w) p with Ok p' => p' | Panic _ => p end).
  exists (imap (λ i, f (Z.of_nat i)) fb). split; [|split; [by rewrite imap_length|]].
  - apply (grid_pass w h (λ fb px py, p ← index fb (px +u[64] (py *u[64] w)); p ← body px py p; update fb (px +u[64] (py *u[64] w)) p)
      f fb Hg Hl).
    intros l' px py p Hl' Hx Hy Hp. destruct (grid_cell w h px py Hg Hx Hy) as [Hc Hr].
    pose proof (grid_product w h Hg).
    assert (Hi : px +u[64] (py *u[64] w) = px + py * w) by (rewrite (wrap_small 64 (py * w)) by (unfold fits; nia); exact Hc).
    rewrite Hi, (index_some l' _ p) by (done || lia). cbn [mbind res_bind].
    destruct (grid_mod w h px py Hg Hx) as [Hm Hd]; [lia|]. unfold f. rewrite Hm, Hd.
    destruct (Hb px py p Hx Hy) as (p' & -> & _). cbn [mbind res_bind]. by rewrite update_in by lia.
  - intros px py Hx Hy. destruct (grid_cell w h px py Hg Hx Hy) as [_ Hr].
    destruct (index_in fb (px + py * w)) as (p & _ & Hp); [lia|]. exists p.
    destruct (grid_mod w h px py Hg Hx) as [Hm Hd]; [lia|].
    destruct (Hb px py p Hx Hy) as (p' & E & HR). exists p'. split_and!; [done| |done].
    rewrite list_lookup_imap, Hp. cbn [fmap option_fmap option_map]. unfold f. rewrite Z2Nat.id, Hm, Hd, E by lia. done.
Qed.

(** C32: the cursor application touches the screen only around the mouse. From any
    store, on a screen below 2^29 pixels a side, a frame never panics and keeps the
    size of the screen; a pixel further than 79 steps from the mouse keeps its
    colour, every other is left, or painted black, or in the colour of the button,
    its alpha kept; and the store then holds the position of the mouse and the one
    before it. *)
Theorem cursor_draws_near_mouse w h input fb cell key :
  grid w h → len fb = w * h → keys input !! 272%nat = Some key →
  0 ≤ mouse_x input < 2 ^ 29 → 0 ≤ mouse_y input < 2 ^ 29 →
  ∃ fb' log, start w h input fb cell =
      Ok (Outcome 0 (Some (MkStore (mouse_x input) (mouse_y input)
            (from_option x (mouse_x input) cell) (from_option y (mouse_y input) cell))) fb' log) ∧
    len fb' = w * h ∧ (log = [] ↔ is_Some cell) ∧
    ∀ px py, 0 ≤ px < w → 0 ≤ py < h → ∃ p p', fb !! Z.to_nat (px + py * w) = Some p ∧
      fb' !! Z.to_nat (px + py * w) = Some p' ∧ Console.a p' = Console.a p ∧ p' ∈ cursor_colours (KeyState.as_u8 key) p ∧
      (80 ≤ Z.abs (px - mouse_x input) + Z.abs (py - mouse_y input) → p' = p).
Proof.
  intros Hg Hl Hk Hmx Hmy. pose proof Hg as [Hw Hh]. unfold start.
  set (st := match cell with Some ptr => _ | None => _ end).
  assert (Hst : x st.1 = from_option x (mouse_x input) cell ∧ y st.1 = from_option y (mouse_y input) cell ∧ (st.2 = [] ↔ is_Some cell)).
  { unfold st. destruct cell; cbn; split_and!; try done; split; try done. all: by intros [? [=]] || (intros; by eexists). }
  destruct st as [store log]. cbn [fst snd] in Hst. destruct Hst as (Hsx & Hsy & Hlog).
  set (am := Vec2_new _ (F32.of_Z (ym store))). set (va := Vec2_new (F32.of_Z (x store)) _). set (vb := Vec2_new _ _).
  destruct (frame_pass w h fb (cursor_pixel input am va vb)
    (λ px py p p', p' ∈ cursor_colours (KeyState.as_u8 key) p ∧ (near_mouse px py (mouse_x input) (mouse_y input) = false → p' = p)))
    as (fb' & -> & Hl' & Hcells); [done|done| |].
  { intros px py p _ _. by apply cursor_pixel_colours. }
  cbn [mbind res_bind]. rewrite Hsx, Hsy. exists fb', log. split; [done|]. split; [done|]. split; [done|].
  intros px py Hpx Hpy. destruct (Hcells px py Hpx Hpy) as (p & p' & E & E' & Hc & Hfar). exists p, p'. split_and!; try done.
  - unfold cursor_colours, stroke in Hc. rewrite !elem_of_cons in Hc.
    destruct Hc as [->|[->|[->|Hc%elem_of_nil]]]; [done| |done|done]. by repeat case_match.
  - intros Hd. apply Hfar. rewrite near_mouse_distance by lia. lia.
Qed.
End cursor.
End Cursor.

(** ** The background image *)
Module Background.
(** [imagine]'s bitmap: [pixels] in row order. *)
Record Bitmap := { width : Z; height : Z; pixels : list RGBA }.
Definition bitmap_ok (b : Bitmap) : Prop := len (pixels b) = width b * height b.

Record Store := MkStore { pix : Bitmap }.

Section background.
(** [libm::cosf], and [Bitmap::try_from_png_bytes] on the bytes of the image. *)
Context (cosf : F32.t → F32.t) (IMG : option Bitmap).

(** Computed each frame and not used. *)
Definition dx (start_time : Z) : Z :=
  F32.to_usize (F32.mul (cosf (F32.mul (F32.of_Z start_time) (F32.dec 1 1000))) (F32.of_Z 2)).

(** [((i as f32 / n as f32) * size as f32) as usize] *)
Definition scaled (i n size : Z) : Z := F32.to_usize (F32.mul (F32.div (F32.of_Z i) (F32.of_Z n)) (F32.of_Z size)).

(** The body of the pixel loop. *)
Definition background_pixel (pix : Bitmap) (w h : Z) (px py : Z) (p : RGBA) : res RGBA :=
  let ix := scaled px w (width pix) in
  let iy := scaled py h (height pix) in
  v ← index (pixels pix) (ix +u[64] (iy *u[64] width pix));
  mret {| r := r v; g := g v; b := b v; a := a p |}.

(** [_start] *)
Definition start (w h start_time : Z) (fb : list RGBA) (cell : option Store) : res (outcome Store) :=
  match (match cell with
         | Some ptr => (Some ptr, [])
         | None => match IMG with
                   | None => (None, ["store not found"; "No pix"]%string)
                   | Some pix => (Some (MkStore pix), ["store not found"%string])
                   end
         end) with
  | (None, log) => mret (Outcome (-1) None fb log)
  | (Some store, log) =>
      let dx := dx start_time in
      fb ← foldM (λ fb py, foldM (λ fb px,
          p ← index fb (px +u[64] (py *u[64] w));
          p ← background_pixel (pix store) w h px py p;
          update fb (px +u[64] (py *u[64] w)) p) fb (range 0 w)) fb (range 0 h);
      mret (Outcome 0 (Some store) fb log)
  end.
End background.

(** *** The scaling in single precision *)

Lemma close_mul_close A B C D :
  F32.close A B → 0 ≤ A → F32.close (B * C) D → 0 < C → 2 ^ 46 * (D - A * C) ≤ (2 ^ 24 + 1) * (A * C) ∧ 2 ^ 46 * (A * C - D) ≤ (2 ^ 24 + 1) * (A * C).
Proof.
  unfold F32.close. intros H1 HA H2 HC. change (2 ^ 46) with (2 ^ 23 * 2 ^ 23) in *. change (2 ^ 24) with (2 * 2 ^ 23).
  set (k := 2 ^ 23) in *. assert (Hk : 0 < k) by done. clearbody k.
  assert (HB : - A ≤ (B - A) * k ≤ A) by nia.
  assert (HBC : - (A * C) ≤ (B * C - A * C) * k ≤ A * C) by nia.
  assert (HD : - (B * C) ≤ (D - B * C) * k ≤ B * C) by nia.
  split; nia.
Qed.

(** The value behind the sample index, in units of [2^-149]: two roundings away
    from the exact quotient. *)
Lemma scaled_value i n size :
  0 ≤ i < n → n ≤ 2 ^ 20 → 0 < size ≤ 2 ^ 20 →
  ∃ v, 0 ≤ v ∧ scaled i n size = Z.min (2 ^ 64 - 1) (v / 2 ^ 149) ∧
    2 ^ 46 * (v * n - 2 ^ 149 * (i * size)) ≤ (2 ^ 24 + 1) * (2 ^ 149 * (i * size)) ∧
    2 ^ 46 * (2 ^ 149 * (i * size) - v * n) ≤ (2 ^ 24 + 1) * (2 ^ 149 * (i * size)).
Proof.
  intros Hi Hn Hs. unfold scaled.
  destruct (F32.of_Z_exact i ltac:(lia)) as [Ni Vi]. destruct (F32.of_Z_exact n ltac:(lia)) as [Nn Vn].
  destruct (F32.of_Z_exact size ltac:(lia)) as [Ns Vs].
  set (U := 2 ^ 149) in *. assert (HU : 0 < U) by done. assert (HU2 : 2 ^ 100 * 2 ^ 49 = U) by done.
  destruct (F32.div_close (F32.of_Z i) (F32.of_Z n)) as [Nq Cq]; [done|done|rewrite Vn; nia| |].
  { rewrite Vi, Vn. destruct (Z.eq_dec i 0) as [->|]; [by left|]. right. split; nia. }
  set (q := F32.div _ _) in *. rewrite Vi, Vn in Cq. fold U in Cq.
  replace (i * U * U) with (U * (i * U)) in Cq by ring. replace (F32.val q * (n * U)) with (U * (F32.val q * n)) in Cq by ring.
  apply F32.close_scale in Cq; [|done].
  assert (Hq0 : 0 ≤ F32.val q) by (by apply F32.val_nonneg).
  assert (Hqi : F32.val q * n * 2 ^ 23 ≤ i * U * (2 ^ 23 + 1) ∧ i * U * (2 ^ 23 - 1) ≤ F32.val q * n * 2 ^ 23).
  { unfold F32.close in Cq. lia. }
  destruct (F32.mul_close q (F32.of_Z size)) as [Nv Cv]; [done|done| |].
  { rewrite Vs. destruct (Z.eq_dec i 0) as [->|Hi0]; [left; nia|]. right; right.
    assert (Hlo : U ≤ F32.val q * 2 ^ 21) by nia. assert (Hhi : F32.val q ≤ 2 * U) by nia.
    change (2 ^ 173) with (U * 2 ^ 24). change (2 ^ 398) with (U * U * 2 ^ 100). nia. }
  set (v := F32.val (F32.mul q (F32.of_Z size))) in *. rewrite Vs in Cv.
  replace (F32.val q * (size * U)) with (U * (F32.val q * size)) in Cv by ring. fold U in Cv. rewrite (Z.mul_comm v U) in Cv.
  apply F32.close_scale in Cv; [|done].
  assert (Hcv : F32.close (F32.val q * n * size) (v * n)).
  { replace (F32.val q * n * size) with (n * (F32.val q * size)) by ring. rewrite (Z.mul_comm v n). apply F32.close_scale; [lia|done]. }
  destruct (close_mul_close (i * U) (F32.val q * n) size (v * n) Cq ltac:(nia) Hcv ltac:(lia)) as [H1 H2].
  exists v. unfold F32.to_usize. rewrite F32.to_int_val by (done || lia). fold U v.
  replace (i * U * size) with (U * (i * size)) in H1, H2 by ring.
  split; [by apply F32.val_nonneg|]. done.
Qed.

(** The sample index is in the image and within one step of the exact one. *)
Lemma scaled_spec i n size :
  0 ≤ i < n → n ≤ 2 ^ 20 → 0 < size ≤ 2 ^ 20 →
  0 ≤ scaled i n size < size ∧ scaled i n size * n < i * size + n ∧ i * size < (scaled i n size + 2) * n.
Proof.
  intros Hi Hn Hs. destruct (scaled_value i n size Hi Hn Hs) as (v & Hv0 & -> & H1 & H2).
  set (U := 2 ^ 149) in *. assert (HU : 0 < U) by done.
  set (e := i * size) in *. assert (He : 0 ≤ e ≤ (n - 1) * size) by (unfold e; nia).
  assert (Hsmall : (2 ^ 24 + 1) * e < 2 ^ 46 * n ∧ (2 ^ 24 + 1) * e < 2 ^ 46 * size).
  { assert ((n - 1) * size ≤ n * 2 ^ 20) by nia. assert ((n - 1) * size ≤ 2 ^ 20 * size) by nia. lia. }
  assert (Hslack : 2 ^ 46 * (v * n - U * e) < 2 ^ 46 * (U * n) ∧ 2 ^ 46 * (v * n - U * e) < 2 ^ 46 * (U * size)
                   ∧ 2 ^ 46 * (U * e - v * n) < 2 ^ 46 * (U * n)).
  { replace ((2 ^ 24 + 1) * (U * e)) with (U * ((2 ^ 24 + 1) * e)) in H1, H2 by ring.
    assert (U * ((2 ^ 24 + 1) * e) < U * (2 ^ 46 * n)) by (apply Z.mul_lt_mono_pos_l; lia).
    assert (U * ((2 ^ 24 + 1) * e) < U * (2 ^ 46 * size)) by (apply Z.mul_lt_mono_pos_l; lia). lia. }
  destruct Hslack as (S1 & S2 & S3). apply Z.mul_lt_mono_pos_l in S1, S2, S3; [|done..].
  set (k := v / U). assert (Hk : k * U ≤ v < (k + 1) * U).
  { pose proof (Z.div_mod v U ltac:(lia)). pose proof (Z.mod_pos_bound v U HU). unfold k. lia. }
  assert (0 ≤ k) by (apply Z.div_pos; lia). clearbody U k. clear H1 H2.
  assert (Hks : k < size).
  { assert (v * n < U * (n * size)) by nia. assert (v < U * size) by nia. nia. }
  rewrite Z.min_r by lia. split; [lia|]. split; nia.
Qed.

Lemma background_pixel_spec pix w h px py p :
  bitmap_ok pix → 0 < width pix ≤ 2 ^ 20 → 0 < height pix ≤ 2 ^ 20 → w ≤ 2 ^ 20 → h ≤ 2 ^ 20 →
  0 ≤ px < w → 0 ≤ py < h →
  ∃ v, background_pixel pix w h px py p = Ok {| r := r v; g := g v; b := b v; a := a p |} ∧
    pixels pix !! Z.to_nat (scaled px w (width pix) + scaled py h (height pix) * width pix) = Some v.
Proof.
  intros Hok Hw Hh Hsw Hsh Hpx Hpy. unfold background_pixel.
  destruct (scaled_spec px w (width pix)) as [Hx _]; [lia..|].
  destruct (scaled_spec py h (height pix)) as [Hy _]; [lia..|].
  set (ix := scaled px w (width pix)) in *. set (iy := scaled py h (height pix)) in *.
  destruct (grid_cell (width pix) (height pix) ix iy) as [Hc Hr]; [unfold grid; lia|lia|lia|].
  assert (0 ≤ iy * width pix < 2 ^ 64) by nia.
  rewrite (wrap_small 64 (iy * _)), Hc by (unfold fits; lia).
  destruct (index_in (pixels pix) (ix + iy * width pix)) as (v & -> & Hv); [rewrite Hok; lia|]. by exists v.
Qed.

(** The pixel loop, for an image of a sensible size. *)
Lemma fill w h fb pix :
  0 < w ≤ 2 ^ 20 → 0 < h ≤ 2 ^ 20 → len fb = w * h → bitmap_ok pix → 0 < width pix ≤ 2 ^ 20 → 0 < height pix ≤ 2 ^ 20 →
  ∃ fb', foldM (λ fb py, foldM (λ fb px,
      p ← index fb (px +u[64] (py *u[64] w));
      p ← background_pixel pix w h px py p;
      update fb (px +u[64] (py *u[64] w)) p) fb (range 0 w)) fb (range 0 h) = Ok fb' ∧ len fb' = w * h ∧
    ∀ px py, 0 ≤ px < w → 0 ≤ py < h → ∃ p v ix iy,
      fb !! Z.to_nat (px + py * w) = Some p ∧
      fb' !! Z.to_nat (px + py * w) = Some {| r := r v; g := g v; b := b v; a := a p |} ∧
      pixels pix !! Z.to_nat (ix + iy * width pix) = Some v ∧
      0 ≤ ix < width pix ∧ 0 ≤ iy < height pix ∧
      ix * w < px * width pix + w ∧ px * width pix < (ix + 2) * w ∧
      iy * h < py * height pix + h ∧ py * height pix < (iy + 2) * h.
Proof.
  intros Hw Hh Hl Hok Hiw Hih.
  destruct (Cursor.frame_pass w h fb (background_pixel pix w h) (λ px py p p', ∃ v,
      p' = {| r := r v; g := g v; b := b v; a := a p |} ∧
      pixels pix !! Z.to_nat (scaled px w (width pix) + scaled py h (height pix) * width pix) = Some v))
    as (fb' & E & Hl' & Hc); [unfold grid; lia|done| |].
  { intros px py p Hpx Hpy. destruct (background_pixel_spec pix w h px py p) as (v & -> & Hv); [done|lia..|].
    eexists. split; [done|]. by exists v. }
  exists fb'. split; [exact E|]. split; [done|]. intros px py Hpx Hpy.
  destruct (Hc px py Hpx Hpy) as (p & p' & E1 & E2 & v & -> & Hv).
  destruct (scaled_spec px w (width pix)) as (? & ? & ?); [lia..|].
  destruct (scaled_spec py h (height pix)) as (? & ? & ?); [lia..|].
  exists p, v, (scaled px w (width pix)), (scaled py h (height pix)). done.
Qed.

(** C31: the background application fills the screen with the image. When the
    image does not decode and there is no store it logs it, returns -1 and leaves
    the screen and the store alone; otherwise, for an image and a screen of at
    most 2^20 pixels a side, it never panics in spite of the single precision
    scaling: each pixel gets the colour of an image pixel inside the image, at most
    one column and one row from the exact one, its alpha kept. *)
Theorem background_covers_screen cosf IMG w h start_time fb cell :
  0 < w ≤ 2 ^ 20 → 0 < h ≤ 2 ^ 20 → len fb = w * h →
  match from_option (λ s, Some (pix s)) IMG cell with
  | None => start cosf IMG w h start_time fb cell = Ok (Outcome (-1) None fb ["store not found"; "No pix"]%string)
  | Some im =>
      bitmap_ok im → 0 < width im ≤ 2 ^ 20 → 0 < height im ≤ 2 ^ 20 →
      ∃ fb' log, start cosf IMG w h start_time fb cell = Ok (Outcome 0 (Some (MkStore im)) fb' log) ∧ len fb' = w * h ∧
        (log = [] ↔ is_Some cell) ∧
        ∀ px py, 0 ≤ px < w → 0 ≤ py < h → ∃ p v ix iy,
          fb !! Z.to_nat (px + py * w) = Some p ∧
          fb' !! Z.to_nat (px + py * w) = Some {| r := r v; g := g v; b := b v; a := a p |} ∧
          pixels im !! Z.to_nat (ix + iy * width im) = Some v ∧
          0 ≤ ix < width im ∧ 0 ≤ iy < height im ∧
          ix * w < px * width im + w ∧ px * width im < (ix + 2) * w ∧
          iy * h < py * height im + h ∧ py * height im < (iy + 2) * h
  end.
Proof.
  intros Hw Hh Hl.
  unfold start. destruct cell as [[im]|]; [|destruct IMG as [im|]]; cbn [from_option pix]; [| |done];
    intros Hok Hiw Hih; destruct (fill w h fb im Hw Hh Hl Hok Hiw Hih) as (fb' & -> & Hl' & Hc);
    eexists fb', _; (split; [done|]); (split; [done|]); (split; [|exact Hc]); split; try done; by intros [? [=]] || by eexists.
Qed.
End Background.

(** ** The test application *)
Module TestApp.
Definition TEXT : string := "Writting from pid: ".

(** [_start]: the version it stores back, the message it logs and its exit code.
    The digit replaces the last byte of the text. *)
Definition start (version pid : Z) : res (Z * list Z * Z) :=
  let version := version +u[8] 1 in
  let m := (λ c, Z.of_N (Ascii.N_of_ascii c)) <$> bytes TEXT in
  m ← update m (len m -u[64] 1) (48 +u[8] wrap 8 pid);
  mret (version, m, 0).

(** The message is the text with its last space replaced by the digit. *)
Lemma start_message version pid :
  0 ≤ pid < 10 → 0 ≤ version < 255 →
  start version pid = Ok (version + 1, ((λ c, Z.of_N (Ascii.N_of_ascii c)) <$> bytes "Writting from pid:") ++ [48 + pid], 0).
Proof.
  intros Hp Hv. unfold start. rewrite (wrap_small 8 pid), (wrap_small 8 (version + 1)), (wrap_small 8 (48 + pid)) by (unfold fits; lia).
  reflexivity.
Qed.
End TestApp.

(** ** Examples *)
#[local] Instance pairs : Vek2 := {|
  Vec2 := F32.t * F32.t; Vec2_new x y := (x, y); v2x := fst; v2y := snd;
  v2_add v u := (F32.add v.1 u.1, F32.add v.2 u.2); v2_sub v u := (F32.sub v.1 u.1, F32.sub v.2 u.2);
  v2_mul v c := (F32.mul v.1 c, F32.mul v.2 c); v2_scale c v := (F32.mul c v.1, F32.mul c v.2);
  v2_dot v u := F32.add (F32.mul v.1 u.1) (F32.mul v.2 u.2);
  v2_magnitude v := SFsqrt 24 128 (F32.add (F32.mul v.1 v.1) (F32.mul v.2 v.2)) |}.

Definition mouse_input (mx my : Z) : Input := {|
  mouse_x := mx; mouse_y := my; keys := replicate 1024 KeyState.Off; history_last_index := 0; history_ring := [] |}.

(** The far corner of the screen keeps its colour. *)
Lemma cursor_draws_near_mouse_witness :
  ∃ fb' log, Cursor.start 100 1 (mouse_input 3 0) (replicate 100 GREY) None =
    Ok (Outcome 0 (Some (Cursor.MkStore 3 0 3 0)) fb' log) ∧ fb' !! 99%nat = Some GREY.
Proof.
  destruct (Cursor.cursor_draws_near_mouse 100 1 (mouse_input 3 0) (replicate 100 GREY) None KeyState.Off)
    as (fb' & log & E & _ & _ & Hc); [split; lia|reflexivity|reflexivity|cbn; lia..|].
  exists fb', log. split; [exact E|]. destruct (Hc 99 0 ltac:(lia) ltac:(lia)) as (p & p' & E1 & E2 & _ & _ & Hfar).
  rewrite Hfar in E2 by (cbn; lia). injection E1 as <-. exact E2.
Defined.

Definition two_by_two : Background.Bitmap := {|
  Background.width := 2; Background.height := 2; Background.pixels := [ORANGE; GREY; GREY2; GREY3] |}.

Lemma background_covers_screen_witness :
  ∃ fb' log, Background.start id (Some two_by_two) 4 4 1000 (replicate 16 white) None =
    Ok (Outcome 0 (Some (Background.MkStore two_by_two)) fb' log) ∧ len fb' = 16.
Proof.
  destruct (Background.background_covers_screen id (Some two_by_two) 4 4 1000 (replicate 16 white) None)
    as (fb' & log & E & Hl & _); [lia|lia|reflexivity|reflexivity|cbn; lia|cbn; lia|].
  exists fb', log. split; [exact E|exact Hl].
Defined.
