(* ===== verification/Abi.v ===== *)
(** The records that cross from the kernel to the applications: the [repr(C)]
    declarations on both sides ([bootloader/kernel/src/globals.rs], [app.rs] and
    [framebuffer.rs]; [st.rs] of each application), the C layout algorithm, and
    what it means that the two sides agree.

    Pointers, function pointers, [usize], references and [Option<Box>] are eight
    bytes; a reference to a slice is a pointer and a length. The kernel and the
    applications are built for the same target by the same compiler, which is
    what fixes the order of those two words. *)
From S2P Require Import Prelude Bytes.

(** ** Types and their layout *)
#[warnings="-register-all"]
Inductive ctype :=
  | Scalar (bytes : Z)
  | Array (t : ctype) (n : nat)
  | Struct (fields : list (string * ctype)).

(** The next multiple of [a]. *)
Definition round_up (o a : Z) : Z := (o + a - 1) / a * a.

(** [size_of] and [align_of]. *)
Fixpoint size_align (t : ctype) : Z * Z :=
  match t with
  | Scalar n => (n, n)
  | Array t n => ((size_align t).1 * Z.of_nat n, (size_align t).2)
  | Struct fs =>
      let e := foldl (λ st f, (round_up st.1 (size_align f.2).2 + (size_align f.2).1, Z.max st.2 (size_align f.2).2)) (0, 1) fs in
      (round_up e.1 e.2, e.2)
  end.
Definition size_of (t : ctype) : Z := (size_align t).1.
Definition align_of (t : ctype) : Z := (size_align t).2.

(** The scalars of a type at an address: where each is and how long. *)
Fixpoint leaves (t : ctype) (base : Z) : list (Z * Z) :=
  match t with
  | Scalar n => [(base, n)]
  | Array t n => seq 0 n ≫= λ i, leaves t (base + Z.of_nat i * size_of t)
  | Struct fs =>
      (foldl (λ st f, let o := round_up st.2 (align_of f.2) in (st.1 ++ leaves f.2 (base + o), o + size_of f.2)) ([], 0) fs).1
  end.

(** Where a scalar is in a record, by name: through fields and elements. *)
Inductive step := Field (name : string) | Elem (i : nat).
Abbreviation path := (list step).
#[export] Instance step_eq_dec : EqDecision step.
Proof. solve_decision. Defined.

(** The scalars of a type at an address, each with its name. *)
Fixpoint fields (t : ctype) (p : path) (base : Z) : list (path * (Z * Z)) :=
  match t with
  | Scalar n => [(p, (base, n))]
  | Array t n => seq 0 n ≫= λ i, fields t (p ++ [Elem i]) (base + Z.of_nat i * size_of t)
  | Struct fs =>
      (foldl (λ st f, let o := round_up st.2 (align_of f.2) in
                      (st.1 ++ fields f.2 (p ++ [Field f.1]) (base + o), o + size_of f.2)) ([], 0) fs).1
  end.

Fixpoint wf (t : ctype) : bool :=
  match t with
  | Scalar n => (n =? 1) || (n =? 2) || (n =? 4) || (n =? 8)
  | Array t _ => wf t
  | Struct fs => forallb (λ f, wf f.2) fs
  end.

(** ** The declarations *)
Definition u8 : ctype := Scalar 1.
Definition bool_ : ctype := Scalar 1.
Definition u64 : ctype := Scalar 8.
Definition usize : ctype := Scalar 8.
Definition pointer : ctype := Scalar 8.
Definition slice_ref : ctype := Struct [("pointer", pointer); ("length", usize)]%string.
Definition HISTORY_SIZE : nat := 64.

Module kernel.
(** [globals.rs]; [KeyState] is [repr(u8)]. *)
Definition KeyState : ctype := u8.
Definition InputEvent : ctype := Struct [("trigger", bool_); ("key", usize)]%string.
Definition Input : ctype := Struct [("mouse_x", usize); ("mouse_y", usize); ("keys", Array KeyState 1024);
  ("history_last_index", usize); ("history_ring", Array InputEvent HISTORY_SIZE)]%string.
(** [framebuffer.rs] *)
Definition RGBA : ctype := Struct [("r", u8); ("g", u8); ("b", u8); ("a", u8)]%string.
Definition FBShare : ctype := Struct [("pixels", slice_ref); ("w", usize); ("h", usize)]%string.
(** [app.rs] *)
Definition Context : ctype := Struct [("version", u8); ("start_time", u64); ("log", pointer); ("pid", u64);
  ("fb", FBShare); ("calloc", pointer); ("cdalloc", pointer); ("store", pointer); ("input", pointer)]%string.
End kernel.

(** [st.rs] of the cursor and of the background, which are the same file. *)
Module app.
Definition InputEvent : ctype := Struct [("trigger", bool_); ("key", usize)]%string.
Definition Input : ctype := Struct [("mx", usize); ("my", usize); ("keys", Array u8 1024);
  ("history_last_index", usize); ("history_ring", Array InputEvent HISTORY_SIZE)]%string.
Definition RGBA : ctype := Struct [("r", u8); ("g", u8); ("b", u8); ("a", u8)]%string.
Definition FB : ctype := Struct [("pixels", slice_ref); ("w", usize); ("h", usize)]%string.
Definition Context : ctype := Struct [("version", u8); ("start_time", u64); ("log", pointer); ("pid", u64);
  ("fb", FB); ("calloc", pointer); ("cdalloc", pointer); ("store", pointer); ("input", pointer)]%string.
End app.

(** [st.rs] of the console; [Key] is [repr(usize)]. *)
Module console.
Definition Key : ctype := usize.
Definition InputEvent : ctype := Struct [("trigger", bool_); ("key", Key)]%string.
Definition Input : ctype := Struct [("mx", usize); ("my", usize); ("keys", Array u8 1024);
  ("history_last_index", usize); ("history_ring", Array InputEvent HISTORY_SIZE)]%string.
Definition RGBA : ctype := Struct [("r", u8); ("g", u8); ("b", u8); ("a", u8)]%string.
Definition FB : ctype := Struct [("pixels", slice_ref); ("w", usize); ("h", usize)]%string.
Definition Context : ctype := Struct [("version", u8); ("start_time", u64); ("log", pointer); ("pid", u64);
  ("fb", FB); ("calloc", pointer); ("cdalloc", pointer); ("store", pointer); ("input", pointer)]%string.
End console.

(** [main.rs] of the test application: the first fields only. *)
Module test.
Definition RGBA : ctype := Struct [("r", u8); ("g", u8); ("b", u8); ("a", u8)]%string.
Definition FB : ctype := Struct [("pixels", slice_ref); ("w", usize); ("h", usize)]%string.
Definition Context : ctype := Struct [("version", u8); ("start_time", u64); ("log", pointer); ("pid", u64); ("fb", FB)]%string.
End test.

(** What the kernel declares and what an application declares in its place. *)
Definition shared : list (ctype * ctype) := [
  (kernel.Context, app.Context); (kernel.Context, console.Context);
  (kernel.Input, app.Input); (kernel.Input, console.Input);
  (kernel.RGBA, app.RGBA); (kernel.RGBA, console.RGBA); (kernel.RGBA, test.RGBA)].

(** ** Properties of the layout *)

(** Scalars in order, apart, between two addresses. *)
Fixpoint ordered (lo : Z) (l : list (Z * Z)) (hi : Z) : Prop :=
  match l with
  | [] => lo ≤ hi
  | (o, n) :: l => lo ≤ o ∧ 0 < n ∧ ordered (o + n) l hi
  end.

Lemma ordered_le lo l hi : ordered lo l hi → lo ≤ hi.
Proof. revert lo; induction l as [|[o n] l IH]; intros lo; [done|]. cbn. intros (H1 & H2 & H3%IH). lia. Qed.

Lemma ordered_widen lo l hi lo' hi' : ordered lo l hi → lo' ≤ lo → hi ≤ hi' → ordered lo' l hi'.
Proof.
  revert lo lo'; induction l as [|[o n] l IH]; intros lo lo'; cbn; [lia|].
  intros (H1 & H2 & H3) Hlo Hhi. split_and!; [lia|done|]. by apply (IH (o + n)).
Qed.

Lemma ordered_app lo l mid k hi : ordered lo l mid → ordered mid k hi → ordered lo (l ++ k) hi.
Proof.
  revert lo; induction l as [|[o n] l IH]; intros lo; cbn; [intros ? ?; by eapply ordered_widen|].
  intros (H1 & H2 & H3) Hk. split_and!; [done..|]. by apply IH.
Qed.

Lemma round_up_spec o a : 0 < a → o ≤ round_up o a < o + a ∧ (a | round_up o a).
Proof.
  intros Ha. unfold round_up. split; [|by exists ((o + a - 1) / a)].
  pose proof (Z.div_mod (o + a - 1) a ltac:(lia)). pose proof (Z.mod_pos_bound (o + a - 1) a Ha). lia.
Qed.

(** Induction on a type through its fields. *)
Lemma ctype_ind' (P : ctype → Prop) :
  (∀ n, P (Scalar n)) → (∀ t n, P t → P (Array t n)) → (∀ fs, Forall (λ f, P f.2) fs → P (Struct fs)) → ∀ t, P t.
Proof.
  intros Hs Ha Hst. fix IH 1. intros [n|t n|fs]; [apply Hs|apply Ha, IH|apply Hst].
  induction fs as [|f fs IHfs]; constructor; [apply IH|apply IHfs].
Qed.

(** A type with a power of two for alignment, its size a multiple of it. *)
Definition laid_out (t : ctype) : Prop :=
  (∃ k, 0 ≤ k ∧ align_of t = 2 ^ k) ∧ 0 ≤ size_of t ∧ (align_of t | size_of t) ∧
  (∀ base, ordered base (leaves t base) (base + size_of t)) ∧
  (∀ base, (align_of t | base) → Forall (λ l, (l.2 | l.1)) (leaves t base)).

Definition pow2 (a : Z) : Prop := ∃ k, 0 ≤ k ∧ a = 2 ^ k.

Lemma pow2_pos a : pow2 a → 0 < a.
Proof. intros (k & Hk & ->). lia. Qed.

Lemma pow2_max a c : pow2 a → pow2 c → pow2 (Z.max a c) ∧ (a | Z.max a c) ∧ (c | Z.max a c).
Proof.
  assert (Hdiv : ∀ j k, 0 ≤ j → j ≤ k → (2 ^ j | 2 ^ k)).
  { intros j k Hj Hk. exists (2 ^ (k - j)). rewrite <- Z.pow_add_r by lia. f_equal. lia. }
  intros (j & Hj & ->) (k & Hk & ->). destruct (Z.le_ge_cases j k) as [H|H].
  - rewrite Z.max_r by (apply Z.pow_le_mono_r; lia). split; [by exists k|]. split; [by apply Hdiv|done].
  - rewrite Z.max_l by (apply Z.pow_le_mono_r; lia). split; [by exists j|]. split; [done|by apply Hdiv].
Qed.

(** The running layout of a structure and its scalars, field by field. *)
Lemma fields_fold (fs : list (string * ctype)) base :
  Forall (λ f, laid_out f.2) fs →
  ∀ off al acc, 0 ≤ off → pow2 al → ordered base acc (base + off) →
  let e := foldl (λ st f, (round_up st.1 (size_align f.2).2 + (size_align f.2).1, Z.max st.2 (size_align f.2).2)) (off, al) fs in
  let l := foldl (λ st f, let o := round_up st.2 (align_of f.2) in (st.1 ++ leaves f.2 (base + o), o + size_of f.2)) (acc, off) fs in
  l.2 = e.1 ∧ 0 ≤ e.1 ∧ pow2 e.2 ∧ (al | e.2) ∧ Forall (λ f, (align_of f.2 | e.2)) fs ∧ ordered base l.1 (base + e.1) ∧
  (Forall (λ l, (l.2 | l.1)) acc → (e.2 | base) → Forall (λ l, (l.2 | l.1)) l.1).
Proof.
  induction fs as [|[nm t] fs IH]; intros Hfs off al acc Hoff Hal Hacc; [by split_and!|].
  apply Forall_cons in Hfs as [(Hp & Hs & Hd & Hord & Haln) Hfs']. cbn [foldl fst snd] in *.
  fold (size_of t) (align_of t). fold (pow2 (align_of t)) in Hp. pose proof (pow2_pos _ Hp) as Hpos.
  destruct (round_up_spec off (align_of t) Hpos) as [Hr Hrd].
  destruct (pow2_max al (align_of t) Hal Hp) as (Hm & Hd1 & Hd2).
  destruct (IH Hfs' (round_up off (align_of t) + size_of t) (Z.max al (align_of t))
      (acc ++ leaves t (base + round_up off (align_of t)))) as (E & H0 & Hpe & Hde & Hall & Ho & Hal').
  - lia.
  - done.
  - eapply ordered_app; [exact Hacc|]. rewrite Z.add_assoc.
    eapply ordered_widen; [apply Hord|lia|lia].
  - split_and!; try done; [by etrans|constructor; [cbn [snd]; by etrans|done]|].
    intros Hacc2 Hb. apply Hal'; [|done]. apply Forall_app. split; [done|]. apply Haln. apply Z.divide_add_r; [|done].
    etrans; [|exact Hb]. by etrans.
Qed.

Lemma laid_out_wf t : wf t → laid_out t.
Proof.
  induction t as [n|t n IH|fs IH] using ctype_ind'; cbn [wf]; intros Hwf.
  - assert (n = 1 ∨ n = 2 ∨ n = 4 ∨ n = 8) as Hn.
    { apply Is_true_true in Hwf. repeat (apply orb_prop in Hwf as [Hwf|Hwf]); lia. }
    unfold laid_out, align_of, size_of. cbn [size_align fst snd leaves ordered].
    split; [destruct Hn as [->|[->|[->| ->]]]; [exists 0|exists 1|exists 2|exists 3]; done|].
    split; [lia|]. split; [done|]. split; [intros; lia|]. intros base Hb. by repeat constructor.
  - destruct (IH Hwf) as (Hp & Hs & Hd & Hord & Haln). unfold laid_out, align_of, size_of. cbn [size_align fst snd leaves].
    fold (align_of t) (size_of t). split; [done|]. split; [nia|]. split; [by apply Z.divide_mul_l|].
    assert (Hgen : ∀ j base, ordered (base + Z.of_nat j * size_of t) (seq j n ≫= λ i, leaves t (base + Z.of_nat i * size_of t))
        (base + (Z.of_nat j + Z.of_nat n) * size_of t)).
    { clear - Hord Hs. induction n as [|n IH]; intros j base; cbn [seq mbind list_bind ordered]; [nia|].
      eapply ordered_app; [apply Hord|]. eapply ordered_widen; [apply (IH (S j))|nia|nia]. }
    split.
    + intros base. eapply ordered_widen; [apply (Hgen 0%nat base)|lia|lia].
    + intros base Hb. apply Forall_forall. intros l (i & Hi & _)%list_elem_of_bind.
      specialize (Haln (base + Z.of_nat i * size_of t)). rewrite Forall_forall in Haln. apply Haln; [|done].
      apply Z.divide_add_r; [done|]. by apply Z.divide_mul_r.
  - assert (Hfs : Forall (λ f, laid_out f.2) fs).
    { apply Is_true_true in Hwf. rewrite forallb_forall in Hwf. apply Forall_forall. intros f Hf.
      rewrite Forall_forall in IH. apply (IH f Hf). apply Is_true_true, Hwf. by apply list_elem_of_In. }
    assert (H1 : pow2 1) by (by exists 0).
    unfold laid_out. change (align_of (Struct fs)) with (foldl (λ st f, (round_up st.1 (size_align f.2).2 + (size_align f.2).1,
      Z.max st.2 (size_align f.2).2)) (0, 1) fs).2.
    unfold size_of. cbn [size_align fst snd leaves].
    destruct (fields_fold fs 0 Hfs 0 1 [] ltac:(lia) H1 ltac:(cbn; lia)) as (_ & H0 & Hp & _ & _ & _ & _).
    set (e := foldl _ (0, 1) fs) in *. destruct (round_up_spec e.1 e.2 (pow2_pos _ Hp)) as [Hr Hrd].
    split; [done|]. split; [lia|]. split; [done|]. split; intros base.
    + destruct (fields_fold fs base Hfs 0 1 [] ltac:(lia) H1 ltac:(cbn; lia)) as (_ & _ & _ & _ & _ & Ho & _).
      eapply ordered_widen; [exact Ho|lia|]. fold e. lia.
    + intros Hb. destruct (fields_fold fs base Hfs 0 1 [] ltac:(lia) H1 ltac:(cbn; lia)) as (_ & _ & _ & _ & _ & _ & Ha).
      by apply Ha.
Qed.

(** ** What crosses the boundary *)

(** Writing the scalars of a record, and reading them. *)
Definition store_leaves (ls : list (Z * Z)) (vs : list Z) (m : mem) : mem :=
  foldr (λ '((o, n), v) m, store (Z.to_nat n) m o v) m (zip ls vs).
Definition load_leaves (ls : list (Z * Z)) (m : mem) : list Z := (λ '(o, n), load (Z.to_nat n) m o) <$> ls.

(** A value fits its scalar. *)
Definition holds (l : Z * Z) (v : Z) : Prop := 0 ≤ v < 256 ^ l.2.

Lemma store_leaves_outside lo ls hi vs m x k :
  ordered lo ls hi → x + k ≤ lo ∨ hi ≤ x → load (Z.to_nat k) (store_leaves ls vs m) x = load (Z.to_nat k) m x.
Proof.
  revert lo vs; induction ls as [|[o n] ls IH]; intros lo vs Ho Hx; [done|]. destruct vs as [|v vs]; [done|].
  cbn in Ho. destruct Ho as (H1 & H2 & H3). pose proof (ordered_le _ _ _ H3). cbn [store_leaves zip foldr].
  change (foldr _ m (zip_with pair ls vs)) with (store_leaves ls vs m).
  rewrite (same_outside_load _ (store_leaves ls vs m) _ o (Z.of_nat (Z.to_nat n))).
  - apply (IH (o + n)); [done|lia].
  - apply store_outside.
  - unfold disjoint_ranges. lia.
Qed.

(** Ordered scalars are read back as they were written. *)
Lemma load_store_leaves lo ls hi vs m :
  ordered lo ls hi → Forall2 holds ls vs → load_leaves ls (store_leaves ls vs m) = vs.
Proof.
  intros Ho Hv. revert lo Ho m. induction Hv as [|[o n] v ls vs Hh Hv IH]; intros lo Ho m; [done|].
  cbn in Ho. destruct Ho as (H1 & H2 & H3). cbn [store_leaves load_leaves zip foldr fmap list_fmap].
  change (foldr _ m (zip_with pair ls vs)) with (store_leaves ls vs m). f_equal.
  - rewrite load_store, Z2Nat.id by lia. apply Z.mod_small. exact Hh.
  - etrans; [|exact (IH (o + n) H3 m)]. clear IH Hv. unfold load_leaves.
    generalize (store_leaves ls vs m). intros m1. clear Hh.
    assert (Hgen : ∀ lo, o + n ≤ lo → ordered lo ls hi →
      ((λ '(o0, n0), load (Z.to_nat n0) (store (Z.to_nat n) m1 o v) o0) <$> ls) = ((λ '(o0, n0), load (Z.to_nat n0) m1 o0) <$> ls)).
    { clear H3. induction ls as [|[o' n'] ls IHl]; intros lo' Hlo Ho; [done|]. cbn in Ho. destruct Ho as (H4 & H5 & H6).
      cbn [fmap list_fmap]. f_equal; [|apply (IHl (o' + n')); [lia|done]].
      apply (same_outside_load _ _ _ o (Z.of_nat (Z.to_nat n))); [apply store_outside|]. unfold disjoint_ranges. lia. }
    by apply (Hgen (o + n)).
Qed.

Lemma fmap_bind {A B C} (f : B → C) (g : A → list B) l : f <$> (l ≫= g) = l ≫= λ x, f <$> g x.
Proof. induction l as [|x l IH]; [done|]. cbn [mbind list_bind]. by rewrite fmap_app, IH. Qed.

(** The names do not change where the scalars are. *)
Lemma fields_leaves t p base : (fields t p base).*2 = leaves t base.
Proof.
  revert p base; induction t as [n|t n IH|fs IH] using ctype_ind'; intros p base; [done| |].
  - cbn [fields leaves]. rewrite fmap_bind. apply list_bind_ext; [|done]. intros i. apply IH.
  - cbn [fields leaves]. assert (Hgen : ∀ acc off,
      ((foldl (λ st f, let o := round_up st.2 (align_of f.2) in (st.1 ++ fields f.2 (p ++ [Field f.1]) (base + o), o + size_of f.2)) (acc, off) fs).1).*2
      = (foldl (λ st f, let o := round_up st.2 (align_of f.2) in (st.1 ++ leaves f.2 (base + o), o + size_of f.2)) (acc.*2, off) fs).1).
    { induction fs as [|[nm t] fs IHfs]; intros acc off; [done|]. apply Forall_cons in IH as [Ht Hfs]. cbn [foldl fst snd] in *.
      cbn zeta in *. rewrite (IHfs Hfs). by rewrite fmap_app, Ht. }
    apply (Hgen [] 0).
Qed.

(** The scalars move with the record. *)
Definition shift_field (base : Z) (f : path * (Z * Z)) : path * (Z * Z) := (f.1, (base + f.2.1, f.2.2)).

Lemma fields_shift t p base : fields t p base = shift_field base <$> fields t p 0.
Proof.
  revert p base; induction t as [n|t n IH|fs IH] using ctype_ind'; intros p base.
  - cbn. unfold shift_field. cbn. by rewrite Z.add_0_r.
  - cbn [fields]. rewrite fmap_bind. apply list_bind_ext; [|done]. intros i.
    rewrite IH, (IH _ (0 + _)), <- list_fmap_compose. apply list_fmap_ext. intros j [q l] _. unfold shift_field. cbn. do 2 f_equal. lia.
  - cbn [fields]. assert (Hgen : ∀ acc off,
      (foldl (λ st f, let o := round_up st.2 (align_of f.2) in (st.1 ++ fields f.2 (p ++ [Field f.1]) (base + o), o + size_of f.2)) (shift_field base <$> acc, off) fs).1
      = shift_field base <$> (foldl (λ st f, let o := round_up st.2 (align_of f.2) in (st.1 ++ fields f.2 (p ++ [Field f.1]) (0 + o), o + size_of f.2)) (acc, off) fs).1).
    { induction fs as [|[nm t] fs IHfs]; intros acc off; [done|]. apply Forall_cons in IH as [Ht Hfs]. cbn [foldl fst snd] in *.
      cbn zeta in *. rewrite <- (IHfs Hfs). do 3 f_equal. rewrite fmap_app. f_equal.
      rewrite Ht, (Ht _ (0 + _)), <- list_fmap_compose. apply list_fmap_ext. intros j [q l] _. unfold shift_field. cbn. do 2 f_equal. lia. }
    apply (Hgen [] 0).
Qed.

(** The kernel writes a record field by field; a field's value, by name. *)
Definition write_record (t : ctype) (ptr : Z) (v : path → Z) (m : mem) : mem :=
  foldr (λ '(p, (o, n)) m, store (Z.to_nat n) m o (v p)) m (fields t [] ptr).

Lemma write_record_leaves t ptr v m :
  write_record t ptr v m = store_leaves (leaves t ptr) (v <$> (fields t [] ptr).*1) m.
Proof.
  unfold write_record. rewrite <-(fields_leaves t []). unfold store_leaves.
  induction (fields t [] ptr) as [|[p [o n]] l IH]; [done|]. cbn [foldr fmap list_fmap fst snd zip zip_with]. by rewrite IH.
Qed.

(** The field of the kernel's record that an application calls [mx] is [mouse_x],
    and [my] is [mouse_y]; the other names are the same on both sides. *)
Definition kernel_name (s : step) : step :=
  if decide (s = Field "mx") then Field "mouse_x"
  else if decide (s = Field "my") then Field "mouse_y" else s.

Definition kernel_path (p : path) : path := kernel_name <$> p.
Definition kernel_field (f : path * (Z * Z)) : path * (Z * Z) := (kernel_path f.1, f.2).

(** Both declarations put every scalar, name by name, in the same place. *)
Definition same_layout (k a : ctype) : Prop :=
  size_of k = size_of a ∧ align_of k = align_of a ∧
  fields k [] 0 = kernel_field <$> fields a [] 0.

#[local] Instance same_layout_dec k a : Decision (same_layout k a).
Proof. unfold same_layout. apply _. Defined.

Lemma shared_agree : Forall (λ p, wf p.1 ∧ wf p.2 ∧ same_layout p.1 p.2) shared.
Proof. repeat (constructor; [split; [done|split; [done|apply (bool_decide_unpack _); vm_compute; exact I]]|]). constructor. Qed.

Lemma same_layout_fields k a ptr :
  same_layout k a → fields k [] ptr = kernel_field <$> fields a [] ptr.
Proof.
  intros (_ & _ & E). rewrite (fields_shift k), E, (fields_shift a [] ptr), <-!list_fmap_compose. by apply list_fmap_ext.
Qed.

(** Every scalar of a record is aligned and inside it. *)
Lemma fields_inside t ptr p o n :
  wf t → (align_of t | ptr) → (p, (o, n)) ∈ fields t [] ptr → (n | o) ∧ ptr ≤ o ∧ 0 < n ∧ o + n ≤ ptr + size_of t.
Proof.
  intros Hk Hptr Hin. destruct (laid_out_wf t Hk) as (_ & _ & _ & Hord & Haln). specialize (Hord ptr). specialize (Haln ptr Hptr).
  apply (list_elem_of_fmap_2 snd) in Hin. rewrite fields_leaves in Hin. cbn [snd] in Hin.
  rewrite Forall_forall in Haln. split; [by apply (Haln (o, n))|]. clear Haln.
  revert Hord Hin. generalize (ptr + size_of t), (leaves t ptr). intros hi l.
  assert (Hgen : ∀ lo, ptr ≤ lo → ordered lo l hi → (o, n) ∈ l → ptr ≤ o ∧ 0 < n ∧ o + n ≤ hi); [|by apply Hgen].
  induction l as [|[o' n'] l IH]; intros lo Hlo Ho Hl; [by apply elem_of_nil in Hl|]. cbn in Ho. destruct Ho as (H1 & H2 & H3).
  pose proof (ordered_le _ _ _ H3). apply elem_of_cons in Hl as [[= -> ->]|Hl]; [lia|]. apply (IH (o' + n')); [lia|done|done].
Qed.

(** What is written by name is read by name. *)
Lemma read_written t ptr v m p o n :
  wf t → (∀ p o n, (p, (o, n)) ∈ fields t [] ptr → 0 ≤ v p < 256 ^ n) → (p, (o, n)) ∈ fields t [] ptr →
  load (Z.to_nat n) (write_record t ptr v m) o = v p.
Proof.
  intros Hk Hv [i Hi]%list_elem_of_lookup. destruct (laid_out_wf t Hk) as (_ & _ & _ & Hord & _).
  assert (Forall2 holds (leaves t ptr) (v <$> (fields t [] ptr).*1)) as Hh.
  { rewrite <-(fields_leaves t []). clear Hi. revert Hv. generalize (fields t [] ptr). intros l.
    induction l as [|[p' [o' n']] l IH]; intros Hv; constructor.
    + apply (Hv p' o' n'). apply list_elem_of_here.
    + apply IH. intros p2 o2 n2 H2. apply (Hv p2 o2 n2). by apply list_elem_of_further. }
  pose proof (load_store_leaves ptr _ (ptr + size_of t) _ m (Hord ptr) Hh) as E.
  rewrite <-write_record_leaves in E. apply (f_equal (λ l, l !! i)) in E.
  unfold load_leaves in E. rewrite <-(fields_leaves t []), !list_lookup_fmap, Hi in E. by injection E.
Qed.

(** C14: the two sides of the boundary have the same types. For each record that
    the kernel hands to an application, the application's own declaration has the
    same size, the same alignment and the same fields under the same names, except
    that it calls [mouse_x] and [mouse_y] [mx] and [my]. At any address aligned for
    the record, every field of the application's declaration is aligned and inside
    the record, and holds what the kernel wrote to the field of that name. *)
Theorem abi_agrees k a ptr (v : path → Z) m :
  (k, a) ∈ shared → (align_of k | ptr) → (∀ p o n, (p, (o, n)) ∈ fields k [] ptr → 0 ≤ v p < 256 ^ n) →
  size_of k = size_of a ∧ (align_of a | ptr) ∧
  (fields k [] ptr).*1 = kernel_path <$> (fields a [] ptr).*1 ∧
  ∀ p o n, (p, (o, n)) ∈ fields a [] ptr →
    (n | o) ∧ ptr ≤ o ∧ 0 < n ∧ o + n ≤ ptr + size_of a ∧
    load (Z.to_nat n) (write_record k ptr v m) o = v (kernel_path p).
Proof.
  intros Hin Hptr Hv. pose proof shared_agree as Hs. rewrite Forall_forall in Hs.
  destruct (Hs (k, a) Hin) as (Hk & Ha & Hsame). cbn [fst snd] in *. pose proof (same_layout_fields k a ptr Hsame) as Hf.
  destruct Hsame as (Es & Ea & _). rewrite Ea in Hptr. split; [done|]. split; [done|]. split.
  { rewrite Hf, <-!list_fmap_compose. by apply list_fmap_ext. }
  intros p o n Hp. destruct (fields_inside a ptr p o n Ha Hptr Hp) as (H1 & H2 & H3 & H4). split_and!; try done.
  apply (read_written k); [done..|]. rewrite Hf. by apply (list_elem_of_fmap_2 kernel_field) in Hp.
Qed.

(** The mouse of the input record, in the console: 640 across, 480 down. *)
Lemma abi_agrees_witness :
  let v p := if decide (p = [Field "mouse_x"]) then 640 else if decide (p = [Field "mouse_y"]) then 480 else 0 in
  let m := write_record kernel.Input 4096 v ∅ in
  ([Field "my"], (4104, 8)) ∈ fields console.Input [] 4096 ∧ load 8 m 4104 = 480.
Proof.
  intros v m. assert (([Field "my"], (4104, 8)) ∈ fields console.Input [] 4096) as Hin.
  { apply list_elem_of_lookup. exists 1%nat. reflexivity. }
  split; [exact Hin|]. destruct (abi_agrees kernel.Input console.Input 4096 v ∅) as (_ & _ & _ & E).
  - apply list_elem_of_lookup. by exists 3%nat.
  - by exists 512.
  - intros p o n Hp. assert (0 < n) as Hn.
    { apply (fields_inside kernel.Input 4096 p o n); [done|by exists 512|exact Hp]. }
    assert (256 ^ 1 ≤ 256 ^ n) by (apply Z.pow_le_mono_r; lia).
    assert (0 ≤ v p ≤ 640 ∧ (v p ≤ 255 ∨ p = [Field "mouse_x"] ∨ p = [Field "mouse_y"])) as [Hb Hc].
    { unfold v. repeat case_decide; auto with lia. }
    destruct Hc as [Hc|Hc]; [lia|]. assert (n = 8) as ->; [|lia].
    assert (Forall (λ f, f.1 = [Field "mouse_x"] ∨ f.1 = [Field "mouse_y"] → f.2.2 = 8) (fields kernel.Input [] 4096)) as Hall.
    { apply (bool_decide_unpack _). vm_compute. exact I. }
    rewrite Forall_forall in Hall. exact (Hall _ Hp Hc).
  - destruct (E _ _ _ Hin) as (_ & _ & _ & _ & El). exact El.
Defined.

(** The test application declares the head of the record only: its fields are
    the first ones of the kernel's. *)
Lemma test_context_prefix : fields test.Context [] 0 `prefix_of` fields kernel.Context [] 0 ∧ wf test.Context.
Proof. split; [apply (bool_decide_unpack _); vm_compute; exact I|done]. Qed.
