(* ===== verification/Runtime.v ===== *)
(** How an application reaches back into the kernel: the cells [LOGGER] and
    [ALLOCATOR] of its [st.rs], which its [_start] points at the functions of the
    context before anything else, and those functions in the kernel's [main.rs],
    [log_fn], [calloc] and [cdalloc]. The unused [AllocFromCtx] of the kernel's
    [allocator.rs] is the same cell with layouts for arguments.

    The kernel's heap (the [linked_list_allocator] crate) and the [log] crate are
    parameters; [Layout::from_size_align] is the standard library's. *)
From S2P Require Import Prelude Bytes.

(** ** [core::alloc::Layout] *)
Record Layout := { size : Z; align : Z }.

Definition is_power_of_two (a : Z) : bool := (0 <? a) && (Z.land a (a - 1) =? 0).
Definition ISIZE_MAX : Z := 2 ^ 63 - 1.

(** The alignment is a power of two and the size, rounded up to it, an [isize]. *)
Definition valid_layout (l : Layout) : bool :=
  is_power_of_two (align l) && (0 <=? size l) && (size l <=? ISIZE_MAX - (align l - 1)).

Definition from_size_align (size align : Z) : option Layout :=
  let l := {| size := size; align := align |} in if valid_layout l then Some l else None.

(** What a callback works on: the memory, the heap, and the lines logged. *)
Record World (H : Type) := MkWorld { memory : mem; heap : H; output : list (list Z) }.
Arguments MkWorld {H} _ _ _. Arguments memory {H} _. Arguments heap {H} _. Arguments output {H} _.

Definition LogFn (H : Type) : Type := Z → Z → M (World H) unit.
Definition AllocFn (H : Type) : Type := Z → Z → M (World H) Z.
Definition DeallocFn (H : Type) : Type := Z → Z → Z → M (World H) unit.

(** The three functions of the context. *)
Record Callbacks (H : Type) := { log : LogFn H; calloc : AllocFn H; cdalloc : DeallocFn H }.
Arguments log {H} _. Arguments calloc {H} _. Arguments cdalloc {H} _.

Definition with_heap {H} (h : H) (w : World H) : World H := MkWorld (memory w) h (output w).
(** [log::info!("{}", line)] *)
Definition info {H} (line : list Z) : M (World H) unit := modify (λ w, MkWorld (memory w) (heap w) (output w ++ [line])).

(** ** The kernel's side *)
Module kernel.
Section kernel.
Context {H : Type}.
(** [LockedHeap::alloc], null when there is no room, and [dealloc]. *)
Context (heap_alloc : Layout → H → Z * H) (heap_dealloc : Z → Layout → H → H).

(** The bytes at the pointer, printed as they are. *)
Definition log_fn : LogFn H := λ s l, m ← gets memory; info (load_bytes (Z.to_nat l) m s).

Definition alloc (l : Layout) : M (World H) Z := λ w, let '(p, h) := heap_alloc l (heap w) in Ok (p, with_heap h w).
Definition dealloc (p : Z) (l : Layout) : M (World H) unit := modify (λ w, with_heap (heap_dealloc p l (heap w)) w).

Definition calloc : AllocFn H := λ size align, l ← lift (unwrap (from_size_align size align)); alloc l.
Definition cdalloc : DeallocFn H := λ ptr size align, l ← lift (unwrap (from_size_align size align)); dealloc ptr l.

Definition callbacks : Callbacks H := {| Runtime.log := log_fn; Runtime.calloc := calloc; Runtime.cdalloc := cdalloc |}.
End kernel.

(** *** The cell of [allocator.rs], which takes layouts *)
Section cell.
Context {H : Type}.
Record AllocFromCtx := { a : Layout → M (World H) Z; d : Z → Layout → M (World H) unit }.
Definition a_init (l : Layout) : M (World H) Z := lift (Panic (PExplicit "")).
Definition d_init (ptr : Z) (l : Layout) : M (World H) unit := lift (Panic (PExplicit "")).
Definition init : AllocFromCtx := {| a := a_init; d := d_init |}.
Definition new (fa : Layout → M (World H) Z) (fd : Z → Layout → M (World H) unit) : AllocFromCtx := {| a := fa; d := fd |}.
Definition cell_alloc (self : AllocFromCtx) (l : Layout) : M (World H) Z := a self l.
Definition cell_dealloc (self : AllocFromCtx) (ptr : Z) (l : Layout) : M (World H) unit := d self ptr l.
End cell.
End kernel.

(** ** The application's side *)
Module app.
Section app.
Context {H : Type}.

Definition nop : LogFn H := λ s l, mret ().
Record Logger := { f : LogFn H }.
Definition Logger_init : Logger := {| f := nop |}.
Definition Logger_swap (f2 : LogFn H) (self : Logger) : Logger := {| f := f2 |}.

Definition a_init : AllocFn H := λ size align, lift (Panic (PExplicit "")).
Definition d_init : DeallocFn H := λ ptr size align, lift (Panic (PExplicit "")).
Record AllocFromCtx := { a : AllocFn H; d : DeallocFn H }.
Definition init : AllocFromCtx := {| a := a_init; d := d_init |}.
Definition swap (ctx : Callbacks H) (self : AllocFromCtx) : AllocFromCtx := {| a := calloc ctx; d := cdalloc ctx |}.

(** [GlobalAlloc] for the cell. *)
Definition alloc (self : AllocFromCtx) (l : Layout) : M (World H) Z := a self (size l) (align l).
Definition dealloc (self : AllocFromCtx) (ptr : Z) (l : Layout) : M (World H) unit := d self ptr (size l) (align l).

(** The two statics. *)
Record Cells := { LOGGER : Logger; ALLOCATOR : AllocFromCtx }.
Definition fresh : Cells := {| LOGGER := Logger_init; ALLOCATOR := init |}.

(** [log(s)] for a string at a pointer. *)
Definition log (c : Cells) (ptr len : Z) : M (World H) unit := f (LOGGER c) ptr (wrap 32 len).

(** The first two lines of [_start]. *)
Definition attach (ctx : Callbacks H) (c : Cells) : Cells :=
  let c := {| LOGGER := LOGGER c; ALLOCATOR := swap ctx (ALLOCATOR c) |} in
  {| LOGGER := Logger_swap (Runtime.log ctx) (LOGGER c); ALLOCATOR := ALLOCATOR c |}.

(** The panic handler, up to its endless loop: the word and the message, which
    [format!] has put in memory. *)
Definition panic (c : Cells) (word : Z) (message len : Z) : M (World H) unit :=
  f (LOGGER c) word 5 ;; f (LOGGER c) message (wrap 32 len).
End app.
#[global] Arguments Logger : clear implicits.
#[global] Arguments AllocFromCtx : clear implicits.
#[global] Arguments Cells : clear implicits.
End app.

(** ** Properties *)

Lemma from_size_align_valid l : valid_layout l = true → from_size_align (size l) (align l) = Some l.
Proof. intros Hl. unfold from_size_align. destruct l as [s al]. cbn [size align]. by rewrite Hl. Qed.

Section properties.
Context {H : Type} (heap_alloc : Layout → H → Z * H) (heap_dealloc : Z → Layout → H → H).

Lemma alloc_attached c l w :
  valid_layout l = true →
  app.alloc (app.ALLOCATOR (app.attach (kernel.callbacks heap_alloc heap_dealloc) c)) l w = kernel.alloc heap_alloc l w.
Proof. intros Hl. unfold app.alloc. cbn. unfold kernel.calloc. by rewrite from_size_align_valid. Qed.

Lemma dealloc_attached c p l w :
  valid_layout l = true →
  app.dealloc (app.ALLOCATOR (app.attach (kernel.callbacks heap_alloc heap_dealloc) c)) p l w = kernel.dealloc heap_dealloc p l w.
Proof. intros Hl. unfold app.dealloc. cbn. unfold kernel.cdalloc. by rewrite from_size_align_valid. Qed.
End properties.

(** Through its cells an application works on the kernel's heap and log. Once
    the cells are pointed at the context, as the first lines of [_start] do, every
    allocation and every release of a layout of the application is the same
    operation of the kernel's allocator on the same layout, never a panic; logging
    a string of less than 4 GiB prints exactly its bytes as one line; and pointing
    the cells again at the next frame changes nothing. Before that an allocation
    panics, and what is logged is lost. *)
Theorem cells_reach_kernel {H} (heap_alloc : Layout → H → Z * H) (heap_dealloc : Z → Layout → H → H) c l p bs ptr w :
  valid_layout l = true → len bs < 2 ^ 32 → load_bytes (length bs) (memory w) ptr = bs →
  let ctx := kernel.callbacks heap_alloc heap_dealloc in
  let c' := app.attach ctx c in
  app.alloc (app.ALLOCATOR c') l w = Ok ((heap_alloc l (heap w)).1, with_heap (heap_alloc l (heap w)).2 w) ∧
  app.dealloc (app.ALLOCATOR c') p l w = Ok ((), with_heap (heap_dealloc p l (heap w)) w) ∧
  app.log c' ptr (len bs) w = Ok ((), MkWorld (memory w) (heap w) (output w ++ [bs])) ∧
  app.attach ctx c' = c' ∧
  app.alloc (app.ALLOCATOR app.fresh) l w = Panic (PExplicit "") ∧
  app.log app.fresh ptr (len bs) w = Ok ((), w).
Proof.
  intros Hl Hbs Hload ctx c'. split_and!; try done.
  - unfold c', ctx. rewrite alloc_attached by done. unfold kernel.alloc. by destruct (heap_alloc l (heap w)).
  - unfold c', ctx. by rewrite dealloc_attached by done.
  - unfold c', app.log. rewrite wrap_small by (unfold fits; pose proof (len_nonneg bs); lia).
    change (info (load_bytes (Z.to_nat (len bs)) (memory w) ptr) w = Ok ((), MkWorld (memory w) (heap w) (output w ++ [bs]))).
    unfold len. by rewrite Nat2Z.id, Hload.
Qed.

(** A heap that hands out addresses upwards. *)
Lemma cells_reach_kernel_witness :
  let bump l h := (h, h + size l) in
  let w := MkWorld (store_bytes ∅ 16 [111; 107]) 4096 [] in
  app.alloc (app.ALLOCATOR (app.attach (kernel.callbacks bump (λ _ _ h, h)) app.fresh)) {| size := 24; align := 8 |} w
    = Ok (4096, with_heap 4120 w).
Proof.
  intros bump w. apply (cells_reach_kernel bump (λ _ _ h, h) app.fresh {| size := 24; align := 8 |} 0 [111; 107] 16 w);
    [reflexivity|reflexivity|reflexivity].
Defined.
