(* ===== verification/Loading.v ===== *)
(** Loading the applications: [App::new] with its blocks of the heap and its
    process id ([bootloader/kernel/src/app.rs]), and the start of the application
    task, which loads one image after the other into a vector
    ([bootloader/kernel/src/main.rs]). The heap can run out of room at three places,
    each with its own failure. *)
From S2P Require Import Prelude Bytes Globals App Runtime.

(** The kernel's heap (the [linked_list_allocator] crate). It works on memory, where
    it keeps its lists: the pointer is null when it has no room. [held] are the
    blocks handed out and not given back: a new one is apart from them, and nothing
    that the heap does touches one. *)
Class ImageHeap (H : Type) := {
  heap_alloc : Layout → H * mem → Z * (H * mem);
  heap_dealloc : Z → Layout → H * mem → H * mem;
  held : H → list (Z * Z);
  heap_alloc_held l s p s' : heap_alloc l s = (p, s') →
    if decide (p = 0) then held s'.1 = held s.1
    else held s'.1 = (p, size l) :: held s.1 ∧ Forall (λ b, disjoint_ranges p (size l) b.1 b.2) (held s.1);
  heap_alloc_kept l s p s' b x : heap_alloc l s = (p, s') → b ∈ held s.1 → b.1 ≤ x < b.1 + b.2 → load8 s'.2 x = load8 s.2 x;
  heap_dealloc_held p l s : (p, size l) ∈ held s.1 → held s.1 ≡ₚ (p, size l) :: held (heap_dealloc p l s).1;
  heap_dealloc_kept p l s b x : (p, size l) ∈ held s.1 → b ∈ held (heap_dealloc p l s).1 → b.1 ≤ x < b.1 + b.2 →
    load8 (heap_dealloc p l s).2 x = load8 s.2 x
}.

(** What the kernel does when an allocation that has to succeed fails, and when it
    touches the page of the null pointer, which is not mapped. *)
Definition alloc_error : panic := PExplicit "memory allocation failed".
Definition page_fault : panic := PExplicit "EXCEPTION: PAGE FAULT".

Section loading.
Context (ElfFile_new : list Z → option Elf) {H : Type} `{ImageHeap H}.

(** The heap, memory, the static [NEXT_ID], the applications so far, and the buffer
    of the vector they are in, with its capacity: none at first. The records in the
    buffer are [l_apps]. *)
Record loading := Loading {
  l_heap : H; l_mem : mem; NEXT_ID : Z; l_apps : list App; l_cap : Z; l_buf : option Z
}.

(** An allocation of the standard library, which does not return null. *)
Definition alloc_or_fail (l : Layout) (s : H * mem) : res (Z * (H * mem)) :=
  let '(p, s) := heap_alloc l s in if p =? 0 then Panic alloc_error else Ok (p, s).

(** [code.to_vec()] *)
Definition copy_layout (file : list Z) : Layout := {| size := len file; align := 1 |}.
Definition to_vec (file : list Z) (s : H * mem) : res (Z * (H * mem)) :=
  '(p, s) ← alloc_or_fail (copy_layout file) s;
  mret (p, (s.1, store_bytes s.2 p file)).

Definition image_layout (elf : Elf) : Layout := {| size := AppImpl.max_virt elf; align := 4096 |}.

(** [App::new]. The pointer of the image is used as it comes: the first byte
    written at null faults. The copy of the file is given back at the end. *)
Definition new_app (st : loading) (file : list Z) : res (App * loading) :=
  '(copy, s) ← to_vec file (l_heap st, l_mem st);
  elf ← unwrap (ElfFile_new file);
  let '(ptr, (h, m)) := heap_alloc (image_layout elf) s in
  if (ptr =? 0) && (0 <? AppImpl.max_virt elf) then Panic page_fault
  else
    '(app, m) ← AppImpl.new ElfFile_new ptr (NEXT_ID st) file m;
    let '(h, m) := heap_dealloc copy (copy_layout file) (h, m) in
    mret (app, Loading h m (NEXT_ID st +u[64] 1) (l_apps st) (l_cap st) (l_buf st)).

(** An [App] takes 48 bytes. A full vector moves to a buffer of twice its
    capacity, four at first, and gives the old one back. *)
Definition vec_layout (cap : Z) : Layout := {| size := 48 * cap; align := 8 |}.
Definition grown (st : loading) : Z := Z.max (2 * l_cap st) 4.

(** [apps.push(app)] *)
Definition push (st : loading) (app : App) : res loading :=
  let apps := l_apps st ++ [app] in
  if len (l_apps st) =? l_cap st then
    if 2 ^ 63 - 8 <? 48 * grown st then Panic (PExplicit "capacity overflow")
    else
      '(p, s) ← alloc_or_fail (vec_layout (grown st)) (l_heap st, l_mem st);
      let '(h, m) := match l_buf st with Some q => heap_dealloc q (vec_layout (l_cap st)) s | None => s end in
      mret (Loading h m (NEXT_ID st) apps (grown st) (Some p))
  else mret (Loading (l_heap st) (l_mem st) (NEXT_ID st) apps (l_cap st) (l_buf st)).

Definition load_app (st : loading) (file : list Z) : res loading :=
  '(app, st) ← new_app st file; push st app.

Definition load_apps (apps_raw : list (list Z)) (st : loading) : res loading := foldM load_app st apps_raw.

(** [Vec::new()] *)
Definition no_apps (h : H) (m : mem) : loading := Loading h m 0 [] 0 None.

(** The block of the vector. *)
Definition vec_block (st : loading) : list (Z * Z) :=
  match l_buf st with Some q => [(q, size (vec_layout (l_cap st)))] | None => [] end.

(** An application of the task: the image of a file in a block of its own. *)
Record app_ready (st : loading) (i : nat) (a : App) (file : list Z) (elf : Elf) : Prop := {
  ar_pid : pid a = wrap 64 (Z.of_nat i);
  ar_entry : func a = code a + entry_point elf;
  ar_len : code_len a = AppImpl.max_virt elf;
  ar_store : App.store a = None;
  ar_held : 0 < code_len a → (code a, code_len a) ∈ held (l_heap st) ∧ (code a, code_len a) ∉ vec_block st;
  ar_image : image_of file elf (code a) (l_mem st)
}.

(** The three places where the heap runs out of room while an image is loaded: the
    copy of its file, its block, and the vector. *)
Definition runs_short (st : loading) (file : list Z) (elf : Elf) (p : panic) : Prop :=
  (p = alloc_error ∧ (heap_alloc (copy_layout file) (l_heap st, l_mem st)).1 = 0) ∨
  (p = page_fault ∧ 0 < AppImpl.max_virt elf ∧ ∃ c s, to_vec file (l_heap st, l_mem st) = Ok (c, s) ∧
     (heap_alloc (image_layout elf) s).1 = 0) ∨
  (p = alloc_error ∧ ∃ app st1, new_app st file = Ok (app, st1) ∧ len (l_apps st1) = l_cap st1 ∧
     (heap_alloc (vec_layout (grown st1)) (l_heap st1, l_mem st1)).1 = 0).
End loading.
Arguments Loading {H} _ _ _ _ _ _.
Arguments l_heap {H} _. Arguments l_mem {H} _. Arguments NEXT_ID {H} _. Arguments l_apps {H} _.
Arguments l_cap {H} _. Arguments l_buf {H} _.

(** ** Images survive what happens elsewhere *)
Lemma image_of_kept file elf ptr m m' :
  elf_ok file elf → (∀ x, ptr ≤ x < ptr + AppImpl.max_virt elf → load8 m' x = load8 m x) →
  image_of file elf ptr m → image_of file elf ptr m'.
Proof.
  intros Hok Hm [Hb Hr Hz]. constructor.
  - intros p j Hp Hj Hn. rewrite Hm; [by apply Hb|]. destruct (max_virt_fits file elf Hok) as [_ Hph].
    destruct Hp as [Hp _]. pose proof (header_of _ _ Hok p Hp) as (? & _ & ? & _). destruct (Hph p Hp); lia.
  - intros r Ha. rewrite <-(Hr r Ha). apply load_ext. intros x Hx. apply Hm.
    pose proof (applied_in_block file elf r Hok Ha). lia.
  - intros x Hx Hn Hp. rewrite Hm by lia. by apply Hz.
Qed.

(** ** The heap and memory, step by step *)
Section steps.
Context {H : Type} `{ImageHeap H}.
Implicit Types (s : H * mem) (b : Z * Z).

(** A block that stays held with its content. *)
Definition stays b s s' : Prop :=
  b ∈ held s.1 → b ∈ held s'.1 ∧ ∀ x, b.1 ≤ x < b.1 + b.2 → load8 s'.2 x = load8 s.2 x.

Lemma stays_trans b s1 s2 s3 : stays b s1 s2 → stays b s2 s3 → stays b s1 s3.
Proof. intros H1 H2 Hb. destruct (H1 Hb) as [Hb2 K1]. destruct (H2 Hb2) as [Hb3 K2]. split; [done|]. intros x Hx. by rewrite K2, K1. Qed.

(** A new block is no held one, unless it is empty. *)
Lemma fresh_ne p n b l : 0 < n → Forall (λ b, disjoint_ranges p n b.1 b.2) l → b ∈ l → b ≠ (p, n).
Proof. intros Hn Hf Hb ->. rewrite Forall_forall in Hf. specialize (Hf _ Hb). unfold disjoint_ranges in Hf. cbn in Hf. lia. Qed.

Lemma alloc_stays l s p s' b : heap_alloc l s = (p, s') → stays b s s'.
Proof.
  intros E Hb. split; [|by intros x Hx; eapply heap_alloc_kept]. apply heap_alloc_held in E. case_decide; [by rewrite E|].
  destruct E as [-> _]. by right.
Qed.

Lemma dealloc_stays p l s b : (p, size l) ∈ held s.1 → b ≠ (p, size l) → stays b s (heap_dealloc p l s).
Proof.
  intros Hp Hne Hb. pose proof (heap_dealloc_held p l s Hp) as E.
  assert (b ∈ held (heap_dealloc p l s).1) as Hb' by (rewrite E in Hb; apply elem_of_cons in Hb as [|]; done).
  split; [done|]. intros x Hx. by apply (heap_dealloc_kept p l s b).
Qed.

(** Writing in a block keeps those it is apart from. *)
Lemma write_stays p n s m b :
  same_outside p n s.2 m → disjoint_ranges p n b.1 b.2 → stays b s (s.1, m).
Proof. intros Ho Hd Hb. split; [done|]. intros x Hx. apply Ho. unfold disjoint_ranges in Hd. lia. Qed.

Lemma to_vec_run file s :
  0 < len file →
  ((heap_alloc (copy_layout file) s).1 = 0 ∧ to_vec file s = Panic alloc_error) ∨
  (∃ c s', to_vec file s = Ok (c, s') ∧ held s'.1 = (c, len file) :: held s.1 ∧
     Forall (λ b, disjoint_ranges c (len file) b.1 b.2) (held s.1) ∧ ∀ b, stays b s s').
Proof.
  intros Hl. unfold to_vec, alloc_or_fail. destruct (heap_alloc (copy_layout file) s) as [p s1] eqn:E.
  destruct (Z.eqb_spec p 0) as [->|Hp]; [by left|]. right. cbn [mbind res_bind mret res_ret].
  pose proof (heap_alloc_held _ _ _ _ E) as Hh. rewrite decide_False in Hh by done. destruct Hh as [Hh Hd]. cbn [copy_layout size] in *.
  eexists _, _. split; [reflexivity|]. cbn [fst snd]. split; [done|]. split; [done|]. intros b Hb.
  eapply (stays_trans b s s1); [by eapply alloc_stays| |exact Hb].
  intros _. eapply (write_stays p (len file)); [apply store_bytes_outside| |].
  - rewrite Forall_forall in Hd. by apply Hd.
  - rewrite Hh. by right.
Qed.
End steps.

Section spec.
Context (ElfFile_new : list Z → option Elf) {H : Type} `{ImageHeap H}.
Implicit Types (st : loading (H:=H)).

(** A file with its parse. *)
Definition well_formed (file : list Z) (elf : Elf) : Prop := ElfFile_new file = Some elf ∧ elf_ok file elf ∧ 0 < len file.

Definition heap_of st : H * mem := (l_heap st, l_mem st).

(** [App::new]: it fails for want of room, or makes the application. *)
Lemma new_app_run st file elf :
  well_formed file elf →
  (∃ p, new_app ElfFile_new st file = Panic p ∧ runs_short ElfFile_new st file elf p) ∨
  (∃ st1 a, new_app ElfFile_new st file = Ok (a, st1) ∧
     (pid a = NEXT_ID st ∧ func a = code a + entry_point elf ∧ code_len a = AppImpl.max_virt elf ∧ App.store a = None) ∧
     (l_apps st1 = l_apps st ∧ l_cap st1 = l_cap st ∧ l_buf st1 = l_buf st ∧ NEXT_ID st1 = NEXT_ID st +u[64] 1) ∧
     (∀ b, stays b (heap_of st) (heap_of st1)) ∧ image_of file elf (code a) (l_mem st1) ∧
     (0 < code_len a → (code a, code_len a) ∈ held (l_heap st1)) ∧
     Forall (λ b, disjoint_ranges (code a) (code_len a) b.1 b.2) (held (l_heap st))).
Proof.
  intros (Hf & Hok & Hl). pose proof (proj1 (max_virt_fits file elf Hok)) as Hmv.
  destruct (to_vec_run file (l_heap st, l_mem st) Hl) as [[Hn E]|(c & s1 & E & Hh1 & Hd1 & K1)].
  { left. exists alloc_error. unfold new_app. rewrite E. split; [done|]. by left. }
  unfold new_app. rewrite E, Hf. cbn [mbind res_bind unwrap].
  destruct (heap_alloc (image_layout elf) s1) as [ptr s2] eqn:E2.
  pose proof (λ b, alloc_stays _ _ _ _ b E2) as K2. pose proof (heap_alloc_held _ _ _ _ E2) as Hh2. cbn [image_layout size] in Hh2.
  destruct s2 as [h2 m2]. cbn [fst snd] in *.
  assert (Forall (λ b, disjoint_ranges ptr (AppImpl.max_virt elf) b.1 b.2) (held s1.1) ∨ ptr = 0 ∧ 0 < AppImpl.max_virt elf) as [Hd2|[-> Hpos]].
  { case_decide; [|left; apply Hh2]. destruct (decide (0 < AppImpl.max_virt elf)); [by right|]. left.
    apply Forall_forall. intros b _. unfold disjoint_ranges. lia. }
  2:{ left. exists page_fault. rewrite Z.eqb_refl. assert ((0 <? AppImpl.max_virt elf) = true) as -> by lia. cbn [andb].
      split; [done|]. right; left. split; [done|]. split; [done|]. exists c, s1. split; [done|]. by rewrite E2. }
  destruct ((ptr =? 0) && (0 <? AppImpl.max_virt elf)) eqn:Enull.
  { left. exists page_fault. split; [done|]. right; left. split; [done|]. split; [lia|]. exists c, s1. split; [done|]. rewrite E2. cbn. lia. }
  right. destruct (new_loads ElfFile_new file elf ptr (NEXT_ID st) m2 Hf Hok) as (m3 & E3 & Ho3 & Him).
  rewrite E3. cbn [mbind res_bind].
  assert ((c, len file) ∈ held s1.1) as Hc1 by (rewrite Hh1; by left).
  destruct (K2 (c, len file) Hc1) as [Hc2 _]. cbn [fst] in Hc2.
  pose proof (λ b, dealloc_stays c (copy_layout file) (h2, m3) b Hc2) as K4. cbn [copy_layout size] in K4.
  destruct (heap_dealloc c (copy_layout file) (h2, m3)) as [h4 m4] eqn:E4. cbn [mret res_ret].
  eexists _, _. split; [reflexivity|]. split; [done|]. split; [done|]. cbn [code code_len heap_of l_heap l_mem].
  assert (∀ b, b ∈ held s1.1 → b ≠ (c, len file) → stays b s1 (h4, m4)) as K.
  { intros b Hb Hne. eapply stays_trans; [apply K2|]. eapply stays_trans; [|by apply K4].
    eapply (write_stays ptr (AppImpl.max_virt elf) (h2, m2)); [exact Ho3|]. rewrite Forall_forall in Hd2. by apply Hd2. }
  assert (0 < AppImpl.max_virt elf → stays (ptr, AppImpl.max_virt elf) (h2, m3) (h4, m4)) as Kimg.
  { intros Hpos. apply K4. intros Heq. symmetry in Heq. revert Heq. by apply (fresh_ne ptr (AppImpl.max_virt elf) (c, len file) (held s1.1)). }
  assert (0 < AppImpl.max_virt elf → (ptr, AppImpl.max_virt elf) ∈ held h2) as Hin.
  { intros Hpos. rewrite decide_False in Hh2 by lia. destruct Hh2 as [-> _]. by left. }
  split_and!.
  - intros b Hb. pose proof (fresh_ne c (len file) b _ Hl Hd1 Hb) as Hne. destruct (K1 b Hb) as [Hb1 L1].
    destruct (K b Hb1 Hne Hb1) as [Hb4 L4]. split; [exact Hb4|]. intros x Hx. cbn [heap_of l_heap l_mem snd fst] in *. by rewrite <-L1, <-L4.
  - eapply image_of_kept; [done| |exact Him]. intros x Hx. destruct (Kimg ltac:(lia) (Hin ltac:(lia))) as [_ L]. by apply L.
  - intros Hpos. apply Kimg; [done|by apply Hin].
  - rewrite Hh1 in Hd2. by apply Forall_cons in Hd2 as [_ Hd2].
Qed.

(** The vector: its block is held and has room for the applications, and not much
    more. *)
Definition vec_ok st : Prop :=
  match l_buf st with None => l_cap st = 0 | Some q => 0 < l_cap st ∧ (q, 48 * l_cap st) ∈ held (l_heap st) end ∧
  len (l_apps st) ≤ l_cap st ≤ 2 * len (l_apps st) + 4.

Lemma vec_ok_stays st st1 :
  l_apps st1 = l_apps st → l_cap st1 = l_cap st → l_buf st1 = l_buf st → (∀ b, stays b (heap_of st) (heap_of st1)) →
  vec_ok st → vec_ok st1.
Proof.
  unfold vec_ok. intros -> -> -> K [Hb Hc]. split; [|done]. destruct (l_buf st); [|done]. destruct Hb as [? Hb].
  split; [done|]. by apply (K _ Hb).
Qed.

(** [push]: it fails for want of room, or keeps every block but the vector's own. *)
Lemma push_run st a :
  vec_ok st → len (l_apps st) < 2 ^ 56 →
  (push st a = Panic alloc_error ∧ len (l_apps st) = l_cap st ∧ (heap_alloc (vec_layout (grown st)) (heap_of st)).1 = 0) ∨
  (∃ st', push st a = Ok st' ∧ l_apps st' = l_apps st ++ [a] ∧ NEXT_ID st' = NEXT_ID st ∧ vec_ok st' ∧
     ∀ b, b ∈ held (l_heap st) → b ∉ vec_block st → (b ∉ vec_block st') ∧ stays b (heap_of st) (heap_of st')).
Proof.
  intros [Hb Hc] Hn. unfold push. destruct (Z.eqb_spec (len (l_apps st)) (l_cap st)) as [Hfull|Hroom].
  2:{ right. eexists. split; [reflexivity|]. cbn [l_apps NEXT_ID]. split; [done|]. split; [done|]. split.
      - unfold vec_ok. cbn [l_buf l_cap l_heap l_apps]. split; [done|]. rewrite len_app. change (len [a]) with 1. lia.
      - intros b Hin Hni. split; [exact Hni|]. intros ?. by split. }
  assert ((2 ^ 63 - 8 <? 48 * grown st) = false) as -> by (unfold grown; lia).
  unfold alloc_or_fail. change (l_heap st, l_mem st) with (heap_of st).
  destruct (heap_alloc (vec_layout (grown st)) (heap_of st)) as [p s1] eqn:E.
  destruct (Z.eqb_spec p 0) as [->|Hp]; [by left|]. right. cbn [mbind res_bind].
  pose proof (λ b, alloc_stays _ _ _ _ b E) as K1. pose proof (heap_alloc_held _ _ _ _ E) as Hh. rewrite decide_False in Hh by done.
  destruct Hh as [Hh Hd]. cbn [vec_layout size] in *. assert (0 < 48 * grown st) as Hg by (unfold grown; lia).
  set (s2 := match l_buf st with Some q => heap_dealloc q (vec_layout (l_cap st)) s1 | None => s1 end).
  assert (∀ b, b ∈ held s1.1 → b ∉ vec_block st → stays b s1 s2) as K2.
  { intros b Hin Hni. subst s2. unfold vec_block in Hni. destruct (l_buf st) as [q|]; [|intros ?; by split].
    apply dealloc_stays; [|by intros ->; apply Hni; left]. exact (proj1 (K1 (q, 48 * l_cap st) (proj2 Hb))). }
  assert ((p, 48 * grown st) ∉ vec_block st) as Hpv.
  { unfold vec_block. destruct (l_buf st) as [q|]; [|by intros ?%elem_of_nil]. destruct Hb as [_ Hq].
    intros Heq%list_elem_of_singleton. symmetry in Heq. revert Heq. by apply (fresh_ne p (48 * grown st) _ (held (l_heap st))). }
  destruct s2 as [h2 m2] eqn:Es2. cbn [mret res_ret]. eexists. split; [reflexivity|]. cbn [l_apps NEXT_ID].
  split; [done|]. split; [done|]. split.
  - unfold vec_ok. cbn [l_buf l_cap l_heap l_apps]. split.
    + split; [unfold grown; lia|]. assert ((p, 48 * grown st) ∈ held s1.1) as Hin by (rewrite Hh; by left).
      exact (proj1 (K2 _ Hin Hpv Hin)).
    + rewrite len_app. change (len [a]) with 1. pose proof (len_nonneg (l_apps st)). unfold grown. lia.
  - intros b Hin Hni. split.
    + intros Heq%list_elem_of_singleton. revert Heq. by apply (fresh_ne p (48 * grown st) b (held (l_heap st))).
    + eapply stays_trans; [apply K1|]. apply K2; [exact (proj1 (K1 b Hin))|done].
Qed.

(** What a load keeps: the blocks that were held, apart from the vector's. *)
Definition keeps st st' : Prop :=
  ∀ b, b ∈ held (l_heap st) → b ∉ vec_block st → (b ∉ vec_block st') ∧ b ∈ held (l_heap st') ∧
    ∀ x, b.1 ≤ x < b.1 + b.2 → load8 (l_mem st') x = load8 (l_mem st) x.

Lemma app_ready_kept st st' i a file elf :
  elf_ok file elf → keeps st st' → app_ready st i a file elf → app_ready st' i a file elf.
Proof.
  intros Hok Hk [? ? Hlen ? Hheld Him]. constructor; try done.
  - intros Hpos. destruct (Hheld Hpos) as [Hh Hv]. by destruct (Hk _ Hh Hv) as (? & ? & _).
  - eapply image_of_kept; [done| |exact Him]. rewrite <-Hlen. intros x Hx. destruct (Hheld ltac:(lia)) as [Hh Hv].
    destruct (Hk _ Hh Hv) as (_ & _ & K). by apply K.
Qed.

(** The applications loaded so far, from a heap and a memory. *)
Record loaded (h : H) (m : mem) (files : list (list Z)) (elfs : list Elf) st : Prop := {
  lo_len : length (l_apps st) = length files;
  lo_id : NEXT_ID st = wrap 64 (len files);
  lo_vec : vec_ok st;
  lo_kept : keeps (no_apps h m) st;
  lo_ready i a file elf : l_apps st !! i = Some a → files !! i = Some file → elfs !! i = Some elf → app_ready st i a file elf;
  lo_apart i j a b : (i < j)%nat → l_apps st !! i = Some a → l_apps st !! j = Some b →
    disjoint_ranges (code b) (code_len b) (code a) (code_len a)
}.

Lemma load_app_run h m files elfs st file elf :
  loaded h m files elfs st → Forall2 well_formed files elfs → well_formed file elf → len files < 2 ^ 56 →
  (∃ p, load_app ElfFile_new st file = Panic p ∧ runs_short ElfFile_new st file elf p) ∨
  (∃ st', load_app ElfFile_new st file = Ok st' ∧ loaded h m (files ++ [file]) (elfs ++ [elf]) st').
Proof.
  intros [Hlen Hid Hvec Hkept Hready Hapart] Hwfs Hwf Hn. unfold load_app.
  destruct (new_app_run st file elf Hwf) as [(p & -> & Hs)|(st1 & a & E1 & (Hp & Hfn & Hcl & Hst) & (Ha & Hc & Hb & Hi) & K1 & Him & Hin & Hd)];
    [left; by exists p|].
  rewrite E1. cbn [mbind res_bind]. pose proof (vec_ok_stays st st1 Ha Hc Hb K1 Hvec) as Hvec1.
  destruct (push_run st1 a Hvec1) as [(E2 & Hfull & Hnull)|(st2 & E2 & Ha2 & Hi2 & Hvec2 & K2)].
  { rewrite Ha. unfold len in *. lia. }
  { left. exists alloc_error. split; [done|]. right; right. split; [done|]. by exists a, st1. }
  right. exists st2. split; [done|].
  assert (vec_block st1 = vec_block st) as Hvb by (unfold vec_block; by rewrite Hb, Hc).
  assert (keeps st st2) as Hk.
  { intros b Hbin Hbv. destruct (K1 b Hbin) as [Hb1 L1]. cbn [heap_of fst snd] in Hb1, L1. rewrite <-Hvb in Hbv.
    destruct (K2 b Hb1 Hbv) as [Hv2 S2]. destruct (S2 Hb1) as [Hb2 L2]. cbn [heap_of fst snd] in Hb2, L2.
    split; [done|]. split; [done|]. intros x Hx. by rewrite L2, L1. }
  pose proof (Forall2_length _ _ _ Hwfs) as Hfe.
  assert (app_ready st2 (length files) a file elf) as Hra.
  { assert (0 < code_len a → (code a, code_len a) ∉ vec_block st1) as Hav.
    { intros Hpos. rewrite Hvb. unfold vec_block. destruct Hvec as [Hv _]. destruct (l_buf st) as [q|]; [|by intros ?%elem_of_nil].
      destruct Hv as [_ Hv]. intros Heq%list_elem_of_singleton. symmetry in Heq. revert Heq. by apply (fresh_ne _ _ _ (held (l_heap st))). }
    constructor; [by rewrite Hp, Hid|done|done|done| |].
    - intros Hpos. destruct (K2 _ (Hin Hpos) (Hav Hpos)) as [Hv2 S2]. split; [by apply S2, Hin|done].
    - eapply image_of_kept; [by destruct Hwf as (_ & ? & _)| |exact Him]. rewrite <-Hcl. intros x Hx.
      assert (0 < code_len a) as Hpos by lia. destruct (K2 _ (Hin Hpos) (Hav Hpos)) as [_ S2]. by apply (S2 (Hin Hpos)). }
  constructor.
  - rewrite Ha2, Ha, !length_app. cbn. lia.
  - rewrite Hi2, Hi, Hid, wrap_add_l, len_app. done.
  - done.
  - intros b Hbin Hbv. destruct (Hkept b Hbin Hbv) as (Hv1 & Hb1 & L1). destruct (Hk b Hb1 Hv1) as (Hv2 & Hb2 & L2).
    split; [done|]. split; [done|]. intros x Hx. by rewrite L2, L1.
  - intros i a' file' elf' Ea Ef Ee. rewrite Ha2, Ha in Ea. destruct (decide (i < length files)%nat) as [Hlt|Hge].
    + rewrite lookup_app_l in Ea by lia. rewrite lookup_app_l in Ef by lia. rewrite lookup_app_l in Ee by lia. destruct (Forall2_lookup_lr _ _ _ _ _ _ Hwfs Ef Ee) as (_ & Hok' & _).
      eapply app_ready_kept; [done|exact Hk|by apply (Hready i)].
    + rewrite lookup_app_r in Ea by lia. rewrite lookup_app_r in Ef by lia. rewrite lookup_app_r in Ee by lia.
      apply lookup_lt_Some in Ef as Hlt. cbn in Hlt.
      assert (i = length files) as -> by lia. rewrite Hlen, Nat.sub_diag in Ea. rewrite Nat.sub_diag in Ef.
      rewrite Hfe, Nat.sub_diag in Ee. by injection Ea as <-; injection Ef as <-; injection Ee as <-.
  - intros i j a1 b1 Hij Ei Ej. rewrite Ha2, Ha in Ei, Ej. apply lookup_lt_Some in Ej as Hj. rewrite length_app in Hj. cbn in Hj.
    rewrite lookup_app_l in Ei by lia. destruct (decide (j < length (l_apps st))%nat) as [Hlt|Hge].
    + rewrite lookup_app_l in Ej by lia. by apply (Hapart i j).
    + rewrite lookup_app_r in Ej by lia. replace (j - length (l_apps st))%nat with 0%nat in Ej by lia. injection Ej as <-.
      apply lookup_lt_Some in Ei as Hil. destruct (lookup_lt_is_Some_2 files i) as [fi Hfi]; [lia|].
      destruct (lookup_lt_is_Some_2 elfs i) as [ei Hei]; [lia|]. destruct (Hready i a1 fi ei Ei Hfi Hei) as [_ _ _ _ Hh _].
      destruct (decide (0 < code_len a1)) as [Hpos|]; [|unfold disjoint_ranges; lia].
      rewrite Forall_forall in Hd. apply (Hd (code a1, code_len a1)), Hh, Hpos.
Qed.

Lemma load_apps_run h m files elfs :
  Forall2 well_formed files elfs → len files ≤ 2 ^ 56 →
  match load_apps ElfFile_new files (no_apps h m) with
  | Ok st => loaded h m files elfs st
  | Panic p => ∃ i st file elf, files !! i = Some file ∧ elfs !! i = Some elf ∧
      load_apps ElfFile_new (take i files) (no_apps h m) = Ok st ∧ runs_short ElfFile_new st file elf p
  end.
Proof.
  revert elfs; induction files as [|file files IH] using rev_ind; intros elfs Hwf Hn.
  - apply Forall2_nil_inv_l in Hwf as ->. cbn. constructor; [done|done| |done|done|done].
    split; [done|]. change (0 ≤ 0 ≤ 4). lia.
  - apply Forall2_app_inv_l in Hwf as (elfs1 & l & Hwf1 & Hl & ->).
    apply Forall2_cons_inv_l in Hl as (elf & l' & Hw & Hl & ->). apply Forall2_nil_inv_l in Hl as ->.
    rewrite len_app in Hn. change (len [file]) with 1 in Hn. specialize (IH elfs1 Hwf1 ltac:(lia)).
    pose proof (Forall2_length _ _ _ Hwf1) as Hfe.
    unfold load_apps in *. rewrite foldM_app. destruct (foldM _ _ files) as [st|p] eqn:E; cbn [mbind res_bind].
    + destruct (load_app_run h m files elfs1 st file elf IH Hwf1 Hw ltac:(lia)) as [(p & E1 & Hs)|(st' & E1 & Hlo)];
        cbn [foldM]; rewrite E1; cbn [mbind res_bind]; [|exact Hlo].
      exists (length files), st, file, elf. rewrite take_app_length.
      split; [by apply list_lookup_middle|]. split; [by apply list_lookup_middle|]. by split.
    + destruct IH as (i & st & f & e & Hf & He & Er & Hs). exists i, st, f, e.
      apply lookup_lt_Some in Hf as Hi. rewrite take_app_le by lia. split; [by apply lookup_app_l_Some|]. split; [by apply lookup_app_l_Some|].
      by split.
Qed.
End spec.

(** C12: the applications are loaded side by side. Loading well-formed images, at
    most 2^56 of them, one after the other from an empty vector either returns, or
    panics because the heap had no room for the first request that it refused: the
    copy of a file or the buffer of the vector, which fail as allocations, or the
    block of an image, which is not looked at and faults on its first byte. When it
    returns there is one application per image, in order, with process ids from 0;
    each has its whole image, relocated to its own block; no two blocks meet; and
    whatever the kernel held on the heap before is held and as it was. *)
Theorem apps_loaded_apart (ElfFile_new : list Z → option Elf) {H} `{ImageHeap H} files elfs (h : H) m :
  Forall2 (well_formed ElfFile_new) files elfs → len files ≤ 2 ^ 56 →
  match load_apps ElfFile_new files (no_apps h m) with
  | Ok st' =>
      length (l_apps st') = length files ∧
      (∀ i a file elf, l_apps st' !! i = Some a → files !! i = Some file → elfs !! i = Some elf →
         pid a = Z.of_nat i ∧ func a = code a + entry_point elf ∧ App.store a = None ∧ image_of file elf (code a) (l_mem st')) ∧
      (∀ i j a b, (i < j)%nat → l_apps st' !! i = Some a → l_apps st' !! j = Some b →
         disjoint_ranges (code b) (code_len b) (code a) (code_len a)) ∧
      (∀ b, b ∈ held h → b ∈ held (l_heap st') ∧ ∀ x, b.1 ≤ x < b.1 + b.2 → load8 (l_mem st') x = load8 m x)
  | Panic p => ∃ i st file elf, files !! i = Some file ∧ elfs !! i = Some elf ∧
      load_apps ElfFile_new (take i files) (no_apps h m) = Ok st ∧ runs_short ElfFile_new st file elf p
  end.
Proof.
  intros Hf Hn. pose proof (load_apps_run ElfFile_new h m files elfs Hf Hn) as Hr.
  destruct (load_apps _ _ _) as [st'|p]; [|exact Hr]. destruct Hr as [Hlen _ _ Hk Hready Hapart].
  split; [done|]. split; [|split; [done|]].
  - intros i a file elf Ea Ef Ee. destruct (Hready i a file elf Ea Ef Ee) as [Hp He _ Hs _ Him].
    split_and!; [|done..]. rewrite Hp. apply wrap_small. apply lookup_lt_Some in Ea. unfold fits, len in *. lia.
  - intros b Hb. destruct (Hk b Hb) as (_ & Hb' & K); [by intros ?%elem_of_nil|]. by split.
Qed.

(** *** The claim at a concrete input: two copies of a file *)

(** A heap that counts upwards to a limit, and only forgets the blocks it gets
    back. *)
Record bump := { top : Z; limit : Z; blocks : list (Z * Z) }.
Definition bump_ok (h : bump) : Prop := 4096 ≤ top h ∧ Forall (λ b, b.1 + b.2 ≤ top h) (blocks h).

Fixpoint forget (b : Z * Z) (l : list (Z * Z)) : list (Z * Z) :=
  match l with [] => [] | x :: l => if decide (x = b) then l else x :: forget b l end.

Lemma forget_perm b l : b ∈ l → l ≡ₚ b :: forget b l.
Proof.
  induction l as [|x l IH]; [by intros ?%elem_of_nil|]. cbn. destruct (decide (x = b)) as [->|Hn]; [done|].
  intros [->|Hin]%elem_of_cons; [done|]. etransitivity; [apply Permutation_skip, (IH Hin)|apply Permutation_swap].
Qed.

Lemma forget_sub b l : forget b l ⊆ l.
Proof. induction l as [|x l IH]; cbn; [done|]. case_decide; set_solver. Qed.

Program Definition bump_heap : ImageHeap {h : bump | bump_ok h} := {|
  heap_alloc l s :=
    let h := `(s.1) in
    if decide (0 ≤ size l ∧ top h + size l ≤ limit h)
    then (top h, (exist bump_ok {| top := top h + size l; limit := limit h; blocks := (top h, size l) :: blocks h |} _, s.2))
    else (0, s);
  heap_dealloc p l s :=
    let h := `(s.1) in
    (exist bump_ok {| top := top h; limit := limit h; blocks := forget (p, size l) (blocks h) |} _, s.2);
  held h := blocks (`h)
|}.
Next Obligation.
  intros l [[h [Ht Hb]] m] ? [Hs _]. split; cbn in *; [lia|]. constructor; [cbn; lia|].
  eapply Forall_impl; [exact Hb|]. intros [x n]; cbn. lia.
Qed.
Next Obligation.
  intros p l [[h [Ht Hb]] m]. split; cbn in *; [done|]. rewrite Forall_forall in Hb. apply Forall_forall.
  intros x Hx%forget_sub. by apply Hb.
Qed.
Next Obligation.
  intros l [[h [Ht Hb]] m] p s' E. cbn in *. destruct (decide (0 ≤ size l ∧ _)) as [Hs|] in E; injection E as <- <-; cbn.
  - rewrite decide_False by lia. split; [done|]. eapply Forall_impl; [exact Hb|]. intros [x n]; cbn. unfold disjoint_ranges. lia.
  - done.
Qed.
Next Obligation. intros l [h m] p s' b x E _ _. cbn in E. by destruct (decide (0 ≤ size l ∧ _)) in E; injection E as <- <-. Qed.
Next Obligation. intros p l [h m] Hp. by apply forget_perm. Qed.
Next Obligation. done. Qed.

#[local] Existing Instance bump_heap.
Lemma fresh_ok n : bump_ok {| top := 0x10000; limit := n; blocks := [] |}.
Proof. split; [cbn; lia|constructor]. Qed.
Definition fresh_heap (n : Z) : {h : bump | bump_ok h} := {| top := 0x10000; limit := n; blocks := [] |} ↾ fresh_ok n.
Definition two_copies (n : Z) : res (loading) :=
  load_apps (λ _, Some example_elf) [example_file; example_file] (no_apps (fresh_heap n) ∅).
Definition codes (r : res (loading (H:={h : bump | bump_ok h}))) : res (list Z) := st ← r; mret (code <$> l_apps st).

Lemma two_well_formed : Forall2 (well_formed (λ _, Some example_elf)) [example_file; example_file] [example_elf; example_elf].
Proof.
  assert (well_formed (λ _, Some example_elf) example_file example_elf) as Hw by (split; [done|]; split; [exact example_elf_ok|done]).
  constructor; [exact Hw|constructor; [exact Hw|constructor]].
Qed.

Lemma apps_loaded_apart_witness :
  (∃ st' a b, two_copies 0x20000 = Ok st' ∧ l_apps st' = [a; b] ∧ pid b = 1 ∧ code b = 0x100EC ∧
    image_of example_file example_elf 0x100EC (l_mem st')) ∧
  (∃ (st : loading) elf, two_copies 0x10020 = Panic page_fault ∧ runs_short (λ _, Some example_elf) st example_file elf page_fault).
Proof.
  split.
  - pose proof (apps_loaded_apart (λ _, Some example_elf) [example_file; example_file] [example_elf; example_elf]
      (fresh_heap 0x20000) ∅ two_well_formed ltac:(done)) as H. change (load_apps _ [example_file; example_file] _) with (two_copies 0x20000) in H.
    assert (codes (two_copies 0x20000) = Ok [0x10006; 0x100EC]) as Hc by (vm_compute; reflexivity).
    destruct (two_copies 0x20000) as [st'|p]; [|discriminate Hc]. destruct H as (_ & Hg & _).
    cbn in Hc. injection Hc as Hc. destruct (l_apps st') as [|a [|b [|]]] eqn:El; try discriminate Hc. injection Hc as Ha Hb.
    destruct (Hg 1%nat b example_file example_elf) as (Hp & _ & _ & Him); [done..|].
    exists st', a, b. rewrite Hb in Him. by split_and!.
  - pose proof (apps_loaded_apart (λ _, Some example_elf) [example_file; example_file] [example_elf; example_elf]
      (fresh_heap 0x10020) ∅ two_well_formed ltac:(done)) as H. change (load_apps _ [example_file; example_file] _) with (two_copies 0x10020) in H.
    assert (two_copies 0x10020 = Panic page_fault) as Hc by (vm_compute; reflexivity).
    rewrite Hc in H. destruct H as (i & st & file & elf & Hf & _ & _ & Hs).
    exists st, elf. split; [exact Hc|]. destruct i as [|[|i]]; [| |discriminate Hf]; injection Hf as <-; exact Hs.
Defined.
