(* ===== verification/Boot.v ===== *)
(** The start of the kernel ([bootloader/kernel/src/main.rs], [kernel_main]): the
    window of physical memory, the search for virtio devices on the PCI buses and
    the tasks that are spawned for them. *)
From S2P Require Import Prelude Bytes Interfaces Pci Memory Virtio VirtioInit Executor.

(** ** The window of physical memory *)

Definition HUGE : Z := 2 ^ 21.
(** [Size1GiB::SIZE * 64 - 1] *)
Definition MAX_PHYS : Z := 2 ^ 30 * 64 - 1.

(** [containing_address] for pages and frames of 2 MiB. *)
Definition containing_huge (a : Z) : Z := HUGE * (a / HUGE).

(** Page tables with 2 MiB entries: [map_to] enters one, or fails and leaves the
    translation as it was. *)
Class HugeMapper (P : Type) := {
  translate_huge : P → Z → option Z;
  map_to_huge : Z → Z → M P (unit + MapToError);
  map_to_huge_spec page frame p r p' :
    map_to_huge page frame p = Ok (r, p') →
    match r with
    | inl _ => translate_huge p page = None ∧ translate_huge p' page = Some frame ∧
               ∀ q, q ≠ page → translate_huge p' q = translate_huge p q
    | inr _ => ∀ q, translate_huge p' q = translate_huge p q
    end
}.

Definition phys_to_virt `{X86Addr} (offset addr : Z) : res Z := VirtAddr_add offset addr.

(** [memory.rs]: the table that CR3 points at, through the window, and the address
    of physical memory for a given window. *)
Definition active_level_4_table `{X86Addr} (cr3 physical_memory_offset : Z) : res Z :=
  VirtAddr_add physical_memory_offset cr3.
Definition kern_phy_to_virt `{X86Addr} (physical_memory_offset target_phy : Z) : res Z :=
  VirtAddr_new (physical_memory_offset +u[64] target_phy).

(** The two agree with [phys_to_virt] on every address of the window. *)
Lemma window_address `{X86Addr} offset phys :
  0 ≤ offset → 0 ≤ phys → offset + phys < 2 ^ 47 →
  active_level_4_table phys offset = Ok (offset + phys) ∧ kern_phy_to_virt offset phys = Ok (offset + phys) ∧
  phys_to_virt offset phys = Ok (offset + phys).
Proof.
  intros Ho Hp Hb. unfold active_level_4_table, kern_phy_to_virt, phys_to_virt, VirtAddr_add.
  rewrite wrap_small by (unfold fits; lia). by rewrite VirtAddr_new_ok by lia.
Qed.

(** The ACPI crate's view of physical memory: where a region is, and how many
    bytes of it are mapped. *)
Definition map_physical_region `{X86Addr} (offset physical_address size : Z) : res (Z * Z * Z) :=
  let s := (size / 4096 +u[64] 1) *u[64] 4096 in
  p ← PhysAddr_new physical_address;
  v ← phys_to_virt offset p;
  if v =? 0 then Panic PUnwrap else mret (physical_address, v, s).

Section window.
Context {P : Type} `{X86Addr} `{HugeMapper P}.

(** The body of the loop, for the frame at an address: what the counters become. *)
Definition map_frame (offset : Z) (counts : Z * Z) (frame : Z) : M P (Z * Z) :=
  v ← lift (VirtAddr_add offset frame);
  r ← map_to_huge (containing_huge v) frame;
  mret (match r with
        | inl _ => (swrap 32 (counts.1 + 1), counts.2)
        | inr _ => (counts.1, swrap 32 (counts.2 + 1))
        end).

(** The frames from 0 to the last one, included. *)
Definition frames : list Z := (λ n, HUGE * n) <$> range 0 (MAX_PHYS / HUGE + 1).

Fixpoint map_frames (offset : Z) (l : list Z) (counts : Z * Z) : M P (Z * Z) :=
  match l with
  | [] => mret counts
  | frame :: l => c ← map_frame offset counts frame; map_frames offset l c
  end.

(** [(news, olds)]. The first [max_phys], that below the window, is an address made
    and not used. *)
Definition map_physical (offset : Z) : M P (Z * Z) :=
  max_phys ← lift (PhysAddr_new (offset -u[64] 1));
  map_frames offset frames (0, 0).
End window.

Section window_spec.
Context {P : Type} `{X86Addr} `{HugeMapper P} (offset : Z).
Context (Hoff : 0 ≤ offset ∧ offset + 2 ^ 36 ≤ 2 ^ 47) (Hal : (HUGE | offset)).
(** The page tables answer. *)
Context (Htot : ∀ page frame (p : P), ∃ r p', map_to_huge page frame p = Ok (r, p')).

Definition page (n : Z) : Z := offset + HUGE * n.

Lemma map_frame_page counts n p :
  0 ≤ n < 2 ^ 15 →
  map_frame offset counts (HUGE * n) p =
    ('(r, p') ← map_to_huge (page n) (HUGE * n) p;
     Ok (match r with
         | inl _ => (swrap 32 (counts.1 + 1), counts.2)
         | inr _ => (counts.1, swrap 32 (counts.2 + 1))
         end, p')).
Proof.
  intros Hn. unfold map_frame, VirtAddr_add. unfold HUGE in *. rewrite VirtAddr_new_ok by lia.
  rewrite (M_bind_run _ _ p (offset + 2 ^ 21 * n) p) by done.
  replace (containing_huge (offset + 2 ^ 21 * n)) with (page n); 
    [unfold mbind at 1, M_bind at 1; by destruct (map_to_huge (page n) (2 ^ 21 * n) p) as [[r p']|]|].
  destruct Hal as [k ->]. unfold page, containing_huge, HUGE.
  replace (k * 2 ^ 21 + 2 ^ 21 * n) with ((k + n) * 2 ^ 21) by lia. rewrite Z.div_mul by lia. lia.
Qed.

(** A page of the window is new: it had no translation, and now has the frame's. *)
Definition fresh (p p' : P) (n : Z) : Prop :=
  translate_huge p (page n) = None ∧ translate_huge p' (page n) = Some (HUGE * n).
#[global] Instance fresh_dec p p' n : Decision (fresh p p' n).
Proof. unfold fresh. apply _. Defined.

Lemma map_frames_spec l news olds p :
  NoDup l → (∀ n, n ∈ l → 0 ≤ n < 2 ^ 15) → 0 ≤ news → 0 ≤ olds → news + olds + len l < 2 ^ 31 →
  ∃ news' olds' p', map_frames offset ((λ n, HUGE * n) <$> l) (news, olds) p = Ok ((news', olds'), p') ∧
    news' + olds' = news + olds + len l ∧
    news' = news + len (filter (fresh p p') l) ∧
    (∀ n, n ∈ l → fresh p p' n ∨ translate_huge p' (page n) = translate_huge p (page n)) ∧
    (∀ v, (∀ n, n ∈ l → page n ≠ v) → translate_huge p' v = translate_huge p v).
Proof.
  revert news olds p; induction l as [|n l IH]; intros news olds p Hnd Hl Hn Ho Hlen.
  { exists news, olds, p. rewrite filter_nil, len_nil. split; [done|]. split; [lia|]. split; [lia|].
    split; [intros n Hn'; by apply elem_of_nil in Hn'|done]. }
  apply NoDup_cons in Hnd as [Hnin Hnd]. rewrite len_cons in Hlen. pose proof (len_nonneg l) as Hl0.
  assert (Hne : ∀ m, m ∈ l → page m ≠ page n).
  { intros m Hm He. assert (m = n) as -> by (unfold page, HUGE in He; lia). done. }
  destruct (Htot (page n) (HUGE * n) p) as (r & p1 & E1).
  assert (Hn15 : 0 ≤ n < 2 ^ 15) by (apply Hl; set_solver).
  pose proof (map_frame_page (news, olds) n p Hn15) as Ef. rewrite E1 in Ef. cbn [mbind res_bind fst snd] in Ef.
  cbn [fmap list_fmap map_frames]. rewrite (M_bind_run _ _ _ _ _ Ef).
  pose proof (map_to_huge_spec _ _ _ _ _ E1) as Hspec.
  set (c := match r with inl _ => _ | inr _ => _ end).
  assert (Hc : 0 ≤ c.1 ∧ 0 ≤ c.2 ∧ c.1 + c.2 = news + olds + 1 ∧ c.1 = news + (if decide (fresh p p1 n) then 1 else 0)).
  { assert (Hsw : ∀ v, 0 ≤ v < 2 ^ 31 → swrap 32 v = v) by (intros v Hv; unfold swrap; rewrite Z.mod_small; lia).
    unfold c. destruct r as [u|e]; cbn [fst snd]; rewrite Hsw by lia.
    - destruct Hspec as (H1 & H2 & _). rewrite decide_True by done. lia.
    - rewrite decide_False; [lia|]. intros [H1 H2]. rewrite Hspec in H2. congruence. }
  assert (Hother : ∀ v, v ≠ page n → translate_huge p1 v = translate_huge p v).
  { intros v Hv. destruct r; [by apply Hspec|apply Hspec]. }
  destruct c as [news1 olds1]. cbn [fst snd] in Hc. destruct Hc as (Hc1 & Hc2 & Hsum & Hnews).
  destruct (IH news1 olds1 p1) as (news' & olds' & p' & E & Hs' & Hn' & Hall & Hout); [done| |lia|lia|lia|].
  { intros m Hm. apply Hl. set_solver. }
  assert (Hpn : translate_huge p' (page n) = translate_huge p1 (page n)) by (apply Hout, Hne).
  assert (Hfr : ∀ m, m ∈ l → fresh p p' m ↔ fresh p1 p' m).
  { intros m Hm. unfold fresh. by rewrite (Hother (page m)) by (by apply Hne). }
  exists news', olds', p'. split; [exact E|]. rewrite len_cons. split; [lia|]. split; [|split].
  - rewrite Hn', Hnews, filter_cons. assert (Hf : fresh p p' n ↔ fresh p p1 n) by (unfold fresh; by rewrite Hpn).
    assert (Hfl : filter (fresh p p') l = filter (fresh p1 p') l).
    { clear - Hfr. induction l as [|m l IH]; [done|]. rewrite !filter_cons.
      rewrite IH by (intros; apply Hfr; set_solver). pose proof (Hfr m ltac:(set_solver)) as Hm.
      destruct (decide (fresh p p' m)), (decide (fresh p1 p' m)); tauto || done. }
    rewrite Hfl. destruct (decide (fresh p p' n)), (decide (fresh p p1 n)); rewrite ?len_cons; try lia; tauto.
  - intros m [->|Hm]%elem_of_cons.
    + unfold fresh. rewrite Hpn. destruct r; [left; tauto|right; apply Hspec].
    + destruct (Hall m Hm) as [Hf|Heq]; [left; by apply Hfr|right]. by rewrite Heq, Hother by (by apply Hne).
  - intros v Hv. rewrite Hout by set_solver. apply Hother. intros ->. apply (Hv n); set_solver.
Qed.
End window_spec.

Lemma map_physical_loop `{X86Addr, HugeMapper P} offset (p : P) :
  0 < offset < 2 ^ 52 → map_physical offset p = map_frames offset ((λ n, HUGE * n) <$> range 0 32768) (0, 0) p.
Proof.
  intros Ho. unfold map_physical. rewrite wrap_small by (unfold fits; lia).
  rewrite (M_bind_run _ _ p (offset - 1) p); [done|]. unfold lift. by rewrite PhysAddr_new_ok by lia.
Qed.

(** C23: the window of physical memory. With [offset] a positive multiple of 2 MiB
    below the end of the lower half, the boot loop enters each of the 32768 pages of the
    first 64 GiB once: a page that had no translation and could be mapped is at
    [offset] plus the address of its frame, every other keeps the translation it
    had, and nothing outside the window changes. The first counter is the number
    of new pages; the second, logged as already mapped, is all the others, the
    pages for which no table could be allocated included. *)
Theorem boot_maps_physical_memory `{X86Addr, HugeMapper P} offset (p : P) :
  0 < offset ∧ offset + 2 ^ 36 ≤ 2 ^ 47 → (HUGE | offset) →
  (∀ page frame (p : P), ∃ r p', map_to_huge page frame p = Ok (r, p')) →
  ∃ news olds p', map_physical offset p = Ok ((news, olds), p') ∧ news + olds = 32768 ∧
    news = len (filter (fresh offset p p') (range 0 32768)) ∧
    (∀ n, 0 ≤ n < 32768 → fresh offset p p' n ∨ translate_huge p' (page offset n) = translate_huge p (page offset n)) ∧
    (∀ v, v < offset ∨ offset + 2 ^ 36 ≤ v → translate_huge p' v = translate_huge p v).
Proof.
  intros Hoff Hal Htot. rewrite map_physical_loop by lia.
  destruct (map_frames_spec offset ltac:(lia) Hal Htot (range 0 32768) 0 0 p) as (news & olds & p' & E & Hs & Hn & Hall & Hout).
  - apply NoDup_seqZ.
  - intros n Hn%elem_of_range. lia.
  - lia.
  - lia.
  - rewrite len_range; lia.
  - rewrite len_range in Hs by lia. exists news, olds, p'. split; [exact E|]. split; [lia|]. split; [lia|]. split.
    + intros n Hn'. apply Hall, elem_of_range. lia.
    + intros v Hv. apply Hout. intros n Hn'%elem_of_range. unfold page, HUGE. lia.
Qed.

(** A table as a finite map. *)
Program Definition huge_table : HugeMapper (gmap Z Z) := {|
  translate_huge p q := p !! q;
  map_to_huge page frame p := match p !! page with
    | Some v => Ok (inr (PageAlreadyMapped v), p)
    | None => Ok (inl tt, <[page := frame]> p) end
|}.
Next Obligation.
  intros page frame p r p'. cbn. destruct (p !! page) as [v|] eqn:E; intros [= <- <-]; [done|].
  split; [done|]. split; [apply lookup_insert_eq|]. intros q Hq. by rewrite lookup_insert_ne.
Qed.

#[local] Existing Instance x86_addr_instance.
#[local] Existing Instance huge_table.

Lemma boot_maps_physical_memory_witness :
  ∃ news olds p', map_physical (2 ^ 40) (∅ : gmap Z Z) = Ok ((news, olds), p') ∧ news + olds = 32768.
Proof.
  destruct (boot_maps_physical_memory (2 ^ 40) (∅ : gmap Z Z)) as (news & olds & p' & E & Hs & _).
  - lia.
  - by exists (2 ^ 19).
  - intros page frame p. cbn. destruct (p !! page); by eexists _, _.
  - exists news, olds, p'. split; [exact E|exact Hs].
Defined.

(** ** The devices *)

(** The kernel with all its PCI devices, each with its own registers. *)
Record kernel_machine (S D P F : Type) := KernelMachine { k_ports : S; k_devs : Pci → D; k_paging : P * F; k_ram : mem }.
Arguments KernelMachine {S D P F} _ _ _ _.
Arguments k_ports {S D P F} _. Arguments k_devs {S D P F} _. Arguments k_paging {S D P F} _. Arguments k_ram {S D P F} _.

Definition VIRTIO_VENDOR_ID : Z := 0x1af4.

Section devices.
Context {S D P F : Type} `{PciPorts S} `{X86Addr} `{VirtioDevice D} `{!VirtioBoot D} `{Mapper P F}.
Abbreviation kern := (kernel_machine S D P F).
Context (fuel : nat) (phys_offset : Z).

Definition ports_of {A} (m : M S A) : M kern A := λ s,
  '(a, p) ← m (k_ports s); mret (a, KernelMachine p (k_devs s) (k_paging s) (k_ram s)).

(** What is done with one device, the registers behind the others out of reach. *)
Definition with_device {A} (pci : Pci) (m : M (machine S D P F) A) : M kern A := λ s,
  '(a, t) ← m (Machine (k_ports s) (k_devs s pci) (k_paging s) (k_ram s));
  mret (a, KernelMachine (ports t) (λ q, if decide (q = pci) then vdev t else k_devs s q) (paging t) (vram t)).

(** The body of the loop over the functions found on the buses: the reads of the
    log line, and [Virtio::init] for the vendor of virtio. The outer [None] is a
    capability list longer than [fuel]. *)
Definition probe (pci : Pci) : M kern (option (option Virtio)) :=
  status ← ports_of (PciDev.config_read_u16 pci (reg_u8 PCIStatus));
  vendor ← ports_of (PciDev.config_read_u16 pci (reg_u8 PCIVendorID));
  device_id ← ports_of (PciDev.config_read_u16 pci (reg_u8 PCIDeviceID));
  irq ← ports_of (PciDev.get_irq pci);
  ipin ← ports_of (PciDev.get_ipin pci);
  if vendor =? VIRTIO_VENDOR_ID then with_device pci (init fuel phys_offset pci) else mret (Some None).

Fixpoint probe_all (devs : list Pci) (virtio_devices : list Virtio) : M kern (option (list Virtio)) :=
  match devs with
  | [] => mret (Some virtio_devices)
  | pci :: devs =>
      o ← probe pci;
      match o with
      | None => mret None
      | Some None => probe_all devs virtio_devices
      | Some (Some v) => probe_all devs (virtio_devices ++ [v])
      end
  end.

(** [Pcis::new] and the loop. *)
Definition find_devices : M kern (option (list Virtio)) := devs ← ports_of Pcis.new; probe_all devs [].
End devices.

(** ** The tasks *)

(** The futures spawned at start: a driver for a device, and the applications. *)
Inductive BootTask := InputDrive (v : Virtio) | GpuDrive (v : Virtio) | Applications.

Definition driver (v : Virtio) : BootTask :=
  match device_type v with Virtio.Input => InputDrive v | Virtio.Gpu => GpuDrive v end.

(** From the executor to the last [spawner.run]. *)
Definition spawn_all (virtio_devices : list Virtio) : M (Executor BootTask) unit :=
  for_each virtio_devices (λ v, ExecutorImpl.spawner_run (driver v)) ;;
  ExecutorImpl.spawner_run Applications.

(** *** Properties *)
Lemma spawner_run_take {F} (f : F) (s : Executor F) :
  (length (spawn_queue s) ≤ QUEUE_CAPACITY)%nat →
  ExecutorImpl.spawner_run f s = Ok (tt, Exec (tasks s) (task_queue s)
    (take QUEUE_CAPACITY (spawn_queue s ++ [{| id := next_id s; future := f |}])) (waker_cache s) (yielders s) (next_id s +u[64] 1)).
Proof.
  intros Hl. unfold ExecutorImpl.spawner_run, modify, ArrayQueue.push. do 3 f_equal.
  destruct (Nat.ltb_spec (length (spawn_queue s)) QUEUE_CAPACITY) as [Hlt|Hge].
  - rewrite take_ge; [done|]. rewrite length_app. cbn. lia.
  - rewrite take_app_le by lia. by rewrite take_ge by lia.
Qed.

(** Futures with consecutive identifiers. *)
Definition numbered {F} (k : Z) (fs : list F) : list (Task F) := imap (λ i f, {| id := wrap 64 (k + Z.of_nat i); future := f |}) fs.

Lemma numbered_cons {F} k (f : F) fs : fits 64 k → numbered k (f :: fs) = {| id := k; future := f |} :: numbered (k +u[64] 1) fs.
Proof.
  intros Hk. unfold numbered. cbn [imap]. rewrite Z.add_0_r, wrap_small by done. f_equal.
  apply imap_ext. intros i g _. cbn [compose]. rewrite wrap_add_l. do 2 f_equal. lia.
Qed.

Lemma take_snoc_take {A} n (q l : list A) (a : A) :
  (length q ≤ n)%nat → take n (take n (q ++ [a]) ++ l) = take n (q ++ a :: l).
Proof.
  intros Hq. destruct (decide (length q < n)%nat) as [Hlt|Hge].
  - rewrite (take_ge (q ++ [a])) by (rewrite length_app; cbn; lia). by rewrite <- app_assoc.
  - rewrite (take_app_le q [a]) by lia. rewrite (take_ge q) by lia. by rewrite !take_app_le by lia.
Qed.

Lemma take_take_snoc {A} n (q : list A) (a : A) : take n (take n q ++ [a]) = take n (q ++ [a]).
Proof.
  destruct (decide (length q ≤ n)%nat) as [Hle|Hgt]; [by rewrite (take_ge q)|].
  rewrite (take_app_le (take n q)) by (rewrite length_take; lia). rewrite take_app_le by lia. by rewrite take_take, Nat.min_id.
Qed.

Lemma numbered_snoc {F} k (fs : list F) f :
  numbered k (fs ++ [f]) = numbered k fs ++ [{| id := wrap 64 (k + len fs); future := f |}].
Proof. unfold numbered. rewrite imap_app. cbn [imap compose]. by rewrite Nat.add_0_r. Qed.

Lemma spawn_list {F A} (g : A → F) l (s : Executor F) :
  (length (spawn_queue s) ≤ QUEUE_CAPACITY)%nat → fits 64 (next_id s) →
  for_each l (λ v, ExecutorImpl.spawner_run (g v)) s = Ok (tt, Exec (tasks s) (task_queue s)
    (take QUEUE_CAPACITY (spawn_queue s ++ numbered (next_id s) (g <$> l))) (waker_cache s) (yielders s)
    (wrap 64 (next_id s + len l))).
Proof.
  revert s; induction l as [|v l IH]; intros s Hs Hk.
  - cbn [for_each fmap list_fmap]. change (numbered (next_id s) []) with (@nil (Task F)).
    rewrite app_nil_r, take_ge, len_nil, Z.add_0_r, wrap_small by done. by destruct s.
  - cbn [for_each fmap list_fmap]. rewrite (M_bind_run _ _ _ _ _ (spawner_run_take (g v) s Hs)).
    rewrite IH; cbn [spawn_queue next_id tasks task_queue waker_cache yielders].
    + rewrite numbered_cons, take_snoc_take, len_cons, wrap_add_l by done. do 3 f_equal. f_equal. lia.
    + rewrite length_take. lia.
    + apply wrap_fits. lia.
Qed.

(** The start queues the drivers in the order of their devices, then the
    applications, as far as the queue goes. *)
Lemma spawn_all_run vs k :
  fits 64 k → spawn_all vs (ExecutorImpl.new k) = Ok (tt, Exec ∅ []
    (take QUEUE_CAPACITY (numbered k ((driver <$> vs) ++ [Applications]))) ∅ [] (wrap 64 (k + len vs + 1))).
Proof.
  intros Hk. unfold spawn_all. rewrite (M_bind_run _ _ _ _ _ (spawn_list driver vs (ExecutorImpl.new k) ltac:(cbn; lia) Hk)).
  rewrite spawner_run_take by (cbn [spawn_queue]; rewrite length_take; lia).
  cbn [ExecutorImpl.new spawn_queue next_id tasks task_queue waker_cache yielders app].
  rewrite take_take_snoc, wrap_add_l, numbered_snoc. unfold len. by rewrite length_fmap.
Qed.

(** The executor takes what was spawned, in order, and queues it for its first poll. *)
Lemma spawned_are_queued {F} (l : list (Task F)) (s : Executor F) :
  spawn_queue s = l → NoDup (id <$> l) → (∀ t, t ∈ l → tasks s !! id t = None) →
  (length (task_queue s) + length l ≤ QUEUE_CAPACITY)%nat →
  ∃ ts, while_some (Datatypes.S (length l)) ExecutorImpl.pop_spawn ExecutorImpl.spawn s =
      Ok (true, Exec ts (task_queue s ++ (id <$> l)) [] (waker_cache s) (yielders s) (next_id s)) ∧
    (∀ t, t ∈ l → ts !! id t = Some (future t)) ∧ ∀ i, i ∉ id <$> l → ts !! i = tasks s !! i.
Proof.
  revert s; induction l as [|t l IH]; intros s Hs Hnd Hn Hc.
  - exists (tasks s). split; [|by split; [intros t Ht%elem_of_nil|]]. cbn [while_some length].
    unfold mbind, M_bind, ExecutorImpl.pop_spawn. rewrite Hs. cbn. rewrite app_nil_r. by destruct s; cbn in *; subst.
  - cbn [fmap list_fmap length] in *. apply NoDup_cons in Hnd as [Hni Hnd].
    set (s1 := Exec (<[id t := future t]> (tasks s)) (task_queue s ++ [id t]) l (waker_cache s) (yielders s) (next_id s)).
    destruct (IH s1) as (ts & E & Hin & Hout); [done|done| |cbn; rewrite length_app; cbn; lia|].
    { intros t' Ht'. cbn. rewrite lookup_insert_ne; [apply Hn; set_solver|].
      intros He. apply Hni. rewrite He. by apply list_elem_of_fmap_2. }
    exists ts. split; [|split].
    + set (s0 := Exec (tasks s) (task_queue s) l (waker_cache s) (yielders s) (next_id s)).
      assert (ExecutorImpl.pop_spawn s = Ok (Some t, s0)) as Ep by (unfold ExecutorImpl.pop_spawn; by rewrite Hs).
      assert (ExecutorImpl.spawn t s0 = Ok (tt, s1)) as Es.
      { unfold ExecutorImpl.spawn, ArrayQueue.push. cbn [s0 tasks task_queue]. rewrite Hn by set_solver.
        by destruct (Nat.ltb_spec (length (task_queue s)) QUEUE_CAPACITY); [|lia]. }
      change (while_some (Datatypes.S (Datatypes.S (length l))) ExecutorImpl.pop_spawn ExecutorImpl.spawn s) with
        ((o ← ExecutorImpl.pop_spawn; match o with None => mret true | Some a => ExecutorImpl.spawn a ;;
          while_some (Datatypes.S (length l)) ExecutorImpl.pop_spawn ExecutorImpl.spawn end) s).
      rewrite (M_bind_run _ _ _ _ _ Ep), (M_bind_run _ _ _ _ _ Es), E. cbn [s1 task_queue waker_cache yielders next_id].
      by rewrite <-app_assoc.
    + intros t' [->|Ht']%elem_of_cons; [|by apply Hin]. rewrite Hout by done. cbn. apply lookup_insert_eq.
    + intros i Hi. rewrite Hout by set_solver. cbn. apply lookup_insert_ne. set_solver.
Qed.

Lemma numbered_ids {F} k (fs : list F) : id <$> numbered k fs = imap (λ i _, wrap 64 (k + Z.of_nat i)) fs.
Proof. unfold numbered. rewrite fmap_imap. done. Qed.

Lemma numbered_NoDup {F} n (fs : list F) : (n ≤ QUEUE_CAPACITY)%nat → NoDup (id <$> take n (numbered 0 fs)).
Proof.
  intros Hn. apply NoDup_alt. intros i j x Hi Hj. rewrite fmap_take, numbered_ids in Hi, Hj.
  pose proof (lookup_lt_Some _ _ _ Hi) as Li. pose proof (lookup_lt_Some _ _ _ Hj) as Lj. rewrite length_take in Li, Lj.
  unfold QUEUE_CAPACITY in Hn. rewrite lookup_take_lt in Hi, Hj by lia. rewrite list_lookup_imap in Hi, Hj.
  destruct (fs !! i), (fs !! j); try done. cbn in Hi, Hj. rewrite wrap_small in Hi by (unfold fits; lia).
  rewrite wrap_small in Hj by (unfold fits; lia). injection Hi as <-. injection Hj as E. lia.
Qed.

Section device_spec.
Context {S D P F : Type} `{PciPorts S} `{X86Addr} `{VirtioDevice D} `{!VirtioBoot D} `{Mapper P F}.
Implicit Types (s : kernel_machine S D P F).

Lemma init_pci fuel phys_offset p v (m m' : machine S D P F) :
  init fuel phys_offset p m = Ok (Some (Some v), m') → Virtio.pci v = p.
Proof.
  unfold init. intros (device_id & m1 & _ & E)%M_bind_ok. destruct (device_id_to_type _) as [ty|]; [|done].
  apply M_bind_ok in E as (bars & m2 & _ & E). apply M_bind_ok in E as (cap_ptr & m3 & _ & E).
  apply M_bind_ok in E as (oc & m4 & _ & E). destruct oc as [[[common|] [device|] [notify|] [pci_conf|]]|]; try done.
  apply M_bind_ok in E as (queues & m5 & _ & E). apply M_bind_ok in E as (u & m6 & _ & E). by injection E as <- _.
Qed.

Lemma ports_of_devs {A} (m : M S A) s a s' : ports_of m s = Ok (a, s') → k_devs s' = k_devs s.
Proof. unfold ports_of. intros ([a' p] & _ & E)%bind_ok. by injection E as <- <-. Qed.

(** Looking at one function: only its own registers are touched. *)
Lemma probe_spec fuel phys_offset p s o s' :
  probe fuel phys_offset p s = Ok (o, s') →
  (∀ q, q ≠ p → k_devs s' q = k_devs s q) ∧ (∀ v, o = Some (Some v) → Virtio.pci v = p).
Proof.
  unfold probe. intros (status & s1 & E1%ports_of_devs & E)%M_bind_ok.
  apply M_bind_ok in E as (vendor & s2 & E2%ports_of_devs & E). apply M_bind_ok in E as (did & s3 & E3%ports_of_devs & E).
  apply M_bind_ok in E as (irq & s4 & E4%ports_of_devs & E). apply M_bind_ok in E as (ipin & s5 & E5%ports_of_devs & E).
  assert (H5 : k_devs s5 = k_devs s) by congruence. destruct (vendor =? VIRTIO_VENDOR_ID).
  - unfold with_device in E. apply bind_ok in E as ([a t] & Ei & E). injection E as <- <-. split.
    + intros q Hq. cbn. by rewrite decide_False, H5.
    + intros v ->. by eapply init_pci.
  - injection E as <- <-. split; [by rewrite H5|done].
Qed.

Lemma probe_all_spec fuel phys_offset devs acc s vs s' :
  probe_all fuel phys_offset devs acc s = Ok (Some vs, s') →
  (∃ new, vs = acc ++ new ∧ (Virtio.pci <$> new) `sublist_of` devs) ∧ ∀ q, q ∉ devs → k_devs s' q = k_devs s q.
Proof.
  revert acc s; induction devs as [|p devs IH]; intros acc s E.
  - injection E as <- <-. split; [exists []; split; [by rewrite app_nil_r|constructor]|done].
  - apply M_bind_ok in E as (o & s1 & Ep%probe_spec & E). destruct Ep as [Hq Hv].
    assert (Hgen : ∀ acc', probe_all fuel phys_offset devs acc' s1 = Ok (Some vs, s') → ∀ q, q ∉ p :: devs → k_devs s' q = k_devs s q).
    { intros acc' E' q Hn. destruct (IH acc' s1 E') as [_ Hout]. rewrite Hout by set_solver. apply Hq. set_solver. }
    destruct o as [[v|]|]; [| |done].
    + destruct (IH _ _ E) as [(new & -> & Hsub) _]. split; [|by eapply Hgen].
      exists (v :: new). split; [by rewrite <- app_assoc|]. cbn [fmap list_fmap]. rewrite (Hv v) by done. by constructor.
    + destruct (IH _ _ E) as [(new & -> & Hsub) _]. split; [|by eapply Hgen]. exists new. split; [done|]. by constructor.
Qed.
End device_spec.

(** Every virtio device found gets its driver, and nothing else is touched.
    The drivers' structures are for functions of the PCI buses, each at most once
    and in bus order, and the registers of a function that is not on the buses are
    as they were. For those devices the start spawns, with consecutive
    identifiers and in that order, the driver of each device's type and then the
    applications; and all of them are queued as long as there are fewer than 100
    devices: from 100 on the applications are dropped without a word. *)
Theorem boot_spawns_drivers {S D P F} `{PciPorts S} `{X86Addr} `{VirtioDevice D} `{!VirtioBoot D} `{Mapper P F}
    fuel phys_offset (s s' : kernel_machine S D P F) vs k :
  find_devices fuel phys_offset s = Ok (Some vs, s') → fits 64 k →
  (Virtio.pci <$> vs) `sublist_of` enumerate (k_ports s) ∧
  (∀ q, q ∉ enumerate (k_ports s) → k_devs s' q = k_devs s q) ∧
  ∃ ex, spawn_all vs (ExecutorImpl.new k) = Ok (tt, ex) ∧
    spawn_queue ex = take 100 (numbered k ((driver <$> vs) ++ [Applications])) ∧
    next_id ex = wrap 64 (k + len vs + 1) ∧
    ((length vs < 100)%nat → spawn_queue ex = numbered k ((driver <$> vs) ++ [Applications])) ∧
    ((100 ≤ length vs)%nat → Applications ∉ future <$> spawn_queue ex).
Proof.
  intros E Hk. unfold find_devices in E. apply M_bind_ok in E as (devs & s1 & E1 & E2).
  assert (Hdevs : devs = enumerate (k_ports s) ∧ k_devs s1 = k_devs s).
  { split; [|by eapply ports_of_devs]. unfold ports_of in E1. apply bind_ok in E1 as ([d p] & E1 & E3). injection E3 as <- _.
    destruct (scan_buses_spec (range 0 256) [] (k_ports s)) as (p' & _ & Hs). unfold Pcis.new in E1. rewrite Hs in E1.
    by injection E1 as <- _. }
  destruct Hdevs as [-> Hd1]. apply probe_all_spec in E2 as [(new & -> & Hsub) Hout]. cbn [app].
  split; [done|]. split; [intros q Hq; by rewrite Hout, Hd1|].
  pose proof (spawn_all_run new k Hk) as Hrun. set (ds := driver <$> new) in *.
  eexists. split; [exact Hrun|]. cbn [spawn_queue next_id]. split; [done|]. split; [done|]. split.
  - intros Hl. apply take_ge. unfold numbered, ds. rewrite length_imap, length_app, length_fmap. cbn. unfold QUEUE_CAPACITY. lia.
  - intros Hl. rewrite numbered_snoc, take_app_le by (unfold numbered, ds; rewrite length_imap, length_fmap; exact Hl).
    intros Hin. apply list_elem_of_fmap in Hin as (t & Ht & Hin). apply elem_of_take in Hin as (i & Hin & _).
    unfold numbered, ds in Hin. rewrite list_lookup_imap, list_lookup_fmap in Hin.
    destruct (new !! i) as [v|]; [|done]. injection Hin as <-. cbn [future] in Ht. unfold driver in Ht. by destruct (device_type v).
Qed.

#[local] Existing Instance port_space_instance.
#[local] Existing Instance logged_instance.
#[local] Existing Instance logged_boot.
#[local] Existing Instance count_frames.
#[local] Existing Instance table_mapper.

Definition no_ports : PortSpace := {| ps_selected := 0; ps_conf := ∅; ps_written := [] |}.

Lemma no_ports_conf a : conf no_ports a = 0xFFFFFFFF.
Proof. cbn [conf port_space_instance no_ports ps_conf]. by rewrite lookup_empty. Qed.

(** No function answers on an empty configuration space. *)
Lemma no_ports_empty : enumerate no_ports = [].
Proof.
  apply elem_of_nil_inv. intros p (_ & _ & _ & Hp & _)%elem_of_enumerate. unfold present, vendor in Hp.
  rewrite no_ports_conf in Hp. discriminate Hp.
Qed.

Lemma no_ports_find {P F} `{Mapper P F} fuel off (s : kernel_machine PortSpace LoggedDevice P F) :
  k_ports s = no_ports → ∃ s', find_devices fuel off s = Ok (Some [], s').
Proof.
  intros Hp. unfold find_devices. destruct (scan_buses_spec (range 0 256) [] (k_ports s)) as (p' & _ & Hs).
  change ([] ++ _) with (enumerate (k_ports s)) in Hs. rewrite Hp in Hs at 2. rewrite no_ports_empty in Hs.
  exists (KernelMachine p' (k_devs s) (k_paging s) (k_ram s)).
  assert (Hn : ports_of Pcis.new s = Ok ([], KernelMachine p' (k_devs s) (k_paging s) (k_ram s))) by (unfold ports_of, Pcis.new; by rewrite Hs).
  by rewrite (M_bind_run _ _ _ _ _ Hn).
Qed.

(** There only the applications are spawned. *)
Lemma boot_spawns_drivers_witness :
  let s := KernelMachine no_ports (λ _, vdev example_machine) (paging example_machine) ∅ in
  ∃ s' ex, find_devices 9 0 s = Ok (Some [], s') ∧ spawn_all [] (ExecutorImpl.new 7) = Ok (tt, ex) ∧
    spawn_queue ex = [{| id := 7; future := Applications |}].
Proof.
  intros s.
  assert (E := no_ports_find 9 0 s eq_refl).
  destruct E as [s' E].
  destruct (boot_spawns_drivers 9 0 s s' [] 7 E ltac:(by split)) as (_ & _ & ex & E2 & E3 & _). exists s', ex.
  split; [exact E|]. split; [exact E2|exact E3].
Defined.
