(* ===== verification/Discovery.v ===== *)
(** Which devices the boot finds: the search of [kernel_main]
    ([bootloader/kernel/src/main.rs]) with [Pcis::new] and [Virtio::init] behind
    it, against the content of the configuration space. *)
From S2P Require Import Prelude Bytes Interfaces Pci Memory Virtio VirtioInit Boot.

(** ** The specification, on the configuration space *)
Section spec.
Context {S : Type} `{PciPorts S} `{X86Addr} (s : S) (phys_offset : Z) (p : Pci).

(** The base address register [idx]: an I/O range, a memory range whose address
    continues in the next register, or nothing. *)
Definition bar_value (idx : Z) : res Bar :=
  let d := bar_dword s p idx in
  if d mod 2 =? 1 then Ok (BarIo (4 * (d / 4)))
  else
    let high := if (d / 4 mod 2 =? 1) && (idx <? 5) then bar_dword s p (idx + 1) else 0 in
    let base := 16 * (d / 16) + 2 ^ 32 * high in
    if base =? 0 then Ok BarNone else a ← PhysAddr_new base; Ok (BarMm a).

Definition device_word : Z := cbyte s p 2 + 2 ^ 8 * cbyte s p 3.

(** The four structures that a driver needs. *)
Definition structures (c : Caps) : option (VirtioCap Z * VirtioCap Z * VirtioCap Z * VirtioCap (list Z)) :=
  common ← c_common c; device ← c_device c; notify ← c_notify c; pci_conf ← c_pci_conf c;
  Some (common, device, notify, pci_conf).

(** A function of one of the two kinds, with its structures in its capability
    list. *)
Definition description : option (DeviceType * (VirtioCap Z * VirtioCap Z * VirtioCap Z * VirtioCap (list Z))) :=
  ty ← device_id_to_type (device_word - 0x1040);
  match mapM bar_value (range 0 6), nodes s p 256 (cbyte s p 0x34) with
  | Ok bars, Some l =>
      match findings phys_offset p bars s l with
      | Ok fs => found ← structures (caps_of fs); Some (ty, found)
      | Panic _ => None
      end
  | _, _ => None
  end.

(** A device that the kernel drives. *)
Definition drivable : option (DeviceType * (VirtioCap Z * VirtioCap Z * VirtioCap Z * VirtioCap (list Z))) :=
  if vendor s (bus p) (slot p) (func p) =? VIRTIO_VENDOR_ID then description else None.
End spec.

(** What the kernel keeps of a device it drives. *)
Definition kept (v : Virtio) : Pci * (DeviceType * (VirtioCap Z * VirtioCap Z * VirtioCap Z * VirtioCap (list Z))) :=
  (pci v, (device_type v, (common v, device v, notify v, pci_conf v))).

(** ** The reads *)
Section reads.
Context {S : Type} `{PciPorts S} `{X86Addr} (phys_offset : Z) (p : Pci).
Implicit Types (s : S).

(** A computation that reads [r] of the configuration space of [s0]. *)
Definition reads {A} s0 (m : M S A) (r : res A) : Prop := ∀ s1, unchanged s0 s1 →
  match r with
  | Ok a => ∃ s2, m s1 = Ok (a, s2) ∧ unchanged s0 s2
  | Panic e => m s1 = Panic e
  end.

Lemma get_bar_reads s0 idx : 0 ≤ idx ≤ 5 → reads s0 (PciDev.get_bar p idx) (bar_value s0 p idx).
Proof.
  intros Hi s1 Hu. unfold bar_value. assert (bar_dword s1 p = bar_dword s0 p) as Hd by (unfold bar_dword; by rewrite (proj1 Hu)).
  rewrite <-Hd. destruct (Z.eqb_spec (bar_dword s1 p idx mod 2) 1) as [H1|H1].
  - destruct (get_bar_io s1 p idx Hi H1) as (s2 & E & Hu2). exists s2. split; [done|by eapply unchanged_trans].
  - assert (Hev : bar_dword s1 p idx mod 2 = 0) by (pose proof (Z.mod_pos_bound (bar_dword s1 p idx) 2); lia).
    destruct (get_bar_mem s1 p idx Hi Hev) as (s2 & Hu2 & E). rewrite E.
    assert (unchanged s0 s2) by (by eapply unchanged_trans).
    set (base := _ + _). destruct (base =? 0); [by exists s2|]. unfold mbind, M_bind, lift.
    destruct (PhysAddr_new base); cbn; [by exists s2|done].
Qed.

Lemma read_bars_reads s0 idxs : (∀ i, i ∈ idxs → 0 ≤ i ≤ 5) → reads s0 (read_bars p idxs) (mapM (bar_value s0 p) idxs).
Proof.
  induction idxs as [|i idxs IH]; intros Hi s1 Hu; [by exists s1|]. cbn [read_bars mapM].
  pose proof (get_bar_reads s0 i (Hi i ltac:(set_solver)) s1 Hu) as Hb.
  destruct (bar_value s0 p i) as [b|e]; cbn [mbind res_bind].
  - destruct Hb as (s2 & E & Hu2). rewrite (M_bind_run _ _ _ _ _ E).
    pose proof (IH ltac:(set_solver) s2 Hu2) as Hr. destruct (mapM _ idxs) as [bs|e]; cbn [mbind res_bind].
    + destruct Hr as (s3 & E3 & Hu3). rewrite (M_bind_run _ _ _ _ _ E3). by exists s3.
    + unfold mbind, M_bind. by rewrite Hr.
  - unfold mbind, M_bind. by rewrite Hb.
Qed.
End reads.

(** ** One function *)
Section device.
Context {S D P F : Type} `{PciPorts S} `{X86Addr} `{VirtioDevice D} `{!VirtioBoot D} `{Mapper P F}.
Implicit Types (m : machine S D P F).

(** Setting a device up leaves the configuration space alone. *)
Lemma keeps_set f v : keeps (ports (S:=S) (D:=D) (P:=P) (F:=F)) (set f v).
Proof. unfold set. keeps. Qed.
Lemma keeps_on_paging {A} (a : M (P * F) A) : keeps (ports (S:=S) (D:=D)) (on_paging a).
Proof. intros m b m' E. unfold on_paging in E. apply bind_ok in E as ([x q] & _ & E). by injection E as _ <-. Qed.
Hint Resolve keeps_set keeps_on_paging : keeps.
Lemma keeps_new_page : keeps (ports (S:=S) (D:=D) (P:=P) (F:=F)) new_page.
Proof. unfold new_page. keeps. Qed.
Lemma keeps_or_status bit : keeps (ports (S:=S) (D:=D) (P:=P) (F:=F)) (or_status bit).
Proof. unfold or_status, cfg_now. keeps. Qed.
Hint Resolve keeps_new_page keeps_or_status : keeps.
Lemma keeps_init_queue q : keeps (ports (S:=S) (D:=D) (P:=P) (F:=F)) (init_queue q).
Proof. unfold init_queue, cfg_now, init_desc, write_ram. keeps. Qed.
Hint Resolve keeps_init_queue : keeps.
Lemma keeps_init_queues qs : keeps (ports (S:=S) (D:=D) (P:=P) (F:=F)) (init_queues qs).
Proof. induction qs as [|q qs IH]; cbn [init_queues]; keeps. Qed.
Hint Resolve keeps_init_queues : keeps.
Lemma keeps_init_device ty : keeps (ports (S:=S) (D:=D) (P:=P) (F:=F)) (init_device ty).
Proof. unfold init_device, cfg_now, input_name. keeps. Qed.
Hint Resolve keeps_init_device : keeps.

Lemma on_ports_ok {A} (a : M S A) m x m' :
  on_ports a m = Ok (x, m') → ∃ s', a (ports m) = Ok (x, s') ∧ m' = Machine s' (vdev m) (paging m) (vram m).
Proof. unfold on_ports. intros ([y q] & E & E')%bind_ok. injection E' as <- <-. by exists q. Qed.

Lemma config_word16 s0 s1 p off :
  unchanged s0 s1 → 0 ≤ off < 256 → off mod 2 = 0 →
  ∃ s2, PciDev.config_read_u16 p off s1 = Ok (cbyte s0 p off + 2 ^ 8 * cbyte s0 p (off + 1), s2) ∧ unchanged s0 s2.
Proof.
  intros Hu Ho Hev. destruct (config_read_u16_conf (bus p) (slot p) (func p) off s1 Ho) as (s2 & E & Hu2).
  exists s2. split; [|by eapply unchanged_trans]. unfold PciDev.config_read_u16. rewrite E, word_of_bytes by done.
  replace (2 * (off / 2)) with off by lia. unfold cbyte, config_byte. rewrite (proj1 Hu), !wrap_small by (unfold fits; lia). done.
Qed.

Lemma init_finds s0 fuel phys_offset p m o m' :
  unchanged s0 (ports m) → init fuel phys_offset p m = Ok (Some o, m') →
  unchanged s0 (ports m') ∧
  (λ k, (p, k)) <$> description s0 phys_offset p = kept <$> o ∧
  (o = None → vdev m' = vdev m) ∧
  ∀ v, o = Some v → Virtio.queue_select v = 0 ∧ last_used_idx v = replicate MAX_NUM_QUEUE 65535.
Proof.
  intros Hu E. unfold init in E. unfold description.
  apply M_bind_ok in E as (w & m1 & (s1 & Ew & ->)%on_ports_ok & E).
  destruct (config_word16 s0 (ports m) p 2 Hu) as (s1' & Ew' & Hu1); [lia|done|].
  change (reg_u8 PCIDeviceID) with 2 in Ew. rewrite Ew' in Ew. injection Ew as <- <-.
  change (cbyte s0 p 2 + 2 ^ 8 * cbyte s0 p (2 + 1)) with (device_word s0 p) in E.
  destruct (device_id_to_type (device_word s0 p - 0x1040)) as [ty|]; cbn [mbind option_bind].
  2: { injection E as <- <-. done. }
  apply M_bind_ok in E as (bars & m2 & (s2 & Eb & ->)%on_ports_ok & E). cbn [ports vdev paging vram] in *.
  pose proof (read_bars_reads p s0 (range 0 6)) as Hb. specialize (Hb ltac:(intros i Hi%elem_of_range; lia) s1' Hu1).
  destruct (mapM (bar_value s0 p) (range 0 6)) as [bs|]; [|congruence].
  destruct Hb as (s2' & Eb' & Hu2). rewrite Eb' in Eb. injection Eb as <- <-.
  apply M_bind_ok in E as (ptr & m3 & (s3 & Ep & ->)%on_ports_ok & E). cbn [ports vdev paging vram] in *.
  destruct (pci_read8 p s0 s2' 0x34 Hu2) as (s3' & Ep' & Hu3). change (reg_u8 PCICapabilitiesPointer) with (wrap 8 0x34) in Ep.
  rewrite Ep' in Ep. injection Ep as <- <-.
  apply M_bind_ok in E as (oc & m4 & (s4 & Ec & ->)%on_ports_ok & E). cbn [ports vdev paging vram] in *.
  pose proof (cbyte_range s0 p 0x34) as Hr.
  pose proof (walk_caps_run phys_offset p bs s0 fuel s3' (cbyte s0 p 0x34) [] Hu3 Hr) as Hw. cbn [foldl app] in Hw.
  destruct oc as [c|]; [|done].
  destruct (nodes s0 p fuel (cbyte s0 p 0x34)) as [l|] eqn:En; [|by apply Hw in Ec].
  apply nodes_256 in En; [|done]. rewrite En.
  destruct (findings phys_offset p bs s0 l) as [fs|]; [|congruence].
  destruct Hw as (s4' & Ec' & Hu4). rewrite Ec' in Ec. injection Ec as <- <-. rewrite caps_of_foldl in E.
  unfold structures. destruct (caps_of fs) as [[cc|] [cd|] [cn|] [cp|]]; cbn [mbind option_bind c_common c_device c_notify c_pci_conf fmap option_fmap option_map];
    try (injection E as <- <-; done).
  apply M_bind_ok in E as (qs & m5 & E5 & E). apply M_bind_ok in E as (u & m6 & E6 & E). injection E as <- <-.
  apply keeps_init_device in E5. apply keeps_set in E6. cbn [ports] in E5. rewrite E6, E5. split; [done|]. split; [done|].
  split; [done|]. by intros v [= <-].
Qed.
End device.

(** ** The search *)
Section search.
Context {S D P F : Type} `{PciPorts S} `{X86Addr} `{VirtioDevice D} `{!VirtioBoot D} `{Mapper P F}.
Implicit Types (s : kernel_machine S D P F).

Lemma ports_of_ok {A} (a : M S A) s x s' :
  ports_of a s = Ok (x, s') → ∃ q, a (k_ports s) = Ok (x, q) ∧ s' = KernelMachine q (k_devs s) (k_paging s) (k_ram s).
Proof. unfold ports_of. intros ([y q] & E & E')%bind_ok. injection E' as <- <-. by exists q. Qed.

(** A read of the log line. *)
Lemma log_read {A} (a : M S A) (s0 : S) s x s' :
  (∀ q : S, ∃ y q', a q = Ok (y, q') ∧ unchanged q q') → unchanged s0 (k_ports s) → ports_of a s = Ok (x, s') →
  unchanged s0 (k_ports s') ∧ k_devs s' = k_devs s.
Proof.
  intros Ha Hu (q & E & ->)%ports_of_ok. destruct (Ha (k_ports s)) as (y & s2 & E2 & Hu2). rewrite E2 in E.
  injection E as -> ->. split; [|done]. by eapply unchanged_trans.
Qed.

Lemma reads16 p off (s1 : S) : 0 ≤ off < 256 → ∃ y (s2 : S), PciDev.config_read_u16 p off s1 = Ok (y, s2) ∧ unchanged s1 s2.
Proof. intros Ho. destruct (config_read_u16_conf (bus p) (slot p) (func p) off s1 Ho) as (s2 & E & Hu). by eexists _, s2. Qed.
Lemma reads8 p off (s1 : S) : ∃ y (s2 : S), PciDev.config_read_u8 p off s1 = Ok (y, s2) ∧ unchanged s1 s2.
Proof. destruct (config_read_u8_conf (bus p) (slot p) (func p) off s1) as (s2 & E & Hu). by eexists _, s2. Qed.

Lemma probe_finds (s0 : S) fuel phys_offset p s o s' :
  unchanged s0 (k_ports s) → probe fuel phys_offset p s = Ok (Some o, s') →
  unchanged s0 (k_ports s') ∧
  (λ k, (p, k)) <$> drivable s0 phys_offset p = kept <$> o ∧
  (∀ q, o = None ∨ q ≠ p → k_devs s' q = k_devs s q) ∧
  ∀ v, o = Some v → Virtio.queue_select v = 0 ∧ last_used_idx v = replicate MAX_NUM_QUEUE 65535.
Proof.
  intros Hu E. unfold probe in E. unfold drivable.
  apply M_bind_ok in E as (w1 & s1 & E1 & E).
  destruct (log_read _ s0 _ _ _ (λ q, reads16 p (reg_u8 PCIStatus) q ltac:(done)) Hu E1) as [Hu1 Hd1]. clear E1.
  apply M_bind_ok in E as (w2 & s2 & E2 & E).
  destruct (log_read _ s0 _ _ _ (λ q, reads16 p (reg_u8 PCIVendorID) q ltac:(done)) Hu1 E2) as [Hu2 Hd2].
  assert (w2 = vendor s0 (bus p) (slot p) (func p)) as ->.
  { apply ports_of_ok in E2 as (q & E2 & _). destruct (probe_vendor (bus p) (slot p) (func p) (k_ports s1)) as (q' & Ev & _).
    unfold PciDev.config_read_u16 in E2. rewrite Ev in E2. injection E2 as <- _. unfold vendor. by rewrite (proj1 Hu1). }
  apply M_bind_ok in E as (w3 & s3 & E3 & E).
  destruct (log_read _ s0 _ _ _ (λ q, reads16 p (reg_u8 PCIDeviceID) q ltac:(done)) Hu2 E3) as [Hu3 Hd3].
  apply M_bind_ok in E as (w4 & s4 & E4 & E).
  destruct (log_read _ s0 _ _ _ (reads8 p (reg_u8 PCIInterruptLine)) Hu3 E4) as [Hu4 Hd4].
  apply M_bind_ok in E as (w5 & s5 & E5 & E).
  destruct (log_read _ s0 _ _ _ (reads8 p (reg_u8 PCIInterruptPIN)) Hu4 E5) as [Hu5 Hd5].
  assert (Hds : k_devs s5 = k_devs s) by congruence. clear E2 E3 E4 E5 Hd1 Hd2 Hd3 Hd4 Hd5.
  destruct (vendor s0 _ _ _ =? VIRTIO_VENDOR_ID).
  - unfold with_device in E. apply bind_ok in E as ([a t] & Ei & E). injection E as -> <-.
    destruct (init_finds s0 fuel phys_offset p (Machine (k_ports s5) (k_devs s5 p) (k_paging s5) (k_ram s5)) o t Hu5 Ei) as (Ht & Hk & Hn & Hv). cbn [k_ports k_devs]. split_and!; try done.
    intros q Hq. destruct (decide (q = p)) as [->|]; [|by rewrite Hds].
    destruct Hq as [->|]; [|done]. rewrite Hn by done. cbn. by rewrite Hds.
  - injection E as <- <-. split_and!; try done. intros q _. by rewrite Hds.
Qed.

Lemma probe_all_finds (s0 : S) fuel phys_offset devs acc s vs s' :
  unchanged s0 (k_ports s) → probe_all fuel phys_offset devs acc s = Ok (Some vs, s') →
  unchanged s0 (k_ports s') ∧ ∃ new, vs = acc ++ new ∧
    kept <$> new = omap (λ p, (λ k, (p, k)) <$> drivable s0 phys_offset p) devs ∧
    (∀ q, q ∉ Virtio.pci <$> new → k_devs s' q = k_devs s q) ∧
    Forall (λ v, Virtio.queue_select v = 0 ∧ last_used_idx v = replicate MAX_NUM_QUEUE 65535) new.
Proof.
  revert acc s; induction devs as [|p devs IH]; intros acc s Hu E.
  - injection E as <- <-. split; [done|]. exists []. by rewrite app_nil_r.
  - apply M_bind_ok in E as (o & s1 & Ep & E). destruct o as [o|]; [|done].
    destruct (probe_finds s0 fuel phys_offset p s o s1 Hu Ep) as (Hu1 & Hk & Hq & Hv). cbn [omap list_omap]. rewrite Hk.
    destruct o as [v|]; cbn [fmap option_fmap option_map].
    + destruct (IH _ _ Hu1 E) as (Hu' & new & -> & Hkn & Hqn & Hvn). split; [done|]. exists (v :: new).
      rewrite <-app_assoc. cbn [fmap list_fmap]. split_and!; [done|by rewrite <-Hkn| |].
      * intros q Hn. apply not_elem_of_cons in Hn as Hn'. rewrite Hqn by apply Hn'. apply Hq. right. intros ->. apply Hn.
        assert (Virtio.pci v = p) as -> by (destruct (drivable _ _ p); [by injection Hk|done]). left.
      * constructor; [by apply Hv|done].
    + destruct (IH _ _ Hu1 E) as (Hu' & new & -> & Hkn & Hqn & Hvn). split; [done|]. exists new. split_and!; try done.
      intros q Hn. rewrite Hqn by done. apply Hq. by left.
Qed.
End search.

Lemma pcis_new_run {S} `{PciPorts S} (s : S) : ∃ s', Pcis.new s = Ok (enumerate s, s') ∧ unchanged s s'.
Proof. destruct (scan_buses_spec (range 0 256) [] s) as (s' & Hu & Hs). exists s'. exact (conj Hs Hu). Qed.

(** C22: the boot finds exactly the devices it can drive. When the search returns,
    the kernel's devices are, in bus, slot and function order, those functions on
    the buses whose vendor is virtio's, whose identifier is one of the two kinds and
    whose capability list describes all four structures, each with its kind and
    with the structures of the configuration space (the last of each kind in the
    list, at the address its base address register gives); each starts on its first
    queue with every ring at its origin. The configuration space is as it was, and
    no register of any other function was touched. *)
Theorem boot_finds_devices {S D P F} `{PciPorts S} `{X86Addr} `{VirtioDevice D} `{!VirtioBoot D} `{Mapper P F}
    fuel phys_offset (s s' : kernel_machine S D P F) vs :
  find_devices fuel phys_offset s = Ok (Some vs, s') →
  kept <$> vs = omap (λ p, (λ k, (p, k)) <$> drivable (k_ports s) phys_offset p) (enumerate (k_ports s)) ∧
  Forall (λ v, Virtio.queue_select v = 0 ∧ last_used_idx v = replicate 256 65535) vs ∧
  unchanged (k_ports s) (k_ports s') ∧
  ∀ q, q ∉ Virtio.pci <$> vs → k_devs s' q = k_devs s q.
Proof.
  intros E. unfold find_devices in E. apply M_bind_ok in E as (devs & s1 & (q & E1 & ->)%ports_of_ok & E).
  destruct (pcis_new_run (k_ports s)) as (q' & Es & Hu). rewrite Es in E1. injection E1 as <- <-.
  destruct (probe_all_finds (k_ports s) fuel phys_offset _ [] (KernelMachine q' _ _ _) vs s' Hu E)
    as (Hu' & new & -> & Hk & Hq & Hv). done.
Qed.

(** *** The claim at a concrete input: one input device, at 0:3.0 *)
Definition one_device_words : list Z :=
  [0x10521af4; 0; 0; 0; 0xfe000000; 0; 0; 0;
   0; 0; 0; 0; 0; 0x40; 0; 0x10b;
   0x1105009; 0; 0; 0x1000; 0x2146409; 0; 0x3000; 0x1000;
   4; 0x4107409; 0; 0x2000; 0x1000; 0x5140009; 0; 0;
   0; 0].
Definition one_device (a : Z) : Z :=
  let off := a - 0x80001800 in
  if (0 <=? off) && (off <? 0x88) then nth (Z.to_nat (off / 4)) one_device_words 0 else 0xFFFFFFFF.

(** Ports in front of it: the dword selected, and the writes. *)
Program Definition one_device_ports : PciPorts (Z * list (Z * Z)) := {|
  port_write32 port v s := Ok (tt, if port =? 0xCF8 then (v, s.2) else (s.1, s.2 ++ [(s.1, v)]));
  port_read32 port s := Ok (one_device s.1 mod 2 ^ 32, s);
  conf s a := one_device a mod 2 ^ 32;
  written := snd;
  selected := fst
|}.
Next Obligation. intros. apply Z.mod_pos_bound. lia. Qed.
Next Obligation. intros. simpl. eauto. Qed.
Next Obligation. intros. simpl. eauto. Qed.
Next Obligation. intros. simpl. eauto. Qed.
#[local] Existing Instance one_device_ports.
#[local] Existing Instance x86_addr_instance.
#[local] Existing Instance logged_instance.
#[local] Existing Instance logged_boot.
#[local] Existing Instance count_frames.
#[local] Existing Instance table_mapper.

Definition input_pci : Pci := {| bus := 0; slot := 3; func := 0 |}.

Lemma one_device_vendor (s : Z * list (Z * Z)) b sl f :
  0 ≤ b < 256 → 0 ≤ sl < 32 → 0 ≤ f < 8 → vendor s b sl f = if bool_decide (b = 0 ∧ sl = 3 ∧ f = 0) then 0x1af4 else 0xFFFF.
Proof.
  intros Hb Hs Hf. unfold vendor. rewrite config_word_sum by lia. change (4 * (0 / 4)) with 0.
  case_bool_decide as Hd; [by destruct Hd as (-> & -> & ->); vm_compute|].
  cbn [conf one_device_ports]. unfold one_device. set (w := _ + _).
  destruct (Z.leb_spec 0 (w - 0x80001800)), (Z.ltb_spec (w - 0x80001800) 0x88); cbn [andb]; (lia || done).
Qed.

(** A list of lists of which one is not empty. *)
Lemma bind_range_one {A} (f : Z → list A) n i :
  0 ≤ i < n → (∀ j, 0 ≤ j < n → j ≠ i → f j = []) → range 0 n ≫= f = f i.
Proof.
  intros Hi Hf. assert (∀ l, (∀ j, j ∈ l → f j = []) → l ≫= f = []) as Hnil.
  { intros l Hl. induction l as [|j l IH]; [done|]. rewrite bind_cons, Hl, IH by set_solver. done. }
  unfold range. replace (n - 0) with (i + (1 + (n - i - 1))) by lia. rewrite !seqZ_app by lia.
  rewrite !bind_app, (Hnil (seqZ 0 i)), (Hnil (seqZ _ (n - i - 1))).
  - rewrite seqZ_cons, seqZ_nil, Z.add_0_l by lia. cbn [mbind list_bind app]. by rewrite !app_nil_r.
  - intros j Hj%elem_of_seqZ. apply Hf; lia.
  - intros j Hj%elem_of_seqZ. apply Hf; lia.
Qed.

Lemma one_device_slot (s : Z * list (Z * Z)) b sl :
  0 ≤ b < 256 → 0 ≤ sl < 32 → slot_functions s b sl = if bool_decide (b = 0 ∧ sl = 3) then [input_pci] else [].
Proof.
  intros Hb Hs. unfold slot_functions, single, present. rewrite one_device_vendor by lia.
  case_bool_decide as Hd1; case_bool_decide as Hd2; try (exfalso; lia).
  - destruct Hd2 as [-> ->]. by vm_compute.
  - cbn [Z.eqb Pos.eqb negb andb]. destruct (filter _ (range 0 8)) as [|f l] eqn:Ef; [done|]. exfalso.
    assert (f ∈ f :: l) as Hf by left. rewrite <-Ef in Hf. apply list_elem_of_filter in Hf as [Hp Hf%elem_of_range].
    unfold present in Hp. rewrite one_device_vendor in Hp by lia. case_bool_decide; [lia|done].
Qed.

Lemma one_device_listed (s : Z * list (Z * Z)) : enumerate s = [input_pci].
Proof.
  unfold enumerate. rewrite (bind_range_one _ 256 0); [|lia|].
  - unfold bus_functions. rewrite (bind_range_one _ 32 3); [|lia|].
    + by rewrite one_device_slot by lia.
    + intros j Hj Hne. rewrite one_device_slot by lia. rewrite bool_decide_false by lia. done.
  - intros b Hb Hne. unfold bus_functions. rewrite (bind_range_one _ 32 0); [|lia|].
    + rewrite one_device_slot by lia. by rewrite bool_decide_false by lia.
    + intros j Hj _. rewrite one_device_slot by lia. by rewrite bool_decide_false by lia.
Qed.

Definition one_device_kernel (q : Z * list (Z * Z)) : kernel_machine (Z * list (Z * Z)) LoggedDevice (gmap Z Z) Z :=
  KernelMachine q (λ _, vdev example_machine) (paging example_machine) ∅.

Lemma one_device_probed q : ∃ v s', probe_all 256 0 [input_pci] [] (one_device_kernel q) = Ok (Some [v], s').
Proof.
  assert (match probe_all 256 0 [input_pci] [] (one_device_kernel q) with Ok (Some [_], _) => true | _ => false end = true) as Hb
    by (vm_compute; reflexivity).
  destruct (probe_all 256 0 [input_pci] [] (one_device_kernel q)) as [[[[|v [|? ?]]|] s']|]; [discriminate Hb|by exists v, s'|discriminate Hb..].
Qed.

Definition input_found : DeviceType * (VirtioCap Z * VirtioCap Z * VirtioCap Z * VirtioCap (list Z)) :=
  (Virtio.Input, ({| cap := 0xFE000000; bar := BarMm 0xFE000000; offset := 0; length_ := 0x1000 |},
    {| cap := 0xFE002000; bar := BarMm 0xFE000000; offset := 0x2000; length_ := 0x1000 |},
    {| cap := 4; bar := BarMm 0xFE000000; offset := 0x3000; length_ := 0x1000 |},
    {| cap := [0; 0; 0; 0]; bar := BarMm 0xFE000000; offset := 0; length_ := 0 |})).

Lemma one_device_drivable s : drivable s 0 input_pci = Some input_found.
Proof. vm_compute. reflexivity. Qed.

Lemma one_device_found : ∃ v s', find_devices 256 0 (one_device_kernel (0, [])) = Ok (Some [v], s').
Proof.
  destruct (pcis_new_run (0, [] : list (Z * Z))) as (q' & Es & _). rewrite one_device_listed in Es.
  destruct (one_device_probed q') as (v & s' & E). exists v, s'. unfold find_devices.
  rewrite (M_bind_run _ _ _ [input_pci] (one_device_kernel q')); [exact E|]. unfold ports_of. cbn [k_ports one_device_kernel].
  by rewrite Es.
Qed.

Lemma boot_finds_devices_witness :
  ∃ v s', find_devices 256 0 (one_device_kernel (0, [])) = Ok (Some [v], s') ∧ kept v = (input_pci, input_found).
Proof.
  destruct one_device_found as (v & s' & E). exists v, s'. split; [exact E|].
  pose proof (proj1 (boot_finds_devices 256 0 _ s' [v] E)) as Hk.
  change (k_ports (one_device_kernel (0, []))) with (0, [] : list (Z * Z)) in Hk.
  rewrite one_device_listed in Hk. cbn [omap list_omap] in Hk. rewrite one_device_drivable in Hk.
  cbn [fmap list_fmap option_fmap option_map] in Hk. exact (f_equal (hd (kept v)) Hk).
Defined.
