(* ===== verification/KernelMain.v ===== *)
(** [kernel_main] ([bootloader/kernel/src/main.rs]) from its first line to
    [executor.run()]: the other components put together in the order of the code,
    the statics they fill on the way, and the interrupts that may arrive from the
    moment they are enabled. *)
From S2P Require Import Prelude Bytes Interfaces Pci IoApic Memory Virtio VirtioInit Executor LocalApic Interrupts Gdt Framebuffer Processor Logger Boot.

(** ** What the kernel is given *)

(** [BootInfo] of the [bootloader_api] crate: the bytes of the framebuffer with
    their description, where physical memory is mapped, the memory regions and the
    address of the ACPI tables. *)
Record BootInfo := {
  framebuffer : option (list Z * FrameBufferInfo);
  physical_memory_offset : option Z;
  memory_regions : list MemoryRegion;
  rsdp_addr : option Z
}.

(** The [acpi] crate: it reads the tables through the window that its handler
    gives it. *)
Record Apic := { local_apic_address : Z; io_apics : list IoApicInfo }.
Inductive InterruptModel := UnknownModel | ApicModel (apic : Apic).
Record ProcessorInfo := { application_processors : list Z }.
Record PlatformInfo := { interrupt_model : InterruptModel; processor_info : option ProcessorInfo }.

Class AcpiCrate := {
  AcpiTables : Type;
  from_rsdp : (Z → Z → res (Z * Z * Z)) → mem → Z → option AcpiTables;
  hpet_info : AcpiTables → option Z;
  platform_info : AcpiTables → option PlatformInfo
}.

(** [CpuId::get_tsc_info] of the [raw_cpuid] crate. *)
Record TscInfo := { nominal_frequency : Z; tsc_frequency : option Z }.

(** ** The kernel: the processor, the statics, the devices and memory *)
Record kernel (T D S V P : Type) := Kernel {
  segs : segments T;
  idtr : option (gmap Z Gate);
  interrupts_enabled : bool;
  apic_base : Z;
  pic_log : list (Z * Z);
  irq : istate D;
  log : LogState;
  writer : option FrameBufferWriter;
  VIRTUAL_MAPPING_OFFSET : Z;
  MAPPER : option P;
  FRAME_ALLOCATOR : option BootInfoFrameAllocator;
  ALLOCATOR : option (Z * Z);
  hw_ports : S;
  hw_devs : Pci → V;
  ram : mem
}.
Arguments Kernel {T D S V P} _ _ _ _ _ _ _ _ _ _ _ _ _ _ _.
Arguments segs {T D S V P} _. Arguments idtr {T D S V P} _. Arguments interrupts_enabled {T D S V P} _.
Arguments apic_base {T D S V P} _. Arguments pic_log {T D S V P} _. Arguments irq {T D S V P} _.
Arguments log {T D S V P} _. Arguments writer {T D S V P} _. Arguments VIRTUAL_MAPPING_OFFSET {T D S V P} _.
Arguments MAPPER {T D S V P} _. Arguments FRAME_ALLOCATOR {T D S V P} _. Arguments ALLOCATOR {T D S V P} _.
Arguments hw_ports {T D S V P} _. Arguments hw_devs {T D S V P} _. Arguments ram {T D S V P} _.

Section main.
Context {T D S V P : Type} `{GdtCrate T} `{Mmio D} `{X86Addr} `{PciPorts S} `{VirtioDevice V} `{!VirtioBoot V}
  `{!Mapper P BootInfoFrameAllocator} `{HugeMapper (P * BootInfoFrameAllocator)} `{AcpiCrate}.
Abbreviation kern := (kernel T D S V P).
Implicit Types k : kern.

Definition set_tables s i k : kern := Kernel s i (interrupts_enabled k) (apic_base k) (pic_log k) (irq k) (log k) (writer k)
  (VIRTUAL_MAPPING_OFFSET k) (MAPPER k) (FRAME_ALLOCATOR k) (ALLOCATOR k) (hw_ports k) (hw_devs k) (ram k).
Definition set_apic (c : cpu D) (i : istate D) k : kern := Kernel (segs k) (idtr k) (interrupts_enabled k) (msr_apic_base c) (port_log c)
  (IState (regs c) (local_apic i) (io_apic_0 i) (time_ms i) (wakers i) (woken i)) (log k) (writer k)
  (VIRTUAL_MAPPING_OFFSET k) (MAPPER k) (FRAME_ALLOCATOR k) (ALLOCATOR k) (hw_ports k) (hw_devs k) (ram k).
Definition set_enabled b k : kern := Kernel (segs k) (idtr k) b (apic_base k) (pic_log k) (irq k) (log k) (writer k)
  (VIRTUAL_MAPPING_OFFSET k) (MAPPER k) (FRAME_ALLOCATOR k) (ALLOCATOR k) (hw_ports k) (hw_devs k) (ram k).
Definition set_log l w k : kern := Kernel (segs k) (idtr k) (interrupts_enabled k) (apic_base k) (pic_log k) (irq k) l w
  (VIRTUAL_MAPPING_OFFSET k) (MAPPER k) (FRAME_ALLOCATOR k) (ALLOCATOR k) (hw_ports k) (hw_devs k) (ram k).
Definition set_paging off p f k : kern := Kernel (segs k) (idtr k) (interrupts_enabled k) (apic_base k) (pic_log k) (irq k) (log k)
  (writer k) off p f (ALLOCATOR k) (hw_ports k) (hw_devs k) (ram k).
Definition set_heap h k : kern := Kernel (segs k) (idtr k) (interrupts_enabled k) (apic_base k) (pic_log k) (irq k) (log k)
  (writer k) (VIRTUAL_MAPPING_OFFSET k) (MAPPER k) (FRAME_ALLOCATOR k) h (hw_ports k) (hw_devs k) (ram k).
Definition set_devices s v r k : kern := Kernel (segs k) (idtr k) (interrupts_enabled k) (apic_base k) (pic_log k) (irq k) (log k)
  (writer k) (VIRTUAL_MAPPING_OFFSET k) (MAPPER k) (FRAME_ALLOCATOR k) (ALLOCATOR k) s v r.

(** Views of the state for the components. *)
Definition on_cpu {A} (m : M (cpu D) A) : M kern A := λ k,
  '(a, c) ← m (Cpu (mmio (irq k)) (apic_base k) (pic_log k)); mret (a, set_apic c (irq k) k).
Definition on_mmio {A} (m : M D A) : M kern A := on_cpu (LocalApicImpl.on_regs m).
Definition on_irq {A} (m : M (istate D) A) : M kern A := λ k,
  '(a, i) ← m (irq k); mret (a, set_apic (Cpu (mmio i) (apic_base k) (pic_log k)) i k).

(** [MAPPER.get().unwrap().lock()] and [FRAME_ALLOCATOR.get().unwrap().lock()], both
    released at the end; [get_unchecked] elsewhere in the boot is the same after
    [init_once]. *)
Definition with_mapper_framealloc {R} (f : M (P * BootInfoFrameAllocator) R) : M kern R := λ k,
  mapper ← unwrap (MAPPER k);
  frame_allocator ← unwrap (FRAME_ALLOCATOR k);
  '(r, (mapper, frame_allocator)) ← f (mapper, frame_allocator);
  mret (r, set_paging (VIRTUAL_MAPPING_OFFSET k) (Some mapper) (Some frame_allocator) k).

Definition on_devices {R} (m : M (kernel_machine S V P BootInfoFrameAllocator) R) : M kern R := λ k,
  mapper ← unwrap (MAPPER k);
  frame_allocator ← unwrap (FRAME_ALLOCATOR k);
  '(r, s) ← m (KernelMachine (hw_ports k) (hw_devs k) (mapper, frame_allocator) (ram k));
  mret (r, set_devices (k_ports s) (k_devs s) (k_ram s)
             (set_paging (VIRTUAL_MAPPING_OFFSET k) (Some (k_paging s).1) (Some (k_paging s).2) k)).

(** ** Interrupts

    A maskable interrupt waits while interrupts are disabled. Otherwise the
    processor enters the gate of its vector; without one it stops. *)
Definition interrupt (v : Z) : M kern unit := λ k,
  if interrupts_enabled k then
    match idtr k ≫= (.!! v) with
    | Some g => on_irq (InterruptsImpl.handle (handler g)) k
    | None => Panic (PExplicit "no gate")
    end
  else Ok (tt, k).

(** What arrives between two stages. The handlers touch the local APIC, the I/O
    APIC, the clock and the wakers, none of which a stage after [enable] works on, so
    an interrupt inside of a stage is one at its end; the lines that both write to
    the log do not get in each other's way ([Logger]). *)
Definition arrive (vectors : list Z) : M kern unit := for_each vectors interrupt.

(** ** The stages *)
Section stages.
(** The addresses of [TSS] and of the page tables, [OffsetPageTable::new] of the
    [x86_64] crate, and what the processor says of its clock. *)
Context (tss cr3 : Z) (OffsetPageTable_new : Z → Z → P) (get_tsc_info : option TscInfo).
Context (boot_info : BootInfo).

(** [gdt::init] and [interrupts::init_idt]. *)
Definition load_tables : M kern unit := λ k,
  '(_, s) ← Gdt.init tss (segs k);
  mret (tt, set_tables s (Some gates) k).

(** [init_logger]: the writer is made when the static is filled. *)
Definition start_log : M kern FrameBufferInfo := λ k,
  '(fbm, fbinfo) ← unwrap (framebuffer boot_info);
  w ← (match LOGGER (log k) with
       | Some _ => mret (writer k)
       | None => Some <$> FrameBufferWriterImpl.new fbm fbinfo
       end);
  '(_, l) ← Logger.init_logger boot_config.Trace true true (log k);
  mret (fbinfo, set_log l w k).

(** The two cells are filled once. *)
Definition start_paging : M kern unit := λ k,
  o ← unwrap (physical_memory_offset boot_info);
  off ← VirtAddr_new o;
  level_4_table ← active_level_4_table cr3 off;
  let mapper := OffsetPageTable_new level_4_table off in
  let frame_allocator := BootInfoFrameAllocatorImpl.init (memory_regions boot_info) in
  mret (tt, set_paging off (Some (default mapper (MAPPER k))) (Some (default frame_allocator (FRAME_ALLOCATOR k))) k).

Definition map_window : M kern (Z * Z) := λ k,
  with_mapper_framealloc (map_physical (VIRTUAL_MAPPING_OFFSET k)) k.

Definition start_heap : M kern unit :=
  r ← with_mapper_framealloc init_heap;
  match r with
  | inl h => modify (set_heap (Some h))
  | inr _ => lift (Panic PUnwrap)
  end.

(** The HPET is asked for and not used. *)
Definition read_acpi : M kern PlatformInfo := λ k,
  rsdp ← unwrap (rsdp_addr boot_info);
  acpi_tables ← unwrap (from_rsdp (map_physical_region (VIRTUAL_MAPPING_OFFSET k)) (ram k) rsdp);
  x ← unwrap (hpet_info acpi_tables);
  pi ← unwrap (platform_info acpi_tables);
  mret (pi, k).

(** [local_apic::cpuid] always answers. *)
Definition timer_frequency : res Z :=
  match get_tsc_info with
  | Some tsc => _ ← unwrap (tsc_frequency tsc); mret (nominal_frequency tsc)
  | None => mret 1000000000
  end.

Definition start_local_apic (apic : Apic) : M kern unit :=
  off ← gets VIRTUAL_MAPPING_OFFSET;
  cell ← gets (λ k, local_apic (irq k));
  a ← lift (PhysAddr_new (local_apic_address apic));
  lapic ← on_cpu (LocalApicImpl.init off cell a);
  on_irq (modify (λ i, IState (mmio i) (Some lapic) (io_apic_0 i) (time_ms i) (wakers i) (woken i))) ;;
  freq ← lift timer_frequency;
  on_mmio (LocalApicImpl.start_timer lapic freq).

Definition start_io_apic (io_apic : IoApicInfo) : M kern unit :=
  off ← gets VIRTUAL_MAPPING_OFFSET;
  cell ← gets (λ k, io_apic_0 (irq k));
  '(ioa, cell) ← lift (IoApicImpl.init off cell io_apic);
  on_irq (modify (λ i, IState (mmio i) (local_apic i) cell (time_ms i) (wakers i) (woken i))) ;;
  val ← on_mmio (IoApicImpl.read ioa IOAPICVER);
  on_mmio (IoApicImpl.setup ioa).

Definition start_interrupts (irqs : nat → list Z) (pi : PlatformInfo) : M kern unit :=
  match interrupt_model pi with
  | ApicModel apic =>
      start_local_apic apic ;; arrive (irqs 6%nat) ;;
      for_each (io_apics apic) start_io_apic ;; arrive (irqs 7%nat) ;;
      modify (set_enabled true)
  | UnknownModel => mret tt
  end.

(** [kernel_main] up to [executor.run]: first with interrupts disabled, and from the
    interrupt controllers on. [irqs n] are the interrupts that arrive after the
    [n]-th stage; a list of capabilities has at most 256 members. *)
Definition kernel_prepare (irqs : nat → list Z) : M kern (FrameBufferInfo * PlatformInfo) :=
  load_tables ;; arrive (irqs 0%nat) ;;
  fbinfo ← start_log; arrive (irqs 1%nat) ;;
  start_paging ;; arrive (irqs 2%nat) ;;
  map_window ;; arrive (irqs 3%nat) ;;
  start_heap ;; arrive (irqs 4%nat) ;;
  pi ← read_acpi; arrive (irqs 5%nat) ;;
  mret (fbinfo, pi).

Definition kernel_start (irqs : nat → list Z) (fbinfo : FrameBufferInfo) (pi : PlatformInfo) : M kern (option (FB * Executor BootTask)) :=
  start_interrupts irqs pi ;; arrive (irqs 8%nat) ;;
  proc_info ← lift (unwrap (processor_info pi));
  phys_offset ← gets VIRTUAL_MAPPING_OFFSET;
  virtio_devices ← on_devices (find_devices 256 phys_offset); arrive (irqs 9%nat) ;;
  match virtio_devices with
  | None => mret None
  | Some virtio_devices =>
      fb ← lift (FBImpl.new fbinfo); arrive (irqs 10%nat) ;;
      '(_, executor) ← lift (spawn_all virtio_devices (ExecutorImpl.new 0)); arrive (irqs 11%nat) ;;
      mret (Some (fb, executor))
  end.

Definition kernel_main (irqs : nat → list Z) : M kern (option (FB * Executor BootTask)) :=
  '(fbinfo, pi) ← kernel_prepare irqs; kernel_start irqs fbinfo pi.
End stages.
End main.

(** ** Properties *)

(** From every state. *)
Definition total {S A} (m : M S A) : Prop := runs (λ _, True) m (λ _ _, True).

Lemma total_bind {S A B} (m : M S A) (k : A → M S B) : total m → (∀ a, total (k a)) → total (m ≫= k).
Proof. intros Hm Hk. eapply runs_bind; [exact Hm|]. intros a. apply Hk. Qed.
Lemma total_ret {S A} (a : A) : total (S:=S) (mret a).
Proof. intros s _. by exists a, s. Qed.
Lemma total_lift {S A} (r : res A) a : r = Ok a → total (S:=S) (lift r).
Proof. intros -> s _. by exists a, s. Qed.
Lemma total_run {S A} (m : M S A) s : total m → ∃ a s', m s = Ok (a, s').
Proof. intros Hm. destruct (Hm s I) as (a & s' & E & _). eauto. Qed.

Create HintDb total.
#[local] Hint Resolve total_ret : total.
Ltac total := repeat first [solve [auto with total] | apply total_bind; [|intros ?]].

(** *** Registers always answer *)
Section registers.
Context {D : Type} `{Mmio D} `{X86Addr}.

Lemma load_total a : total (mmio_load (D:=D) a).
Proof. intros d _. destruct (mmio_load_ok a d) as (v & d' & E & _). eauto. Qed.
Lemma store_total a v : total (mmio_store (D:=D) a v).
Proof. intros d _. destruct (mmio_store_ok a v d) as (d' & E & _). eauto. Qed.
#[local] Hint Resolve load_total store_total : total.

Lemma start_timer_total a freq : total (S:=D) (LocalApicImpl.start_timer a freq).
Proof. unfold LocalApicImpl.start_timer. total; apply store_total. Qed.

Lemma eoi_total a : total (LocalApicImpl.eoi (D:=D) a).
Proof. apply store_total. Qed.

(** Where both registers of an I/O APIC are addresses. *)
Definition reachable (a : IoApic) : Prop := 0 ≤ virt_address a < 2 ^ 47 - 0x10.

Context (a : IoApic) (Ha : reachable a).

Lemma data_window : VirtAddr_add (virt_address a) 0x10 = Ok (virt_address a + 0x10).
Proof. unfold VirtAddr_add. apply VirtAddr_new_ok. unfold reachable in Ha. lia. Qed.
Lemma io_read_total r : total (IoApicImpl.read (D:=D) a r).
Proof. unfold IoApicImpl.read, IoApicImpl.set_sel. total. by eapply total_lift, data_window. Qed.
Lemma io_write_total r v : total (IoApicImpl.write (D:=D) a r v).
Proof. unfold IoApicImpl.write, IoApicImpl.set_sel. total. by eapply total_lift, data_window. Qed.
#[local] Hint Resolve io_read_total io_write_total : total.
Lemma read_redtlb_total i : total (IoApicImpl.read_redtlb (D:=D) a i).
Proof. unfold IoApicImpl.read_redtlb. total. Qed.
Lemma write_redtlb_total i v : total (IoApicImpl.write_redtlb (D:=D) a i v).
Proof. unfold IoApicImpl.write_redtlb. total. Qed.
#[local] Hint Resolve read_redtlb_total write_redtlb_total : total.
Lemma setup_total : total (IoApicImpl.setup (D:=D) a).
Proof.
  apply runs_for_each. intros i _. change (total (IoApicImpl.route (D:=D) a i)). unfold IoApicImpl.route. total.
Qed.
End registers.

(** *** Interrupts once everything they use is there *)
Section interrupts.
Context {D : Type} `{Mmio D} `{X86Addr}.
Implicit Types i : istate D.

(** What the handlers ask for, and the clock. *)
Definition armed (l : LocalApic) (a : IoApic) (n : Z) i : Prop :=
  local_apic i = Some l ∧ io_apic_0 i = Some a ∧ time_ms i = wrap 64 n.

Lemma eoi_armed l a n : runs (armed l a n) InterruptsImpl.eoi (λ _, armed l a n).
Proof. intros i (Hl & Ha & Ht). destruct (eoi_run i l Hl) as (d & E & _). eexists _, _. split; [exact E|done]. Qed.

Lemma on_mmio_armed {A} l a n (m : M D A) : total m → runs (armed l a n) (InterruptsImpl.on_mmio m) (λ _, armed l a n).
Proof.
  intros Hm i Hi. destruct (total_run m (mmio i) Hm) as (x & d & E). unfold InterruptsImpl.on_mmio. rewrite E.
  by eexists _, _.
Qed.

Lemma ioa_armed l a n : runs (armed l a n) InterruptsImpl.ioa (λ b i, b = a ∧ armed l a n i).
Proof. intros i Hi. pose proof Hi as (_ & Ha & _). exists a, i. unfold InterruptsImpl.ioa, mbind, M_bind, gets, lift. by rewrite Ha. Qed.

Lemma handle_armed l a n v :
  reachable a → 32 ≤ v < 256 →
  runs (armed l a n) (InterruptsImpl.handle (vector_handler v)) (λ _, armed l a (n + if decide (v = 48) then 1 else 0)).
Proof.
  intros Hr Hv. unfold vector_handler. destruct (Z.eqb_spec v 48) as [->|Hne]; [rewrite decide_True by done|rewrite decide_False by done; rewrite Z.add_0_r].
  - cbn [InterruptsImpl.handle]. eapply runs_bind; [apply eoi_armed|]. intros ?.
    intros i (Hl & Ha & Ht). eexists _, _. split; [reflexivity|]. split_and!; [done..|]. cbn [time_ms].
    by rewrite Ht, wrap_add_l.
  - assert (runs (armed l a n) (mret tt) (λ _, armed l a n)) as Hret by (intros i Hi; by exists tt, i).
    destruct (v =? 49); [exact Hret|]. destruct ((50 <=? v) && (v <? 74)); [|exact Hret].
    cbn [InterruptsImpl.handle]. unfold InterruptsImpl.handle_line.
    destruct (v - 50 =? 1); [|destruct (v - 50 =? 2); [|destruct ((v - 50 =? 10) || (v - 50 =? 11)); [apply eoi_armed|exact Hret]]].
    + eapply runs_bind; [apply ioa_armed|]. intros b. apply runs_pure. intros ->.
      eapply runs_bind; [by apply on_mmio_armed, read_redtlb_total|]. intros ?. apply eoi_armed.
    + eapply runs_bind; [apply ioa_armed|]. intros b. apply runs_pure. intros ->.
      eapply runs_bind; [by apply on_mmio_armed, read_redtlb_total|]. intros w.
      eapply runs_bind; [by apply on_mmio_armed, write_redtlb_total|]. intros ?. apply eoi_armed.
Qed.
End interrupts.

(** *** The stages *)
Section spec.
Context {T D S V P : Type} `{GdtCrate T} `{Mmio D} `{X86Addr} `{PciPorts S} `{VirtioDevice V} `{!VirtioBoot V}
  `{!Mapper P BootInfoFrameAllocator} `{HugeMapper (P * BootInfoFrameAllocator)} `{AcpiCrate}.
Abbreviation kern := (kernel T D S V P).
Implicit Types k : kern.
Context (tss cr3 : Z) (OffsetPageTable_new : Z → Z → P) (get_tsc_info : option TscInfo) (boot_info : BootInfo).

Lemma arrive_masked vs k : interrupts_enabled k = false → arrive vs k = Ok (tt, k).
Proof.
  intros Hk. induction vs as [|v vs IH]; [done|]. unfold arrive in *. cbn [for_each].
  rewrite (M_bind_run _ _ k tt k); [exact IH|]. unfold interrupt. by rewrite Hk.
Qed.

(** [k1] but for the interrupt controllers, which are set up, and the clock. *)
Definition ready k1 (l : LocalApic) (a : IoApic) (n : Z) k : Prop := ∃ c i, k = set_apic c i k1 ∧ armed l a n i.

Definition ticks (vs : list Z) : Z := len (filter (.= 48) vs).

Lemma interrupt_ready k1 l a n v :
  interrupts_enabled k1 = true → idtr k1 = Some gates → reachable a → 32 ≤ v < 256 →
  runs (ready k1 l a n) (interrupt v) (λ _, ready k1 l a (n + if decide (v = 48) then 1 else 0)).
Proof.
  intros He Hi Ha Hv k (c & i & -> & Har). unfold interrupt. cbn [set_apic interrupts_enabled idtr]. rewrite He, Hi.
  cbn [mbind option_bind]. rewrite gates_lookup, idt_lookup by done. cbn [fmap option_fmap option_map handler].
  destruct (handle_armed l a n v Ha Hv (irq (set_apic c i k1)) Har) as (u & i' & E & Har'). unfold on_irq. rewrite E.
  eexists _, _. split; [reflexivity|]. eexists _, i'. by split.
Qed.

Lemma arrive_ready k1 l a n vs :
  interrupts_enabled k1 = true → idtr k1 = Some gates → reachable a → Forall (λ v, 32 ≤ v < 256) vs →
  runs (ready k1 l a n) (arrive vs) (λ _, ready k1 l a (n + ticks vs)).
Proof.
  intros He Hi Ha Hvs. revert n; induction Hvs as [|v vs Hv Hvs IH]; intros n; unfold arrive in *; cbn [for_each].
  - intros k Hk. exists tt, k. split; [done|]. by rewrite Z.add_0_r.
  - eapply runs_bind; [by apply interrupt_ready|]. intros ?. eapply runs_weaken; [apply IH|done|]. cbn beta. intros _ k Hk.
    unfold ticks in *. rewrite filter_cons. destruct (decide (v = 48)); rewrite ?len_cons; [|by rewrite Z.add_0_r in Hk].
    by replace (n + (1 + len (filter (.= 48) vs))) with (n + 1 + len (filter (.= 48) vs)) by lia.
Qed.

Lemma load_tables_run k : ∃ s, load_tables tss k = Ok (tt, set_tables s (Some gates) k).
Proof.
  destruct (GDT_run (T:=T) tss) as (g & E & _). unfold load_tables, Gdt.init, mbind at 2, M_bind at 1, lift. rewrite E.
  by eexists.
Qed.

Definition logging : LogState :=
  {| LOGGER := Some (Logger.new true true); logger := Some (Logger.new true true); max_level := log_crate.Trace |}.

Lemma start_log_run fbm fbinfo k :
  framebuffer boot_info = Some (fbm, fbinfo) → LOGGER (log k) = None → logger (log k) = None →
  ∃ w, start_log boot_info k = Ok (fbinfo, set_log logging (Some w) k).
Proof.
  intros Hf HL Hl. unfold start_log. rewrite Hf, HL. cbn [unwrap mbind res_bind].
  unfold Logger.init_logger, mbind, M_bind, get. rewrite HL, Hl. by eexists.
Qed.

(** The cells after [init_once]. *)
Definition page_tables off : P * BootInfoFrameAllocator :=
  (OffsetPageTable_new (off + cr3) off, BootInfoFrameAllocatorImpl.init (memory_regions boot_info)).

Lemma start_paging_run off k :
  physical_memory_offset boot_info = Some off → 0 ≤ off → 0 ≤ cr3 → off + cr3 < 2 ^ 47 →
  MAPPER k = None → FRAME_ALLOCATOR k = None →
  start_paging cr3 OffsetPageTable_new boot_info k =
    Ok (tt, set_paging off (Some (page_tables off).1) (Some (page_tables off).2) k).
Proof.
  intros Ho Hpos Hc Hb HM HF. unfold start_paging, active_level_4_table, VirtAddr_add. rewrite Ho. cbn [unwrap mbind res_bind].
  rewrite (VirtAddr_new_ok off) by lia. cbn [mbind res_bind]. rewrite VirtAddr_new_ok by lia. cbn [mbind res_bind]. by rewrite HM, HF.
Qed.

(** The local APIC and the I/O APICs, from a state where the clock is [t]. *)
Definition wiring k1 (l : option LocalApic) (a : option IoApic) (t : Z) k : Prop :=
  ∃ c i, k = set_apic c i k1 ∧ local_apic i = l ∧ io_apic_0 i = a ∧ time_ms i = t.

Lemma arrive_wiring vs k1 l a t : interrupts_enabled k1 = false → runs (wiring k1 l a t) (arrive vs) (λ _, wiring k1 l a t).
Proof. intros Hm k (c & i & -> & Hw). exists tt, (set_apic c i k1). split; [by apply arrive_masked|by exists c, i]. Qed.

Lemma lapic_init_run off phys (c : cpu D) :
  0 ≤ off → 0 ≤ phys → off + phys < 2 ^ 47 →
  ∃ c', LocalApicImpl.init off None phys c = Ok ({| lapic_address := off + phys |}, c').
Proof.
  intros Ho Hp Hb. unfold LocalApicImpl.init. destruct (out_loop_log LocalApicImpl.pic_bytes c) as (c1 & E1 & _).
  unfold LocalApicImpl.disable_pic. rewrite (M_bind_run _ _ _ _ _ E1).
  unfold VirtAddr_add. rewrite VirtAddr_new_ok by lia. unfold mbind, M_bind, lift, gets, modify.
  unfold LocalApicImpl.on_regs, LocalApicImpl.read, LocalApicImpl.write. cbn [regs lapic_address].
  destruct (mmio_load_ok (off + phys +u[64] 0xF0) (regs c1)) as (v & d1 & E2 & _). rewrite E2. cbn [mbind res_bind mret res_ret regs].
  destruct (mmio_store_ok (off + phys +u[64] 0xF0) (Z.lor v 0x1FF) d1) as (d2 & E3 & _). rewrite E3. by eexists.
Qed.

Lemma on_mmio_wiring {A} k1 l a t (m : M D A) : total m → runs (wiring k1 l a t) (on_mmio m) (λ _, wiring k1 l a t).
Proof.
  intros Hm k (c & i & -> & Hw). unfold on_mmio, on_cpu, LocalApicImpl.on_regs. cbn [set_apic irq mmio apic_base pic_log regs].
  destruct (total_run m (regs c) Hm) as (x & d & E). rewrite E. cbn [mbind res_bind].
  eexists _, _. split; [reflexivity|]. eexists _, i. by split.
Qed.

Lemma start_local_apic_run apic freq k :
  let off := VIRTUAL_MAPPING_OFFSET k in let phys := local_apic_address apic in
  0 ≤ off → 0 ≤ phys → off + phys < 2 ^ 47 → timer_frequency get_tsc_info = Ok freq → local_apic (irq k) = None →
  runs (λ x, x = k) (start_local_apic get_tsc_info apic)
    (λ _, wiring k (Some {| lapic_address := off + phys |}) (io_apic_0 (irq k)) (time_ms (irq k))).
Proof.
  intros off phys Ho Hp Hb Hf Hn. unfold start_local_apic. eapply runs_step; [reflexivity|]. eapply runs_step; [reflexivity|].
  eapply (runs_step _ _ _ phys k); [unfold lift; by rewrite PhysAddr_new_ok by (unfold phys in *; lia)|].
  rewrite Hn. destruct (lapic_init_run off phys (Cpu (mmio (irq k)) (apic_base k) (pic_log k))) as (c & E); [done..|].
  eapply (runs_step _ _ _ {| lapic_address := off + phys |}); [unfold on_cpu; fold off; by rewrite E|].
  eapply runs_bind with (Q := λ _, wiring k (Some {| lapic_address := off + phys |}) (io_apic_0 (irq k)) (time_ms (irq k))).
  { eapply runs_at; [reflexivity|]. by eexists _, _. }
  intros ?. eapply runs_bind; [by apply runs_lift|]. intros ?. apply runs_pure. intros _.
  apply on_mmio_wiring, start_timer_total.
Qed.

(** The I/O APIC that [IO_APIC_0] holds once [info] was the first to be set up. *)
Definition first_io_apic off (info : IoApicInfo) : IoApic :=
  {| virt_address := off + info_address info; global_system_int := info_global_system_interrupt_base info; IoApic.id := info_id info |}.

Lemma io_apic_init_run off info :
  0 ≤ off → 0 ≤ info_address info → off + info_address info < 2 ^ 47 →
  IoApicImpl.init off None info = Ok (first_io_apic off info, Some (first_io_apic off info)).
Proof.
  intros Ho Hp Hb. unfold IoApicImpl.init, VirtAddr_add. rewrite PhysAddr_new_ok by lia. cbn [mbind res_bind].
  by rewrite VirtAddr_new_ok by lia.
Qed.

(** Whatever the cell holds, the set-up works on that I/O APIC. *)
Lemma start_io_apic_runs k1 l cell a t info :
  IoApicImpl.init (VIRTUAL_MAPPING_OFFSET k1) cell info = Ok (a, Some a) → reachable a →
  runs (wiring k1 l cell t) (start_io_apic info) (λ _, wiring k1 l (Some a) t).
Proof.
  intros Hi Ha. apply runs_states. intros k (c & i & -> & Hl & Hc & Ht). unfold start_io_apic.
  eapply runs_step; [reflexivity|]. eapply runs_step; [reflexivity|].
  eapply (runs_step _ _ _ (a, Some a)); [unfold lift; cbn [set_apic VIRTUAL_MAPPING_OFFSET irq io_apic_0]; by rewrite Hc, Hi|].
  eapply runs_bind with (Q := λ _, wiring k1 l (Some a) t).
  { eapply runs_at; [reflexivity|]. by eexists _, _. }
  intros ?. eapply runs_bind; [by apply on_mmio_wiring, io_read_total|]. intros ?. by apply on_mmio_wiring, setup_total.
Qed.

Lemma start_interrupts_run irqs pi apic first rest freq k :
  let off := VIRTUAL_MAPPING_OFFSET k in interrupts_enabled k = false →
  interrupt_model pi = ApicModel apic → io_apics apic = first :: rest →
  0 ≤ off → 0 ≤ local_apic_address apic → off + local_apic_address apic < 2 ^ 47 →
  0 ≤ info_address first → off + info_address first < 2 ^ 47 - 0x10 →
  timer_frequency get_tsc_info = Ok freq → local_apic (irq k) = None → io_apic_0 (irq k) = None → fits 64 (time_ms (irq k)) →
  runs (λ x, x = k) (start_interrupts get_tsc_info irqs pi)
    (λ _, ready (set_enabled true k) {| lapic_address := off + local_apic_address apic |} (first_io_apic off first) (time_ms (irq k))).
Proof.
  intros off Hmask Hm Hio Ho Hl Hlb Ha Hab Hf Hln Han Ht. unfold start_interrupts. rewrite Hm, Hio.
  set (l := {| lapic_address := _ |}). set (a := first_io_apic off first).
  assert (reachable a) as Hr by (unfold reachable, a, first_io_apic; cbn [virt_address]; lia).
  eapply runs_bind; [by apply (start_local_apic_run apic freq)|]. intros ?. rewrite Han.
  eapply runs_bind; [by apply arrive_wiring|]. intros ?.
  eapply (runs_bind _ _ (λ _, wiring k (Some l) (Some a) (time_ms (irq k)))).
  - cbn [for_each]. eapply runs_bind.
    + apply (start_io_apic_runs k (Some l) None a); [|done]. apply io_apic_init_run; lia.
    + intros ?. apply runs_for_each. intros info _. by apply start_io_apic_runs.
  - intros ?. eapply runs_bind; [by apply arrive_wiring|]. intros ? k' (c & i & -> & Hl' & Ha' & Ht'). eexists _, _. split; [reflexivity|]. exists c, i. split; [done|].
    split_and!; [done..|]. by rewrite wrap_small.
Qed.

(** The stages after that leave the interrupt controllers alone. *)
Lemma on_devices_ready {R} k1 l a n (m : M (kernel_machine S V P BootInfoFrameAllocator) R) pf x s :
  MAPPER k1 = Some pf.1 → FRAME_ALLOCATOR k1 = Some pf.2 →
  m (KernelMachine (hw_ports k1) (hw_devs k1) pf (ram k1)) = Ok (x, s) →
  runs (ready k1 l a n) (on_devices m) (λ y k, y = x ∧ ready (set_devices (k_ports s) (k_devs s) (k_ram s)
    (set_paging (VIRTUAL_MAPPING_OFFSET k1) (Some (k_paging s).1) (Some (k_paging s).2) k1)) l a n k).
Proof.
  intros HM HF E k (c & i & -> & Har). unfold on_devices. cbn [set_apic MAPPER FRAME_ALLOCATOR hw_ports hw_devs ram].
  rewrite HM, HF. cbn [unwrap mbind res_bind]. rewrite <-surjective_pairing, E. cbn [mbind res_bind].
  eexists _, _. split; [reflexivity|]. split; [done|]. exists c, i. by split.
Qed.

Lemma with_paging_run {R} (f : M (P * BootInfoFrameAllocator) R) k pf x pf' :
  MAPPER k = Some pf.1 → FRAME_ALLOCATOR k = Some pf.2 → f pf = Ok (x, pf') →
  with_mapper_framealloc f k = Ok (x, set_paging (VIRTUAL_MAPPING_OFFSET k) (Some pf'.1) (Some pf'.2) k).
Proof.
  intros HM HF E. unfold with_mapper_framealloc. rewrite HM, HF. cbn [unwrap mbind res_bind].
  rewrite <-surjective_pairing, E. by destruct pf'.
Qed.

Lemma map_window_run off k pf c pf' :
  MAPPER k = Some pf.1 → FRAME_ALLOCATOR k = Some pf.2 → VIRTUAL_MAPPING_OFFSET k = off → map_physical off pf = Ok (c, pf') →
  map_window k = Ok (c, set_paging off (Some pf'.1) (Some pf'.2) k).
Proof. intros HM HF <- E. by apply with_paging_run with (pf := pf). Qed.

Lemma read_acpi_run k rsdp tables hpet pi :
  rsdp_addr boot_info = Some rsdp → from_rsdp (map_physical_region (VIRTUAL_MAPPING_OFFSET k)) (ram k) rsdp = Some tables →
  hpet_info tables = Some hpet → platform_info tables = Some pi → read_acpi boot_info k = Ok (pi, k).
Proof. intros E1 E2 E3 E4. unfold read_acpi. rewrite E1. cbn [unwrap mbind res_bind]. by rewrite E2; cbn; rewrite E3; cbn; rewrite E4. Qed.

(** The memory of 64 GiB is always entered or found entered. *)
Lemma map_physical_total off (pf : P * BootInfoFrameAllocator) :
  0 < off ∧ off + 2 ^ 36 ≤ 2 ^ 47 → (HUGE | off) →
  (∀ page frame (pf : P * BootInfoFrameAllocator), ∃ r pf', map_to_huge page frame pf = Ok (r, pf')) →
  ∃ c pf', map_physical off pf = Ok (c, pf').
Proof.
  intros Ho Hd Ht. rewrite map_physical_loop by lia.
  destruct (map_frames_spec off ltac:(lia) Hd Ht (range 0 32768) 0 0 pf) as (news & olds & pf' & E & _); [apply NoDup_seqZ| |lia|lia| |by eexists _, _].
  - intros n Hn%elem_of_range. lia.
  - rewrite len_range; lia.
Qed.

(** A machine that can boot: the statics as the loader leaves them, everything the
    kernel asks of the loader and of the ACPI tables, addresses within the window,
    page tables that answer, room for the heap, and devices that can be set up. *)
Record bootable k (fbinfo : FrameBufferInfo) (off : Z) (pi : PlatformInfo) (apic : Apic) (first : IoApicInfo) (vs : list Virtio) : Prop := {
  b_masked : interrupts_enabled k = false;
  b_log : LOGGER (log k) = None ∧ logger (log k) = None;
  b_cells : MAPPER k = None ∧ FRAME_ALLOCATOR k = None ∧ local_apic (irq k) = None ∧ io_apic_0 (irq k) = None;
  b_clock : fits 64 (time_ms (irq k));
  b_screen : ∃ fbm, framebuffer boot_info = Some (fbm, fbinfo);
  b_size : 0 ≤ width fbinfo ∧ 0 ≤ height fbinfo ∧ width fbinfo * height fbinfo < 2 ^ 64;
  b_offset : physical_memory_offset boot_info = Some off;
  b_window : 0 < off ∧ off + 2 ^ 36 ≤ 2 ^ 47 ∧ (HUGE | off) ∧ 0 ≤ cr3 ∧ off + cr3 < 2 ^ 47;
  b_acpi : ∃ rsdp tables hpet, rsdp_addr boot_info = Some rsdp ∧
    from_rsdp (map_physical_region off) (ram k) rsdp = Some tables ∧ hpet_info tables = Some hpet ∧ platform_info tables = Some pi;
  b_apics : interrupt_model pi = ApicModel apic ∧ ∃ rest, io_apics apic = first :: rest;
  b_apic_addresses : 0 ≤ local_apic_address apic ∧ off + local_apic_address apic < 2 ^ 47 ∧
    0 ≤ info_address first ∧ off + info_address first < 2 ^ 47 - 0x10;
  b_processors : is_Some (processor_info pi);
  b_frequency : ∀ tsc, get_tsc_info = Some tsc → is_Some (tsc_frequency tsc);
  b_paging : ∀ page frame (pf : P * BootInfoFrameAllocator), ∃ r pf', map_to_huge page frame pf = Ok (r, pf');
  b_memory : ∀ c pf, map_physical off (page_tables off) = Ok (c, pf) →
    ∃ h pf', init_heap pf = Ok (inl h, pf') ∧
    ∃ s, find_devices 256 off (KernelMachine (hw_ports k) (hw_devs k) pf' (ram k)) = Ok (Some vs, s)
}.

(** The first thing that [executor.run] does: every task spawned is queued, in order,
    for its first poll. *)
Definition queued_first (ex : Executor BootTask) : Prop :=
  ∃ ex', while_some (Datatypes.S (length (spawn_queue ex))) ExecutorImpl.pop_spawn ExecutorImpl.spawn ex = Ok (true, ex') ∧
    spawn_queue ex' = [] ∧ task_queue ex' = Executor.id <$> spawn_queue ex ∧
    ∀ t, t ∈ spawn_queue ex → tasks ex' !! Executor.id t = Some (future t).

Lemma spawned_queued_first fs n : queued_first (Exec ∅ [] (take QUEUE_CAPACITY (numbered 0 fs)) ∅ [] n).
Proof.
  destruct (spawned_are_queued (take QUEUE_CAPACITY (numbered 0 fs)) (Exec ∅ [] (take QUEUE_CAPACITY (numbered 0 fs)) ∅ [] n))
    as (ts & E & Hin & _); [done|by apply numbered_NoDup|done|rewrite length_take; apply Nat.le_min_l|].
  eexists. split; [exact E|]. by split_and!.
Qed.

(** What the kernel is when the executor starts. *)
Record booted k (fbinfo : FrameBufferInfo) (off : Z) (apic : Apic) (first : IoApicInfo) (vs : list Virtio) (n : Z)
    (fb : FB) (ex : Executor BootTask) k' : Prop := {
  bd_enabled : interrupts_enabled k' = true ∧ idtr k' = Some gates;
  bd_log : LOGGER (log k') = Some {| Logger.framebuffer := true; serial := true |} ∧ is_Some (writer k');
  bd_offset : VIRTUAL_MAPPING_OFFSET k' = off;
  bd_cells : is_Some (MAPPER k') ∧ is_Some (FRAME_ALLOCATOR k') ∧ ALLOCATOR k' = Some (HEAP_START, HEAP_SIZE);
  bd_apics : local_apic (irq k') = Some {| lapic_address := off + local_apic_address apic |} ∧
    io_apic_0 (irq k') = Some (first_io_apic off first);
  bd_clock : time_ms (irq k') = wrap 64 (time_ms (irq k) + n);
  bd_screen : w fb = width fbinfo ∧ h fb = height fbinfo ∧ len (pixels fb) = width fbinfo * height fbinfo;
  bd_tasks : spawn_queue ex = take 100 (numbered 0 ((driver <$> vs) ++ [Applications]));
  bd_queued : queued_first ex
}.

Lemma init_heap_range pf h pf' : init_heap (P:=P) pf = Ok (inl h, pf') → h = (HEAP_START, HEAP_SIZE).
Proof. unfold init_heap. intros (r & pf1 & _ & E)%M_bind_ok. destruct r; [|done]. by injection E as <- _. Qed.

Lemma init_heap_done (pf pf' : P * BootInfoFrameAllocator) :
  try_each heap_pages map_heap_page pf = Ok (inl tt, pf') → init_heap pf = Ok (inl (HEAP_START, HEAP_SIZE), pf').
Proof. intros E. unfold init_heap. rewrite (M_bind_run _ _ _ _ _ E). reflexivity. Qed.

Lemma ticks_app l1 l2 : ticks (l1 ++ l2) = ticks l1 + ticks l2.
Proof. unfold ticks. by rewrite filter_app, len_app. Qed.

(** The kernel before its interrupt controllers. *)
Definition prepared k off sg wr (pf : P * BootInfoFrameAllocator) : kern :=
  set_heap (Some (HEAP_START, HEAP_SIZE)) (set_paging off (Some pf.1) (Some pf.2) (set_log logging (Some wr) (set_tables sg (Some gates) k))).

Lemma prepare_run irqs k fbinfo off pi apic first vs :
  bootable k fbinfo off pi apic first vs →
  ∃ sg wr pf s, kernel_prepare tss cr3 OffsetPageTable_new boot_info irqs k = Ok ((fbinfo, pi), prepared k off sg wr pf) ∧
    find_devices 256 off (KernelMachine (hw_ports k) (hw_devs k) pf (ram k)) = Ok (Some vs, s).
Proof.
  intros [Hmask [HL Hlg] (HM & HF & _) _ [fbm Hfb] _ Hoff (Ho0 & Ho36 & Hdiv & Hc0 & Hcb)
    (rsdp & tables & hpet & Hr & Htb & Hhp & Hpi) _ _ _ _ Hpag Hmem].
  destruct (map_physical_total off (page_tables off)) as (c & pf & Emap); [done..|].
  destruct (Hmem c pf Emap) as (hp & pf' & Eheap & s & Efind). pose proof (init_heap_range _ _ _ Eheap) as ->.
  destruct (load_tables_run k) as [sg E0]. set (k1 := set_tables sg (Some gates) k) in *.
  destruct (start_log_run fbm fbinfo k1 Hfb HL Hlg) as [wr E1]. set (k2 := set_log logging (Some wr) k1) in *.
  pose proof (start_paging_run off k2 Hoff ltac:(lia) Hc0 Hcb HM HF) as E2.
  set (k3 := set_paging off (Some (page_tables off).1) (Some (page_tables off).2) k2) in *.
  pose proof (map_window_run off k3 (page_tables off) c pf eq_refl eq_refl eq_refl Emap) as E3.
  set (k4 := set_paging off (Some pf.1) (Some pf.2) k3) in *.
  pose proof (with_paging_run init_heap k4 pf _ pf' eq_refl eq_refl Eheap) as E4.
  exists sg, wr, pf', s. split; [|exact Efind]. unfold kernel_prepare.
  rewrite (M_bind_run _ _ _ _ _ E0), (M_bind_run _ _ _ _ _ (arrive_masked _ k1 Hmask)).
  rewrite (M_bind_run _ _ _ _ _ E1), (M_bind_run _ _ _ _ _ (arrive_masked _ k2 Hmask)).
  rewrite (M_bind_run _ _ _ _ _ E2), (M_bind_run _ _ _ _ _ (arrive_masked _ k3 Hmask)).
  rewrite (M_bind_run _ _ _ _ _ E3), (M_bind_run _ _ _ _ _ (arrive_masked _ k4 Hmask)).
  rewrite (M_bind_run start_heap _ _ tt (prepared k off sg wr pf')), (M_bind_run _ _ _ _ _ (arrive_masked _ (prepared k off sg wr pf') Hmask)).
  - rewrite (M_bind_run _ _ _ _ _ (read_acpi_run (prepared k off sg wr pf') rsdp tables hpet pi Hr Htb Hhp Hpi)).
    by rewrite (M_bind_run _ _ _ _ _ (arrive_masked _ (prepared k off sg wr pf') Hmask)).
  - unfold start_heap. by rewrite (M_bind_run _ _ _ _ _ E4).
Qed.

Lemma timer_frequency_run : (∀ tsc, get_tsc_info = Some tsc → is_Some (tsc_frequency tsc)) → ∃ f, timer_frequency get_tsc_info = Ok f.
Proof. unfold timer_frequency. destruct get_tsc_info as [tsc|]; [|by eexists]. intros Hf. destruct (Hf tsc eq_refl) as [f ->]. by eexists. Qed.

Lemma start_run irqs k fbinfo off pi apic first vs sg wr pf s :
  bootable k fbinfo off pi apic first vs → (∀ n, Forall (λ v, 32 ≤ v < 256) (irqs n)) →
  find_devices 256 off (KernelMachine (hw_ports k) (hw_devs k) pf (ram k)) = Ok (Some vs, s) →
  runs (λ x, x = prepared k off sg wr pf) (kernel_start get_tsc_info irqs fbinfo pi)
    (λ o k', ∃ fb ex, o = Some (fb, ex) ∧ booted k fbinfo off apic first vs
      (ticks (irqs 8%nat ++ irqs 9%nat ++ irqs 10%nat ++ irqs 11%nat)) fb ex k').
Proof.
  intros [Hmask _ (_ & _ & Hla & Hia) Hck _ (Hw & Hh & Hwh) _ (Ho & _) _ [Happ [rest Hio]] (Hl & Hlb & Ha & Hab) [procs Hpr] Hfreq _ _] Hirq Efind.
  apply Z.lt_le_incl in Ho. destruct (timer_frequency_run Hfreq) as [freq Hf]. destruct (fb_new_run fbinfo Hw Hh Hwh) as (fb & Efb & Hfw & Hfh & Hpx & _).
  set (k0 := prepared k off sg wr pf). set (l := {| lapic_address := off + local_apic_address apic |}). set (a := first_io_apic off first).
  assert (reachable a) as Hr by (unfold reachable, a, first_io_apic; cbn [virt_address]; lia).
  unfold kernel_start.
  eapply runs_bind; [by apply (start_interrupts_run irqs pi apic first rest freq k0)|]. intros ?. cbn beta.
  eapply runs_bind; [by apply arrive_ready|]. intros ?. cbn beta.
  eapply runs_bind; [eapply runs_lift; by rewrite Hpr|]. intros pr. cbn beta. apply runs_pure. intros _.
  eapply (runs_bind _ _ (λ o k', o = off ∧ ready (set_enabled true k0) l a (time_ms (irq k) + ticks (irqs 8%nat)) k')).
  { intros k' (c & i & -> & Hi). eexists _, _. split; [reflexivity|]. split; [done|]. by exists c, i. }
  intros o. apply runs_pure. intros ->.
  eapply runs_bind; [by apply (on_devices_ready (set_enabled true k0) l a _ _ pf (Some vs) s)|]. intros o. cbn beta. apply runs_pure. intros ->.
  eapply runs_bind; [by apply arrive_ready|]. intros ?. cbn beta.
  eapply runs_bind; [by eapply runs_lift|]. intros ?. cbn beta. apply runs_pure. intros ->.
  eapply runs_bind; [by apply arrive_ready|]. intros ?. cbn beta.
  eapply runs_bind; [by eapply runs_lift, (spawn_all_run vs 0)|]. intros [u ex]. cbn beta. apply runs_pure. intros [= -> ->].
  eapply runs_bind; [by apply arrive_ready|]. intros ? k' (c & i & -> & Hl' & Ha' & Ht').
  eexists _, _. split; [reflexivity|]. eexists _, _. split; [reflexivity|].
  split; try done; [|apply spawned_queued_first]. rewrite !ticks_app. cbn [set_apic irq time_ms]. rewrite Ht'. f_equal. lia.
Qed.

(** Stages that returned. *)
Lemma kernel_main_needs irqs k r k' :
  kernel_main tss cr3 OffsetPageTable_new get_tsc_info boot_info irqs k = Ok (r, k') →
  is_Some (framebuffer boot_info) ∧ is_Some (physical_memory_offset boot_info) ∧
  ∃ off m rsdp tables pi, rsdp_addr boot_info = Some rsdp ∧ from_rsdp (map_physical_region off) m rsdp = Some tables ∧
    is_Some (hpet_info tables) ∧ platform_info tables = Some pi ∧ is_Some (processor_info pi).
Proof.
  unfold kernel_main. intros ([fbinfo pi] & ks & E & Es)%M_bind_ok. unfold kernel_prepare in E.
  apply M_bind_ok in E as ([] & k1 & _ & E). apply M_bind_ok in E as ([] & k2 & _ & E).
  apply M_bind_ok in E as (fi & k3 & Elog & E). apply M_bind_ok in E as ([] & k4 & _ & E).
  apply M_bind_ok in E as ([] & k5 & Epag & E). apply M_bind_ok in E as ([] & k6 & _ & E).
  apply M_bind_ok in E as (c & k7 & _ & E). apply M_bind_ok in E as ([] & k8 & _ & E).
  apply M_bind_ok in E as ([] & k9 & _ & E). apply M_bind_ok in E as ([] & k10 & _ & E).
  apply M_bind_ok in E as (pi' & k11 & Eacpi & E). apply M_bind_ok in E as ([] & k12 & _ & E). injection E as -> -> ->.
  unfold start_log in Elog. destruct (framebuffer boot_info) as [fb|]; [|done].
  unfold start_paging in Epag. destruct (physical_memory_offset boot_info) as [off|]; [|done].
  split; [by eexists|]. split; [by eexists|]. unfold read_acpi in Eacpi.
  destruct (rsdp_addr boot_info) as [rsdp|]; [|done]. cbn [unwrap mbind res_bind] in Eacpi.
  destruct (from_rsdp _ (ram k10) rsdp) as [tables|] eqn:Et; [|done]. cbn [unwrap mbind res_bind] in Eacpi.
  destruct (hpet_info tables) as [h|] eqn:Eh; [|done]. cbn [unwrap mbind res_bind] in Eacpi.
  destruct (platform_info tables) as [p|] eqn:Ep; [|done]. injection Eacpi as -> ->.
  eexists _, _, rsdp, tables, pi. split; [done|]. split; [exact Et|]. split; [by eexists|]. split; [done|].
  unfold kernel_start in Es. apply M_bind_ok in Es as ([] & k13 & _ & Es). apply M_bind_ok in Es as ([] & k14 & _ & Es).
  apply M_bind_ok in Es as (procs & k15 & Epr & _). unfold lift in Epr. by destruct (processor_info pi).
Qed.
End spec.

(** C2: the kernel boots, and what it needs for that. On a machine that can boot,
    whatever maskable interrupts arrive and whenever, [kernel_main] reaches
    [executor.run]: no interrupt is taken before the descriptor table, the local
    APIC and the I/O APIC are there for its handler, the statics the tasks rely on
    are filled, the clock has counted every timer interrupt since they were enabled
    (and none before), the pixel buffer is as large as the screen, and the driver of
    each device found and the applications are spawned, and queued in that order for
    their first poll. The one I/O APIC set up is the first of the list, however long
    that is. Conversely the executor is only reached when the loader and the ACPI
    tables gave everything asked for, the HPET included, which the kernel has no use
    for. *)
Theorem kernel_boots {T D S V P} `{GdtCrate T} `{Mmio D} `{X86Addr} `{PciPorts S} `{VirtioDevice V} `{!VirtioBoot V}
    `{!Mapper P BootInfoFrameAllocator} `{HugeMapper (P * BootInfoFrameAllocator)} `{AcpiCrate}
    tss cr3 (OffsetPageTable_new : Z → Z → P) get_tsc_info boot_info irqs (k : kernel T D S V P) :
  (∀ fbinfo off pi apic first vs,
     bootable cr3 OffsetPageTable_new get_tsc_info boot_info k fbinfo off pi apic first vs →
     (∀ n, Forall (λ v, 32 ≤ v < 256) (irqs n)) →
     ∃ fb ex k', kernel_main tss cr3 OffsetPageTable_new get_tsc_info boot_info irqs k = Ok (Some (fb, ex), k') ∧
       booted k fbinfo off apic first vs (ticks (irqs 8%nat ++ irqs 9%nat ++ irqs 10%nat ++ irqs 11%nat)) fb ex k') ∧
  (∀ r k', kernel_main tss cr3 OffsetPageTable_new get_tsc_info boot_info irqs k = Ok (r, k') →
     is_Some (framebuffer boot_info) ∧ is_Some (physical_memory_offset boot_info) ∧
     ∃ off m rsdp tables pi, rsdp_addr boot_info = Some rsdp ∧ from_rsdp (map_physical_region off) m rsdp = Some tables ∧
       is_Some (hpet_info tables) ∧ platform_info tables = Some pi ∧ is_Some (processor_info pi)).
Proof.
  split; [|apply kernel_main_needs]. intros fbinfo off pi apic first vs Hb Hirq.
  destruct (prepare_run tss _ _ _ _ irqs _ _ _ _ _ _ _ Hb) as (sg & wr & pf & s & E & Ef).
  destruct (start_run _ _ _ _ irqs _ _ _ _ _ _ _ sg wr pf s Hb Hirq Ef _ eq_refl) as (o & k' & Es & fb & ex & -> & Hbd).
  exists fb, ex, k'. split; [|done]. unfold kernel_main. by rewrite (M_bind_run _ _ _ _ _ E).
Qed.

(** *** A machine that boots *)

Lemma heap_pages_length : length heap_pages = Z.to_nat 32768.
Proof. unfold heap_pages. cbv zeta. rewrite pages_from_range, length_fmap. unfold range. rewrite length_seqZ. f_equal. Qed.

#[local] Existing Instance gdt_list.
#[local] Existing Instance x86_addr_instance.
#[local] Existing Instance mmio_instance.
#[local] Existing Instance port_space_instance.
#[local] Existing Instance logged_instance.
#[local] Existing Instance logged_boot.

(** Page tables as two finite maps, of small and of huge pages. *)
Abbreviation tables2 := (gmap Z Z * gmap Z Z)%type.

#[local] Program Instance tables2_mapper : Mapper tables2 BootInfoFrameAllocator := {|
  translate t p := t.1 !! p;
  map_to page frame s :=
    match s.1.1 !! page with
    | Some x => Ok (inr (PageAlreadyMapped x), s)
    | None => Ok (inl tt, ((<[page := frame]> s.1.1, s.1.2), s.2))
    end
|}.
Next Obligation.
  intros page frame [t g] f r [t' g'] f' E. cbn in *. destruct (t !! page) as [x|] eqn:Ep; injection E as <- <- <- <-.
  - split; [apply rtc_refl|done].
  - split; [apply rtc_refl|]. split_and!; [done|apply lookup_insert_eq|]. intros q Hq. by apply lookup_insert_ne.
Qed.
Next Obligation. intros page frame [t g] f _. cbn. destruct (t !! page); eauto. Qed.

#[local] Program Instance tables2_huge : HugeMapper (tables2 * BootInfoFrameAllocator) := {|
  translate_huge s p := s.1.2 !! p;
  map_to_huge page frame s :=
    match s.1.2 !! page with
    | Some x => Ok (inr (PageAlreadyMapped x), s)
    | None => Ok (inl tt, ((s.1.1, <[page := frame]> s.1.2), s.2))
    end
|}.
Next Obligation.
  intros page frame [[t g] f] r [[t' g'] f'] E. cbn in *. destruct (g !! page) as [x|] eqn:Ep; injection E as <- <- <- <-; [done|].
  split_and!; [done|apply lookup_insert_eq|]. intros q Hq. by apply lookup_insert_ne.
Qed.

(** The window leaves the small pages and the frames alone. *)
Lemma map_physical_keeps off : keeps (λ s : tables2 * BootInfoFrameAllocator, (s.1.1, s.2)) (map_physical off).
Proof.
  unfold map_physical. apply keeps_bind; [apply keeps_lift|]. intros _. generalize frames (0, 0). intros l. induction l as [|frame l IH]; intros c; [apply keeps_ret|].
  cbn [map_frames]. apply keeps_bind; [|apply IH]. unfold map_frame. keeps. intros [[t g] f] r [[t' g'] f'] E. cbn in *.
  by destruct (g !! _); injection E as <- <- <- <-.
Qed.

(** The heap finds its frames. *)
Lemma heap_loop m pages i t g f :
  map_valid m → at_position m i f → NoDup pages → (∀ q, q ∈ pages → t !! q = None) →
  (i + length pages ≤ length (usable_frames m))%nat → Z.of_nat (i + length pages) < 2 ^ 58 →
  ∃ s, try_each pages map_heap_page ((t, g) : tables2, f) = Ok (inl tt, s).
Proof.
  intros Hv. revert i t f; induction pages as [|q pages IH]; intros i t f Hp Hnd Ht Hl Hb; [by eexists|].
  apply NoDup_cons in Hnd as [Hq Hnd]. cbn [length] in *. cbn [try_each].
  destruct (allocate_frame_position m i f Hv ltac:(lia) Hp) as (f' & Ef & Hp').
  destruct (lookup_lt_is_Some_2 (usable_frames m) i ltac:(lia)) as [fr Hfr]. rewrite Hfr in Ef.
  assert (map_heap_page q ((t, g) : tables2, f) = Ok (inl tt, ((<[q := fr]> t, g), f'))) as E.
  { unfold map_heap_page, frame_alloc, mbind, M_bind. rewrite Ef. cbn. by rewrite Ht by set_solver. }
  rewrite (M_bind_run _ _ _ _ _ E). apply (IH (Datatypes.S i)); [done|done| |lia|lia].
  intros q' Hq'. rewrite lookup_insert_ne by (by intros ->). apply Ht. set_solver.
Qed.

Definition example_regions : list MemoryRegion := [{| start := 0x100000; end_ := 0x100000 + 4096 * 40000; kind := Usable |}].

Lemma example_regions_ok : map_valid example_regions ∧ length (usable_frames example_regions) = Z.to_nat 40000.
Proof.
  unfold map_valid, usable_frames, BootInfoFrameAllocatorImpl.usable_addresses, example_regions.
  rewrite filter_cons_True by done. rewrite filter_nil. cbn [mbind list_bind start end_]. rewrite app_nil_r. split.
  - apply Forall_forall. intros x Hx%elem_of_step. lia.
  - rewrite length_fmap. unfold step_by_4096. rewrite length_fmap. unfold range. rewrite length_seqZ. f_equal.
Qed.

Definition example_apic : Apic :=
  {| local_apic_address := 0xFEE00000; io_apics := [{| info_id := 0; info_address := im_base; info_global_system_interrupt_base := 0 |}] |}.
Definition example_platform : PlatformInfo :=
  {| interrupt_model := ApicModel example_apic; processor_info := Some {| application_processors := [] |} |}.

#[local] Instance example_acpi : AcpiCrate := {|
  AcpiTables := unit;
  from_rsdp window m rsdp := match window rsdp 36 with Ok _ => Some tt | Panic _ => None end;
  hpet_info _ := Some 0xFED00000;
  platform_info _ := Some example_platform
|}.

Definition example_info : FrameBufferInfo := {| width := 3; height := 2; stride := 3; bytes_per_pixel := 4; pixel_format := Rgb |}.
Definition example_boot_info : BootInfo := {|
  framebuffer := Some (replicate 24 0, example_info); physical_memory_offset := Some (2 ^ 40);
  memory_regions := example_regions; rsdp_addr := Some 0xE0000 |}.

Definition example_kernel : kernel (list Z) IoApicMem PortSpace LoggedDevice tables2 :=
  Kernel (Segments None 0 0 0 0 0) None false 0 [] (IState {| im_sel := 0; im_regs := ∅; im_log := [] |} None None 0 WAKERS [])
    {| LOGGER := None; logger := None; max_level := log_crate.Off |} None 0 None None None
    no_ports (λ _, vdev example_machine) ∅.

Definition no_tables (l4 off : Z) : tables2 := (∅, ∅).

Lemma example_memory c pf :
  map_physical (2 ^ 40) (page_tables 0x1000 no_tables example_boot_info (2 ^ 40)) = Ok (c, pf) →
  ∃ h pf', init_heap pf = Ok (inl h, pf') ∧
  ∃ s, find_devices 256 (2 ^ 40) (KernelMachine (hw_ports example_kernel) (hw_devs example_kernel) pf' (ram example_kernel)) = Ok (Some [], s).
Proof.
  destruct pf as [[t g] f].
  intros Hmap. apply map_physical_keeps in Hmap. cbn [fst snd] in Hmap. injection Hmap as -> ->.
  destruct example_regions_ok as [Hv Hl].
  destruct (heap_loop example_regions heap_pages 0 ∅ g (BootInfoFrameAllocatorImpl.init example_regions)) as (s & Es).
  - done.
  - apply at_position_init.
  - apply NoDup_heap_pages.
  - intros q _. apply lookup_empty.
  - rewrite Hl. rewrite heap_pages_length. lia.
  - rewrite heap_pages_length. lia.
  - exists (HEAP_START, HEAP_SIZE), s. split; [exact (init_heap_done _ _ Es)|].
    exact (no_ports_find 256 (2 ^ 40) (KernelMachine no_ports _ s ∅) eq_refl).
Qed.

Lemma example_bootable :
  bootable 0x1000 no_tables None example_boot_info example_kernel example_info (2 ^ 40) example_platform example_apic
    {| info_id := 0; info_address := im_base; info_global_system_interrupt_base := 0 |} [].
Proof.
  constructor; cycle -1.
  { exact example_memory. }
  - done.
  - done.
  - done.
  - by split.
  - by eexists.
  - by split_and!.
  - done.
  - split_and!; [lia..| |lia|lia]. by exists (2 ^ 19).
  - eexists 0xE0000, tt, _. split; [done|]. split; [by vm_compute|]. by split.
  - split; [done|]. by exists [].
  - cbn [local_apic_address example_apic info_address]. unfold im_base. lia.
  - by eexists.
  - done.
  - intros page frame [[t g] f]. cbn. destruct (g !! page); by eexists _, _.
Qed.

(** With two ticks and a key press after each stage, the clock is at 8, and only the
    applications are queued. *)
Lemma kernel_boots_witness :
  ∃ fb ex k', kernel_main 0x8000 0x1000 no_tables None example_boot_info (λ _, [48; 51; 48]) example_kernel = Ok (Some (fb, ex), k') ∧
    time_ms (irq k') = 8 ∧ interrupts_enabled k' = true ∧ spawn_queue ex = [{| Executor.id := 0; future := Applications |}].
Proof.
  destruct (proj1 (kernel_boots 0x8000 0x1000 no_tables None example_boot_info (λ _, [48; 51; 48]) example_kernel)
    _ _ _ _ _ _ example_bootable) as (fb & ex & k' & E & Hb).
  - intros n. repeat constructor; by vm_compute.
  - exists fb, ex, k'. split; [exact E|]. destruct Hb as [[He _] _ _ _ _ Ht _ Hs].
    split; [exact Ht|]. split; [exact He|exact Hs].
Defined.
