(* ===== verification/EndToEnd.v ===== *)
(** From the keyboard to the console's line: what the virtio input driver
    ([drivers/virtio_input.rs]) takes from the device's queue, through the shared
    input record ([globals.rs]) and the turn of the applications ([main.rs]), is
    what the console ([app_console/src/main.rs]) handles, once. *)
From S2P Require Import Prelude Bytes Virtio Globals VirtioInput XmapData Keymap Console.

(** The key events among the events of a device: type 1, pressed unless the value
    is zero. *)
Definition key_event (evt : VirtioInputEvent) : list InputEvent :=
  if type_ evt =? 1 then [{| trigger := negb (value evt =? 0); key := code evt |}] else [].

(** An event changes the ring as its key event does, if it has one. *)
Lemma apply_event_ring h evt i i' :
  Input.wf i → Input.ring_of h i → event_ok evt → len h + 1 < 2 ^ 64 → apply_event evt i = Ok i' →
  Input.wf i' ∧ Input.ring_of (h ++ key_event evt) i'.
Proof.
  intros Hwf Hr Hok Hb E. destruct (apply_event_ok evt i Hwf Hok) as (i2 & E2 & Hwf').
  assert (i2 = i') as -> by congruence. split; [done|]. clear E2. unfold apply_event, key_event in *.
  destruct (Z.eqb_spec (type_ evt) 0) as [E0|_].
  { injection E as <-. rewrite E0. cbn. by rewrite app_nil_r. }
  destruct (Z.eqb_spec (type_ evt) 1) as [E1|_].
  - pose proof (ring_of_handle h i {| trigger := negb (value evt =? 0); key := code evt |} i') as Hh. by apply Hh.
  - rewrite app_nil_r. destruct Hr as [Hl Hr]. repeat case_match; injection E as <-; by split.
Qed.

Lemma apply_events_ring h es i i' :
  Input.wf i → Input.ring_of h i → Forall event_ok es → len h + len es < 2 ^ 64 → foldM (λ i e, apply_event e i) i es = Ok i' →
  Input.wf i' ∧ Input.ring_of (h ++ (es ≫= key_event)) i'.
Proof.
  revert h i; induction es as [|e es IH]; intros h i Hwf Hr Hok Hb E.
  { injection E as <-. cbn. by rewrite app_nil_r. }
  apply Forall_cons in Hok as [He Hes]. rewrite len_cons in Hb. pose proof (len_nonneg es).
  cbn [foldM] in E. apply bind_ok in E as (i1 & E1 & E).
  destruct (apply_event_ring h e i i1) as [Hwf1 Hr1]; [done..|lia|done|].
  destruct (IH (h ++ key_event e) i1) as [Hwf2 Hr2]; [done..| |done|].
  { rewrite len_app. unfold key_event. destruct (type_ e =? 1); rewrite ?len_cons, len_nil; lia. }
  cbn [mbind list_bind]. by rewrite app_assoc.
Qed.

Lemma len_key_events es : len (es ≫= key_event) ≤ len es.
Proof.
  induction es as [|e es IH]; [done|]. cbn [mbind list_bind]. rewrite len_app, len_cons.
  unfold key_event at 1. destruct (type_ e =? 1); rewrite ?len_cons, len_nil; lia.
Qed.

Lemma step_ring h i : Input.ring_of h i → Input.ring_of h (Input.step i).
Proof. done. Qed.

(** The index an application keeps is the input's: nothing is left to read. *)
Lemma no_new_events h input : Input.ring_of h input → range (len h + 1) (history_last_index input + 1) = [].
Proof. intros [-> _]. unfold range. by rewrite Z.sub_diag. Qed.

(** What a frame handles of the events it finds: those before the first Enter
    pressed without shift, which leaves the loop ([break 'new_inputs]) after its
    command. *)
Fixpoint typed (sh : bool) (evs : list (Key.t * bool)) : list (Key.t * bool) :=
  match evs with
  | [] => []
  | (key, trigger) :: evs =>
      let sh := if Key.eqb key Key.KeyLeftShift then trigger else sh in
      if trigger && Key.eqb key Key.KeyEnter && negb sh then [] else (key, trigger) :: typed sh evs
  end.

Lemma modified_shift `{Fomoscript} key trigger s :
  shift (modified key trigger s) = if Key.eqb key Key.KeyLeftShift then trigger else shift s.
Proof. unfold modified. by repeat case_match. Qed.

(** Enter leaves the loop. *)
Lemma enter_leaves `{Fomoscript} fuel w pid start_time t s s' : enter fuel w pid start_time t s = Ok (Next s') → False.
Proof. by intros E%enter_prompts. Qed.

(** Without a plain Enter, every event edits the line. *)
Lemma process_typed `{Fomoscript} fuel w pid start_time evs s t :
  last_text s t → ∃ s' t', process_events fuel w pid start_time (typed (shift s) evs) s = Ok (Next s') ∧ last_text s' t' ∧
    (typed (shift s) evs = evs ∨
     shift s' = false ∧ ∃ dropped, evs = typed (shift s) evs ++ (Key.KeyEnter, true) :: dropped).
Proof.
  revert s t; induction evs as [|[key trigger] evs IH]; intros s t Hl; [by exists s, t; auto|].
  cbn [typed]. destruct (trigger && Key.eqb key Key.KeyEnter && negb _) eqn:Hpe.
  { exists s, t. split; [done|]. split; [done|]. right.
    rewrite <-modified_shift in Hpe. apply plain_enter in Hpe as (-> & -> & Hs). split; [done|]. by exists evs. }
  rewrite <-modified_shift in Hpe |- *. destruct (process_key_edits fuel w pid start_time key trigger s t Hl Hpe) as (c & _ & E & _).
  set (s1 := if trigger then _ else _) in E.
  assert (∃ t1, last_text s1 t1) as [t1 Hl1].
  { subst s1. destruct trigger.
    - eexists. eapply set_text_last. unfold last_text. rewrite (proj1 (modified_keeps key true s)). exact Hl.
    - exists t. unfold last_text. by rewrite (proj1 (modified_keeps key false s)). }
  assert (shift s1 = shift (modified key trigger s)) as Hs1 by (subst s1; by destruct trigger).
  destruct (IH s1 t1 Hl1) as (s' & t' & E' & Hl' & Hd). rewrite Hs1 in *.
  exists s', t'. cbn [process_events]. rewrite E. cbn [mbind res_bind]. split; [exact E'|]. split; [done|].
  destruct Hd as [->|(Hs & dropped & Hd)]; [by left|]. right. split; [done|]. exists dropped. cbn. by rewrite <-Hd.
Qed.

(** C1: a key pressed on the keyboard reaches the console's line once. Take the
    buffers that the device completed since the driver last ran, and suppose that
    they hold the key events [evs], among any other events, at most 64 of them; and
    a console whose last entry is the user's line. After one iteration of the
    driver, whether the kernel has stepped the keys in between or not, the
    console's next frame does the following. If its window is not active, it
    handles none of [evs]. If it is, it handles the events before the first Enter
    pressed without shift, in the device's order, which never panics. If there is
    no such Enter these are all of [evs]. Otherwise the Enter runs the line that
    they gave, and the events after it in [evs] are not handled. In each case
    the frame after that, with nothing new, handles none of them again: the
    events that an inactive console or an Enter left are lost to the console. *)
Theorem device_keys_reach_console `{Fomoscript} {D} `{VirtioDevice D}
    (s : sys D) (i : Input) last pos ids es h evs fuel w pid start_time (st : Store) t :
  let c := cfg (dev s) in
  let qs := queue_size c in let qd := queue_desc c in let qa := queue_driver c in let qu := queue_device c in
  0 < qs → (qs | 2 ^ 16) → fits 16 qs → input_layout qs qd qa qu (ram s) →
  len ids + len es ≤ qs → fits 16 last → last_of s = Ok last → Input.wf i →
  avail_queue qs qa (ram s) pos ids → used_queue qs qu (ram s) last es →
  Forall (λ e, 0 ≤ used_id e < qs ∧ event_ok (event_of qd (ram s) (used_id e))) es →
  Input.ring_of h i → ((λ e, event_of qd (ram s) (used_id e)) <$> es) ≫= key_event = as_event <$> evs →
  len evs ≤ HISTORY_SIZE → len h + len es + 1 < 2 ^ 64 → last_text st t →
  ∃ s' i', drive_iteration (Datatypes.S (length es)) (s, i) = Ok (true, (s', i')) ∧
    ∀ i2, i2 = i' ∨ i2 = Input.step i' →
      let frame := handle_input fuel w pid start_time i2 (len h) st in
      let line := typed (shift st) evs in
      (active st = false → frame = Ok (Some (st, len h + len evs))) ∧
      (active st = true → ∃ st1 t1,
         process_events fuel w pid start_time line st = Ok (Next st1) ∧ last_text st1 t1 ∧
         (evs = line ∧ frame = Ok (Some (st1, len h + len evs)) ∨
          ∃ dropped, evs = line ++ (Key.KeyEnter, true) :: dropped ∧
            frame = (f ← enter fuel w pid start_time t1 st1;
                     mret (match f with Next st' | Break st' => Some (st', len h + len evs) | _ => None end)))) ∧
      ∀ st', handle_input fuel w pid start_time (Input.step i2) (len h + len evs) st' = Ok (Some (st', len h + len evs)).
Proof.
  intros c qs qd qa qu Hq Hdiv Hqf Hlay Hroom Hlast Hl Hwf Ha Hu Hes Hr Hk Hn Hb Ht.
  destruct (drive_iteration_processes_all s i last pos ids es) as (s' & i' & R & Hf & Hwf' & _); [done..|].
  exists s', i'. split; [exact R|]. pose proof (len_nonneg h). pose proof (len_nonneg evs). pose proof (len_nonneg es).
  assert (Input.ring_of (h ++ (as_event <$> evs)) i') as Hr'.
  { rewrite <-Hk. eapply (apply_events_ring h _ i i'); [done|done| |rewrite len_fmap; lia|by rewrite foldM_fmap].
    apply Forall_fmap. eapply Forall_impl; [exact Hes|]. by intros e []. }
  intros i2 Hi2 frame line. assert (Input.ring_of (h ++ (as_event <$> evs)) i2) as Hr2 by (by destruct Hi2 as [->| ->]).
  assert (frame = _) as Ef by (apply console_reads_new_events; [done..|lia]).
  split; [intros Hina; by rewrite Ef, Hina|]. split.
  - intros Hact. destruct (process_typed fuel w pid start_time evs st t Ht) as (st1 & t1 & E & Hl1 & Hd).
    exists st1, t1. split; [exact E|]. split; [done|]. rewrite Ef, Hact. destruct Hd as [Hd|(Hsh & dropped & Hd)].
    + left. split; [done|]. fold line in Hd, E. rewrite Hd in E. by rewrite E.
    + right. exists dropped. split; [exact Hd|]. rewrite Hd at 1. rewrite (process_events_app _ _ _ _ _ _ _ _ E).
      cbn [process_events]. rewrite (process_key_enter _ _ _ _ _ _ Hl1 Hsh).
      destruct (enter fuel w pid start_time t1 st1) as [[]|] eqn:Een; try done. by apply enter_leaves in Een.
  - intros st'. pose proof (console_reads_new_events fuel w pid start_time (Input.step i2) (h ++ (as_event <$> evs)) [] st') as Hn'.
    rewrite fmap_nil, app_nil_r, len_app, !len_fmap in Hn'. rewrite Hn'.
    + change (len []) with 0. rewrite Z.add_0_r. by destruct (active st').
    + done.
    + by vm_compute.
    + pose proof (len_key_events ((λ e, event_of qd (ram s) (used_id e)) <$> es)) as Hle. rewrite Hk, !len_fmap in Hle.
      unfold len in *. rewrite ?length_app, ?length_fmap in *. lia.
Qed.

(** ** The Q key, on a queue of four buffers *)
#[local] Existing Instances virtio_instance echo_values echo_script.

Definition key_event_ram : mem :=
  store_bytes (ram example_sys) 0x6000 (le_bytes 2 1 ++ le_bytes 2 (Key.as_usize Key.KeyQ) ++ le_bytes 4 1).
Definition key_event_sys : sys VirtioMem := Sys example_virtio (dev example_sys) key_event_ram [].

Lemma device_keys_reach_console_witness :
  ∃ s' i' st', drive_iteration 2 (key_event_sys, Input.new) = Ok (true, (s', i')) ∧
    handle_input 9 800 1 77 (Input.step i') 0 (MkStore (atoms (welcome (new_store []))) true En false false Ctx_new Shell []) =
      Ok (Some (st', 1)) ∧ last_text st' ">q".
Proof.
  destruct (device_keys_reach_console key_event_sys Input.new 65535 0 [] [{| used_id := 2; used_len := 24 |}] []
    [(Key.KeyQ, true)] 9 800 1 77 (MkStore (atoms (welcome (new_store []))) true En false false Ctx_new Shell []) ">"%string)
    as (s' & i' & R & Hi).
  - by vm_compute.
  - exact example_divide.
  - by split; vm_compute.
  - constructor; [left; by vm_compute|left; by vm_compute|left; by vm_compute|].
    intros i Hi. assert (i = 0 ∨ i = 1 ∨ i = 2 ∨ i = 3) as [->|[->|[->| ->]]]
      by (change (queue_size _) with 4 in Hi; lia); (split; right; left; by vm_compute).
  - by vm_compute.
  - by split; vm_compute.
  - by vm_compute.
  - apply input_new_wf.
  - split; [by vm_compute|done].
  - split; [by vm_compute|]. intros [|[|k]] e He; simplify_eq/=. by vm_compute.
  - constructor; [|constructor]. split; [by split; vm_compute|]. intros E. clear E. by split; vm_compute.
  - split; [done|]. intros n Hn Hp. change (len []) with 0 in Hn. lia.
  - by vm_compute.
  - by vm_compute.
  - by vm_compute.
  - exists [{| is_user := false; text := "Welcome to Fomos !" |}]. reflexivity.
  - destruct (Hi (Input.step i') (or_intror eq_refl)) as (_ & Hact & _).
    destruct (Hact eq_refl) as (st1 & t1 & E & _ & [[_ Ef]|(dropped & [=] & _)]).
    injection E as <-. do 3 eexists. split; [exact R|]. split; [exact Ef|].
    exists [{| is_user := false; text := "Welcome to Fomos !" |}]. reflexivity.
Defined.
